(** * Topic-Map-Generator: the validator and the generation orchestrator

    A shallow embedding of [src/models/topic_map.py] (the schema validator)
    and [src/services/ai_service.py] (response cleaning, JSON decoding, the
    repair and continuation paths of [generate_topic_map]), continued with
    the code around them: the CSV export, the research queries and the
    research run, the sidebar, the application, the upload to Google Drive
    and the results views.

    Conventions of the embedding.
    - A Python [str] is a [string], one [ascii] per character (characters
      U+0000 to U+00FF).
    - A value decoded from JSON is a [pyval]; a [dict] keeps its insertion
      order (an association list with distinct keys).
    - A Python exception is a value of [exn]; a function that can raise
      returns [exn + A], and [generate_topic_map] runs in a state and error
      monad whose state is the trace of the API requests issued so far. *)

From Stdlib Require Import String Ascii List ZArith Bool Lia Arith.
From Stdlib Require Import DecimalString.
Import ListNotations.
Open Scope string_scope.
Open Scope Z_scope.

(* ================================================================== *)
(** * Part I: definitions *)
(* ================================================================== *)

(** ** Text *)

Module Text.

(** [str.isspace] on the characters of the model: TAB..CR, FS..US, space,
    NEL (0x85) and NBSP (0xA0).  The regular-expression class [\s] of a
    [str] pattern matches the same characters. *)
Definition isspace (c : ascii) : bool :=
  let n := nat_of_ascii c in
  ((9 <=? n) && (n <=? 13) || (28 <=? n) && (n <=? 32)
   || (n =? 133) || (n =? 160))%nat.

Definition is_empty (s : string) : bool :=
  match s with EmptyString => true | _ => false end.

(** [s.lstrip()] *)
Fixpoint lstrip (s : string) : string :=
  match s with
  | String c s' => if isspace c then lstrip s' else s
  | EmptyString => EmptyString
  end.

(** [s.rstrip()] *)
Fixpoint rstrip (s : string) : string :=
  match s with
  | String c s' =>
      let r := rstrip s' in
      if is_empty r && isspace c then EmptyString else String c r
  | EmptyString => EmptyString
  end.

(** [s.strip()] *)
Definition strip (s : string) : string := lstrip (rstrip s).

(** [s[-1]], [None] standing for the [IndexError] of an empty string. *)
Fixpoint last_char (s : string) : option ascii :=
  match s with
  | EmptyString => None
  | String c EmptyString => Some c
  | String _ s' => last_char s'
  end.

(** [s[:n]] *)
Fixpoint take (n : nat) (s : string) : string :=
  match n, s with
  | S n', String c s' => String c (take n' s')
  | _, _ => EmptyString
  end.

(** [s[n:]] *)
Fixpoint drop (n : nat) (s : string) : string :=
  match n, s with
  | S n', String _ s' => drop n' s'
  | _, _ => s
  end.

(** [s[-n:]] for [n > 0] *)
Definition take_last (n : nat) (s : string) : string :=
  drop (String.length s - n) s.

(** [s.rfind(c)] for a one-character needle, counting from index [i]:
    the largest index holding [c], or [-1]. *)
Fixpoint rfind_from (c : ascii) (s : string) (i : Z) : Z :=
  match s with
  | EmptyString => -1
  | String d s' =>
      let r := rfind_from c s' (i + 1) in
      if 0 <=? r then r else if Ascii.eqb d c then i else -1
  end.

Definition rfind (c : ascii) (s : string) : Z := rfind_from c s 0.

(** [needle in hay] on two [str] *)
Fixpoint contains (needle hay : string) : bool :=
  if String.prefix needle hay then true
  else match hay with
       | EmptyString => false
       | String _ hay' => contains needle hay'
       end.

(** [sep.join(l)] *)
Definition join (sep : string) (l : list string) : string :=
  String.concat sep l.

(** [str(n)] of an [int] *)
Definition of_Z (z : Z) : string := NilZero.string_of_int (Z.to_int z).

Definition of_nat (n : nat) : string := of_Z (Z.of_nat n).

Fixpoint all_space (s : string) : bool :=
  match s with
  | EmptyString => true
  | String c s' => isspace c && all_space s'
  end.

End Text.

(** ** Python values *)

(** A [float] is kept as what the program can observe of it: its printed
    form ([repr]) and, when it is integral, the integer it equals.  No
    float arithmetic is performed by the modelled code. *)
Record pyfloat := { float_repr : string; float_int : option Z }.

#[warnings="-register-all"]
Inductive pyval :=
| PNone
| PBool (b : bool)
| PInt (n : Z)
| PFloat (f : pyfloat)
| PStr (s : string)
| PList (l : list pyval)
| PDict (d : list (string * pyval)).

(** The exceptions that the code can raise.  [JSONDecodeError] carries the
    message and the offset of [json.loads]; [APIError] stands for any
    failure of the API call other than a rate limit.  [OutsideModel] is no
    Python exception: the decoder gives it for a document whose value has no
    [pyval] (a number with a fraction or an exponent, a [\u] escape above
    U+00FF), and the model of a view gives it where the outcome is left to
    Streamlit. *)
Inductive exn :=
| TypeError (msg : string)
| AttributeError (msg : string)
| KeyError (key : string)
| IndexError (msg : string)
| ValueError (msg : string)
| JSONDecodeError (msg : string) (pos : nat)
| RateLimitError
| APIError (msg : string)
| OutsideModel.

Definition result (A : Type) : Type := (exn + A)%type.

Definition Ok {A : Type} (a : A) : result A := inr a.

Definition Raise {A : Type} (e : exn) : result A := inl e.

Definition rbind {A B} (r : result A) (k : A -> result B) : result B :=
  match r with
  | inl e => inl e
  | inr a => k a
  end.

Declare Scope result_scope.
Delimit Scope result_scope with result.
Notation "x <- r ;; k" := (rbind r (fun x => k))
  (at level 61, r at next level, right associativity) : result_scope.

Module Py.

Fixpoint assoc (k : string) (d : list (string * pyval)) : option pyval :=
  match d with
  | [] => None
  | (k', v) :: d' => if String.eqb k k' then Some v else assoc k d'
  end.

(** [d[k] = v] on a dict: an existing key keeps its position. *)
Fixpoint dict_set (k : string) (v : pyval) (d : list (string * pyval))
  : list (string * pyval) :=
  match d with
  | [] => [(k, v)]
  | (k', v') :: d' =>
      if String.eqb k k' then (k, v) :: d' else (k', v') :: dict_set k v d'
  end.

(** The integer an [int] or a [bool] stands for ([bool] is a subclass of
    [int]: [True] is 1 and [False] is 0). *)
Definition as_int (v : pyval) : option Z :=
  match v with
  | PInt n => Some n
  | PBool b => Some (if b then 1 else 0)
  | _ => None
  end.

(** [isinstance(v, int)] *)
Definition isinstance_int (v : pyval) : bool :=
  match v with PInt _ | PBool _ => true | _ => false end.

(** [isinstance(v, list)] *)
Definition isinstance_list (v : pyval) : bool :=
  match v with PList _ => true | _ => false end.

(** The float is the constant NaN.  [json.loads] hands out one and the same
    object for every [NaN] of a document. *)
Definition is_nan (v : pyval) : bool :=
  match v with
  | PFloat f => String.eqb (float_repr f) "nan"
  | _ => false
  end.

(** The integer a float equals, if any. *)
Definition float_value (f : pyfloat) : option Z :=
  if String.eqb (float_repr f) "nan" then None else float_int f.

(** Truth value of [v] in a condition. *)
Definition truthy (v : pyval) : bool :=
  match v with
  | PNone => false
  | PBool b => b
  | PInt n => negb (n =? 0)
  | PFloat f => match float_value f with Some 0 => false | _ => true end
  | PStr s => negb (Text.is_empty s)
  | PList l => match l with [] => false | _ => true end
  | PDict d => match d with [] => false | _ => true end
  end.

(** [f == g] on two floats: NaN equals nothing; a float that is not
    integral is told by its printed form. *)
Definition float_eqb (f g : pyfloat) : bool :=
  negb (String.eqb (float_repr f) "nan")
  && negb (String.eqb (float_repr g) "nan")
  && match float_int f, float_int g with
     | Some x, Some y => x =? y
     | None, None => String.eqb (float_repr f) (float_repr g)
     | _, _ => false
     end.

(** [a == b].  The elements of two lists and the values of two dicts are
    compared as [x is y or x == y]. *)
Fixpoint eqb (a b : pyval) {struct a} : bool :=
  match a, b with
  | PNone, PNone => true
  | PStr s, PStr t => String.eqb s t
  | PFloat f, PFloat g => float_eqb f g
  | PFloat f, (PInt _ | PBool _) =>
      match float_value f, as_int b with
      | Some x, Some y => x =? y
      | _, _ => false
      end
  | (PInt _ | PBool _), PFloat g =>
      match as_int a, float_value g with
      | Some x, Some y => x =? y
      | _, _ => false
      end
  | (PInt _ | PBool _), (PInt _ | PBool _) =>
      match as_int a, as_int b with
      | Some x, Some y => x =? y
      | _, _ => false
      end
  | PList l, PList m =>
      (fix go (l m : list pyval) {struct l} : bool :=
         match l, m with
         | [], [] => true
         | x :: l', y :: m' =>
             (is_nan x && is_nan y || eqb x y) && go l' m'
         | _, _ => false
         end) l m
  | PDict d, PDict e =>
      Nat.eqb (List.length d) (List.length e)
      && (fix go (d : list (string * pyval)) {struct d} : bool :=
            match d with
            | [] => true
            | (k, v) :: d' =>
                match assoc k e with
                | Some w => (is_nan v && is_nan w || eqb v w) && go d'
                | None => false
                end
            end) d
  | _, _ => false
  end.

(** [a is b or a == b], the comparison of a membership test. *)
Definition same (a b : pyval) : bool :=
  is_nan a && is_nan b || eqb a b.

(** Whether [hash(v)] succeeds: lists and dicts are unhashable. *)
Definition hashable (v : pyval) : bool :=
  match v with PList _ | PDict _ => false | _ => true end.

Definition hex_digit (n : nat) : ascii :=
  ascii_of_nat (if (n <? 10)%nat then 48 + n else 87 + n).

(** [str.isprintable] on one character of the model. *)
Definition isprintable (c : ascii) : bool :=
  let n := nat_of_ascii c in
  ((32 <=? n) && (n <=? 126) || (161 <=? n) && negb (n =? 173))%nat.

Fixpoint repr_chars (q : ascii) (s : string) : string :=
  match s with
  | EmptyString => EmptyString
  | String c s' =>
      let n := nat_of_ascii c in
      let rest := repr_chars q s' in
      if Ascii.eqb c "\" then String "\" (String "\" rest)
      else if Ascii.eqb c q then String "\" (String c rest)
      else if (n =? 9)%nat then String "\" (String "t" rest)
      else if (n =? 10)%nat then String "\" (String "n" rest)
      else if (n =? 13)%nat then String "\" (String "r" rest)
      else if isprintable c then String c rest
      else String "\" (String "x"
             (String (hex_digit (n / 16)) (String (hex_digit (n mod 16)) rest)))
  end.

Definition squote : ascii := "'".
Definition dquote : ascii := ascii_of_nat 34.

Fixpoint has_char (c : ascii) (s : string) : bool :=
  match s with
  | EmptyString => false
  | String d s' => Ascii.eqb d c || has_char c s'
  end.

(** [repr(s)] of a [str]: single quotes, unless the text holds a single
    quote and no double quote. *)
Definition repr_str (s : string) : string :=
  let q := if has_char squote s && negb (has_char dquote s)
           then dquote else squote in
  String q (repr_chars q s ++ String q EmptyString).

(** [repr(v)] *)
Fixpoint repr (v : pyval) : string :=
  match v with
  | PNone => "None"
  | PBool true => "True"
  | PBool false => "False"
  | PInt n => Text.of_Z n
  | PFloat f => float_repr f
  | PStr s => repr_str s
  | PList l => "[" ++ Text.join ", " (List.map repr l) ++ "]"
  | PDict d =>
      "{" ++ Text.join ", "
               (List.map (fun kv => repr_str (fst kv) ++ ": " ++ repr (snd kv)) d)
          ++ "}"
  end.

(** [str(v)], as an f-string field prints it. *)
Definition str (v : pyval) : string :=
  match v with
  | PStr s => s
  | _ => repr v
  end.

(** [key in container] *)
Definition contains (key : string) (container : pyval) : result bool :=
  match container with
  | PDict d => Ok (match assoc key d with Some _ => true | None => false end)
  | PStr s => Ok (Text.contains key s)
  | PList l => Ok (existsb (fun x => eqb (PStr key) x) l)
  | _ => Raise (TypeError "argument is not iterable")
  end.

(** [container[key]] with a [str] key *)
Definition getitem (container : pyval) (key : string) : result pyval :=
  match container with
  | PDict d =>
      match assoc key d with
      | Some v => Ok v
      | None => Raise (KeyError key)
      end
  | PStr _ => Raise (TypeError "string indices must be integers")
  | PList _ => Raise (TypeError "list indices must be integers or slices")
  | _ => Raise (TypeError "object is not subscriptable")
  end.

(** [container.get(key, default)] *)
Definition get (container : pyval) (key : string) (default : pyval)
  : result pyval :=
  match container with
  | PDict d =>
      Ok (match assoc key d with Some v => v | None => default end)
  | _ => Raise (AttributeError "object has no attribute 'get'")
  end.

(** [v in s] for a set [s] of [str]: [v] is hashed first. *)
Definition in_str_set (v : pyval) (s : list string) : result bool :=
  if hashable v
  then Ok (existsb (fun x => eqb v (PStr x)) s)
  else Raise (TypeError "unhashable type").

(** [v in s] for a set [s] of values. *)
Definition in_set (v : pyval) (s : list pyval) : result bool :=
  if hashable v
  then Ok (existsb (fun x => same v x) s)
  else Raise (TypeError "unhashable type").

(** [len(v)] of a list, as an f-string prints it, or ['non-list']. *)
Definition len_or_non_list (v : pyval) : string :=
  match v with
  | PList l => Text.of_nat (List.length l)
  | _ => "non-list"
  end.

End Py.

(** ** The schema validator ([src/models/topic_map.py]) *)

Definition VALID_LEVELS : list string := ["Pillar"; "Cluster"; "Spoke"].

Definition VALID_INTENTS : list string :=
  ["Informational"; "Navigational"; "Commercial Investigation";
   "Transactional"].

(** [VALID_LEVELS] and [VALID_INTENTS] are sets of [str]: the order in which
    [str()] prints a set depends on the hash seed of the process, so the two
    printed forms are taken as they come. *)
Record set_display := {
  levels_display : string;
  intents_display : string
}.

(** The printed forms when the sets iterate in the order of the source. *)
Definition source_order : set_display :=
  {| levels_display := "{'Pillar', 'Cluster', 'Spoke'}";
     intents_display :=
       "{'Informational', 'Navigational', 'Commercial Investigation', 'Transactional'}" |}.

Definition required_fields : list string :=
  ["level"; "content_title"; "primary_keyword"; "user_intent";
   "semantic_entities"; "content_type"; "rag_directions"; "paa_questions";
   "citations"; "parent_topic"; "priority_score"; "word_count_range";
   "internal_link_targets"].

Open Scope result_scope.

Definition missing_field_msg (f : string) : string :=
  "Missing required field: " ++ f.

(** The loop [for f in required_fields: if f not in entry: errors.append(..)] *)
Fixpoint missing_fields (fields : list string) (entry : pyval)
  : result (list string) :=
  match fields with
  | [] => Ok []
  | f :: fields' =>
      present <- Py.contains f entry ;;
      rest <- missing_fields fields' entry ;;
      Ok (if present then rest else missing_field_msg f :: rest)
  end.

Definition invalid_level_msg (sd : set_display) (level : pyval) : string :=
  "Invalid level '" ++ Py.str level ++ "'. Must be one of: "
  ++ levels_display sd.

Definition invalid_intent_msg (sd : set_display) (intent : pyval) : string :=
  "Invalid user_intent '" ++ Py.str intent ++ "'. Must be one of: "
  ++ intents_display sd.

Definition invalid_score_msg (score : pyval) : string :=
  "Invalid priority_score '" ++ Py.str score ++ "'. Must be integer 1-5".

Definition entities_msg (entities : pyval) : string :=
  "semantic_entities must have 3-5 items, got " ++ Py.len_or_non_list entities.

Definition paa_msg (paa : pyval) : string :=
  "paa_questions must have at least 2 items, got " ++ Py.len_or_non_list paa.

Definition citations_msg (citations : pyval) : string :=
  "citations must have at least 1 item, got " ++ Py.len_or_non_list citations.

(** [not isinstance(score, int) or score < 1 or score > 5] *)
Definition score_invalid (score : pyval) : bool :=
  match Py.as_int score with
  | None => true
  | Some n => (n <? 1) || (5 <? n)
  end.

(** [not isinstance(v, list) or len(v) < lo or len(v) > hi] *)
Definition len_outside (v : pyval) (lo : nat) (hi : option nat) : bool :=
  match v with
  | PList l =>
      (List.length l <? lo)%nat
      || match hi with
         | Some h => (h <? List.length l)%nat
         | None => false
         end
  | _ => true
  end.

Definition when (b : bool) (msg : string) : list string :=
  if b then [msg] else [].

Definition validate_entry (sd : set_display) (entry : pyval)
  : result (list string) :=
  errors <- missing_fields required_fields entry ;;
  match errors with
  | _ :: _ => Ok errors
  | [] =>
      level <- Py.getitem entry "level" ;;
      level_ok <- Py.in_str_set level VALID_LEVELS ;;
      let e1 := when (negb level_ok) (invalid_level_msg sd level) in
      intent <- Py.getitem entry "user_intent" ;;
      intent_ok <- Py.in_str_set intent VALID_INTENTS ;;
      let e2 := when (negb intent_ok) (invalid_intent_msg sd intent) in
      score <- Py.get entry "priority_score" (PInt 0) ;;
      let e3 := when (score_invalid score) (invalid_score_msg score) in
      entities <- Py.get entry "semantic_entities" (PList []) ;;
      let e4 := when (len_outside entities 3 (Some 5%nat)) (entities_msg entities) in
      paa <- Py.get entry "paa_questions" (PList []) ;;
      let e5 := when (len_outside paa 2 None) (paa_msg paa) in
      citations <- Py.get entry "citations" (PList []) ;;
      let e6 := when (len_outside citations 1 None) (citations_msg citations) in
      Ok (e1 ++ e2 ++ e3 ++ e4 ++ e5 ++ e6)%list
  end.

(** The checks that run on an object with the 13 fields. *)
Definition complete_entry_checks (sd : set_display) (level intent score entities paa citations
  : pyval) : result (list string) :=
  (level_ok <- Py.in_str_set level VALID_LEVELS ;;
   intent_ok <- Py.in_str_set intent VALID_INTENTS ;;
   Ok (when (negb level_ok) (invalid_level_msg sd level)
       ++ when (negb intent_ok) (invalid_intent_msg sd intent)
       ++ when (score_invalid score) (invalid_score_msg score)
       ++ when (len_outside entities 3 (Some 5%nat)) (entities_msg entities)
       ++ when (len_outside paa 2 None) (paa_msg paa)
       ++ when (len_outside citations 1 None) (citations_msg citations))%list
  )%result.

(** [f"Entry {i} ({title}): {err}"] *)
Definition entry_msg (i : nat) (title : pyval) (err : string) : string :=
  "Entry " ++ Text.of_nat i ++ " (" ++ Py.str title ++ "): " ++ err.

(** The inner loop over [entry_errors]: [entry.get] is evaluated once per
    error, so not at all when there is none. *)
Definition prefix_errors (i : nat) (entry : pyval) (entry_errors : list string)
  : result (list string) :=
  match entry_errors with
  | [] => Ok []
  | _ :: _ =>
      title <- Py.get entry "content_title" (PStr "unknown") ;;
      Ok (List.map (entry_msg i title) entry_errors)
  end.

(** The loop [for i, entry in enumerate(entries)], from index [i]. *)
Fixpoint validate_entries (sd : set_display) (i : nat) (entries : list pyval)
  : result (list string) :=
  match entries with
  | [] => Ok []
  | entry :: rest =>
      entry_errors <- validate_entry sd entry ;;
      msgs <- prefix_errors i entry entry_errors ;;
      more <- validate_entries sd (S i) rest ;;
      Ok (msgs ++ more)%list
  end.

(** [[e for e in entries if e["level"] == lvl]] *)
Fixpoint with_level (lvl : string) (entries : list pyval)
  : result (list pyval) :=
  match entries with
  | [] => Ok []
  | e :: rest =>
      l <- Py.getitem e "level" ;;
      more <- with_level lvl rest ;;
      Ok (if Py.eqb l (PStr lvl) then e :: more else more)
  end.

(** [{c["content_title"] for c in clusters}] *)
Fixpoint title_set (clusters : list pyval) : result (list pyval) :=
  match clusters with
  | [] => Ok []
  | c :: rest =>
      t <- Py.getitem c "content_title" ;;
      if Py.hashable t
      then (more <- title_set rest ;; Ok (t :: more))
      else Raise (TypeError "unhashable type")
  end.

Definition cluster_msg (title parent pillar_title : pyval) : string :=
  "Cluster '" ++ Py.str title ++ "' parent_topic '" ++ Py.str parent
  ++ "' does not match Pillar title '" ++ Py.str pillar_title ++ "'".

Definition spoke_msg (title parent : pyval) : string :=
  "Spoke '" ++ Py.str title ++ "' parent_topic '" ++ Py.str parent
  ++ "' does not match any Cluster title".

(** The loop [for cluster in clusters] *)
Fixpoint check_clusters (pillar_title : pyval) (clusters : list pyval)
  : result (list string) :=
  match clusters with
  | [] => Ok []
  | cluster :: rest =>
      parent <- Py.get cluster "parent_topic" (PStr "") ;;
      here <- (if Py.truthy parent && negb (Py.eqb parent pillar_title)
               then (title <- Py.getitem cluster "content_title" ;;
                     Ok [cluster_msg title parent pillar_title])
               else Ok []) ;;
      more <- check_clusters pillar_title rest ;;
      Ok (here ++ more)%list
  end.

(** The loop [for spoke in spokes] *)
Fixpoint check_spokes (cluster_titles : list pyval) (spokes : list pyval)
  : result (list string) :=
  match spokes with
  | [] => Ok []
  | spoke :: rest =>
      parent <- Py.get spoke "parent_topic" (PStr "") ;;
      here <- (if Py.truthy parent
               then (known <- Py.in_set parent cluster_titles ;;
                     if known then Ok []
                     else (title <- Py.getitem spoke "content_title" ;;
                           Ok [spoke_msg title parent]))
               else Ok []) ;;
      more <- check_spokes cluster_titles rest ;;
      Ok (here ++ more)%list
  end.

Definition pillar_count_msg (n : nat) : string :=
  "Expected exactly 1 Pillar, found " ++ Text.of_nat n.

Definition validate_topic_map (sd : set_display) (entries : list pyval)
  : result (list string) :=
  errors <- validate_entries sd 0 entries ;;
  match errors with
  | _ :: _ => Ok errors
  | [] =>
      pillars <- with_level "Pillar" entries ;;
      clusters <- with_level "Cluster" entries ;;
      spokes <- with_level "Spoke" entries ;;
      match pillars with
      | [pillar] =>
          pillar_title <- Py.getitem pillar "content_title" ;;
          cluster_titles <- title_set clusters ;;
          cluster_errors <- check_clusters pillar_title clusters ;;
          spoke_errors <- check_spokes cluster_titles spokes ;;
          Ok (cluster_errors ++ spoke_errors)%list
      | _ => Ok [pillar_count_msg (List.length pillars)]
      end
  end.

(** ** Response cleaning ([_clean_json_response]) *)

Definition fence : string := "```".

(** [re.sub(r"^```(?:json)?\s*\n?", "", text)].  Without [re.MULTILINE] the
    anchor holds at index 0 only, so at most one match is replaced: the
    opening fence, an optional [json], and the run of whitespace after it
    (the greedy [\s*] leaves nothing for [\n?]). *)
Definition sub_open_fence (text : string) : string :=
  if String.prefix fence text
  then
    let t := Text.drop 3 text in
    let t := if String.prefix "json" t then Text.drop 4 t else t in
    Text.lstrip t
  else text.

(** Whether [\n?```\s*$] matches at the start of [s]: an optional newline,
    the fence, then whitespace up to the end of the text. *)
Definition matches_close_fence (s : string) : bool :=
  let t := match s with
           | String "010" s' => if String.prefix fence s' then s' else s
           | _ => s
           end in
  String.prefix fence t && Text.all_space (Text.drop 3 t).

(** [re.sub(r"\n?```\s*$", "", text)]: the leftmost match runs to the end of
    the text, and is removed. *)
Fixpoint sub_close_fence (s : string) : string :=
  if matches_close_fence s then EmptyString
  else match s with
       | EmptyString => EmptyString
       | String c s' => String c (sub_close_fence s')
       end.

Definition is_closer (c : ascii) : bool :=
  Ascii.eqb c "]" || Ascii.eqb c "}".

(** [re.sub(r",\s*([\]}])", r"\1", text)], scanning left to right.
    [pending] holds a comma and the whitespace read after it, until the
    next character decides: a closer replaces them, anything else lets them
    through (and a comma starts a new candidate). *)
Fixpoint sub_trailing_commas (pending : option string) (s : string) : string :=
  match s with
  | EmptyString =>
      match pending with Some buf => buf | None => EmptyString end
  | String c s' =>
      match pending with
      | Some buf =>
          if Text.isspace c
          then sub_trailing_commas (Some (buf ++ String c EmptyString)) s'
          else if is_closer c
          then String c (sub_trailing_commas None s')
          else if Ascii.eqb c ","
          then buf ++ sub_trailing_commas (Some ",") s'
          else buf ++ String c (sub_trailing_commas None s')
      | None =>
          if Ascii.eqb c ","
          then sub_trailing_commas (Some ",") s'
          else String c (sub_trailing_commas None s')
      end
  end.

Definition _clean_json_response (text : string) : string :=
  let text := Text.strip text in
  let text := sub_open_fence text in
  let text := sub_close_fence text in
  let text := Text.strip text in
  sub_trailing_commas None text.

(** ** [json.loads]

    The decoder of the Python standard library, as a pushdown automaton that
    reads the document one character at a time.  It accepts what
    [json.loads] accepts (strict mode, with the literals [NaN], [Infinity]
    and [-Infinity]) and builds the same value; a rejected document is
    reported with the message and the offset at which the automaton stops.
    Two things leave the model, and are reported as [OutsideModel]: a
    number with a fraction or an exponent (its conversion to a [float]),
    and an escape [\uXXXX] above [ÿ]. *)

Module Json.

Inductive frame :=
| FArr (elems : list pyval)
| FObj (pairs : list (string * pyval))
| FKey (pairs : list (string * pyval)) (key : string).

Inductive mode :=
| MValue
| MArrStart
| MObjStart
| MObjKey
| MColon
| MAfter
| MDone (v : pyval)
| MStr (is_key : bool) (start : nat) (acc : string)
| MEsc (is_key : bool) (start : nat) (acc : string)
| MUni (is_key : bool) (start : nat) (acc : string) (digits : list nat)
| MWord (start : nat) (w : string).

Definition state : Type := list frame * mode.

Definition error (msg : string) (pos : nat) : result state :=
  Raise (JSONDecodeError msg pos).

(** The whitespace of JSON: space, TAB, LF, CR. *)
Definition is_ws (c : ascii) : bool :=
  Ascii.eqb c " " || Ascii.eqb c "009" || Ascii.eqb c "010" || Ascii.eqb c "013".

Definition is_digit (c : ascii) : bool :=
  let n := nat_of_ascii c in ((48 <=? n) && (n <=? 57))%nat.

Definition digit_val (c : ascii) : Z := Z.of_nat (nat_of_ascii c) - 48.

Definition hex_val (c : ascii) : option nat :=
  let n := nat_of_ascii c in
  if ((48 <=? n) && (n <=? 57))%nat then Some (n - 48)%nat
  else if ((65 <=? n) && (n <=? 70))%nat then Some (n - 55)%nat
  else if ((97 <=? n) && (n <=? 102))%nat then Some (n - 87)%nat
  else None.

(** A character that ends a number or a literal. *)
Definition is_terminator (c : ascii) : bool :=
  is_ws c || Ascii.eqb c "," || Ascii.eqb c "]" || Ascii.eqb c "}"
  || Ascii.eqb c ":" || Ascii.eqb c Py.dquote || Ascii.eqb c "{"
  || Ascii.eqb c "[".

Fixpoint digits_value (acc : Z) (s : string) : Z :=
  match s with
  | EmptyString => acc
  | String c s' => digits_value (10 * acc + digit_val c) s'
  end.

(** The digits at the head of [s], and what follows them. *)
Fixpoint span_digits (s : string) : string * string :=
  match s with
  | String c s' =>
      if is_digit c
      then let (d, r) := span_digits s' in (String c d, r)
      else (EmptyString, s)
  | EmptyString => (EmptyString, EmptyString)
  end.

(** The length of the fraction at the head of [s]: a dot and at least one
    digit. *)
Definition fraction_length (s : string) : nat :=
  match s with
  | String "." s' =>
      let (d, _) := span_digits s' in
      if Text.is_empty d then 0%nat else S (String.length d)
  | _ => 0%nat
  end.

(** The length of the exponent at the head of [s]: [e] or [E], an optional
    sign and at least one digit. *)
Definition exponent_length (s : string) : nat :=
  match s with
  | String e r =>
      if Ascii.eqb e "e" || Ascii.eqb e "E"
      then
        let (sign, r') :=
          match r with
          | String sg r' =>
              if Ascii.eqb sg "+" || Ascii.eqb sg "-"
              then (1%nat, r') else (0%nat, r)
          | EmptyString => (0%nat, r)
          end in
        let (d, _) := span_digits r' in
        if Text.is_empty d then 0%nat
        else (1 + sign + String.length d)%nat
      else 0%nat
  | EmptyString => 0%nat
  end.

(** The number at the head of [w], as the scanner matches it: an optional
    minus sign, then [0] or a run of digits that does not start with [0],
    then an optional fraction and an optional exponent.  The result is its
    value and its length; without fraction and exponent it is an [int]. *)
Definition number_prefix (w : string) : option (result pyval * nat) :=
  let (sign, body) := match w with
                      | String "-" w' => (1%nat, w')
                      | _ => (0%nat, w)
                      end in
  let (digits, _) := span_digits body in
  match digits with
  | EmptyString => None
  | String d _ =>
      let int_part := if Ascii.eqb d "0" then "0" else digits in
      let after_int := Text.drop (String.length int_part) body in
      let frac := fraction_length after_int in
      let exp := exponent_length (Text.drop frac after_int) in
      let len := (sign + String.length int_part + frac + exp)%nat in
      if ((frac =? 0) && (exp =? 0))%nat
      then Some (Ok (PInt (if (sign =? 0)%nat then digits_value 0 int_part
                           else - digits_value 0 int_part)), len)
      else Some (Raise OutsideModel, len)
  end.

(** The literal or the number at the head of [w], in the order in which the
    scanner tries them, with its length. *)
Definition token_prefix (w : string) : option (result pyval * nat) :=
  if String.prefix "null" w then Some (Ok PNone, 4%nat)
  else if String.prefix "true" w then Some (Ok (PBool true), 4%nat)
  else if String.prefix "false" w then Some (Ok (PBool false), 5%nat)
  else
    match number_prefix w with
    | Some r => Some r
    | None =>
        if String.prefix "NaN" w
        then Some (Ok (PFloat {| float_repr := "nan"; float_int := None |}),
                   3%nat)
        else if String.prefix "Infinity" w
        then Some (Ok (PFloat {| float_repr := "inf"; float_int := None |}),
                   8%nat)
        else if String.prefix "-Infinity" w
        then Some (Ok (PFloat {| float_repr := "-inf"; float_int := None |}),
                   9%nat)
        else None
    end.

(** The value of the word [w] that starts at offset [start].  When only a
    prefix of it is a literal or a number, the character after that prefix
    is where a delimiter is missing ([top]: the word is the document
    itself, and the rest is extra data). *)
Definition word_value (top : bool) (start : nat) (w : string)
  : result pyval :=
  match token_prefix w with
  | None => Raise (JSONDecodeError "Expecting value" start)
  | Some (v, n) =>
      if (n =? String.length w)%nat then v
      else Raise (JSONDecodeError
                    (if top then "Extra data" else "Expecting ',' delimiter")
                    (start + n))
  end.

Definition is_top (stack : list frame) : bool :=
  match stack with [] => true | _ => false end.

(** A value is complete: it becomes the document, an element of the array
    being read, or the value of the pending key. *)
Definition complete (stack : list frame) (v : pyval) (pos : nat)
  : result state :=
  match stack with
  | [] => Ok ([], MDone v)
  | FArr elems :: rest => Ok (FArr (elems ++ [v]) :: rest, MAfter)
  | FKey pairs k :: rest => Ok (FObj (Py.dict_set k v pairs) :: rest, MAfter)
  | FObj _ :: _ => error "Expecting property name enclosed in double quotes" pos
  end.

(** A string is complete: a key of the object being read, or a value. *)
Definition complete_string (stack : list frame) (is_key : bool) (s : string)
  (pos : nat) : result state :=
  if is_key
  then match stack with
       | FObj pairs :: rest => Ok (FKey pairs s :: rest, MColon)
       | _ => error "Expecting value" pos
       end
  else complete stack (PStr s) pos.

Definition snoc (s : string) (c : ascii) : string :=
  s ++ String c EmptyString.

(** A value starts at [c]. *)
Definition start_value (stack : list frame) (c : ascii) (pos : nat)
  : result state :=
  if Ascii.eqb c Py.dquote then Ok (stack, MStr false pos EmptyString)
  else if Ascii.eqb c "{" then Ok (FObj [] :: stack, MObjStart)
  else if Ascii.eqb c "[" then Ok (FArr [] :: stack, MArrStart)
  else if is_terminator c then error "Expecting value" pos
  else Ok (stack, MWord pos (String c EmptyString)).

(** One character, outside strings and words. *)
Definition step_plain (stack : list frame) (m : mode) (c : ascii) (pos : nat)
  : result state :=
  match m with
  | MValue =>
      if is_ws c then Ok (stack, MValue) else start_value stack c pos
  | MArrStart =>
      if is_ws c then Ok (stack, MArrStart)
      else if Ascii.eqb c "]"
      then match stack with
           | FArr elems :: rest => complete rest (PList elems) pos
           | _ => error "Expecting value" pos
           end
      else start_value stack c pos
  | MObjStart =>
      if is_ws c then Ok (stack, MObjStart)
      else if Ascii.eqb c Py.dquote
      then Ok (stack, MStr true pos EmptyString)
      else if Ascii.eqb c "}"
      then match stack with
           | FObj pairs :: rest => complete rest (PDict pairs) pos
           | _ => error "Expecting value" pos
           end
      else error "Expecting property name enclosed in double quotes" pos
  | MObjKey =>
      if is_ws c then Ok (stack, MObjKey)
      else if Ascii.eqb c Py.dquote
      then Ok (stack, MStr true pos EmptyString)
      else error "Expecting property name enclosed in double quotes" pos
  | MColon =>
      if is_ws c then Ok (stack, MColon)
      else if Ascii.eqb c ":" then Ok (stack, MValue)
      else error "Expecting ':' delimiter" pos
  | MAfter =>
      if is_ws c then Ok (stack, MAfter)
      else match stack with
           | FArr elems :: rest =>
               if Ascii.eqb c "," then Ok (stack, MValue)
               else if Ascii.eqb c "]" then complete rest (PList elems) pos
               else error "Expecting ',' delimiter" pos
           | FObj pairs :: rest =>
               if Ascii.eqb c "," then Ok (stack, MObjKey)
               else if Ascii.eqb c "}" then complete rest (PDict pairs) pos
               else error "Expecting ',' delimiter" pos
           | _ => error "Expecting ',' delimiter" pos
           end
  | MDone v =>
      if is_ws c then Ok (stack, MDone v) else error "Extra data" pos
  | _ => error "Expecting value" pos
  end.

(** The character an escape [\c] stands for. *)
Definition escape_char (c : ascii) : option ascii :=
  if Ascii.eqb c Py.dquote then Some c
  else if Ascii.eqb c "\" then Some c
  else if Ascii.eqb c "/" then Some c
  else if Ascii.eqb c "b" then Some "008"%char
  else if Ascii.eqb c "f" then Some "012"%char
  else if Ascii.eqb c "n" then Some "010"%char
  else if Ascii.eqb c "r" then Some "013"%char
  else if Ascii.eqb c "t" then Some "009"%char
  else None.

(** One character of the document, read at offset [pos]. *)
Definition step (st : state) (c : ascii) (pos : nat) : result state :=
  let (stack, m) := st in
  match m with
  | MStr k start acc =>
      if Ascii.eqb c Py.dquote then complete_string stack k acc pos
      else if Ascii.eqb c "\" then Ok (stack, MEsc k start acc)
      else if (nat_of_ascii c <? 32)%nat
      then error "Invalid control character at" pos
      else Ok (stack, MStr k start (snoc acc c))
  | MEsc k start acc =>
      if Ascii.eqb c "u" then Ok (stack, MUni k start acc [])
      else match escape_char c with
           | Some d => Ok (stack, MStr k start (snoc acc d))
           | None => error "Invalid \escape" (pos - 1)
           end
  | MUni k start acc digits =>
      match hex_val c with
      | None => error "Invalid \uXXXX escape" (pos - 1 - List.length digits)
      | Some h =>
          match digits with
          | [a; b; d] =>
              let code := (((a * 16 + b) * 16 + d) * 16 + h)%nat in
              if (code <? 256)%nat
              then Ok (stack, MStr k start (snoc acc (ascii_of_nat code)))
              else Raise OutsideModel
          | _ => Ok (stack, MUni k start acc (digits ++ [h]))
          end
      end
  | MWord start w =>
      if is_terminator c
      then (v <- word_value (is_top stack) start w ;;
            st' <- complete stack v pos ;;
            step_plain (fst st') (snd st') c pos)
      else Ok (stack, MWord start (snoc w c))
  | _ => step_plain stack m c pos
  end.

(** The automaton over the text [s], the first character at offset [pos]. *)
Fixpoint run (st : state) (s : string) (pos : nat) : result state :=
  match s with
  | EmptyString => Ok st
  | String c s' => (st' <- step st c pos ;; run st' s' (S pos))
  end.

(** The end of the document, at offset [pos]. *)
Definition finish (st : state) (pos : nat) : result pyval :=
  let (stack, m) := st in
  match m with
  | MDone v => Ok v
  | MWord start w =>
      v <- word_value (is_top stack) start w ;;
      st' <- complete stack v pos ;;
      match snd st' with
      | MDone v' => Ok v'
      | _ => Raise (JSONDecodeError "Expecting ',' delimiter" pos)
      end
  | MValue | MArrStart => Raise (JSONDecodeError "Expecting value" pos)
  | MObjStart | MObjKey =>
      Raise (JSONDecodeError
               "Expecting property name enclosed in double quotes" pos)
  | MColon => Raise (JSONDecodeError "Expecting ':' delimiter" pos)
  | MAfter => Raise (JSONDecodeError "Expecting ',' delimiter" pos)
  | MStr _ start _ | MEsc _ start _ =>
      Raise (JSONDecodeError "Unterminated string starting at" start)
  | MUni _ _ _ digits =>
      Raise (JSONDecodeError "Invalid \uXXXX escape"
               (pos - 1 - List.length digits))
  end.

(** The automaton is inside a string. *)
Definition string_mode (m : mode) : bool :=
  match m with
  | MStr _ _ _ | MEsc _ _ _ | MUni _ _ _ _ => true
  | _ => false
  end.

(** The automaton is between two values: after a value in a container, or after the
    document. *)
Definition between (m : mode) : bool :=
  match m with
  | MAfter | MDone _ => true
  | _ => false
  end.

(** No double quote in the text. *)
Fixpoint no_quote (s : string) : bool :=
  match s with
  | EmptyString => true
  | String c s' => negb (Ascii.eqb c Py.dquote) && no_quote s'
  end.

(** The array whose first element is awaited is still empty. *)
Definition well_formed (st : state) : bool :=
  match snd st with
  | MArrStart => match fst st with FArr [] :: _ => true | _ => false end
  | _ => true
  end.

Definition initial : state := ([], MValue).

Definition decode (doc : string) : result pyval :=
  st <- run initial doc 0 ;;
  finish st (String.length doc).

(** Line and column of offset [pos] in [doc], as [JSONDecodeError] counts
    them. *)
Fixpoint line_col (doc : string) (pos : nat) (line col : nat) : nat * nat :=
  match pos, doc with
  | S pos', String c doc' =>
      if Ascii.eqb c "010" then line_col doc' pos' (S line) 1%nat
      else line_col doc' pos' line (S col)
  | _, _ => (line, col)
  end.

(** [str(e)] of a [JSONDecodeError] raised on [doc]. *)
Definition error_str (doc msg : string) (pos : nat) : string :=
  let (line, col) := line_col doc pos 1%nat 1%nat in
  msg ++ ": line " ++ Text.of_nat line ++ " column " ++ Text.of_nat col
  ++ " (char " ++ Text.of_nat pos ++ ")".

End Json.

(** The outcome of [json.loads(doc)]: the value, or [str(e)] of the
    [JSONDecodeError]; anything else is raised. *)
Definition json_loads (doc : string) : result (string + pyval) :=
  match Json.decode doc with
  | inr v => Ok (inr v)
  | inl (JSONDecodeError msg pos) => Ok (inl (Json.error_str doc msg pos))
  | inl e => Raise e
  end.

(** [_parse_json]: [None] when the cleaned text is not JSON, or not a list. *)
Definition _parse_json (text : string) : result (option (list pyval)) :=
  let cleaned := _clean_json_response text in
  data <- json_loads cleaned ;;
  match data with
  | inr (PList l) => Ok (Some l)
  | inr _ => Ok None
  | inl _ => Ok None
  end.

(** ** The API and the generation orchestrator ([src/services/ai_service.py]) *)

Definition nl : string := String "010" EmptyString.

(** [CLAUDE_MODEL], [CLAUDE_MAX_TOKENS] and [SCOPE_FOCUSED] of
    [config/settings.py]. *)
Definition CLAUDE_MODEL : string := "claude-sonnet-4-20250514".
Definition CLAUDE_MAX_TOKENS : Z := 16000.
Definition SCOPE_FOCUSED : string := "Focused (15-25 topics)".

(** [JSON_FIX_PROMPT.format(error=.., output=..)] *)
Definition JSON_FIX_PROMPT (error output : string) : string :=
  "The following JSON was returned but failed to parse. Please fix it so it is valid JSON. Return ONLY the corrected JSON array with no markdown fences or commentary."
  ++ nl ++ nl ++ "Error: " ++ error ++ nl ++ nl ++ "Original output:" ++ nl
  ++ output.

(** [CONTINUATION_PROMPT.format(last_chunk=..)] *)
Definition CONTINUATION_PROMPT (last_chunk : string) : string :=
  "The previous response was truncated. Continue the JSON array from exactly where it left off. Do NOT repeat any entries already generated. Output ONLY the continuation of the JSON array, starting from the next entry and ending with the closing bracket ]."
  ++ nl ++ nl ++ "Previous output ended with:" ++ nl ++ last_chunk.

(** The keyword arguments of [TOPIC_MAP_USER_PROMPT.format]. *)
Record user_prompt_fields := {
  f_topic : string;
  f_scope : string;
  f_industry : string;
  f_audience : string;
  f_geo_focus : string;
  f_competitors : string;
  f_existing_content : string;
  f_compiled_research : string;
  f_topic_count_guidance : string
}.

(** One request [client.messages.create(..)].  The temperature is the
    constant [CLAUDE_TEMPERATURE] and is not part of the record. *)
Record api_request := {
  req_model : string;
  req_max_tokens : Z;
  req_system : string;
  req_user : string
}.

Inductive api_outcome :=
| ApiText (text : string)
| ApiRateLimited
| ApiFailed (msg : string).

Inductive event :=
| Request (r : api_request)
| Sleep (seconds : Z).

Definition trace := list event.

(** What [generate_topic_map] reads from its surroundings: the key and the
    two long prompt templates (instruction prose, carried verbatim), the API,
    which answers a request knowing everything that happened before it, and
    the printed forms of the two sets. *)
Record environment := {
  ANTHROPIC_API_KEY : string;
  TOPIC_MAP_SYSTEM_PROMPT : string;
  TOPIC_MAP_USER_PROMPT : user_prompt_fields -> string;
  api : trace -> api_request -> api_outcome;
  display : set_display
}.

(** State (the trace so far) and exceptions. *)
Definition M (A : Type) : Type := trace -> result A * trace.

Definition ret {A} (a : A) : M A := fun t => (Ok a, t).

Definition raise {A} (e : exn) : M A := fun t => (Raise e, t).

Definition bind {A B} (m : M A) (k : A -> M B) : M B :=
  fun t => match m t with
           | (inr a, t') => k a t'
           | (inl e, t') => (inl e, t')
           end.

Definition lift {A} (r : result A) : M A := fun t => (r, t).

Definition emit (e : event) : M unit := fun t => (Ok tt, (t ++ [e])%list).

Declare Scope monad_scope.
Delimit Scope monad_scope with monad.
Notation "x <- m ;; k" := (bind m (fun x => k))
  (at level 61, m at next level, right associativity) : monad_scope.
Notation "m ;;; k" := (bind m (fun _ => k))
  (at level 61, right associativity) : monad_scope.

Open Scope monad_scope.

(** The loop [for attempt in range(3)] of [_call_claude], from [attempt],
    with [remaining] iterations to go. *)
Fixpoint call_attempts (env : environment) (req : api_request)
  (remaining : nat) (attempt : Z) : M string :=
  match remaining with
  | O => ret EmptyString
  | S remaining' =>
      fun t =>
        match api env t req with
        | ApiText text => (Ok text, (t ++ [Request req])%list)
        | ApiFailed msg => (Raise (APIError msg), (t ++ [Request req])%list)
        | ApiRateLimited =>
            if attempt <? 2
            then (emit (Sleep (2 ^ (attempt + 1))) ;;;
                  call_attempts env req remaining' (attempt + 1))
                   (t ++ [Request req])%list
            else (Raise RateLimitError, (t ++ [Request req])%list)
        end
  end.

Definition _call_claude (env : environment) (system user_message : string)
  : M string :=
  call_attempts env
    {| req_model := CLAUDE_MODEL; req_max_tokens := CLAUDE_MAX_TOKENS;
       req_system := system; req_user := user_message |}
    3 0.

(** [x or default] on a [str] *)
Definition or_default (x default : string) : string :=
  if Text.is_empty x then default else x.

(** A message is critical when it holds one of the two notices. *)
Definition is_critical (e : string) : bool :=
  Text.contains "Missing required field" e
  || Text.contains "Expected exactly 1 Pillar" e.

Definition parse_failure_msg : string :=
  "Failed to parse Claude's response as valid JSON after retry. Please try generating again.".

Definition validation_failure_msg (critical_errors : list string) : string :=
  "Topic map validation failed:" ++ nl
  ++ Text.join nl (List.firstn 10 critical_errors).

(** The [try] block that salvages the truncated original: the entries to
    go on with. *)
Definition salvage (raw_response : string)
  (entries continuation_entries : list pyval) : result (list pyval) :=
  let truncated := _clean_json_response raw_response in
  let last_brace := Text.rfind "}" truncated in
  if 0 <? last_brace
  then
    let fixed := Text.take (Z.to_nat (last_brace + 1)) truncated ++ "]" in
    (base <- json_loads fixed ;;
     match base with
     | inr (PList base_entries) =>
         Ok (base_entries ++ continuation_entries)%list
     | inr _ => Ok entries
     | inl _ =>
         if (10 <? List.length continuation_entries)%nat
         then Ok continuation_entries
         else Ok entries
     end)%result
  else Ok entries.

(** The block [if raw_response.rstrip()[-1] != "]": ..] *)
Definition continue_truncated (env : environment) (raw_response : string)
  (entries : list pyval) : M (list pyval) :=
  match Text.last_char (Text.rstrip raw_response) with
  | None => raise (IndexError "string index out of range")
  | Some c =>
      if Ascii.eqb c "]" then ret entries
      else
        let last_chunk := Text.take_last 500 raw_response in
        let continuation_prompt := CONTINUATION_PROMPT last_chunk in
        continuation <-
          _call_claude env (TOPIC_MAP_SYSTEM_PROMPT env) continuation_prompt ;;
        continuation_entries <- lift (_parse_json continuation) ;;
        match continuation_entries with
        | Some ((_ :: _) as continuation_entries) =>
            lift (salvage raw_response entries continuation_entries)
        | _ => ret entries
        end
  end.

(** The block [if entries is None: try: .. except json.JSONDecodeError] *)
Definition repair (env : environment) (raw_response : string)
  (entries : option (list pyval)) : M (option (list pyval)) :=
  match entries with
  | Some _ => ret entries
  | None =>
      let cleaned := _clean_json_response raw_response in
      decoded <- lift (json_loads cleaned) ;;
      match decoded with
      | inl e =>
          let fix_prompt := JSON_FIX_PROMPT e (Text.take (Z.to_nat 8000) raw_response) in
          fix_response <-
            _call_claude env (TOPIC_MAP_SYSTEM_PROMPT env) fix_prompt ;;
          lift (_parse_json fix_response)
      | inr _ => ret None
      end
  end.

(** The end of [generate_topic_map]: validation, and the result. *)
Definition validate_and_return (env : environment) (entries : list pyval)
  : M (list pyval) :=
  match entries with
  | [] => raise (ValueError "No topic map entries were generated.")
  | _ :: _ =>
      errors <- lift (validate_topic_map (display env) entries) ;;
      match List.filter is_critical errors with
      | [] => ret entries
      | (_ :: _) as critical_errors =>
          raise (ValueError (validation_failure_msg critical_errors))
      end
  end.

(** The rendered [TOPIC_MAP_USER_PROMPT]. *)
Definition user_prompt (env : environment)
  (topic scope industry audience geo_focus competitors existing_content
     compiled_research : string) : string :=
  let topic_count_guidance :=
    if String.eqb scope SCOPE_FOCUSED then "15-25" else "40-75" in
  TOPIC_MAP_USER_PROMPT env
    {| f_topic := topic;
       f_scope := scope;
       f_industry := or_default industry "Not specified";
       f_audience := or_default audience "Not specified";
       f_geo_focus := or_default geo_focus "Not specified";
       f_competitors := or_default competitors "None provided";
       f_existing_content := or_default existing_content "None provided";
       f_compiled_research := compiled_research;
       f_topic_count_guidance := topic_count_guidance |}.

Definition generate_topic_map (env : environment)
  (topic scope industry audience geo_focus competitors existing_content
     compiled_research : string) : M (list pyval) :=
  if Text.is_empty (ANTHROPIC_API_KEY env)
  then raise (ValueError "ANTHROPIC_API_KEY is not configured.")
  else
    let user_prompt :=
      user_prompt env topic scope industry audience geo_focus competitors
        existing_content compiled_research in
    raw_response <- _call_claude env (TOPIC_MAP_SYSTEM_PROMPT env) user_prompt ;;
    entries <- lift (_parse_json raw_response) ;;
    entries <- repair env raw_response entries ;;
    match entries with
    | None => raise (ValueError parse_failure_msg)
    | Some entries =>
        entries <- continue_truncated env raw_response entries ;;
        validate_and_return env entries
    end.

(** [generate_topic_map] up to the validation: the entry list that the
    calls yield. *)
Definition obtain_entries (env : environment)
  (topic scope industry audience geo_focus competitors existing_content
     compiled_research : string) : M (list pyval) :=
  if Text.is_empty (ANTHROPIC_API_KEY env)
  then raise (ValueError "ANTHROPIC_API_KEY is not configured.")
  else
    let user_prompt :=
      user_prompt env topic scope industry audience geo_focus competitors
        existing_content compiled_research in
    raw_response <- _call_claude env (TOPIC_MAP_SYSTEM_PROMPT env) user_prompt ;;
    entries <- lift (_parse_json raw_response) ;;
    entries <- repair env raw_response entries ;;
    match entries with
    | None => raise (ValueError parse_failure_msg)
    | Some entries => continue_truncated env raw_response entries
    end.

Close Scope monad_scope.

(** ** The vocabulary of the specification

    What the properties of the validator are stated with: the fields of an
    entry, the per-entry conditions and the parent linkage, written from the
    words of the specification. *)

(** The value of a field of an entry, when the entry is an object that has
    it. *)
Definition field (name : string) (e : pyval) : option pyval :=
  match e with
  | PDict d => Py.assoc name d
  | _ => None
  end.

Definition has_field (e : pyval) (name : string) : bool :=
  match field name e with Some _ => true | None => false end.

(** All 13 required fields are present. *)
Definition has_fields (e : pyval) : bool :=
  forallb (has_field e) required_fields.

(** The entry's level is [lvl]. *)
Definition has_level (lvl : string) (e : pyval) : bool :=
  match field "level" e with
  | Some l => Py.eqb l (PStr lvl)
  | None => false
  end.

Definition text_in (l : list string) (v : option pyval) : bool :=
  match v with
  | Some (PStr s) => existsb (String.eqb s) l
  | _ => false
  end.

Definition int_between (lo hi : Z) (v : option pyval) : bool :=
  match v with
  | Some (PInt n) => (lo <=? n) && (n <=? hi)
  | _ => false
  end.

Definition list_of_length (lo : nat) (hi : option nat) (v : option pyval)
  : bool :=
  match v with
  | Some (PList l) =>
      (lo <=? List.length l)%nat
      && match hi with
         | Some h => (List.length l <=? h)%nat
         | None => true
         end
  | _ => false
  end.

(** The entry passes all per-entry checks: the 13 fields, a valid level and
    user_intent, priority_score an integer in [1,5], 3 to 5
    semantic_entities, at least 2 paa_questions, at least 1 citation. *)
Definition passes_entry_checks (e : pyval) : bool :=
  has_fields e
  && text_in VALID_LEVELS (field "level" e)
  && text_in VALID_INTENTS (field "user_intent" e)
  && int_between 1 5 (field "priority_score" e)
  && list_of_length 3 (Some 5%nat) (field "semantic_entities" e)
  && list_of_length 2 None (field "paa_questions" e)
  && list_of_length 1 None (field "citations" e).

(** Some entry of level [lvl] has a content_title equal to [parent]. *)
Definition titled (lvl : string) (entries : list pyval) (parent : pyval)
  : bool :=
  existsb (fun p => has_level lvl p
                    && match field "content_title" p with
                       | Some t => Py.eqb parent t
                       | None => false
                       end) entries.

(** Every entry of level [child] with a non-empty parent_topic names the
    content_title of an entry of level [parent_level]. *)
Definition parents_match (child parent_level : string) (entries : list pyval)
  : bool :=
  forallb (fun c => implb (has_level child c)
                      match field "parent_topic" c with
                      | Some parent =>
                          implb (Py.truthy parent)
                            (titled parent_level entries parent)
                      | None => true
                      end) entries.

(** The content_title of every Cluster can be hashed (it is no array and no
    object). *)
Definition cluster_titles_hashable (entries : list pyval) : bool :=
  forallb (fun c => implb (has_level "Cluster" c)
                      match field "content_title" c with
                      | Some t => Py.hashable t
                      | None => true
                      end) entries.

(** The entry is an object and, when it has the 13 fields, its level and
    its user_intent can be hashed. *)
Definition checkable (e : pyval) : bool :=
  match e with
  | PDict _ =>
      implb (has_fields e)
        (match field "level" e with
         | Some l => Py.hashable l
         | None => false
         end
         && match field "user_intent" e with
            | Some i => Py.hashable i
            | None => false
            end)
  | _ => false
  end.

(** The messages about the priority_score. *)
Definition is_score_msg (m : string) : bool :=
  String.prefix "Invalid priority_score" m.

(** The number of entries of level [lvl]. *)
Definition count_level (lvl : string) (entries : list pyval) : nat :=
  List.length (List.filter (has_level lvl) entries).

(** The title printed in front of the messages of an entry. *)
Definition title_or_unknown (e : pyval) : pyval :=
  match field "content_title" e with
  | Some t => t
  | None => PStr "unknown"
  end.

(** The last element of the list is an object. *)
Definition ends_with_object (l : list pyval) : bool :=
  match List.last l PNone with
  | PDict _ => true
  | _ => false
  end.

(** JSON whitespace only. *)
Fixpoint all_json_ws (s : string) : bool :=
  match s with
  | EmptyString => true
  | String c s' => Json.is_ws c && all_json_ws s'
  end.

(** ** The fenced example of the specification *)

Definition dq : string := String Py.dquote EmptyString.

(** The array [[{"a":1},]] between a [```json] fence and a closing fence. *)
Definition fenced_example : string :=
  fence ++ "json" ++ nl ++ "[{" ++ dq ++ "a" ++ dq ++ ":1},]" ++ nl ++ fence.

(** The text [[{"a":1}]]. *)
Definition cleaned_example : string :=
  "[{" ++ dq ++ "a" ++ dq ++ ":1}]".

(** [body] between a [```json] fence and a closing fence, each on a line of
    its own. *)
Definition fenced (body : string) : string :=
  fence ++ "json" ++ nl ++ body ++ nl ++ fence.

(** ** Sample data *)

(** An entry with the 13 fields; the level, the title, the parent and the
    score are given, the other fields are valid. *)
Definition sample_entry (level title parent score : pyval) : pyval :=
  PDict [("level", level); ("content_title", title);
         ("primary_keyword", PStr "content marketing");
         ("user_intent", PStr "Informational");
         ("semantic_entities", PList [PStr "SEO"; PStr "blog"; PStr "funnel"]);
         ("content_type", PStr "Explainer");
         ("rag_directions", PStr "Lead with the answer.");
         ("paa_questions", PList [PStr "What is it?"; PStr "Why does it matter?"]);
         ("citations", PList [PStr "Survey data"]);
         ("parent_topic", parent); ("priority_score", score);
         ("word_count_range", PStr "1000-2000");
         ("internal_link_targets", PList [])].

Definition sample_pillar : pyval :=
  sample_entry (PStr "Pillar") (PStr "Content Marketing") (PStr "") (PInt 5).

Definition sample_cluster : pyval :=
  sample_entry (PStr "Cluster") (PStr "Strategy") (PStr "Content Marketing")
    (PInt 1).

Definition sample_spoke : pyval :=
  sample_entry (PStr "Spoke") (PStr "Editorial calendars") (PStr "Strategy")
    (PInt 3).

Definition sample_map : list pyval :=
  [sample_pillar; sample_cluster; sample_spoke].

(** An API that answers the n-th request with the n-th text of a script,
    and fails when the script is over. *)
Definition scripted (replies : list string) (t : trace) (_ : api_request)
  : api_outcome :=
  match nth_error replies (List.length t) with
  | Some text => ApiText text
  | None => ApiFailed "no reply"
  end.

Definition sample_env (replies : list string) : environment :=
  {| ANTHROPIC_API_KEY := "sk-sample";
     TOPIC_MAP_SYSTEM_PROMPT := "system prompt";
     TOPIC_MAP_USER_PROMPT := fun f => "Topic: " ++ f_topic f;
     api := scripted replies;
     display := source_order |}.

(** [generate_topic_map] on the topic of the specification's scenario, from
    the empty trace. *)
Definition sample_run (replies : list string) : result (list pyval) * trace :=
  generate_topic_map (sample_env replies) "Content Marketing" SCOPE_FOCUSED
    "" "" "" "" "" "research" [].

(** The entry list that the calls of that run yield. *)
Definition sample_obtain (replies : list string)
  : result (list pyval) * trace :=
  obtain_entries (sample_env replies) "Content Marketing" SCOPE_FOCUSED
    "" "" "" "" "" "research" [].

(** The request that [_call_claude] sends for a prompt. *)
Definition request_for (env : environment) (prompt : string) : api_request :=
  {| req_model := CLAUDE_MODEL; req_max_tokens := CLAUDE_MAX_TOKENS;
     req_system := TOPIC_MAP_SYSTEM_PROMPT env; req_user := prompt |}.

(** The prompts of the requests of a trace, in order. *)
Fixpoint prompts_of (t : trace) : list string :=
  match t with
  | [] => []
  | Request r :: t' => req_user r :: prompts_of t'
  | Sleep _ :: t' => prompts_of t'
  end.

(** The text [{"a": 1}]: JSON, and no array. *)
Definition object_example : string :=
  "{" ++ dq ++ "a" ++ dq ++ ": 1}".

(** The JSON text of sample data (strings that need no escape). *)
Fixpoint sample_json (v : pyval) : string :=
  match v with
  | PNone => "null"
  | PBool true => "true"
  | PBool false => "false"
  | PInt n => Text.of_Z n
  | PFloat f => float_repr f
  | PStr s => dq ++ s ++ dq
  | PList l => "[" ++ Text.join ", " (List.map sample_json l) ++ "]"
  | PDict d =>
      "{" ++ Text.join ", "
               (List.map (fun kv => dq ++ fst kv ++ dq ++ ": "
                                    ++ sample_json (snd kv)) d)
          ++ "}"
  end.

(** A complete response: the sample map, one entry a line. *)
Definition sample_map_text : string :=
  "[" ++ sample_json sample_pillar ++ "," ++ nl
  ++ sample_json sample_cluster ++ "," ++ nl
  ++ sample_json sample_spoke ++ nl ++ "]".

(** A response between fences: the Pillar and the Cluster. *)
Definition sample_fenced_text : string :=
  fenced ("[" ++ sample_json sample_pillar ++ "," ++ nl
          ++ sample_json sample_cluster ++ nl ++ "]").

(** A continuation: the Spoke. *)
Definition sample_continuation_text : string :=
  "[" ++ sample_json sample_spoke ++ "]".

(** A response cut in the middle of its second object. *)
Definition sample_truncated_text : string :=
  "[{" ++ dq ++ "a" ++ dq ++ ": 1}, {" ++ dq ++ "b" ++ dq.

Definition sample_first_prompt : string := "Topic: Content Marketing".

(** The event of a request of the sample environment. *)
Definition sample_request (prompt : string) : event :=
  Request {| req_model := CLAUDE_MODEL; req_max_tokens := CLAUDE_MAX_TOKENS;
             req_system := "system prompt"; req_user := prompt |}.

Definition object_a : pyval := PDict [("a", PInt 1)].

Definition object_b : pyval := PDict [("b", PInt 2)].

(* ================================================================== *)
(** * Part I, continued: the rest of the code *)
(* ================================================================== *)

(** ** More of [str] *)

Module Str.

(** [c.lower()] on one character of the model: the letters A..Z and the
    capital letters of U+00C0..U+00DE (the multiplication sign U+00D7 is no
    letter). *)
Definition lower_char (c : ascii) : ascii :=
  let n := nat_of_ascii c in
  if ((65 <=? n) && (n <=? 90)
      || (192 <=? n) && (n <=? 222) && negb (n =? 215))%nat
  then ascii_of_nat (n + 32)
  else c.

(** [s.lower()] *)
Fixpoint lower (s : string) : string :=
  match s with
  | EmptyString => EmptyString
  | String c s' => String (lower_char c) (lower s')
  end.

(** [s.lstrip(x)] for a one-character [x] *)
Fixpoint lstrip_char (x : ascii) (s : string) : string :=
  match s with
  | String c s' => if Ascii.eqb c x then lstrip_char x s' else s
  | EmptyString => EmptyString
  end.

(** [s.rstrip(x)] for a one-character [x] *)
Fixpoint rstrip_char (x : ascii) (s : string) : string :=
  match s with
  | String c s' =>
      let r := rstrip_char x s' in
      if Text.is_empty r && Ascii.eqb c x then EmptyString else String c r
  | EmptyString => EmptyString
  end.

(** [s.strip(x)] for a one-character [x] *)
Definition strip_char (x : ascii) (s : string) : string :=
  lstrip_char x (rstrip_char x s).

(** [s.split(sep)] for a one-character [sep]: the pieces between the
    separators, empty ones included; never the empty list. *)
Fixpoint split (sep : ascii) (s : string) : list string :=
  match s with
  | EmptyString => [EmptyString]
  | String c s' =>
      if Ascii.eqb c sep then EmptyString :: split sep s'
      else match split sep s' with
           | piece :: rest => String c piece :: rest
           | [] => [String c EmptyString]
           end
  end.

(** [c] is one of [a-z0-9]. *)
Definition is_lower_alnum (c : ascii) : bool :=
  let n := nat_of_ascii c in
  ((97 <=? n) && (n <=? 122) || (48 <=? n) && (n <=? 57))%nat.

(** [re.sub(r"[^a-z0-9]+", "_", s)]: every maximal run of other characters
    becomes one underscore ([in_run]: the run has been replaced already). *)
Fixpoint sub_non_alnum (in_run : bool) (s : string) : string :=
  match s with
  | EmptyString => EmptyString
  | String c s' =>
      if is_lower_alnum c then String c (sub_non_alnum false s')
      else if in_run then sub_non_alnum true s'
      else String "_" (sub_non_alnum true s')
  end.

End Str.

(** ** [dict_to_entry] ([src/models/topic_map.py]) *)

Module TopicMap.

(** The dataclass [TopicMapEntry]: its annotations are not enforced, a field
    holds whatever value it is given. *)
Record TopicMapEntry := {
  level : pyval;
  content_title : pyval;
  primary_keyword : pyval;
  user_intent : pyval;
  semantic_entities : pyval;
  content_type : pyval;
  rag_directions : pyval;
  paa_questions : pyval;
  citations : pyval;
  parent_topic : pyval;
  priority_score : pyval;
  word_count_range : pyval;
  internal_link_targets : pyval
}.

Definition dict_to_entry (data : pyval) : result TopicMapEntry :=
  level <- Py.get data "level" (PStr "") ;;
  content_title <- Py.get data "content_title" (PStr "") ;;
  primary_keyword <- Py.get data "primary_keyword" (PStr "") ;;
  user_intent <- Py.get data "user_intent" (PStr "") ;;
  semantic_entities <- Py.get data "semantic_entities" (PList []) ;;
  content_type <- Py.get data "content_type" (PStr "") ;;
  rag_directions <- Py.get data "rag_directions" (PStr "") ;;
  paa_questions <- Py.get data "paa_questions" (PList []) ;;
  citations <- Py.get data "citations" (PList []) ;;
  parent_topic <- Py.get data "parent_topic" (PStr "") ;;
  priority_score <- Py.get data "priority_score" (PInt 3) ;;
  word_count_range <- Py.get data "word_count_range" (PStr "") ;;
  internal_link_targets <- Py.get data "internal_link_targets" (PList []) ;;
  Ok {| level := level; content_title := content_title;
        primary_keyword := primary_keyword; user_intent := user_intent;
        semantic_entities := semantic_entities; content_type := content_type;
        rag_directions := rag_directions; paa_questions := paa_questions;
        citations := citations; parent_topic := parent_topic;
        priority_score := priority_score;
        word_count_range := word_count_range;
        internal_link_targets := internal_link_targets |}.

(** The values of a [TopicMapEntry], in the order of [required_fields]. *)
Definition entry_values (r : TopicMapEntry) : list pyval :=
  [level r; content_title r; primary_keyword r; user_intent r;
   semantic_entities r; content_type r; rag_directions r; paa_questions r;
   citations r; parent_topic r; priority_score r; word_count_range r;
   internal_link_targets r].

End TopicMap.

(** An instance of [int] (a Boolean included) between [lo] and [hi]. *)
Definition int_like_between (lo hi : Z) (v : option pyval) : bool :=
  match v with
  | Some x =>
      match Py.as_int x with
      | Some n => (lo <=? n) && (n <=? hi)
      | None => false
      end
  | None => false
  end.

(** What [validate_entry] accepts: the 13 fields, a level and a user_intent
    that are texts of the two sets, a priority_score that is an instance of
    [int] in [1,5], 3 to 5 semantic_entities, at least 2 paa_questions, at
    least 1 citation. *)
Definition accepted_entry (e : pyval) : bool :=
  has_fields e
  && text_in VALID_LEVELS (field "level" e)
  && text_in VALID_INTENTS (field "user_intent" e)
  && int_like_between 1 5 (field "priority_score" e)
  && list_of_length 3 (Some 5%nat) (field "semantic_entities" e)
  && list_of_length 2 None (field "paa_questions" e)
  && list_of_length 1 None (field "citations" e).

(** ** Measures of a trace *)

(** The number of requests of a trace. *)
Fixpoint count_requests (t : trace) : nat :=
  match t with
  | [] => 0
  | Request _ :: t' => S (count_requests t')
  | Sleep _ :: t' => count_requests t'
  end.

(** The seconds slept in a trace. *)
Fixpoint sleep_seconds (t : trace) : Z :=
  match t with
  | [] => 0
  | Request _ :: t' => sleep_seconds t'
  | Sleep s :: t' => s + sleep_seconds t'
  end.

(** The monadic computation [m] appends to the trace at most [n] requests
    and at most [s] seconds of sleep, whatever the trace it starts from. *)
Definition costs {A} (n : nat) (s : Z) (m : M A) : Prop :=
  forall t, exists events,
    snd (m t) = (t ++ events)%list
    /\ (count_requests events <= n)%nat
    /\ 0 <= sleep_seconds events <= s.

(** A letter of A..Z or a..z, a digit, or a space. *)
Definition is_plain (c : ascii) : bool :=
  let n := nat_of_ascii c in
  ((65 <=? n) && (n <=? 90) || (97 <=? n) && (n <=? 122)
   || (48 <=? n) && (n <=? 57) || (n =? 32))%nat.

Fixpoint all_plain (s : string) : bool :=
  match s with
  | EmptyString => true
  | String c s' => is_plain c && all_plain s'
  end.

(** A character that stands for itself inside a JSON string: no double
    quote, no backslash, no control character. *)
Definition is_string_char (c : ascii) : bool :=
  negb (Ascii.eqb c Py.dquote) && negb (Ascii.eqb c "\")
  && (32 <=? nat_of_ascii c)%nat.

Fixpoint all_string_chars (s : string) : bool :=
  match s with
  | EmptyString => true
  | String c s' => is_string_char c && all_string_chars s'
  end.

(** The value is a [dict]. *)
Definition is_object (v : pyval) : bool :=
  match v with PDict _ => true | _ => false end.

(** [e.get(name, default)] on an object. *)
Definition field_or (name : string) (default : pyval) (e : pyval) : pyval :=
  match field name e with
  | Some v => v
  | None => default
  end.

(** ** The CSV export ([src/services/csv_service.py]) *)

Module Csv.

Definition _join_list (items : pyval) : string :=
  match items with
  | PList l => Text.join "|" (List.map Py.str l)
  | _ => Py.str items
  end.

(** The dict that the loop of [topic_map_to_dataframe] appends for one
    entry. *)
Definition row (entry : pyval) : result (list (string * pyval)) :=
  level <- Py.get entry "level" (PStr "") ;;
  content_title <- Py.get entry "content_title" (PStr "") ;;
  primary_keyword <- Py.get entry "primary_keyword" (PStr "") ;;
  user_intent <- Py.get entry "user_intent" (PStr "") ;;
  semantic_entities <- Py.get entry "semantic_entities" (PList []) ;;
  content_type <- Py.get entry "content_type" (PStr "") ;;
  rag_directions <- Py.get entry "rag_directions" (PStr "") ;;
  paa_questions <- Py.get entry "paa_questions" (PList []) ;;
  citations <- Py.get entry "citations" (PList []) ;;
  parent_topic <- Py.get entry "parent_topic" (PStr "") ;;
  priority_score <- Py.get entry "priority_score" (PInt 0) ;;
  word_count_range <- Py.get entry "word_count_range" (PStr "") ;;
  internal_link_targets <- Py.get entry "internal_link_targets" (PList []) ;;
  Ok [("Level", level);
      ("Content Title", content_title);
      ("Primary Keyword", primary_keyword);
      ("User Intent", user_intent);
      ("Semantic Entities", PStr (_join_list semantic_entities));
      ("Content Type", content_type);
      ("RAG Directions", rag_directions);
      ("PAA Questions", PStr (_join_list paa_questions));
      ("Citations", PStr (_join_list citations));
      ("Parent Topic", parent_topic);
      ("Priority Score", priority_score);
      ("Word Count Range", word_count_range);
      ("Internal Link Targets", PStr (_join_list internal_link_targets))].

(** [topic_map_to_dataframe], up to the list [rows] that is handed to
    [pd.DataFrame]: one dict a row, in the order of the entries.  (What
    pandas makes of the rows, the column types it infers and the CSV text it
    writes, is not modelled.) *)
Fixpoint topic_map_to_dataframe (entries : list pyval)
  : result (list (list (string * pyval))) :=
  match entries with
  | [] => Ok []
  | entry :: rest =>
      r <- row entry ;;
      rows <- topic_map_to_dataframe rest ;;
      Ok (r :: rows)
  end.

(** The 13 column names of a row, in order. *)
Definition column_names : list string :=
  ["Level"; "Content Title"; "Primary Keyword"; "User Intent";
   "Semantic Entities"; "Content Type"; "RAG Directions"; "PAA Questions";
   "Citations"; "Parent Topic"; "Priority Score"; "Word Count Range";
   "Internal Link Targets"].

(** The four columns that hold a joined list. *)
Definition joined_columns : list string :=
  ["Semantic Entities"; "PAA Questions"; "Citations";
   "Internal Link Targets"].

(** The row of an object, read off its fields: nine cells hold the value
    of a field, or its default, as it is; four hold the joined text of a
    list field. *)
Definition export_row (entry : pyval) : list (string * pyval) :=
  [("Level", field_or "level" (PStr "") entry);
   ("Content Title", field_or "content_title" (PStr "") entry);
   ("Primary Keyword", field_or "primary_keyword" (PStr "") entry);
   ("User Intent", field_or "user_intent" (PStr "") entry);
   ("Semantic Entities",
    PStr (_join_list (field_or "semantic_entities" (PList []) entry)));
   ("Content Type", field_or "content_type" (PStr "") entry);
   ("RAG Directions", field_or "rag_directions" (PStr "") entry);
   ("PAA Questions",
    PStr (_join_list (field_or "paa_questions" (PList []) entry)));
   ("Citations", PStr (_join_list (field_or "citations" (PList []) entry)));
   ("Parent Topic", field_or "parent_topic" (PStr "") entry);
   ("Priority Score", field_or "priority_score" (PInt 0) entry);
   ("Word Count Range", field_or "word_count_range" (PStr "") entry);
   ("Internal Link Targets",
    PStr (_join_list (field_or "internal_link_targets" (PList []) entry)))].

(** [re.sub(r"[^a-z0-9]+", "_", topic.lower()).strip("_")] *)
Definition slug (topic : string) : string :=
  Str.strip_char "_" (Str.sub_non_alnum false (Str.lower topic)).

(** [generate_filename]; [date_str] is
    [datetime.now().strftime("%Y%m%d")]. *)
Definition generate_filename (date_str topic : string) : string :=
  "topical_map_" ++ slug topic ++ "_" ++ date_str ++ ".csv".

End Csv.

(** ** The research queries ([src/services/research_service.py]) *)

Module Research.

(** The ten queries that every topic gets; [current_year] is
    [datetime.now().year]. *)
Definition base_queries (current_year : Z) (topic : string)
  (industry : option string) : list string :=
  [topic;
   topic ++ " guide";
   topic ++ " how to";
   "what is " ++ topic;
   topic ++ " questions people ask";
   topic ++ " statistics " ++ Text.of_Z current_year;
   topic ++ " vs";
   "best " ++ topic;
   match industry with
   | Some i => if Text.is_empty i then topic ++ " trends"
               else topic ++ " " ++ i
   | None => topic ++ " trends"
   end;
   topic ++ " common mistakes"].

(** [f"site:{comp} {topic}"] *)
Definition site_query (topic comp : string) : string :=
  "site:" ++ comp ++ " " ++ topic.

(** The query for one competitor, if its name is not blank. *)
Definition competitor_query (topic competitor : string) : list string :=
  let comp := Text.strip competitor in
  if Text.is_empty comp then [] else [site_query topic comp].

Definition build_research_queries (current_year : Z) (topic : string)
  (industry : option string) (competitors : option (list string))
  : list string :=
  let queries := base_queries current_year topic industry in
  match competitors with
  | Some ((_ :: _) as competitors) =>
      (queries
       ++ List.flat_map (competitor_query topic) (List.firstn 3 competitors))%list
  | _ => queries
  end.

End Research.

(** ** The sidebar ([src/components/sidebar.py]) *)

Module Sidebar.

(** What the widgets of the sidebar return in one run of the script.  The
    toggle and the folder input are read only when they are rendered. *)
Record widgets := {
  w_topic : string;
  w_scope : string;
  w_industry : string;
  w_audience : string;
  w_geo_focus : string;
  w_competitors : string;
  w_existing_content : string;
  w_gdrive_toggle : bool;
  w_gdrive_folder : string
}.

Record UserInputs := {
  topic : string;
  scope : string;
  industry : option string;
  audience : option string;
  geo_focus : option string;
  competitors : option (list string);
  existing_content : option string;
  gdrive_enabled : bool;
  gdrive_folder : option string
}.

(** [x.strip() if x else None] *)
Definition strip_or_none (x : string) : option string :=
  if Text.is_empty x then None else Some (Text.strip x).

(** [[c.strip() for c in competitors_raw.split(",") if c.strip()]] *)
Definition parse_competitors (competitors_raw : string) : list string :=
  List.filter (fun c => negb (Text.is_empty c))
    (List.map Text.strip (Str.split "," competitors_raw)).

Definition render_sidebar (w : widgets) (gdrive_available : bool)
  : UserInputs :=
  let (gdrive_enabled, gdrive_folder) :=
    if gdrive_available
    then
      let gdrive_enabled := w_gdrive_toggle w in
      (gdrive_enabled,
       if gdrive_enabled then Some (w_gdrive_folder w) else None)
    else (false, None) in
  let competitors :=
    if Text.is_empty (w_competitors w) then None
    else Some (parse_competitors (w_competitors w)) in
  {| topic := if Text.is_empty (w_topic w) then EmptyString
              else Text.strip (w_topic w);
     scope := w_scope w;
     industry := strip_or_none (w_industry w);
     audience := strip_or_none (w_audience w);
     geo_focus := strip_or_none (w_geo_focus w);
     competitors := competitors;
     existing_content := strip_or_none (w_existing_content w);
     gdrive_enabled := gdrive_enabled;
     gdrive_folder := gdrive_folder |}.

End Sidebar.

(** ** The research run ([perform_research]) *)

Module Tavily.

(** The six lists that [perform_research] fills. *)
Record findings := {
  all_answers : list string;
  all_urls : list string;
  all_snippets : list string;
  all_questions : list string;
  all_stats : list string;
  content_types_seen : list string
}.

Definition no_findings : findings :=
  {| all_answers := []; all_urls := []; all_snippets := [];
     all_questions := []; all_stats := []; content_types_seen := [] |}.

(** What a research run does to the outside: a search, the pause
    [time.sleep(TAVILY_RATE_LIMIT_DELAY)] between two queries, and the
    warning that a query was skipped.  (The progress bar and the status line
    are written and never read; they are left out, and so is the text of the
    exception in the warning.) *)
Inductive event :=
| Search (query : string)
| Pause
| Skipped (query : string).

(** The key, and the search engine: it answers a query, knowing what
    happened before, with a value or with an exception. *)
Record environment := {
  TAVILY_API_KEY : string;
  search : list event -> string -> result pyval
}.

(** State (the lists) and exceptions: what an exception leaves of the lists
    stays. *)
Definition B (A : Type) : Type := findings -> result A * findings.

Definition ret {A} (a : A) : B A := fun f => (Ok a, f).

Definition raise {A} (e : exn) : B A := fun f => (Raise e, f).

Definition lift {A} (r : result A) : B A := fun f => (r, f).

Definition bind {A C} (m : B A) (k : A -> B C) : B C :=
  fun f => match m f with
           | (inr a, f') => k a f'
           | (inl e, f') => (inl e, f')
           end.

Definition add_answers (l : list string) : B unit := fun f =>
  (Ok tt, {| all_answers := all_answers f ++ l; all_urls := all_urls f;
             all_snippets := all_snippets f;
             all_questions := all_questions f; all_stats := all_stats f;
             content_types_seen := content_types_seen f |}).

Definition add_urls (l : list string) : B unit := fun f =>
  (Ok tt, {| all_answers := all_answers f; all_urls := all_urls f ++ l;
             all_snippets := all_snippets f;
             all_questions := all_questions f; all_stats := all_stats f;
             content_types_seen := content_types_seen f |}).

Definition add_snippets (l : list string) : B unit := fun f =>
  (Ok tt, {| all_answers := all_answers f; all_urls := all_urls f;
             all_snippets := all_snippets f ++ l;
             all_questions := all_questions f; all_stats := all_stats f;
             content_types_seen := content_types_seen f |}).

Definition add_questions (l : list string) : B unit := fun f =>
  (Ok tt, {| all_answers := all_answers f; all_urls := all_urls f;
             all_snippets := all_snippets f;
             all_questions := all_questions f ++ l; all_stats := all_stats f;
             content_types_seen := content_types_seen f |}).

Definition add_stats (l : list string) : B unit := fun f =>
  (Ok tt, {| all_answers := all_answers f; all_urls := all_urls f;
             all_snippets := all_snippets f;
             all_questions := all_questions f; all_stats := all_stats f ++ l;
             content_types_seen := content_types_seen f |}).

Definition add_content_types (l : list string) : B unit := fun f =>
  (Ok tt, {| all_answers := all_answers f; all_urls := all_urls f;
             all_snippets := all_snippets f;
             all_questions := all_questions f; all_stats := all_stats f;
             content_types_seen := content_types_seen f ++ l |}).

Declare Scope research_scope.
Delimit Scope research_scope with research.
Notation "x <- m ;; k" := (bind m (fun x => k))
  (at level 61, m at next level, right associativity) : research_scope.
Notation "m ;;; k" := (bind m (fun _ => k))
  (at level 61, right associativity) : research_scope.

Open Scope research_scope.

(** The values that [for r in v] goes through: the elements of a list, the
    characters of a [str], the keys of a dict. *)
Definition iter_values (v : pyval) : result (list pyval) :=
  match v with
  | PList l => Ok l
  | PStr s =>
      Ok (List.map (fun c => PStr (String c EmptyString)) (list_ascii_of_string s))
  | PDict d => Ok (List.map (fun kv => PStr (fst kv)) d)
  | _ => Raise (TypeError "object is not iterable")
  end.

(** The question that ends a sentence [s]:
    [s.strip().split(".")[-1].strip() + "?"]. *)
Definition question_of (s : string) : string :=
  Text.strip (List.last (Str.split "." (Text.strip s)) EmptyString) ++ "?".

(** The loop [for s in sentences[:-1]] on a text: the questions of more
    than 15 and less than 200 characters. *)
Definition questions_in (text : string) : list string :=
  List.filter
    (fun q => (15 <? String.length q)%nat && (String.length q <? 200)%nat)
    (List.map question_of (List.removelast (Str.split "?" text))).

(** One round of [for text in [title, snippet]]. *)
Definition detect_questions (text : pyval) : B unit :=
  if Py.truthy text
  then
    found <- lift (Py.contains "?" text) ;;
    if found
    then match text with
         | PStr s => add_questions (questions_in s)
         | _ => raise (AttributeError "object has no attribute 'split'")
         end
    else ret tt
  else ret tt.

Definition stat_indicators : list string :=
  ["%"; "percent"; "billion"; "million"; "thousand"; "$"].

(** The block [if snippet: for indicator in ..: .. break] *)
Definition detect_statistic (snippet : pyval) : B unit :=
  if Py.truthy snippet
  then match snippet with
       | PStr s =>
           if existsb (fun indicator => Text.contains indicator (Str.lower s))
                stat_indicators
           then add_stats [Text.take 300 s]
           else ret tt
       | _ => raise (AttributeError "object has no attribute 'lower'")
       end
  else ret tt.

Definition content_type_words : list string :=
  ["guide"; "how to"; "vs"; "comparison"; "review"; "best"; "checklist";
   "faq"].

(** The block [title_lower = ..; for ct in ..] *)
Definition detect_content_types (title : pyval) : B unit :=
  title_lower <-
    (if Py.truthy title
     then match title with
          | PStr s => ret (Str.lower s)
          | _ => raise (AttributeError "object has no attribute 'lower'")
          end
     else ret EmptyString) ;;
  add_content_types
    (List.filter (fun ct => Text.contains ct title_lower) content_type_words).

(** The body of [for r in result.get("results", [])]. *)
Definition process_result (r : pyval) : B unit :=
  url <- lift (Py.get r "url" (PStr "")) ;;
  title <- lift (Py.get r "title" (PStr "")) ;;
  snippet <- lift (Py.get r "content" (PStr "")) ;;
  (if Py.truthy url && Py.truthy title
   then add_urls ["- [" ++ Py.str title ++ "](" ++ Py.str url ++ ")"]
   else ret tt) ;;;
  (if Py.truthy snippet
   then add_snippets ["[" ++ Py.str title ++ "]: " ++ Py.str snippet]
   else ret tt) ;;;
  detect_questions title ;;;
  detect_questions snippet ;;;
  detect_statistic snippet ;;;
  detect_content_types title.

Fixpoint process_results (rs : list pyval) : B unit :=
  match rs with
  | [] => ret tt
  | r :: rest => process_result r ;;; process_results rest
  end.

(** The [try] block of a query, once the search has answered. *)
Definition process_answer (query : string) (result : pyval) : B unit :=
  answer <- lift (Py.get result "answer" PNone) ;;
  (if Py.truthy answer
   then (answer <- lift (Py.getitem result "answer") ;;
         add_answers ["**Query: " ++ query ++ "**" ++ nl ++ Py.str answer])
   else ret tt) ;;;
  results <- lift (Py.get result "results" (PList [])) ;;
  rs <- lift (iter_values results) ;;
  process_results rs.

Close Scope research_scope.

(** One turn of [for i, query in enumerate(queries)]; [last] tells that
    [i == len(queries) - 1]. *)
Definition run_query (env : environment) (query : string) (last : bool)
  (state : findings * list event) : findings * list event :=
  let (f, t) := state in
  let searched := (t ++ [Search query])%list in
  let (f', after) :=
    match search env t query with
    | inl _ => (f, (searched ++ [Skipped query])%list)
    | inr result =>
        match process_answer query result f with
        | (inl _, f') => (f', (searched ++ [Skipped query])%list)
        | (inr _, f') => (f', searched)
        end
    end in
  (f', if last then after else (after ++ [Pause])%list).

Fixpoint run_queries (env : environment) (queries : list string)
  (state : findings * list event) : findings * list event :=
  match queries with
  | [] => state
  | query :: rest =>
      run_queries env rest
        (run_query env query (match rest with [] => true | _ => false end)
           state)
  end.

(** [list(dict.fromkeys(l))]: the first occurrence of each text, in
    order. *)
Fixpoint unique (l : list string) : list string :=
  match l with
  | [] => []
  | x :: rest =>
      x :: List.filter (fun y => negb (String.eqb x y)) (unique rest)
  end.

(** [Counter(l)]: the number of occurrences of each text, in the order of
    the first occurrences. *)
Fixpoint count_into (ct : string) (counts : list (string * nat))
  : list (string * nat) :=
  match counts with
  | [] => [(ct, 1%nat)]
  | (k, n) :: rest =>
      if String.eqb k ct then (k, S n) :: rest
      else (k, n) :: count_into ct rest
  end.

Definition counter (l : list string) : list (string * nat) :=
  List.fold_left (fun counts ct => count_into ct counts) l [].

(** [most_common()]: by decreasing count; the sort is stable, so texts of
    the same count stay in the order of their first occurrences. *)
Fixpoint insert_by_count (x : string * nat) (sorted : list (string * nat))
  : list (string * nat) :=
  match sorted with
  | [] => [x]
  | y :: rest =>
      if (snd y <? snd x)%nat then x :: y :: rest
      else y :: insert_by_count x rest
  end.

Definition most_common (counts : list (string * nat))
  : list (string * nat) :=
  List.fold_left (fun sorted x => insert_by_count x sorted) counts [].

Definition when_any (l : list string) (section : list string) : list string :=
  match l with [] => [] | _ => section end.

Definition bullet (s : string) : string := "- " ++ s.

Definition count_line (c : string * nat) : string :=
  "- " ++ fst c ++ ": " ++ Text.of_nat (snd c) ++ " occurrences".

(** The sections of the research document. *)
Definition sections (f : findings) : list string :=
  let answers_title := "### AI-Generated Research Summaries" ++ nl in
  let urls_title := nl ++ "### Top-Ranking URLs and Titles" ++ nl in
  let snippets_title := nl ++ "### Content Snippets from Search Results" ++ nl in
  let stats_title := nl ++ "### Statistics and Data Points Found" ++ nl in
  let questions_title := nl ++ "### Questions Identified in Results" ++ nl in
  let types_title := nl ++ "### Content Types Observed Ranking" ++ nl in
  let blank_line := nl ++ nl in
  (when_any (all_answers f)
     [answers_title; Text.join blank_line (all_answers f)]
   ++ when_any (all_urls f)
        [urls_title; Text.join nl (List.firstn 30 (unique (all_urls f)))]
   ++ when_any (all_snippets f)
        [snippets_title;
         Text.join blank_line (List.firstn 25 (unique (all_snippets f)))]
   ++ when_any (all_stats f)
        (stats_title
         :: List.map bullet (List.firstn 15 (unique (all_stats f))))
   ++ when_any (all_questions f)
        (questions_title
         :: List.map bullet (List.firstn 20 (unique (all_questions f))))
   ++ when_any (content_types_seen f)
        (types_title
         :: List.map count_line
              (most_common (counter (content_types_seen f)))))%list.

Definition compiled_text (f : findings) : string :=
  Text.join nl (sections f).

Definition summary (query_count : nat) (topic : string) (f : findings)
  : string :=
  Text.join " "
    ["Executed " ++ Text.of_nat query_count ++ " research queries for '"
     ++ topic ++ "'.";
     "Found " ++ Text.of_nat (List.length (all_urls f)) ++ " unique URLs,";
     Text.of_nat (List.length (all_snippets f)) ++ " content snippets,";
     Text.of_nat (List.length (all_stats f)) ++ " data points,";
     "and " ++ Text.of_nat (List.length (all_questions f)) ++ " questions."].

(** The dict that [perform_research] returns. *)
Definition report (query_count : nat) (topic : string) (f : findings)
  : pyval :=
  PDict [("compiled_text", PStr (compiled_text f));
         ("summary", PStr (summary query_count topic f));
         ("query_count", PInt (Z.of_nat query_count));
         ("url_count", PInt (Z.of_nat (List.length (unique (all_urls f)))));
         ("snippet_count", PInt (Z.of_nat (List.length (all_snippets f))));
         ("stats_count", PInt (Z.of_nat (List.length (all_stats f))));
         ("questions_count",
          PInt (Z.of_nat (List.length (all_questions f))))].

(** [perform_research], one run of its body (the cache of
    [st.cache_data] is not modelled); [current_year] is
    [datetime.now().year]. *)
Definition perform_research (env : environment) (current_year : Z)
  (topic : string) (industry : option string)
  (competitors : option (list string)) (t : list event)
  : result pyval * list event :=
  if Text.is_empty (TAVILY_API_KEY env)
  then (Raise (ValueError "TAVILY_API_KEY is not configured."), t)
  else
    let queries :=
      Research.build_research_queries current_year topic industry
        competitors in
    let (f, t') := run_queries env queries (no_findings, t) in
    (Ok (report (List.length queries) topic f), t').




(** The computation [m] keeps the property [P] of the lists, whether it
    ends with a value or with an exception. *)
Definition keeps {A} (P : findings -> Prop) (m : B A) : Prop :=
  forall f, P f -> P (snd (m f)).

(** A question as [perform_research] records it: a text without a period
    and without a question mark, stripped, then a question mark; more than
    15 and less than 200 characters in all. *)
Definition well_formed_question (q : string) : Prop :=
  exists body,
    q = body ++ "?"
    /\ Py.has_char "?" body = false
    /\ Py.has_char "." body = false
    /\ Text.strip body = body
    /\ (15 < String.length q < 200)%nat.

(** What holds of the lists at any time: the questions are well formed, a
    data point has at most 300 characters, and a content type is one of the
    eight words looked for. *)
Definition well_formed_findings (f : findings) : Prop :=
  Forall well_formed_question (all_questions f)
  /\ Forall (fun s => (String.length s <= 300)%nat) (all_stats f)
  /\ Forall (fun ct => In ct content_type_words) (content_types_seen f).

End Tavily.

(** ** The application ([src/app.py]) *)

Module App.

(** The three keys of [st.session_state] that the application writes. *)
Record session := {
  research_data : option pyval;
  topic_map_entries : option (list pyval);
  topic_map_topic : option string
}.

(** The session, and what has been asked of the search engine and of the
    LLM so far. *)
Record world := {
  state : session;
  searched : list Tavily.event;
  requested : trace
}.

(** A message of [st.error] or [st.info]. *)
Inductive message :=
| Error (text : string)
| Info (text : string).




(** How [_run_generation] ends. *)
Inductive outcome :=
| ResearchFailed (e : exn)
| GenerationFailed (e : exn)
| Generated (count : nat).




(** What one run of the script shows and does: the messages of the key
    check, how the generation ended if it ran, the topic map displayed if
    one is, and the world afterwards. *)
Record run := {
  messages : list message;
  generation : option outcome;
  displayed : option (list pyval);
  after : world
}.


End App.

(** ** The upload to Google Drive ([src/services/gdrive_service.py]) *)

Module Gdrive.

(** The calls that reach Google: the credentials ([_get_credentials], with
    its token file and its browser flow, and the service object that
    [build] makes of them), and the four requests to the Drive API. *)
Inductive call :=
| GetCredentials
| ListFiles (q : string)
| CreateFolder (name : string)
| CreateFile (name : string) (parent : pyval) (content : string)
| CreatePermission (file_id : pyval) (type role : string).

(** Google answers a call, knowing the calls made before it, with a value
    or with an exception. *)
Record environment := {
  GOOGLE_CLIENT_ID : string;
  GOOGLE_CLIENT_SECRET : string;
  answer : list call -> call -> result pyval
}.

Definition D (A : Type) : Type := list call -> result A * list call.

Definition ret {A} (a : A) : D A := fun t => (Ok a, t).

Definition raise {A} (e : exn) : D A := fun t => (Raise e, t).

Definition lift {A} (r : result A) : D A := fun t => (r, t).

Definition bind {A C} (m : D A) (k : A -> D C) : D C :=
  fun t => match m t with
           | (inr a, t') => k a t'
           | (inl e, t') => (inl e, t')
           end.

(** One call: it is made, and then answered. *)
Definition execute (env : environment) (c : call) : D pyval :=
  fun t => (answer env t c, (t ++ [c])%list).

Declare Scope drive_scope.
Delimit Scope drive_scope with drive.
Notation "x <- m ;; k" := (bind m (fun x => k))
  (at level 61, m at next level, right associativity) : drive_scope.
Notation "m ;;; k" := (bind m (fun _ => k))
  (at level 61, right associativity) : drive_scope.

Open Scope drive_scope.

Definition folder_mime : string := "application/vnd.google-apps.folder".

(** The query of [_find_or_create_folder]. *)
Definition folder_query (folder_name : string) : string :=
  "name='" ++ folder_name ++ "' and mimeType='" ++ folder_mime
  ++ "' and trashed=false".

(** [files[0]] *)
Definition first_item (files : pyval) : result pyval :=
  match files with
  | PList (x :: _) => Ok x
  | PList [] => Raise (IndexError "list index out of range")
  | PStr (String c _) => Ok (PStr (String c EmptyString))
  | PStr EmptyString => Raise (IndexError "string index out of range")
  | PDict _ => Raise (KeyError "0")
  | _ => Raise (TypeError "object is not subscriptable")
  end.

Definition _find_or_create_folder (env : environment) (folder_name : string)
  : D pyval :=
  results <- execute env (ListFiles (folder_query folder_name)) ;;
  files <- lift (Py.get results "files" (PList [])) ;;
  if Py.truthy files
  then (first <- lift (first_item files) ;; lift (Py.getitem first "id"))
  else (folder <- execute env (CreateFolder folder_name) ;;
        lift (Py.getitem folder "id")).

Definition upload_to_drive (env : environment) (csv_bytes filename : string)
  (folder_name : string) : D pyval :=
  if Text.is_empty (GOOGLE_CLIENT_ID env)
     || Text.is_empty (GOOGLE_CLIENT_SECRET env)
  then raise (ValueError "Google Drive credentials are not configured.")
  else
    execute env GetCredentials ;;;
    folder_id <- _find_or_create_folder env folder_name ;;
    uploaded <- execute env (CreateFile filename folder_id csv_bytes) ;;
    file_id <- lift (Py.getitem uploaded "id") ;;
    execute env (CreatePermission file_id "anyone" "reader") ;;;
    lift (Py.get uploaded "webViewLink" PNone).

Close Scope drive_scope.

End Gdrive.

(** ** The results views ([src/components/results_table.py]) *)

Module ResultsTable.

(** [sum(1 for e in entries if e.get("level") == lvl)] *)
Fixpoint level_count (lvl : string) (entries : list pyval) : result nat :=
  match entries with
  | [] => Ok 0%nat
  | e :: rest =>
      l <- Py.get e "level" PNone ;;
      n <- level_count lvl rest ;;
      Ok (if Py.eqb l (PStr lvl) then S n else n)
  end.

(** [counts[key] = counts.get(key, 0) + 1] on a dict with any hashable
    keys: a key that is there is found by [is] or [==], a new key goes to
    the end. *)
Fixpoint bump (key : pyval) (counts : list (pyval * nat))
  : list (pyval * nat) :=
  match counts with
  | [] => [(key, 1%nat)]
  | (k, n) :: rest =>
      if Py.same k key then (k, S n) :: rest else (k, n) :: bump key rest
  end.

(** The loop that fills [intent_counts], from the dict [counts]. *)
Fixpoint intent_counts (entries : list pyval) (counts : list (pyval * nat))
  : result (list (pyval * nat)) :=
  match entries with
  | [] => Ok counts
  | e :: rest =>
      intent <- Py.get e "user_intent" (PStr "Unknown") ;;
      if Py.hashable intent
      then intent_counts rest (bump intent counts)
      else Raise (TypeError "unhashable type")
  end.

(** The numbers that [render_statistics] computes. *)
Record statistics := {
  total : nat;
  pillars : nat;
  clusters : nat;
  spokes : nat;
  intents : list (pyval * nat)
}.

(** The first part of [render_statistics], up to the loop that fills
    [intent_counts]: the numbers, before they are laid out. *)
Definition count_statistics (entries : list pyval) : result statistics :=
  let total := List.length entries in
  pillars <- level_count "Pillar" entries ;;
  clusters <- level_count "Cluster" entries ;;
  spokes <- level_count "Spoke" entries ;;
  intent_counts <- intent_counts entries [] ;;
  Ok {| total := total; pillars := pillars; clusters := clusters;
        spokes := spokes; intents := intent_counts |}.

(** Whether [a < b] is defined on two keys of a dict: a text is ordered
    with a text, a number with a number (a Boolean is a number), and [None]
    with nothing.  (Lists and dicts are no keys.) *)
Definition orderable_with (a b : pyval) : bool :=
  match a, b with
  | PStr _, PStr _ => true
  | (PInt _ | PBool _ | PFloat _), (PInt _ | PBool _ | PFloat _) => true
  | _, _ => false
  end.

(** Whether [sorted(intent_counts.items())] returns.  The items are pairs
    whose first components, the keys, are different, so two items are
    compared by their keys; a sort compares every item with another one at
    least, and keys that are ordered with one key are ordered with one
    another.  So the sort returns when there is one item at most, or when
    every other key is ordered with the first one; otherwise a comparison
    raises [TypeError]. *)
Definition items_sortable (counts : list (pyval * nat)) : bool :=
  match counts with
  | [] => true
  | (k, _) :: rest => forallb (fun kn => orderable_with k (fst kn)) rest
  end.

(** Whether every key of the dict is a text. *)
Definition text_keys (counts : list (pyval * nat)) : bool :=
  forallb (fun kn => match fst kn with PStr _ => true | _ => false end)
    counts.

(** [render_statistics]: the numbers, then the columns of the intents,
    [st.columns(len(intent_counts))], and for each intent, in the order of
    [sorted(intent_counts.items())], a metric whose label is the intent.
    The calls of Streamlit are not modelled, and the model returns the
    numbers only where these calls are given what they ask for, one column
    at least and labels that are texts.  With no intent, so with no entry,
    [st.columns(0)] is called: what it does is left outside the model.
    With one intent or more, [sorted] raises when the intents cannot be
    ordered; when they can and one of them is no text, a metric is given a
    label that is no text, and what it does is left outside the model.  The
    order in which the intents are shown is not modelled. *)
Definition render_statistics (entries : list pyval) : result statistics :=
  s <- count_statistics entries ;;
  match intents s with
  | [] => Raise OutsideModel
  | _ :: _ =>
      if items_sortable (intents s)
      then if text_keys (intents s) then Ok s else Raise OutsideModel
      else Raise (TypeError "'<' not supported between instances")
  end.

(** The sum of the counts of a dict. *)
Definition counted (counts : list (pyval * nat)) : nat :=
  List.fold_right (fun kn acc => (snd kn + acc)%nat) 0%nat counts.

(** [next((e for e in entries if e.get("level") == "Pillar"), None)]: the
    entries are looked at up to the first Pillar. *)
Fixpoint first_pillar (entries : list pyval) : result (option pyval) :=
  match entries with
  | [] => Ok None
  | e :: rest =>
      l <- Py.get e "level" PNone ;;
      if Py.eqb l (PStr "Pillar") then Ok (Some e) else first_pillar rest
  end.

(** [[e for e in entries if e.get("level") == lvl]] *)
Fixpoint of_level (lvl : string) (entries : list pyval)
  : result (list pyval) :=
  match entries with
  | [] => Ok []
  | e :: rest =>
      l <- Py.get e "level" PNone ;;
      more <- of_level lvl rest ;;
      Ok (if Py.eqb l (PStr lvl) then e :: more else more)
  end.

(** [cluster_spokes[parent].append(spoke)], after the key was created if it
    was not there. *)
Fixpoint file_under (parent spoke : pyval)
  (groups : list (pyval * list pyval)) : list (pyval * list pyval) :=
  match groups with
  | [] => [(parent, [spoke])]
  | (k, members) :: rest =>
      if Py.same k parent then (k, (members ++ [spoke])%list) :: rest
      else (k, members) :: file_under parent spoke rest
  end.

(** The loop that builds [cluster_spokes]. *)
Fixpoint group_spokes (spokes : list pyval)
  (groups : list (pyval * list pyval))
  : result (list (pyval * list pyval)) :=
  match spokes with
  | [] => Ok groups
  | spoke :: rest =>
      parent <- Py.get spoke "parent_topic" (PStr "") ;;
      if Py.hashable parent
      then group_spokes rest (file_under parent spoke groups)
      else Raise (TypeError "unhashable type")
  end.

(** [cluster_spokes.get(c_title, [])] *)
Fixpoint members_of (title : pyval) (groups : list (pyval * list pyval))
  : list pyval :=
  match groups with
  | [] => []
  | (k, members) :: rest =>
      if Py.same k title then members else members_of title rest
  end.

(** The line of a Spoke; [s_prefix] is one of the two box-drawing
    prefixes. *)
Definition spoke_line (s_prefix : string) (spoke : pyval) : result string :=
  s_title <- Py.get spoke "content_title" (PStr "Spoke") ;;
  s_score <- Py.get spoke "priority_score" (PStr "") ;;
  Ok ("&nbsp;&nbsp;&nbsp;&nbsp;&nbsp;&nbsp;" ++ s_prefix ++ " "
      ++ Py.str s_title ++ " (Priority: " ++ Py.str s_score ++ ")").

Section Tree.

(** The two prefixes of a branch, U+251C U+2500 U+2500 and U+2514 U+2500
    U+2500: box-drawing characters, outside the characters of the model. *)
Variables tee elbow : string.

(** The loop [for k, spoke in enumerate(child_spokes)] *)
Fixpoint spoke_lines (child_spokes : list pyval) : result (list string) :=
  match child_spokes with
  | [] => Ok []
  | spoke :: rest =>
      line <- spoke_line (match rest with [] => elbow | _ => tee end) spoke ;;
      more <- spoke_lines rest ;;
      Ok (line :: more)
  end.

(** The loop [for j, cluster in enumerate(clusters)] *)
Fixpoint cluster_lines (groups : list (pyval * list pyval))
  (clusters : list pyval) : result (list string) :=
  match clusters with
  | [] => Ok []
  | cluster :: rest =>
      c_title <- Py.get cluster "content_title" (PStr "Cluster") ;;
      c_score <- Py.get cluster "priority_score" (PStr "") ;;
      let prefix := match rest with [] => elbow | _ => tee end in
      let line := "&nbsp;&nbsp;" ++ prefix ++ " **" ++ Py.str c_title
                  ++ "** (Priority: " ++ Py.str c_score ++ ")" in
      hashed <- (if Py.hashable c_title then Ok tt
                 else Raise (TypeError "unhashable type")) ;;
      below <- spoke_lines (members_of c_title groups) ;;
      more <- cluster_lines groups rest ;;
      Ok (line :: below ++ more)%list
  end.

(** [render_hierarchy]: [None] stands for the warning that no Pillar was
    found, [Some lines] for the tree that is shown, its lines joined by an
    empty line. *)
Definition render_hierarchy (entries : list pyval)
  : result (option (list string)) :=
  pillar <- first_pillar entries ;;
  match pillar with
  | None => Ok None
  | Some pillar =>
      if Py.truthy pillar
      then
        clusters <- of_level "Cluster" entries ;;
        spokes <- of_level "Spoke" entries ;;
        cluster_spokes <- group_spokes spokes [] ;;
        p_title <- Py.get pillar "content_title" (PStr "Pillar") ;;
        p_score <- Py.get pillar "priority_score" (PStr "") ;;
        let line := "**" ++ Py.str p_title ++ "** (Priority: "
                    ++ Py.str p_score ++ ")" in
        below <- cluster_lines cluster_spokes clusters ;;
        Ok (Some (line :: below))
      else Ok None
  end.

End Tree.

(** [spoke.get("parent_topic", "")] on an object *)
Definition parent_of (spoke : pyval) : pyval :=
  match field "parent_topic" spoke with
  | Some p => p
  | None => PStr ""
  end.

(** [cluster.get("content_title", "Cluster")] on an object *)
Definition title_of (cluster : pyval) : pyval :=
  match field "content_title" cluster with
  | Some t => t
  | None => PStr "Cluster"
  end.

(** The Spokes whose parent_topic is the title of [cluster]. *)
Definition children (cluster : pyval) (entries : list pyval) : list pyval :=
  List.filter
    (fun s => has_level "Spoke" s
              && Py.same (parent_of s) (title_of cluster))
    entries.

(** One line for the Pillar, one for each Cluster, and below each Cluster
    one for each of its children. *)
Definition tree_size (entries : list pyval) : nat :=
  S (List.fold_right
       (fun c acc => (S (List.length (children c entries)) + acc)%nat) 0%nat
       (List.filter (has_level "Cluster") entries)).

(** [e.get("user_intent", "Unknown")] on an object *)
Definition intent_of (e : pyval) : pyval :=
  field_or "user_intent" (PStr "Unknown") e.

(** The line of the Pillar, of a Cluster and of a Spoke, read off the
    fields of the entry. *)
Definition pillar_line (p : pyval) : string :=
  "**" ++ Py.str (field_or "content_title" (PStr "Pillar") p)
  ++ "** (Priority: " ++ Py.str (field_or "priority_score" (PStr "") p)
  ++ ")".

Definition cluster_line (prefix : string) (c : pyval) : string :=
  "&nbsp;&nbsp;" ++ prefix ++ " **"
  ++ Py.str (field_or "content_title" (PStr "Cluster") c)
  ++ "** (Priority: " ++ Py.str (field_or "priority_score" (PStr "") c)
  ++ ")".

Definition child_line (prefix : string) (s : pyval) : string :=
  "&nbsp;&nbsp;&nbsp;&nbsp;&nbsp;&nbsp;" ++ prefix ++ " "
  ++ Py.str (field_or "content_title" (PStr "Spoke") s)
  ++ " (Priority: " ++ Py.str (field_or "priority_score" (PStr "") s)
  ++ ")".

(** [f last x] for each [x] of a list, [last] telling the last one. *)
Fixpoint map_last {A B : Type} (f : bool -> A -> B) (l : list A) : list B :=
  match l with
  | [] => []
  | x :: rest =>
      f (match rest with [] => true | _ :: _ => false end) x
      :: map_last f rest
  end.

Section Shown.

Variables tee elbow : string.

Definition branch (last : bool) : string := if last then elbow else tee.

(** The lines of a Cluster: its own, and below it the lines of the Spokes
    whose parent_topic is its title. *)
Definition cluster_block (entries : list pyval) (last : bool) (c : pyval)
  : list string :=
  cluster_line (branch last) c
  :: map_last (fun last s => child_line (branch last) s)
       (children c entries).

(** The tree of a map, read off its entries: the line of the first Pillar
    and the lines of each Cluster, in the order of the entries; [None]
    without a Pillar. *)
Definition tree_lines (entries : list pyval) : option (list string) :=
  match List.filter (has_level "Pillar") entries with
  | [] => None
  | pillar :: _ =>
      Some (pillar_line pillar
            :: List.concat
                 (map_last (cluster_block entries)
                    (List.filter (has_level "Cluster") entries)))
  end.

End Shown.

End ResultsTable.

(** ** Sample data for the rest of the code *)

(** A search result: a title that asks a question, and a snippet with a
    figure. *)
Definition sample_search_result : pyval :=
  PDict [("url", PStr "https://example.com/guide");
         ("title", PStr "What is content marketing and how to start?");
         ("content",
          PStr "Budgets grew by 25% last year. Why does content marketing work so well? It builds trust.")].

(** A search engine that answers every query with the same result. *)
Definition sample_tavily : Tavily.environment :=
  {| Tavily.TAVILY_API_KEY := "tvly-sample";
     Tavily.search := fun _ _ =>
       Ok (PDict [("answer", PStr "A strategy built on useful content.");
                  ("results", PList [sample_search_result])]) |}.

(** The report of the sample research. *)
Definition sample_research : result pyval * list Tavily.event :=
  Tavily.perform_research sample_tavily 2025 "Content Marketing" None None [].

Definition sample_report : pyval :=
  match fst sample_research with
  | inr r => r
  | inl _ => PNone
  end.

(** A Drive in which the folder exists. *)
Definition sample_drive : Gdrive.environment :=
  {| Gdrive.GOOGLE_CLIENT_ID := "client";
     Gdrive.GOOGLE_CLIENT_SECRET := "secret";
     Gdrive.answer := fun _ c =>
       match c with
       | Gdrive.ListFiles _ =>
           Ok (PDict [("files", PList [PDict [("id", PStr "folder-1")]])])
       | Gdrive.CreateFile _ _ _ =>
           Ok (PDict [("id", PStr "file-1");
                      ("webViewLink", PStr "https://drive.example/file-1")])
       | _ => Ok (PDict [])
       end |}.

(** The sidebar with a topic and two competitors. *)
Definition sample_widgets : Sidebar.widgets :=
  {| Sidebar.w_topic := " Content Marketing ";
     Sidebar.w_scope := SCOPE_FOCUSED;
     Sidebar.w_industry := "";
     Sidebar.w_audience := "";
     Sidebar.w_geo_focus := "";
     Sidebar.w_competitors := "hubspot.com, , moz.com";
     Sidebar.w_existing_content := "";
     Sidebar.w_gdrive_toggle := false;
     Sidebar.w_gdrive_folder := "" |}.


(** ** The vocabulary of the hierarchy *)

(** No two of the clusters bear the same title. *)
Fixpoint distinct_titles (clusters : list pyval) : bool :=
  match clusters with
  | [] => true
  | c :: rest =>
      negb (existsb
              (fun c' => Py.same (ResultsTable.title_of c)
                           (ResultsTable.title_of c')) rest)
      && distinct_titles rest
  end.

(** The entry is a Spoke whose parent_topic is the title of [cluster]. *)
Definition child_of (s cluster : pyval) : bool :=
  has_level "Spoke" s
  && Py.same (ResultsTable.parent_of s) (ResultsTable.title_of cluster).

(** The Spoke is filed under a Cluster of the map. *)
Definition has_cluster (entries : list pyval) (s : pyval) : bool :=
  existsb (child_of s) (List.filter (has_level "Cluster") entries).

(** The sum of [f] over a list. *)
Definition total_of {A : Type} (f : A -> nat) (l : list A) : nat :=
  List.fold_right (fun x acc => (f x + acc)%nat) 0%nat l.

(** A count of the intent distribution: one of the four intents, met at
    least once. *)
Definition valid_intent_count (kn : pyval * nat) : Prop :=
  (exists x, fst kn = PStr x /\ In x VALID_INTENTS) /\ (1 <= snd kn)%nat.

(** ** More sample data *)

(** A Spoke with a score out of range, whose title quotes the message that
    the article is about; and the same Spoke under another title. *)
Definition quoting_spoke : pyval :=
  sample_entry (PStr "Spoke")
    (PStr "How to fix Missing required field errors") (PStr "Strategy")
    (PInt 9).

Definition plain_spoke : pyval :=
  sample_entry (PStr "Spoke") (PStr "How to fix form errors")
    (PStr "Strategy") (PInt 9).

(** The response that holds the Pillar, the Cluster and a third entry. *)
Definition sample_text_with (e : pyval) : string :=
  "[" ++ sample_json sample_pillar ++ "," ++ nl
  ++ sample_json sample_cluster ++ "," ++ nl
  ++ sample_json e ++ nl ++ "]".

(** A validated map whose Spoke names no parent; and one whose Spoke has an
    empty list there. *)
Definition orphan_map : list pyval :=
  [sample_pillar; sample_cluster;
   sample_entry (PStr "Spoke") (PStr "Editorial calendars") (PStr "")
     (PInt 3)].

Definition list_parent_map : list pyval :=
  [sample_pillar; sample_cluster;
   sample_entry (PStr "Spoke") (PStr "Editorial calendars") (PList [])
     (PInt 3)].

(** A Spoke whose user_intent is [null], and the map that holds it. *)
Definition null_intent_spoke : pyval :=
  PDict [("level", PStr "Spoke"); ("content_title", PStr "Editorial calendars");
         ("primary_keyword", PStr "content marketing");
         ("user_intent", PNone);
         ("semantic_entities", PList [PStr "SEO"; PStr "blog"; PStr "funnel"]);
         ("content_type", PStr "Explainer");
         ("rag_directions", PStr "Lead with the answer.");
         ("paa_questions", PList [PStr "What is it?"; PStr "Why does it matter?"]);
         ("citations", PList [PStr "Survey data"]);
         ("parent_topic", PStr "Strategy"); ("priority_score", PInt 3);
         ("word_count_range", PStr "1000-2000");
         ("internal_link_targets", PList [])].

Definition null_intent_map : list pyval :=
  [sample_pillar; sample_cluster; null_intent_spoke].

(* ================================================================== *)
(** * Part II: properties *)
(* ================================================================== *)

(** ** The per-entry checks *)

Section Validator.

Variable sd : set_display.

Lemma filter_none {A} (p : A -> bool) (l : list A) :
  forallb p l = true -> List.filter (fun x => negb (p x)) l = [].
Proof.
  induction l as [|x l IH]; simpl; [reflexivity|].
  intros H. apply andb_prop in H as [Hx Hl].
  rewrite Hx. simpl. auto.
Qed.

Lemma filter_some {A} (p : A -> bool) (l : list A) (x : A) :
  In x l -> p x = false -> List.filter (fun x => negb (p x)) l <> [].
Proof.
  intros Hin Hp Hnil.
  assert (Hx : In x (List.filter (fun x => negb (p x)) l)).
  { apply filter_In. split; [assumption|]. now rewrite Hp. }
  rewrite Hnil in Hx. contradiction.
Qed.

(** On an object, the loop over the required fields reports exactly the
    absent ones, in order. *)
Lemma missing_fields_dict (fields : list string) (d : list (string * pyval)) :
  missing_fields fields (PDict d)
  = Ok (List.map missing_field_msg
          (List.filter (fun f => negb (has_field (PDict d) f)) fields)).
Proof.
  induction fields as [|f fields IH]; [reflexivity|].
  cbn [missing_fields List.filter]. rewrite IH.
  unfold has_field at 2. cbn [field Py.contains rbind Ok].
  destruct (Py.assoc f d); reflexivity.
Qed.

Lemma has_fields_lookup (e : pyval) (f : string) :
  has_fields e = true -> In f required_fields ->
  exists v, field f e = Some v.
Proof.
  intros H Hin. unfold has_fields in H.
  rewrite forallb_forall in H. specialize (H f Hin).
  unfold has_field in H. destruct (field f e) as [v|]; [eauto|discriminate].
Qed.

Lemma required_level : In "level" required_fields.
Proof. simpl; tauto. Qed.

Lemma required_title : In "content_title" required_fields.
Proof. simpl; tauto. Qed.

Lemma required_intent : In "user_intent" required_fields.
Proof. simpl; tauto. Qed.

Lemma required_parent : In "parent_topic" required_fields.
Proof. simpl; tauto. Qed.

Lemma required_score : In "priority_score" required_fields.
Proof. simpl; tauto. Qed.

(** An entry that lacks a field gets the missing-field messages and nothing
    else: the remaining checks are skipped. *)
Lemma validate_entry_incomplete (d : list (string * pyval)) :
  has_fields (PDict d) = false ->
  validate_entry sd (PDict d)
  = Ok (List.map missing_field_msg
          (List.filter (fun f => negb (has_field (PDict d) f)) required_fields))
  /\ List.filter (fun f => negb (has_field (PDict d) f)) required_fields <> [].
Proof.
  intros H.
  assert (Hne : List.filter (fun f => negb (has_field (PDict d) f))
                  required_fields <> []).
  { unfold has_fields in H.
    destruct (forallb (has_field (PDict d)) required_fields) eqn:E;
      [discriminate|].
    intros Hnil.
    assert (forallb (has_field (PDict d)) required_fields = true).
    { apply forallb_forall. intros f Hf.
      destruct (has_field (PDict d) f) eqn:Ef; [reflexivity|].
      exfalso. eapply (filter_some (has_field (PDict d))); eauto. }
    congruence. }
  split; [|assumption].
  unfold validate_entry. rewrite missing_fields_dict.
  cbn [rbind Ok].
  destruct (List.filter _ required_fields); [congruence|reflexivity].
Qed.

Lemma validate_entry_complete (d : list (string * pyval))
  (level intent score entities paa citations : pyval) :
  has_fields (PDict d) = true ->
  Py.assoc "level" d = Some level ->
  Py.assoc "user_intent" d = Some intent ->
  Py.assoc "priority_score" d = Some score ->
  Py.assoc "semantic_entities" d = Some entities ->
  Py.assoc "paa_questions" d = Some paa ->
  Py.assoc "citations" d = Some citations ->
  validate_entry sd (PDict d)
  = complete_entry_checks sd level intent score entities paa citations.
Proof.
  intros H Hl Hi Hs He Hp Hc.
  unfold validate_entry. rewrite missing_fields_dict.
  rewrite (filter_none _ _ H).
  cbn [List.map rbind Ok Py.getitem Py.get].
  rewrite Hl, Hi, Hs, He, Hp, Hc.
  unfold complete_entry_checks, Ok. cbn [rbind].
  destruct (Py.in_str_set level VALID_LEVELS) as [e|level_ok];
    [reflexivity|]. cbn [rbind].
  destruct (Py.in_str_set intent VALID_INTENTS) as [e|intent_ok];
    reflexivity.
Qed.

End Validator.

Section PriorityScore.
Variable sd : set_display.

Lemma required_entities : In "semantic_entities" required_fields.
Proof. simpl; tauto. Qed.

Lemma required_paa : In "paa_questions" required_fields.
Proof. simpl; tauto. Qed.

Lemma required_citations : In "citations" required_fields.
Proof. simpl; tauto. Qed.

(** A checkable object with the 13 fields is validated without an
    exception, by the checks on its six validated fields. *)
Lemma validate_entry_checkable (d : list (string * pyval)) :
  checkable (PDict d) = true ->
  has_fields (PDict d) = true ->
  exists level intent score entities paa citations level_ok intent_ok,
    Py.assoc "level" d = Some level
    /\ Py.assoc "user_intent" d = Some intent
    /\ Py.assoc "priority_score" d = Some score
    /\ Py.in_str_set level VALID_LEVELS = Ok level_ok
    /\ Py.in_str_set intent VALID_INTENTS = Ok intent_ok
    /\ validate_entry sd (PDict d)
       = Ok (when (negb level_ok) (invalid_level_msg sd level)
             ++ when (negb intent_ok) (invalid_intent_msg sd intent)
             ++ when (score_invalid score) (invalid_score_msg score)
             ++ when (len_outside entities 3 (Some 5%nat)) (entities_msg entities)
             ++ when (len_outside paa 2 None) (paa_msg paa)
             ++ when (len_outside citations 1 None) (citations_msg citations))%list.
Proof.
  intros Hc Hf.
  destruct (has_fields_lookup _ _ Hf required_level) as [level Hl].
  destruct (has_fields_lookup _ _ Hf required_intent) as [intent Hi].
  destruct (has_fields_lookup _ _ Hf required_score) as [score Hs].
  destruct (has_fields_lookup _ _ Hf required_entities) as [entities He].
  destruct (has_fields_lookup _ _ Hf required_paa) as [paa Hp].
  destruct (has_fields_lookup _ _ Hf required_citations) as [citations Hci].
  unfold checkable in Hc. rewrite Hf, Hl, Hi in Hc. cbn [implb] in Hc.
  apply andb_prop in Hc as [Hhl Hhi].
  cbn [field] in Hl, Hi, Hs, He, Hp, Hci.
  exists level, intent, score, entities, paa, citations.
  exists (existsb (fun x => Py.eqb level (PStr x)) VALID_LEVELS).
  exists (existsb (fun x => Py.eqb intent (PStr x)) VALID_INTENTS).
  repeat split; try assumption.
  - unfold Py.in_str_set. now rewrite Hhl.
  - unfold Py.in_str_set. now rewrite Hhi.
  - rewrite (validate_entry_complete sd d level intent score entities paa
               citations); try assumption.
    unfold complete_entry_checks, Py.in_str_set. rewrite Hhl, Hhi.
    reflexivity.
Qed.

Lemma existsb_when (p : string -> bool) (b : bool) (m : string) :
  p m = false -> existsb p (when b m) = false.
Proof. intros H. destruct b; simpl; [now rewrite H|reflexivity]. Qed.

(** C8.  For every entry that is an object with all 13 required fields,
    whose level and user_intent can be hashed, [validate_entry] returns its
    messages, and among them "Invalid priority_score '<value>'.  Must be
    integer 1-5" whenever the priority_score is no instance of [int], or is
    an [int] below 1 or above 5; when it is an [int] from 1 to 5, 1 and 5
    included, no message about the priority_score is returned.  A Boolean
    is an instance of [int]: [False] is reported, as 0, and [True] is
    accepted, as 1, although it is no integer of the document. *)
Theorem priority_score_checked (d : list (string * pyval)) (score : pyval) :
  checkable (PDict d) = true ->
  has_fields (PDict d) = true ->
  field "priority_score" (PDict d) = Some score ->
  exists errs,
    validate_entry sd (PDict d) = Ok errs
    /\ (Py.isinstance_int score = false -> In (invalid_score_msg score) errs)
    /\ (forall n, score = PInt n -> n < 1 \/ 5 < n ->
        In (invalid_score_msg score) errs)
    /\ (forall n, score = PInt n -> 1 <= n <= 5 ->
        existsb is_score_msg errs = false)
    /\ (score = PBool false ->
        In "Invalid priority_score 'False'. Must be integer 1-5" errs)
    /\ (score = PBool true -> existsb is_score_msg errs = false).
Proof.
  intros Hc Hf Hs.
  destruct (validate_entry_checkable d Hc Hf)
    as (level & intent & score' & entities & paa & citations & lok & iok
        & Hl & Hi & Hs' & _ & _ & Hv).
  cbn [field] in Hs. rewrite Hs in Hs'. injection Hs' as <-.
  eexists. split; [exact Hv|].
  assert (Hin : score_invalid score = true ->
                In (invalid_score_msg score)
                  (when (negb lok) (invalid_level_msg sd level)
                   ++ when (negb iok) (invalid_intent_msg sd intent)
                   ++ when (score_invalid score) (invalid_score_msg score)
                   ++ when (len_outside entities 3 (Some 5%nat)) (entities_msg entities)
                   ++ when (len_outside paa 2 None) (paa_msg paa)
                   ++ when (len_outside citations 1 None) (citations_msg citations))%list).
  { intros E. rewrite E. apply in_or_app. right. apply in_or_app. right.
    simpl. now left. }
  assert (Hout : score_invalid score = false ->
                 existsb is_score_msg
                   (when (negb lok) (invalid_level_msg sd level)
                    ++ when (negb iok) (invalid_intent_msg sd intent)
                    ++ when (score_invalid score) (invalid_score_msg score)
                    ++ when (len_outside entities 3 (Some 5%nat)) (entities_msg entities)
                    ++ when (len_outside paa 2 None) (paa_msg paa)
                    ++ when (len_outside citations 1 None) (citations_msg citations))%list
                 = false).
  { intros Hsc. rewrite !existsb_app, Hsc. cbn [when existsb].
    rewrite !existsb_when by reflexivity. reflexivity. }
  split; [|split; [|split; [|split]]].
  - intros Hint. apply Hin. destruct score; try reflexivity; discriminate.
  - intros n -> Hn. apply Hin. unfold score_invalid. cbn [Py.as_int].
    destruct Hn as [Hn|Hn].
    + apply Z.ltb_lt in Hn. now rewrite Hn.
    + apply Z.ltb_lt in Hn. rewrite Hn. apply orb_true_r.
  - intros n -> [H1 H5]. apply Hout. unfold score_invalid. cbn [Py.as_int].
    apply orb_false_iff. split; apply Z.ltb_ge; assumption.
  - intros ->. now apply (Hin eq_refl).
  - intros ->. now apply Hout.
Qed.
End PriorityScore.

Section PerEntry.
Variable sd : set_display.

Lemma has_fields_dict (e : pyval) :
  has_fields e = true -> exists d, e = PDict d.
Proof.
  destruct e; try (intros H; discriminate H). eauto.
Qed.

Lemma text_in_inv (l : list string) (v : option pyval) :
  text_in l v = true ->
  exists s, v = Some (PStr s) /\ existsb (String.eqb s) l = true.
Proof.
  destruct v as [[| | | |s| |]|]; try discriminate. eauto.
Qed.

Lemma in_str_set_text (s : string) (l : list string) :
  Py.in_str_set (PStr s) l = Ok (existsb (String.eqb s) l).
Proof. reflexivity. Qed.

Lemma list_of_length_inside (lo : nat) (hi : option nat) (v : option pyval) :
  list_of_length lo hi v = true ->
  exists x, v = Some x /\ len_outside x lo hi = false.
Proof.
  destruct v as [[| | | | |l|]|]; try discriminate.
  intros H. exists (PList l). split; [reflexivity|].
  cbn [list_of_length] in H. cbn [len_outside].
  apply andb_prop in H as [H1 H2].
  apply Nat.leb_le in H1.
  apply orb_false_iff. split.
  - apply Nat.ltb_ge. exact H1.
  - destruct hi as [h|]; [|reflexivity].
    apply Nat.leb_le in H2. apply Nat.ltb_ge. exact H2.
Qed.

(** An entry that passes the per-entry checks gets no message. *)
Lemma validate_entry_passes (e : pyval) :
  passes_entry_checks e = true -> validate_entry sd e = Ok [].
Proof.
  unfold passes_entry_checks. intros H.
  apply andb_prop in H as [H H0]. apply andb_prop in H as [H H1].
  apply andb_prop in H as [H H2]. apply andb_prop in H as [H H3].
  apply andb_prop in H as [H H4]. apply andb_prop in H as [H H5].
  destruct (has_fields_dict e H) as [d ->].
  destruct (text_in_inv _ _ H5) as (level & Hl & Hlv).
  destruct (text_in_inv _ _ H4) as (intent & Hi & Hiv).
  destruct (field "priority_score" (PDict d)) as [[| |n| | | |]|] eqn:Hs;
    try discriminate.
  destruct (list_of_length_inside _ _ _ H2) as (entities & He & Hev).
  destruct (list_of_length_inside _ _ _ H1) as (paa & Hp & Hpv).
  destruct (list_of_length_inside _ _ _ H0) as (citations & Hc & Hcv).
  cbn [field] in *.
  rewrite (validate_entry_complete sd d _ _ _ _ _ _ H Hl Hi Hs He Hp Hc).
  unfold complete_entry_checks.
  rewrite !in_str_set_text, Hlv, Hiv, Hev, Hpv, Hcv.
  cbn [int_between] in H3. apply andb_prop in H3 as [Hlo Hhi].
  apply Z.leb_le in Hlo. apply Z.leb_le in Hhi.
  assert (Hsc : score_invalid (PInt n) = false).
  { unfold score_invalid. cbn [Py.as_int].
    apply orb_false_iff. split; apply Z.ltb_ge; lia. }
  rewrite Hsc. reflexivity.
Qed.

(** An entry without message is an object with the 13 fields. *)
Lemma validate_entry_nil_inv (e : pyval) :
  validate_entry sd e = Ok [] -> has_fields e = true.
Proof.
  destruct e as [| | | |s|l|d].
  1-4: intros H; vm_compute in H; discriminate H.
  - unfold validate_entry.
    destruct (missing_fields required_fields (PStr s)) as [x|[|m ms]];
      intros H; cbn [rbind Py.getitem Raise Ok] in H; discriminate H.
  - unfold validate_entry.
    destruct (missing_fields required_fields (PList l)) as [x|[|m ms]];
      intros H; cbn [rbind Py.getitem Raise Ok] in H; discriminate H.
  - intros H. destruct (has_fields (PDict d)) eqn:E; [reflexivity|].
    destruct (validate_entry_incomplete sd d E) as [Hv Hne].
    rewrite Hv in H. exfalso. apply Hne.
    apply (map_eq_nil missing_field_msg). unfold Ok in H. congruence.
Qed.

Lemma prefix_errors_dict (i : nat) (d : list (string * pyval))
  (errs : list string) :
  prefix_errors i (PDict d) errs
  = Ok (List.map (entry_msg i (title_or_unknown (PDict d))) errs).
Proof. destruct errs; reflexivity. Qed.

Lemma prefix_errors_nil_inv (i : nat) (e : pyval) (errs : list string) :
  prefix_errors i e errs = Ok [] -> errs = [].
Proof.
  destruct errs as [|m ms]; [reflexivity|].
  unfold prefix_errors.
  destruct (Py.get e "content_title" (PStr "unknown")); intros H;
    cbn [rbind Ok List.map] in H; discriminate H.
Qed.

(** No per-entry message at all: every entry is without message. *)
Lemma validate_entries_nil_inv (entries : list pyval) (i : nat) :
  validate_entries sd i entries = Ok [] ->
  Forall (fun e => validate_entry sd e = Ok []) entries.
Proof.
  revert i. induction entries as [|e entries IH]; intros i H; [constructor|].
  cbn [validate_entries] in H.
  destruct (validate_entry sd e) as [x|errs] eqn:Ev;
    [cbn [rbind] in H; discriminate H|].
  cbn [rbind] in H.
  destruct (prefix_errors i e errs) as [x|msgs] eqn:Ep;
    [cbn [rbind] in H; discriminate H|].
  cbn [rbind] in H.
  destruct (validate_entries sd (S i) entries) as [x|more] eqn:Em;
    [cbn [rbind] in H; discriminate H|].
  cbn [rbind] in H. unfold Ok in H. injection H as H.
  apply app_eq_nil in H as [-> ->].
  apply prefix_errors_nil_inv in Ep. subst errs.
  constructor; [exact Ev|]. eapply IH. exact Em.
Qed.

Lemma validate_entries_passes (entries : list pyval) (i : nat) :
  forallb passes_entry_checks entries = true ->
  validate_entries sd i entries = Ok [].
Proof.
  revert i. induction entries as [|e entries IH]; intros i H; [reflexivity|].
  cbn [forallb] in H. apply andb_prop in H as [He Hrest].
  cbn [validate_entries]. rewrite (validate_entry_passes e He).
  cbn [rbind Ok prefix_errors]. rewrite (IH (S i) Hrest). reflexivity.
Qed.

(** When every entry has a level, the comprehension is a filter. *)
Lemma with_level_filter (lvl : string) (entries : list pyval) :
  Forall (fun e => has_fields e = true) entries ->
  with_level lvl entries = Ok (List.filter (has_level lvl) entries).
Proof.
  induction 1 as [|e entries He _ IH]; [reflexivity|].
  destruct (has_fields_dict e He) as [d ->].
  destruct (has_fields_lookup _ _ He required_level) as [l Hl].
  cbn [with_level List.filter]. unfold has_level. rewrite Hl.
  cbn [field] in Hl. cbn [Py.getitem]. rewrite Hl, IH. reflexivity.
Qed.

End PerEntry.

Section Reporting.
Variable sd : set_display.

(** C4, amended.  For every entry list on which the per-entry checks give
    no message, and which holds no Pillar entry or more than one,
    [validate_topic_map] returns exactly one message, "Expected exactly 1
    Pillar, found N" with N the number of Pillar entries: no parent check
    is made. *)
Theorem pillar_count_reported (entries : list pyval) :
  validate_entries sd 0 entries = Ok [] ->
  count_level "Pillar" entries <> 1%nat ->
  validate_topic_map sd entries
  = Ok [pillar_count_msg (count_level "Pillar" entries)]
  /\ Text.contains "Expected exactly 1 Pillar"
       (pillar_count_msg (count_level "Pillar" entries)) = true.
Proof.
  intros Hv Hn. split; [|reflexivity].
  assert (Hf : Forall (fun e => has_fields e = true) entries).
  { eapply Forall_impl; [|exact (validate_entries_nil_inv sd entries 0 Hv)].
    intros e. apply validate_entry_nil_inv. }
  unfold validate_topic_map. rewrite Hv. cbn [rbind Ok].
  rewrite !(with_level_filter _ _ Hf). cbn [rbind Ok].
  unfold count_level in *.
  destruct (List.filter (has_level "Pillar") entries) as [|p [|p' ps]];
    [reflexivity| |reflexivity].
  exfalso. apply Hn. reflexivity.
Qed.

(** A checkable entry is validated without an exception. *)
Lemma validate_entry_total (e : pyval) :
  checkable e = true -> exists errs, validate_entry sd e = Ok errs.
Proof.
  intros Hc.
  destruct e as [| | | | | |d]; try discriminate Hc.
  destruct (has_fields (PDict d)) eqn:Hf.
  - destruct (validate_entry_checkable sd d Hc Hf)
      as (? & ? & ? & ? & ? & ? & ? & ? & _ & _ & _ & _ & _ & Hv).
    eauto.
  - destruct (validate_entry_incomplete sd d Hf) as [Hv _]. eauto.
Qed.

Lemma checkable_dict (e : pyval) :
  checkable e = true -> exists d, e = PDict d.
Proof. destruct e; try discriminate. eauto. Qed.

(** Over checkable entries the loop ends without an exception, and every
    message of an entry is in the result, with the index and the title of
    the entry in front. *)
Lemma validate_entries_total (entries : list pyval) (i : nat) :
  forallb checkable entries = true ->
  exists errors,
    validate_entries sd i entries = Ok errors
    /\ forall k e errs err,
         nth_error entries k = Some e ->
         validate_entry sd e = Ok errs ->
         In err errs ->
         In (entry_msg (i + k) (title_or_unknown e) err) errors.
Proof.
  revert i. induction entries as [|e entries IH]; intros i H.
  - exists []. split; [reflexivity|]. intros [|k]; discriminate.
  - cbn [forallb] in H. apply andb_prop in H as [He Hrest].
    destruct (validate_entry_total e He) as [errs Hv].
    destruct (checkable_dict e He) as [d ->].
    destruct (IH (S i) Hrest) as (more & Hm & Hin).
    exists (List.map (entry_msg i (title_or_unknown (PDict d))) errs ++ more)%list.
    split.
    + cbn [validate_entries]. rewrite Hv. cbn [rbind Ok].
      rewrite prefix_errors_dict. cbn [rbind Ok]. rewrite Hm. reflexivity.
    + intros [|k] e' errs' err Hk Hv' Herr; apply in_or_app.
      * left. cbn [nth_error] in Hk. injection Hk as <-.
        rewrite Hv in Hv'. unfold Ok in Hv'. injection Hv' as <-.
        rewrite Nat.add_0_r. now apply in_map.
      * right. cbn [nth_error] in Hk.
        replace (i + S k)%nat with (S i + k)%nat by lia.
        eapply Hin; eauto.
Qed.

(** C3, amended.  For every list of entries that are objects whose level
    and user_intent, when the 13 fields are all there, can be hashed, and
    for every entry [d] at index [i] that lacks a required field [f]:
    [validate_topic_map] returns a list that holds "Missing required field:
    f" prefixed with "Entry i (title): "; the messages of [d] are its
    missing-field messages and nothing else (the remaining per-entry checks
    are skipped); and the list returned is the list of the per-entry
    messages (no structural check is made). *)
Theorem missing_field_reported (entries : list pyval) (i : nat)
  (d : list (string * pyval)) (f : string) :
  forallb checkable entries = true ->
  nth_error entries i = Some (PDict d) ->
  In f required_fields ->
  field f (PDict d) = None ->
  exists errors,
    validate_topic_map sd entries = Ok errors
    /\ In (entry_msg i (title_or_unknown (PDict d)) (missing_field_msg f))
         errors
    /\ validate_entry sd (PDict d)
       = Ok (List.map missing_field_msg
               (List.filter (fun f => negb (has_field (PDict d) f))
                  required_fields))
    /\ validate_entries sd 0 entries = Ok errors.
Proof.
  intros Hc Hi Hf Hnone.
  assert (Hhf : has_fields (PDict d) = false).
  { destruct (has_fields (PDict d)) eqn:E; [|reflexivity].
    destruct (has_fields_lookup _ _ E Hf) as [v Hv]. congruence. }
  destruct (validate_entry_incomplete sd d Hhf) as [Hv _].
  destruct (validate_entries_total entries 0 Hc) as (errors & He & Hin).
  assert (Hmsg : In (entry_msg i (title_or_unknown (PDict d))
                       (missing_field_msg f)) errors).
  { apply (Hin i (PDict d) _ (missing_field_msg f) Hi Hv).
    apply in_map. apply filter_In. split; [assumption|].
    unfold has_field. now rewrite Hnone. }
  exists errors. repeat split; try assumption.
  unfold validate_topic_map. rewrite He. cbn [rbind Ok].
  destruct errors as [|m ms]; [contradiction|reflexivity].
Qed.

End Reporting.

Section Linkage.
Variable sd : set_display.

(** A value equal to a hashable value is hashable. *)
Lemma eqb_hashable (a b : pyval) :
  Py.eqb a b = true -> Py.hashable b = true -> Py.hashable a = true.
Proof.
  destruct a, b; cbn [Py.hashable]; try reflexivity; try discriminate;
    intros H; discriminate H.
Qed.

Lemma title_set_total (cs : list pyval) :
  Forall (fun c => has_fields c = true
                   /\ forall t, field "content_title" c = Some t ->
                                Py.hashable t = true) cs ->
  exists ts,
    title_set cs = Ok ts
    /\ forall c t, In c cs -> field "content_title" c = Some t -> In t ts.
Proof.
  induction 1 as [|c cs [Hf Hh] _ (ts & Hts & Hin)].
  - exists []. split; [reflexivity|]. intros c t [].
  - destruct (has_fields_dict c Hf) as [d ->].
    destruct (has_fields_lookup _ _ Hf required_title) as [t Ht].
    exists (t :: ts). split.
    + cbn [title_set Py.getitem]. cbn [field] in Ht. rewrite Ht.
      cbn [rbind Ok]. rewrite (Hh t Ht), Hts. reflexivity.
    + intros c' t' [<-|Hc'] Ht'.
      * left. congruence.
      * right. eauto.
Qed.

Lemma check_clusters_quiet (pillar_title : pyval) (cs : list pyval) :
  Forall (fun c => has_fields c = true
                   /\ forall parent, field "parent_topic" c = Some parent ->
                                     Py.truthy parent = true ->
                                     Py.eqb parent pillar_title = true) cs ->
  check_clusters pillar_title cs = Ok [].
Proof.
  induction 1 as [|c cs [Hf Hp] _ IH]; [reflexivity|].
  destruct (has_fields_dict c Hf) as [d ->].
  destruct (has_fields_lookup _ _ Hf required_parent) as [parent Hpar].
  cbn [check_clusters Py.get]. cbn [field] in Hpar. rewrite Hpar.
  cbn [rbind Ok].
  destruct (Py.truthy parent) eqn:Et.
  - rewrite (Hp parent Hpar Et). cbn [negb andb rbind Ok]. rewrite IH.
    reflexivity.
  - cbn [andb rbind Ok]. rewrite IH. reflexivity.
Qed.

Lemma check_spokes_quiet (titles : list pyval) (ss : list pyval) :
  Forall (fun s => has_fields s = true
                   /\ forall parent, field "parent_topic" s = Some parent ->
                                     Py.truthy parent = true ->
                                     Py.hashable parent = true
                                     /\ existsb (Py.same parent) titles = true)
    ss ->
  check_spokes titles ss = Ok [].
Proof.
  induction 1 as [|s ss [Hf Hp] _ IH]; [reflexivity|].
  destruct (has_fields_dict s Hf) as [d ->].
  destruct (has_fields_lookup _ _ Hf required_parent) as [parent Hpar].
  cbn [check_spokes Py.get]. cbn [field] in Hpar. rewrite Hpar.
  cbn [rbind Ok].
  destruct (Py.truthy parent) eqn:Et.
  - destruct (Hp parent Hpar Et) as [Hh He].
    unfold Py.in_set. rewrite Hh. cbn [rbind Ok].
    replace (existsb (fun x => Py.same parent x) titles) with true.
    cbn [rbind Ok]. rewrite IH. reflexivity.
  - cbn [rbind Ok]. rewrite IH. reflexivity.
Qed.

Lemma passes_has_fields (e : pyval) :
  passes_entry_checks e = true -> has_fields e = true.
Proof.
  unfold passes_entry_checks. intros H.
  apply andb_prop in H as [H _]. apply andb_prop in H as [H _].
  apply andb_prop in H as [H _]. apply andb_prop in H as [H _].
  apply andb_prop in H as [H _]. apply andb_prop in H as [H _].
  exact H.
Qed.

Lemma titled_inv (lvl : string) (entries : list pyval) (parent : pyval) :
  titled lvl entries parent = true ->
  exists p t, In p entries /\ has_level lvl p = true
              /\ field "content_title" p = Some t
              /\ Py.eqb parent t = true.
Proof.
  unfold titled. intros H. apply existsb_exists in H as (p & Hin & H).
  apply andb_prop in H as [Hl Ht].
  destruct (field "content_title" p) as [t|] eqn:E; [|discriminate].
  exists p, t. auto.
Qed.

(** C1, amended.  For every entry list in which every entry passes all
    per-entry checks, exactly one entry has level Pillar, every Cluster's
    non-empty parent_topic equals the Pillar's content_title, every Spoke's
    non-empty parent_topic equals some Cluster's content_title, and the
    content_title of every Cluster can be hashed (it is no array and no
    object), [validate_topic_map] returns the empty error list. *)
Theorem valid_map_accepted (entries : list pyval) :
  forallb passes_entry_checks entries = true ->
  count_level "Pillar" entries = 1%nat ->
  parents_match "Cluster" "Pillar" entries = true ->
  parents_match "Spoke" "Cluster" entries = true ->
  cluster_titles_hashable entries = true ->
  validate_topic_map sd entries = Ok [].
Proof.
  intros Hpass Hone Hcl Hsp Hhash.
  assert (Hf : Forall (fun e => has_fields e = true) entries).
  { apply Forall_forall. intros e He. apply passes_has_fields.
    rewrite forallb_forall in Hpass. auto. }
  unfold parents_match in Hcl, Hsp. unfold cluster_titles_hashable in Hhash.
  rewrite forallb_forall in Hcl, Hsp, Hhash.
  unfold validate_topic_map.
  rewrite (validate_entries_passes sd entries 0 Hpass). cbn [rbind Ok].
  rewrite !(with_level_filter _ _ Hf). cbn [rbind Ok].
  unfold count_level in Hone.
  destruct (List.filter (has_level "Pillar") entries) as [|pillar [|p' ps]]
    eqn:Epil; try discriminate Hone.
  assert (Hpil : In pillar entries /\ has_level "Pillar" pillar = true).
  { apply filter_In. rewrite Epil. now left. }
  destruct Hpil as [Hpin Hplv].
  assert (Hpf : has_fields pillar = true)
    by (rewrite Forall_forall in Hf; auto).
  destruct (has_fields_dict pillar Hpf) as [pd Hpd].
  destruct (has_fields_lookup _ _ Hpf required_title) as [pt Hpt].
  assert (Hget : Py.getitem pillar "content_title" = Ok pt).
  { subst pillar. cbn [field] in Hpt. cbn [Py.getitem]. now rewrite Hpt. }
  rewrite Hget. cbn [rbind Ok].
  (* the set of the Cluster titles *)
  destruct (title_set_total (List.filter (has_level "Cluster") entries))
    as (ts & Hts & Htin).
  { apply Forall_forall. intros c Hc. apply filter_In in Hc as [Hc Hlv].
    split; [rewrite Forall_forall in Hf; auto|].
    intros t Ht. specialize (Hhash c Hc). rewrite Hlv, Ht in Hhash.
    exact Hhash. }
  rewrite Hts. cbn [rbind Ok].
  (* the Cluster parents *)
  rewrite check_clusters_quiet.
  2:{ apply Forall_forall. intros c Hc. apply filter_In in Hc as [Hc Hlv].
      split; [rewrite Forall_forall in Hf; auto|].
      intros parent Hpar Htr. specialize (Hcl c Hc).
      rewrite Hlv, Hpar, Htr in Hcl. cbn [implb] in Hcl.
      apply titled_inv in Hcl as (p & t & Hp & Hpl & Ht & Heq).
      assert (Hp' : In p (List.filter (has_level "Pillar") entries))
        by (apply filter_In; auto).
      rewrite Epil in Hp'. destruct Hp' as [<-|[]].
      congruence. }
  cbn [rbind Ok].
  (* the Spoke parents *)
  rewrite check_spokes_quiet; [reflexivity|].
  apply Forall_forall. intros s Hs. apply filter_In in Hs as [Hs Hlv].
  split; [rewrite Forall_forall in Hf; auto|].
  intros parent Hpar Htr. specialize (Hsp s Hs).
  rewrite Hlv, Hpar, Htr in Hsp. cbn [implb] in Hsp.
  apply titled_inv in Hsp as (c & t & Hc & Hcl' & Ht & Heq).
  assert (Hc' : In c (List.filter (has_level "Cluster") entries))
    by (apply filter_In; auto).
  split.
  - apply (eqb_hashable parent t Heq).
    specialize (Hhash c Hc). rewrite Hcl', Ht in Hhash. exact Hhash.
  - apply existsb_exists. exists t. split; [eauto|].
    unfold Py.same. rewrite Heq. apply orb_true_r.
Qed.

End Linkage.

(** ** The validator on sample data *)

Lemma valid_map_accepted_witness :
  validate_topic_map source_order sample_map = Ok [].
Proof.
  apply (valid_map_accepted source_order sample_map); reflexivity.
Defined.

(** A list that meets every condition of C1, with a Cluster whose
    content_title is an array: the set of Cluster titles cannot be built. *)
Lemma valid_map_unhashable_title :
  let entries :=
    [sample_pillar;
     sample_entry (PStr "Cluster") (PList [PStr "Strategy"])
       (PStr "Content Marketing") (PInt 1)] in
  forallb passes_entry_checks entries = true
  /\ count_level "Pillar" entries = 1%nat
  /\ parents_match "Cluster" "Pillar" entries = true
  /\ parents_match "Spoke" "Cluster" entries = true
  /\ validate_topic_map source_order entries
     = Raise (TypeError "unhashable type")
  /\ validate_topic_map source_order entries <> Ok [].
Proof. vm_compute. repeat split. discriminate. Qed.

Lemma missing_field_reported_witness :
  exists errors,
    validate_topic_map source_order
      [sample_pillar; PDict [("content_title", PStr "Orphan")]] = Ok errors
    /\ In "Entry 1 (Orphan): Missing required field: level" errors.
Proof.
  destruct (missing_field_reported source_order
              [sample_pillar; PDict [("content_title", PStr "Orphan")]]
              1 [("content_title", PStr "Orphan")] "level")
    as (errors & Hv & Hin & _); try reflexivity.
  - simpl; tauto.
  - exists errors. split; [exact Hv|exact Hin].
Defined.

(** An entry lacks every field and another one holds an array as its
    level: the validator raises, and reports nothing. *)
Lemma missing_field_unhashable_level :
  let entries :=
    [PDict []; sample_entry (PList []) (PStr "T") (PStr "") (PInt 3)] in
  field "level" (PDict []) = None
  /\ validate_topic_map source_order entries
     = Raise (TypeError "unhashable type").
Proof. vm_compute. split; reflexivity. Qed.

Lemma pillar_count_reported_witness :
  validate_topic_map source_order [sample_cluster; sample_spoke]
  = Ok ["Expected exactly 1 Pillar, found 0"].
Proof.
  apply (pillar_count_reported source_order [sample_cluster; sample_spoke]).
  - reflexivity.
  - discriminate.
Defined.

(** No Pillar and a priority_score of 9: the per-entry message is the whole
    result, and the Pillar count is not reported. *)
Lemma pillar_count_not_reported :
  let entries :=
    [sample_entry (PStr "Cluster") (PStr "Strategy") (PStr "") (PInt 9)] in
  count_level "Pillar" entries = 0%nat
  /\ validate_topic_map source_order entries
     = Ok ["Entry 0 (Strategy): Invalid priority_score '9'. Must be integer 1-5"]
  /\ Text.contains "Expected exactly 1 Pillar"
       "Entry 0 (Strategy): Invalid priority_score '9'. Must be integer 1-5"
     = false.
Proof. repeat split; reflexivity. Qed.

Lemma priority_score_checked_witness :
  (exists errs,
     validate_entry source_order
       (sample_entry (PStr "Pillar") (PStr "T") (PStr "") (PStr "high"))
     = Ok errs
     /\ In "Invalid priority_score 'high'. Must be integer 1-5" errs)
  /\ exists errs,
       validate_entry source_order
         (sample_entry (PStr "Pillar") (PStr "T") (PStr "") (PBool true))
       = Ok errs
       /\ existsb is_score_msg errs = false.
Proof.
  split.
  - destruct (priority_score_checked source_order _ (PStr "high")
                (eq_refl : checkable (sample_entry (PStr "Pillar") (PStr "T")
                                        (PStr "") (PStr "high")) = true)
                eq_refl eq_refl)
      as (errs & Hv & Hnon & _).
    exists errs. split; [exact Hv|]. apply Hnon. reflexivity.
  - destruct (priority_score_checked source_order _ (PBool true)
                (eq_refl : checkable (sample_entry (PStr "Pillar") (PStr "T")
                                        (PStr "") (PBool true)) = true)
                eq_refl eq_refl)
      as (errs & Hv & _ & _ & _ & _ & Htrue).
    exists errs. split; [exact Hv|]. apply Htrue. reflexivity.
Defined.

(** All 13 fields, a priority_score of 9 and an array as the level: the
    validator raises before it looks at the score. *)
Lemma priority_score_unhashable_level :
  let entry := sample_entry (PList []) (PStr "T") (PStr "") (PInt 9) in
  has_fields entry = true
  /\ validate_entry source_order entry = Raise (TypeError "unhashable type").
Proof. vm_compute. split; reflexivity. Qed.

(** [True] is an instance of [int] and compares as 1: it is accepted as a
    priority_score. *)
Example priority_score_true_accepted :
  validate_entry source_order
    (sample_entry (PStr "Pillar") (PStr "T") (PStr "") (PBool true))
  = Ok [].
Proof. reflexivity. Qed.

(** ** Text *)

Lemma append_assoc (a b c : string) : (a ++ b) ++ c = a ++ (b ++ c).
Proof. induction a as [|x a IH]; simpl; [reflexivity|now rewrite IH]. Qed.

Lemma length_append (a b : string) :
  String.length (a ++ b) = (String.length a + String.length b)%nat.
Proof. induction a as [|x a IH]; simpl; [reflexivity|now rewrite IH]. Qed.

Lemma rstrip_all_space (s : string) :
  Text.all_space s = true -> Text.rstrip s = "".
Proof.
  induction s as [|c s IH]; [reflexivity|].
  cbn [Text.all_space Text.rstrip]. intros H.
  apply andb_prop in H as [Hc Hs]. rewrite (IH Hs), Hc. reflexivity.
Qed.

Lemma strip_all_space (s : string) :
  Text.all_space s = true -> Text.strip s = "".
Proof. intros H. unfold Text.strip. now rewrite rstrip_all_space. Qed.

(** A blank response is cleaned to the empty text. *)
Lemma clean_all_space (s : string) :
  Text.all_space s = true -> _clean_json_response s = "".
Proof.
  intros H. unfold _clean_json_response. rewrite (strip_all_space s H).
  reflexivity.
Qed.

Lemma rstrip_snoc (x : string) (c : ascii) :
  Text.isspace c = false ->
  Text.rstrip (x ++ String c "") = x ++ String c "".
Proof.
  intros Hc. induction x as [|a x IH].
  - cbn. now rewrite Hc.
  - cbn [append Text.rstrip]. rewrite IH.
    destruct x; reflexivity.
Qed.

Lemma all_space_snoc (x : string) (c : ascii) :
  Text.isspace c = false -> Text.all_space (x ++ String c "") = false.
Proof.
  intros Hc. induction x as [|a x IH]; cbn [append Text.all_space].
  - now rewrite Hc.
  - rewrite IH. apply andb_false_r.
Qed.

Lemma drop_append (n : nat) (y z : string) :
  (n <= String.length y)%nat ->
  Text.drop n (y ++ z) = Text.drop n y ++ z.
Proof.
  revert y. induction n as [|n IH]; intros y H.
  - destruct y; reflexivity.
  - destruct y as [|a y]; [simpl in H; lia|].
    cbn [append Text.drop]. apply IH. simpl in H. lia.
Qed.

(** A text of at least three characters before a backquote is no closing
    fence followed by whitespace only. *)
Lemma not_close_fence (y : string) :
  (3 <= String.length y)%nat ->
  String.prefix fence (y ++ "`") && Text.all_space (Text.drop 3 (y ++ "`"))
  = false.
Proof.
  intros H. rewrite drop_append by exact H.
  rewrite all_space_snoc by reflexivity. apply andb_false_r.
Qed.

Lemma matches_close_fence_newline (s : string) :
  matches_close_fence (String "010" s)
  = if String.prefix fence s
    then String.prefix fence s && Text.all_space (Text.drop 3 s)
    else String.prefix fence (String "010" s)
         && Text.all_space (Text.drop 3 (String "010" s)).
Proof.
  unfold matches_close_fence.
  destruct (String.prefix fence s) eqn:E; rewrite ?E; reflexivity.
Qed.

Lemma matches_close_fence_other (c : ascii) (s : string) :
  Ascii.eqb c "010" = false ->
  matches_close_fence (String c s)
  = String.prefix fence (String c s)
    && Text.all_space (Text.drop 3 (String c s)).
Proof.
  intros H.
  destruct c as [[] [] [] [] [] [] [] []]; try reflexivity; discriminate H.
Qed.

(** The closing fence on a line of its own is removed, and nothing else. *)
Lemma sub_close_fence_fenced (body : string) :
  sub_close_fence (body ++ nl ++ fence) = body.
Proof.
  induction body as [|c body IH]; [reflexivity|].
  cbn [append sub_close_fence].
  replace (matches_close_fence (String c (body ++ nl ++ fence))) with false.
  - now rewrite IH.
  - symmetry.
    assert (Hwhole : String c (body ++ nl ++ fence)
                     = (String c body ++ nl ++ "``") ++ "`").
    { cbn [append]. f_equal.
      rewrite append_assoc. f_equal. }
    assert (Htail : body ++ nl ++ fence = (body ++ nl ++ "``") ++ "`").
    { rewrite append_assoc. f_equal. }
    assert (H1 : String.prefix fence (String c (body ++ nl ++ fence))
                 && Text.all_space
                      (Text.drop 3 (String c (body ++ nl ++ fence))) = false).
    { rewrite Hwhole. apply not_close_fence.
      rewrite length_append. simpl. lia. }
    assert (H2 : String.prefix fence (body ++ nl ++ fence)
                 && Text.all_space (Text.drop 3 (body ++ nl ++ fence))
                 = false).
    { rewrite Htail. apply not_close_fence.
      rewrite length_append. simpl. lia. }
    destruct (Ascii.eqb c "010") eqn:Ec.
    + apply Ascii.eqb_eq in Ec. subst c.
      rewrite matches_close_fence_newline.
      destruct (String.prefix fence (body ++ nl ++ fence)); assumption.
    + rewrite (matches_close_fence_other c _ Ec). exact H1.
Qed.

(** A stripped text between fences is cleaned to itself, up to the commas
    in front of closers. *)
Lemma clean_fenced (body : string) :
  Text.lstrip body = body ->
  Text.rstrip body = body ->
  _clean_json_response (fenced body) = sub_trailing_commas None body.
Proof.
  intros Hl Hr. unfold _clean_json_response, fenced.
  assert (Hs : Text.strip (fence ++ "json" ++ nl ++ body ++ nl ++ fence)
               = fence ++ "json" ++ nl ++ body ++ nl ++ fence).
  { unfold Text.strip.
    replace (fence ++ "json" ++ nl ++ body ++ nl ++ fence)
      with ((fence ++ "json" ++ nl ++ body ++ nl ++ "``") ++ "`").
    - rewrite rstrip_snoc by reflexivity. reflexivity.
    - rewrite !append_assoc. reflexivity. }
  rewrite Hs.
  assert (Ho : sub_open_fence (fence ++ "json" ++ nl ++ body ++ nl ++ fence)
               = Text.lstrip (body ++ nl ++ fence)).
  { reflexivity. }
  rewrite Ho.
  destruct body as [|c body].
  - reflexivity.
  - assert (Hc : Text.isspace c = false).
    { cbn [Text.lstrip] in Hl. destruct (Text.isspace c) eqn:E; [|reflexivity].
      exfalso.
      assert (Hlen : forall s, (String.length (Text.lstrip s)
                                <= String.length s)%nat).
      { induction s as [|a s IHs]; cbn [Text.lstrip]; [lia|].
        destruct (Text.isspace a); simpl; lia. }
      specialize (Hlen body). rewrite Hl in Hlen. simpl in Hlen. lia. }
    cbn [append Text.lstrip]. rewrite Hc.
    change (String c (body ++ nl ++ fence))
      with (String c body ++ nl ++ fence).
    rewrite sub_close_fence_fenced.
    unfold Text.strip. rewrite Hr, Hl. reflexivity.
Qed.

Lemma closer_not_space (c : ascii) :
  is_closer c = true -> Text.isspace c = false.
Proof.
  unfold is_closer. intros H. apply orb_prop in H as [H|H];
    apply Ascii.eqb_eq in H; subst c; reflexivity.
Qed.

(** A comma, whitespace and a closer: the closer alone is kept. *)
Lemma sub_trailing_commas_pending (ws buf : string) (c : ascii)
  (rest : string) :
  Text.all_space ws = true ->
  is_closer c = true ->
  sub_trailing_commas (Some buf) (ws ++ String c rest)
  = String c (sub_trailing_commas None rest).
Proof.
  intros Hws Hc. revert buf.
  induction ws as [|a ws IH]; intros buf.
  - cbn [append sub_trailing_commas].
    now rewrite (closer_not_space c Hc), Hc.
  - cbn [Text.all_space] in Hws. apply andb_prop in Hws as [Ha Hws].
    cbn [append sub_trailing_commas]. rewrite Ha. apply IH. exact Hws.
Qed.

(** *** The fences, in general *)

Lemma append_empty (s : string) : s ++ "" = s.
Proof. induction s as [|c s IH]; cbn [append]; [reflexivity|now rewrite IH]. Qed.

Lemma all_space_append (a b : string) :
  Text.all_space (a ++ b) = Text.all_space a && Text.all_space b.
Proof.
  induction a as [|c a IH]; cbn [append Text.all_space]; [reflexivity|].
  rewrite IH. apply andb_assoc.
Qed.

Lemma lstrip_pad (w x : string) :
  Text.all_space w = true -> Text.lstrip (w ++ x) = Text.lstrip x.
Proof.
  induction w as [|c w IH]; intros H; [reflexivity|].
  cbn [Text.all_space] in H. apply andb_prop in H as [Hc Hw].
  cbn [append Text.lstrip]. rewrite Hc. exact (IH Hw).
Qed.

Lemma rstrip_pad (x w : string) :
  Text.all_space w = true -> Text.rstrip (x ++ w) = Text.rstrip x.
Proof.
  intros H. induction x as [|c x IH].
  - cbn [append]. now rewrite rstrip_all_space.
  - cbn [append Text.rstrip]. now rewrite IH.
Qed.

(** A text that [lstrip] leaves alone is empty or starts with a character
    that is no whitespace. *)
Lemma lstrip_fixed_head (c : ascii) (s : string) :
  Text.lstrip (String c s) = String c s -> Text.isspace c = false.
Proof.
  cbn [Text.lstrip]. destruct (Text.isspace c) eqn:E; [|reflexivity].
  intros H. exfalso.
  assert (Hlen : forall u, (String.length (Text.lstrip u)
                            <= String.length u)%nat).
  { induction u as [|a u IHu]; cbn [Text.lstrip]; [lia|].
    destruct (Text.isspace a); simpl; lia. }
  specialize (Hlen s). rewrite H in Hlen. simpl in Hlen. lia.
Qed.

Lemma lstrip_solid (c : ascii) (s : string) :
  Text.isspace c = false -> Text.lstrip (String c s) = String c s.
Proof. intros H. cbn [Text.lstrip]. now rewrite H. Qed.

(** Padding around a text that [strip] leaves alone is stripped. *)
Lemma strip_pad (w0 x w3 : string) :
  Text.all_space w0 = true -> Text.all_space w3 = true ->
  Text.lstrip x = x -> Text.rstrip x = x ->
  Text.strip (w0 ++ x ++ w3) = x.
Proof.
  intros H0 H3 Hl Hr. unfold Text.strip.
  replace (w0 ++ x ++ w3) with ((w0 ++ x) ++ w3) by apply append_assoc.
  rewrite (rstrip_pad _ w3 H3).
  destruct x as [|c x].
  - rewrite append_empty, (rstrip_all_space w0 H0). reflexivity.
  - pose proof (lstrip_fixed_head c x Hl) as Hc.
    assert (Hrs : Text.rstrip (w0 ++ String c x) = w0 ++ String c x).
    { clear H0. induction w0 as [|a w0 IH]; [exact Hr|].
      cbn [append Text.rstrip]. rewrite IH.
      destruct (w0 ++ String c x) eqn:E; [|reflexivity].
      destruct w0; discriminate E. }
    rewrite Hrs, (lstrip_pad w0 _ H0). exact Hl.
Qed.

Lemma rstrip_fence_end (x : string) :
  Text.rstrip (x ++ fence) = x ++ fence.
Proof.
  replace (x ++ fence) with ((x ++ "``") ++ "`").
  - apply rstrip_snoc. reflexivity.
  - rewrite append_assoc. reflexivity.
Qed.

Lemma rstrip_append_solid (x y : string) :
  y <> "" -> Text.rstrip y = y -> Text.rstrip (x ++ y) = x ++ y.
Proof.
  intros Hy Hr. induction x as [|a x IH]; [exact Hr|].
  cbn [append Text.rstrip]. rewrite IH.
  destruct (x ++ y) eqn:E; [|reflexivity].
  destruct x; [now elim Hy|discriminate E].
Qed.

(** The opening fence: the three backquotes, [json] if it follows, and the
    whitespace after them. *)
Lemma prefix_self (a x : string) : String.prefix a (a ++ x) = true.
Proof.
  induction a as [|c a IH]; [destruct x; reflexivity|].
  cbn [append String.prefix]. destruct (ascii_dec c c); [exact IH|congruence].
Qed.

Lemma sub_open_fence_json (ws r : string) :
  Text.all_space ws = true ->
  sub_open_fence (fence ++ "json" ++ ws ++ r) = Text.lstrip r.
Proof.
  intros H. unfold sub_open_fence. rewrite prefix_self.
  change (Text.drop 3 (fence ++ "json" ++ ws ++ r)) with ("json" ++ ws ++ r).
  cbv zeta. rewrite prefix_self.
  change (Text.drop 4 ("json" ++ ws ++ r)) with (ws ++ r).
  apply lstrip_pad. exact H.
Qed.

Lemma sub_open_fence_bare (ws r : string) :
  Text.all_space ws = true ->
  String.prefix "json" (ws ++ r) = false ->
  sub_open_fence (fence ++ ws ++ r) = Text.lstrip r.
Proof.
  intros H Hj. unfold sub_open_fence. rewrite prefix_self.
  change (Text.drop 3 (fence ++ ws ++ r)) with (ws ++ r).
  cbv zeta. rewrite Hj. apply lstrip_pad. exact H.
Qed.

Lemma sub_open_fence_none (x : string) :
  String.prefix fence x = false -> sub_open_fence x = x.
Proof. intros H. unfold sub_open_fence. now rewrite H. Qed.

Lemma sub_close_fence_cons (c : ascii) (s : string) :
  sub_close_fence (String c s)
  = if matches_close_fence (String c s) then ""
    else String c (sub_close_fence s).
Proof. reflexivity. Qed.

(** The closing fence at the end of a text is removed, with the newline in
    front of it if there is one. *)
Lemma sub_close_fence_end (p : string) :
  exists p',
    sub_close_fence (p ++ fence) = p' /\ (p = p' \/ p = p' ++ nl).
Proof.
  induction p as [|c p IH].
  - exists "". split; [reflexivity|now left].
  - destruct IH as (p' & Hp & Hor).
    destruct p as [|c2 p2].
    + (* one character before the fence *)
      destruct (Ascii.eqb c "010") eqn:Ec.
      * apply Ascii.eqb_eq in Ec. subst c. exists "".
        split; [reflexivity|now right].
      * exists (String c ""). split; [|now left].
        change (String c "" ++ fence) with (String c fence).
        rewrite sub_close_fence_cons.
        rewrite (matches_close_fence_other c _ Ec).
        replace (String.prefix fence (String c fence)
                 && Text.all_space (Text.drop 3 (String c fence)))
          with false.
        -- reflexivity.
        -- symmetry. change (String c fence) with ((String c "``") ++ "`").
           apply not_close_fence. simpl. lia.
    + exists (String c p'). split.
      * change (String c (String c2 p2) ++ fence)
          with (String c (String c2 p2 ++ fence)).
        rewrite sub_close_fence_cons.
        replace (matches_close_fence (String c (String c2 p2 ++ fence)))
          with false.
        -- now rewrite Hp.
        -- symmetry.
           assert (H1 : String.prefix fence (String c (String c2 p2 ++ fence))
                        && Text.all_space
                             (Text.drop 3 (String c (String c2 p2 ++ fence)))
                        = false).
           { replace (String c (String c2 p2 ++ fence))
               with ((String c (String c2 p2) ++ "``") ++ "`").
             - apply not_close_fence. rewrite length_append. simpl. lia.
             - cbn [append]. do 2 f_equal. rewrite append_assoc.
               reflexivity. }
           assert (H2 : String.prefix fence (String c2 p2 ++ fence)
                        && Text.all_space
                             (Text.drop 3 (String c2 p2 ++ fence)) = false).
           { replace (String c2 p2 ++ fence)
               with ((String c2 p2 ++ "``") ++ "`").
             - apply not_close_fence. rewrite length_append. simpl. lia.
             - rewrite append_assoc. reflexivity. }
           destruct (Ascii.eqb c "010") eqn:Ec.
           ++ apply Ascii.eqb_eq in Ec. subst c.
              rewrite matches_close_fence_newline.
              destruct (String.prefix fence (String c2 p2 ++ fence));
                assumption.
           ++ rewrite (matches_close_fence_other c _ Ec). exact H1.
      * destruct Hor as [E|E]; [left|right]; cbn [append]; now rewrite <- E.
Qed.

Lemma strip_without_fence (body ws : string) :
  Text.lstrip body = body -> Text.rstrip body = body ->
  Text.all_space ws = true ->
  Text.strip (sub_close_fence (body ++ ws ++ fence)) = body.
Proof.
  intros Hl Hr Hws.
  replace (body ++ ws ++ fence) with ((body ++ ws) ++ fence)
    by apply append_assoc.
  destruct (sub_close_fence_end (body ++ ws)) as (p' & -> & Hor).
  unfold Text.strip.
  assert (E : Text.rstrip p' = body).
  { destruct Hor as [<-|E].
    - rewrite (rstrip_pad _ _ Hws). exact Hr.
    - rewrite <- (rstrip_pad p' nl eq_refl), <- E, (rstrip_pad _ _ Hws).
      exact Hr. }
  rewrite E. exact Hl.
Qed.

(** What matches [\n?```\s*$]. *)
Lemma matches_close_fence_inv (v : string) :
  matches_close_fence v = true ->
  exists w, Text.all_space w = true
            /\ (v = fence ++ w \/ v = nl ++ fence ++ w).
Proof.
  assert (Hpre : forall t,
            String.prefix fence t && Text.all_space (Text.drop 3 t) = true ->
            exists w, Text.all_space w = true /\ t = fence ++ w).
  { intros t H. apply andb_prop in H as [Hp Hs].
    unfold fence in Hp.
    destruct t as [|a t]; [discriminate Hp|]. cbn [String.prefix] in Hp.
    destruct (ascii_dec "`" a) as [<-|]; [|discriminate Hp].
    destruct t as [|b t]; [discriminate Hp|]. cbn [String.prefix] in Hp.
    destruct (ascii_dec "`" b) as [<-|]; [|discriminate Hp].
    destruct t as [|c t]; [discriminate Hp|]. cbn [String.prefix] in Hp.
    destruct (ascii_dec "`" c) as [<-|]; [|discriminate Hp].
    exists t. split; [exact Hs|reflexivity]. }
  intros H. destruct v as [|c v]; [discriminate H|].
  destruct (Ascii.eqb c "010") eqn:Ec.
  - apply Ascii.eqb_eq in Ec. subst c.
    rewrite matches_close_fence_newline in H.
    destruct (String.prefix fence v) eqn:Ep.
    + rewrite <- Ep in H at 1.
      destruct (Hpre v H) as (w & Hw & ->). exists w. split; [exact Hw|].
      now right.
    + apply andb_prop in H as [Hp _]. discriminate Hp.
  - rewrite (matches_close_fence_other c _ Ec) in H.
    destruct (Hpre _ H) as (w & Hw & E). exists w. split; [exact Hw|].
    now left.
Qed.

Lemma sub_close_fence_suffixes (s : string) :
  (forall u v, s = u ++ v -> matches_close_fence v = false) ->
  sub_close_fence s = s.
Proof.
  induction s as [|c s IH]; intros H.
  - cbn [sub_close_fence]. destruct (matches_close_fence ""); reflexivity.
  - rewrite sub_close_fence_cons, (H "" (String c s) eq_refl).
    f_equal. apply IH. intros u v E. apply (H (String c u) v).
    cbn [append]. now rewrite E.
Qed.

(** A text that does not end with the fence, trailing whitespace aside, is
    left alone. *)
Lemma sub_close_fence_none_at_end (b : string) :
  Text.rstrip b = b -> (forall p, b <> p ++ fence) ->
  sub_close_fence b = b.
Proof.
  intros Hr Hend. apply sub_close_fence_suffixes. intros u v E.
  destruct (matches_close_fence v) eqn:Em; [exfalso|reflexivity].
  destruct (matches_close_fence_inv v Em) as (w & Hw & Hv).
  assert (Hsplit : exists q, b = (q ++ fence) ++ w).
  { destruct Hv as [->| ->].
    - exists u. rewrite E. now rewrite append_assoc.
    - exists (u ++ nl). rewrite E. now rewrite !append_assoc. }
  destruct Hsplit as (q & Eq).
  assert (Hb : Text.rstrip b = q ++ fence).
  { rewrite Eq, (rstrip_pad _ _ Hw). apply rstrip_fence_end. }
  rewrite Hr in Hb. exact (Hend q Hb).
Qed.

(** *** The commas, in general *)

Lemma sub_trailing_commas_other (c : ascii) (s : string) :
  Ascii.eqb c "," = false ->
  sub_trailing_commas None (String c s)
  = String c (sub_trailing_commas None s).
Proof. intros H. cbn [sub_trailing_commas]. now rewrite H. Qed.

Lemma sub_trailing_commas_kept (ws buf : string) (c : ascii)
  (rest : string) :
  Text.all_space ws = true ->
  Text.isspace c = false -> is_closer c = false ->
  sub_trailing_commas (Some buf) (ws ++ String c rest)
  = buf ++ ws ++ sub_trailing_commas None (String c rest).
Proof.
  intros Hws Hc Hcl. revert buf.
  induction ws as [|a ws IH]; intros buf.
  - cbn [append sub_trailing_commas]. rewrite Hc, Hcl.
    destruct (Ascii.eqb c ","); reflexivity.
  - cbn [Text.all_space] in Hws. apply andb_prop in Hws as [Ha Hws].
    cbn [append sub_trailing_commas]. rewrite Ha, (IH Hws).
    rewrite append_assoc. reflexivity.
Qed.

Lemma sub_trailing_commas_end (ws buf : string) :
  Text.all_space ws = true ->
  sub_trailing_commas (Some buf) ws = buf ++ ws.
Proof.
  intros Hws. revert buf. induction ws as [|a ws IH]; intros buf.
  - cbn [sub_trailing_commas]. now rewrite append_empty.
  - cbn [Text.all_space] in Hws. apply andb_prop in Hws as [Ha Hws].
    cbn [sub_trailing_commas]. rewrite Ha, (IH Hws).
    rewrite append_assoc. reflexivity.
Qed.

(** The text between the padding, and what the opening fence leaves of
    it. *)
Lemma clean_fences_open (w0 opening body closing w3 : string) :
  Text.all_space w0 = true -> Text.all_space w3 = true ->
  Text.lstrip body = body -> Text.rstrip body = body ->
  (opening = "" -> body <> "") ->
  ((opening = "" /\ String.prefix fence (body ++ closing) = false)
   \/ exists ws,
        Text.all_space ws = true
        /\ (opening = fence ++ "json" ++ ws
            \/ (opening = fence ++ ws
                /\ String.prefix "json" (ws ++ body ++ closing) = false))) ->
  ((closing = "" /\ forall p, body <> p ++ fence)
   \/ exists ws, Text.all_space ws = true /\ closing = ws ++ fence) ->
  exists x,
    Text.strip (w0 ++ opening ++ body ++ closing ++ w3) = x
    /\ sub_open_fence x = Text.lstrip (body ++ closing).
Proof.
  intros H0 H3 Hl Hr Hsome Hopen Hclose.
  destruct Hclose as [[-> Hend]|(ws2 & Hws2 & ->)].
  - (* no closing fence *)
    change ("" ++ w3) with w3. rewrite append_empty.
    destruct Hopen as [[-> Hp]|(ws & Hws & Ho)].
    + exists body. split.
      * cbn [append]. now apply strip_pad.
      * rewrite append_empty in Hp.
        rewrite (sub_open_fence_none _ Hp). now symmetry.
    + destruct body as [|a b].
      * (* only the opening fence *)
        cbn [append].
        destruct Ho as [->|[-> Hj]].
        -- exists (fence ++ "json"). split; [|reflexivity].
           replace (w0 ++ (fence ++ "json" ++ ws) ++ w3)
             with (w0 ++ (fence ++ "json") ++ (ws ++ w3)).
           ++ apply strip_pad; try reflexivity; try assumption.
              rewrite all_space_append, Hws, H3. reflexivity.
           ++ rewrite !append_assoc. reflexivity.
        -- exists fence. split; [|reflexivity].
           replace (w0 ++ (fence ++ ws) ++ w3)
             with (w0 ++ fence ++ (ws ++ w3)).
           ++ apply strip_pad; try reflexivity; try assumption.
              rewrite all_space_append, Hws, H3. reflexivity.
           ++ rewrite !append_assoc. reflexivity.
      * exists (opening ++ String a b). split.
        -- replace (w0 ++ opening ++ String a b ++ w3)
             with (w0 ++ (opening ++ String a b) ++ w3)
             by (rewrite !append_assoc; reflexivity).
           apply strip_pad; try assumption.
           ++ destruct Ho as [->|[-> _]]; reflexivity.
           ++ apply rstrip_append_solid; [discriminate|exact Hr].
        -- destruct Ho as [->|[-> Hj]].
           ++ rewrite !append_assoc.
              exact (sub_open_fence_json ws _ Hws).
           ++ rewrite append_empty in Hj. rewrite append_assoc.
              exact (sub_open_fence_bare ws _ Hws Hj).
  - (* a closing fence *)
    destruct Hopen as [[-> Hp]|(ws & Hws & Ho)].
    + destruct body as [|a b]; [now elim (Hsome eq_refl)|].
      exists (String a b ++ ws2 ++ fence). split.
      * replace (w0 ++ "" ++ String a b ++ (ws2 ++ fence) ++ w3)
          with (w0 ++ (String a b ++ ws2 ++ fence) ++ w3)
          by (cbn [append]; rewrite !append_assoc; reflexivity).
        apply strip_pad; try assumption.
        -- apply lstrip_solid. exact (lstrip_fixed_head a b Hl).
        -- replace (String a b ++ ws2 ++ fence)
             with ((String a b ++ ws2) ++ fence)
             by apply append_assoc.
           apply rstrip_fence_end.
      * rewrite (sub_open_fence_none _ Hp).
        symmetry. apply lstrip_solid.
        exact (lstrip_fixed_head a b Hl).
    + exists (opening ++ body ++ ws2 ++ fence). split.
      * replace (w0 ++ opening ++ body ++ (ws2 ++ fence) ++ w3)
          with (w0 ++ (opening ++ body ++ ws2 ++ fence) ++ w3)
          by (rewrite !append_assoc; reflexivity).
        apply strip_pad; try assumption.
        -- destruct Ho as [->|[-> _]]; reflexivity.
        -- replace (opening ++ body ++ ws2 ++ fence)
             with ((opening ++ body ++ ws2) ++ fence)
             by (rewrite !append_assoc; reflexivity).
           apply rstrip_fence_end.
      * destruct Ho as [->|[-> Hj]].
        -- rewrite !append_assoc.
           exact (sub_open_fence_json ws _ Hws).
        -- rewrite append_assoc.
           exact (sub_open_fence_bare ws _ Hws Hj).
Qed.

(** A closing fence and nothing else: the text is cleaned to the empty
    text. *)
Lemma clean_only_closing (w0 ws w3 : string) :
  Text.all_space w0 = true -> Text.all_space ws = true ->
  Text.all_space w3 = true ->
  _clean_json_response (w0 ++ ws ++ fence ++ w3) = "".
Proof.
  intros H0 Hws H3. unfold _clean_json_response.
  replace (w0 ++ ws ++ fence ++ w3) with ((w0 ++ ws) ++ fence ++ w3)
    by (rewrite !append_assoc; reflexivity).
  rewrite strip_pad; try reflexivity; try assumption.
  rewrite all_space_append, H0, Hws. reflexivity.
Qed.

(** The cleaning of a text with or without fences. *)
Lemma clean_fences (w0 opening body closing w3 : string) :
  Text.all_space w0 = true -> Text.all_space w3 = true ->
  Text.lstrip body = body -> Text.rstrip body = body ->
  ((opening = "" /\ String.prefix fence (body ++ closing) = false)
   \/ exists ws,
        Text.all_space ws = true
        /\ (opening = fence ++ "json" ++ ws
            \/ (opening = fence ++ ws
                /\ String.prefix "json" (ws ++ body ++ closing) = false))) ->
  ((closing = "" /\ forall p, body <> p ++ fence)
   \/ exists ws, Text.all_space ws = true /\ closing = ws ++ fence) ->
  _clean_json_response (w0 ++ opening ++ body ++ closing ++ w3)
  = sub_trailing_commas None body.
Proof.
  intros H0 H3 Hl Hr Hopen Hclose.
  assert (Hcases : (opening = "" /\ body = "") \/ (opening = "" -> body <> "")).
  { destruct opening; [|right; discriminate].
    destruct body; [left; split; reflexivity|right; discriminate]. }
  destruct Hcases as [[-> ->]|Hsome].
  - (* no opening fence and nothing before the closing one *)
    destruct Hclose as [[-> _]|(ws2 & Hws2 & ->)].
    + cbn [append]. rewrite clean_all_space; [reflexivity|].
      rewrite all_space_append, H0, H3. reflexivity.
    + cbn [append]. rewrite !append_assoc.
      now rewrite clean_only_closing.
  - destruct (clean_fences_open w0 opening body closing w3
                H0 H3 Hl Hr Hsome Hopen Hclose) as (x & Hx & Ho).
    unfold _clean_json_response. rewrite Hx, Ho. f_equal.
    destruct body as [|a b].
    + (* nothing between the fences *)
      destruct Hclose as [[-> _]|(ws2 & Hws2 & ->)]; [reflexivity|].
      cbn [append]. rewrite (lstrip_pad ws2 fence Hws2). reflexivity.
    + assert (E : Text.lstrip (String a b ++ closing)
                  = String a b ++ closing).
      { change (String a b ++ closing) with (String a (b ++ closing)).
        apply lstrip_solid. exact (lstrip_fixed_head a b Hl). }
      rewrite E.
      destruct Hclose as [[-> Hend]|(ws2 & Hws2 & ->)].
      * rewrite append_empty, (sub_close_fence_none_at_end _ Hr Hend).
        unfold Text.strip. now rewrite Hr.
      * now apply strip_without_fence.
Qed.

(** C7.  The cleaning step maps the fenced example, an array with a
    trailing comma between a [```json] fence and a closing fence, to the
    text [[{"a":1}]], which decodes to the list of the one object
    [{"a": 1}].

    In general.  A text is whitespace, an opening fence or none, a stripped
    body, a closing fence or none, and whitespace.  The opening fence is
    three backquotes, [json] or not, and any whitespace; the closing fence
    is any whitespace and three backquotes.  (Without an opening fence the
    text does not start with three backquotes; after a fence without
    [json], the text does not go on with [json]; without a closing fence
    the body does not end with three backquotes.)  The text is cleaned to
    its body, without the commas that stand before a closing bracket or
    brace.

    The commas: a comma, any whitespace and a closing bracket or brace are
    replaced by that closer, wherever they stand; a comma followed by
    whitespace and another character, or by the end of the text, is kept,
    and so is every other character. *)
Theorem clean_fenced_trailing_comma :
  _clean_json_response fenced_example = cleaned_example
  /\ json_loads cleaned_example = Ok (inr (PList [PDict [("a", PInt 1)]]))
  /\ (forall w0 opening body closing w3,
        Text.all_space w0 = true -> Text.all_space w3 = true ->
        Text.lstrip body = body -> Text.rstrip body = body ->
        ((opening = "" /\ String.prefix fence (body ++ closing) = false)
         \/ exists ws,
              Text.all_space ws = true
              /\ (opening = fence ++ "json" ++ ws
                  \/ (opening = fence ++ ws
                      /\ String.prefix "json" (ws ++ body ++ closing)
                         = false))) ->
        ((closing = "" /\ forall p, body <> p ++ fence)
         \/ exists ws, Text.all_space ws = true /\ closing = ws ++ fence) ->
        _clean_json_response (w0 ++ opening ++ body ++ closing ++ w3)
        = sub_trailing_commas None body)
  /\ sub_trailing_commas None "" = ""
  /\ (forall c s,
        Ascii.eqb c "," = false ->
        sub_trailing_commas None (String c s)
        = String c (sub_trailing_commas None s))
  /\ (forall ws c rest,
        Text.all_space ws = true -> is_closer c = true ->
        sub_trailing_commas None ("," ++ ws ++ String c rest)
        = String c (sub_trailing_commas None rest))
  /\ (forall ws c rest,
        Text.all_space ws = true ->
        Text.isspace c = false -> is_closer c = false ->
        sub_trailing_commas None ("," ++ ws ++ String c rest)
        = "," ++ ws ++ sub_trailing_commas None (String c rest))
  /\ (forall ws,
        Text.all_space ws = true ->
        sub_trailing_commas None ("," ++ ws) = "," ++ ws).
Proof.
  split; [reflexivity|]. split; [reflexivity|].
  split; [exact clean_fences|]. split; [reflexivity|].
  split; [exact sub_trailing_commas_other|]. split; [|split].
  - intros ws c rest Hws Hc.
    exact (sub_trailing_commas_pending ws "," c rest Hws Hc).
  - intros ws c rest Hws Hc Hcl.
    exact (sub_trailing_commas_kept ws "," c rest Hws Hc Hcl).
  - intros ws Hws. exact (sub_trailing_commas_end ws "," Hws).
Qed.

(** ** The calls of [generate_topic_map] *)

Section Orchestrator.

Variable env : environment.
Variables topic scope industry audience geo_focus competitors
  existing_content compiled_research : string.

Let system := TOPIC_MAP_SYSTEM_PROMPT env.

Let first_prompt :=
  user_prompt env topic scope industry audience geo_focus competitors
    existing_content compiled_research.

Let generate :=
  generate_topic_map env topic scope industry audience geo_focus competitors
    existing_content compiled_research.

(** Every attempt of a call appends its request to the trace. *)
Lemma call_attempts_trace (req : api_request) (remaining : nat) (attempt : Z)
  (t : trace) :
  exists more,
    snd (call_attempts env req remaining attempt t) = (t ++ more)%list
    /\ (remaining <> 0%nat -> exists more', more = Request req :: more').
Proof.
  revert attempt t. induction remaining as [|remaining IH]; intros attempt t.
  - exists []. split; [cbn; now rewrite app_nil_r|congruence].
  - cbn [call_attempts].
    destruct (api env t req) as [text| |msg].
    + exists [Request req]. split; [reflexivity|eauto].
    + destruct (attempt <? 2).
      * unfold bind, emit. cbn [fst snd].
        destruct (IH (attempt + 1)
                    ((t ++ [Request req]) ++ [Sleep (2 ^ (attempt + 1))])%list)
          as (more & Hm & _).
        exists (Request req :: Sleep (2 ^ (attempt + 1)) :: more).
        split; [|eauto].
        destruct (call_attempts env req remaining (attempt + 1) _)
          as [[e|a] t'] eqn:E; cbn [snd] in *; rewrite Hm;
          rewrite <- !app_assoc; reflexivity.
      * exists [Request req]. split; [reflexivity|eauto].
    + exists [Request req]. split; [reflexivity|eauto].
Qed.

(** A call sends the request for its prompt, whatever comes of it. *)
Lemma call_claude_trace (prompt : string) (t : trace) :
  exists more,
    snd (_call_claude env system prompt t)
    = (t ++ Request (request_for env prompt) :: more)%list.
Proof.
  destruct (call_attempts_trace (request_for env prompt) 3 0 t)
    as (more & Hm & Hne).
  destruct Hne as [more' ->]; [discriminate|].
  exists more'. exact Hm.
Qed.

(** The validation sends no request. *)
Lemma validate_and_return_trace (entries : list pyval) (t : trace) :
  snd (validate_and_return env entries t) = t.
Proof.
  unfold validate_and_return. destruct entries as [|e entries];
    [reflexivity|].
  unfold bind, lift.
  destruct (validate_topic_map (display env) (e :: entries)) as [x|errors];
    [reflexivity|].
  destruct (List.filter is_critical errors); reflexivity.
Qed.

(** [generate_topic_map] is the validation of the entry list that the calls
    yield. *)
Lemma generate_topic_map_split (t : trace) :
  generate t
  = bind (obtain_entries env topic scope industry audience geo_focus
            competitors existing_content compiled_research)
      (validate_and_return env) t.
Proof.
  unfold generate, generate_topic_map, obtain_entries.
  destruct (Text.is_empty (ANTHROPIC_API_KEY env)); [reflexivity|].
  unfold bind.
  destruct (_call_claude env (TOPIC_MAP_SYSTEM_PROMPT env) _ t)
    as [[e|raw] t1]; [reflexivity|].
  destruct (lift (_parse_json raw) t1) as [[e|parsed] t1']; [reflexivity|].
  destruct (repair env raw parsed t1') as [[e|[entries|]] t2]; reflexivity.
Qed.

Lemma existsb_filter {A} (p : A -> bool) (l : list A) :
  existsb p l = true <-> List.filter p l <> [].
Proof.
  induction l as [|x l IH]; cbn [existsb List.filter].
  - split; [discriminate|congruence].
  - destruct (p x); cbn [orb]; [split; [discriminate|reflexivity]|exact IH].
Qed.

(** C2, amended.  For every non-empty entry list that the calls of
    [generate_topic_map] yield and on which the validator returns its error
    list (it raises no exception): [generate_topic_map] raises if and only
    if that list holds a critical message, one that contains "Missing
    required field" or "Expected exactly 1 Pillar"; the failure raised is
    the [ValueError] that carries the first 10 critical messages at most;
    and without a critical message the whole entry list is returned. *)
Theorem critical_errors_abort (entries : list pyval) (errors : list string)
  (t t' : trace) :
  obtain_entries env topic scope industry audience geo_focus competitors
    existing_content compiled_research t = (Ok entries, t') ->
  entries <> [] ->
  validate_topic_map (display env) entries = Ok errors ->
  ((exists e, fst (generate t) = Raise e)
   <-> existsb is_critical errors = true)
  /\ (existsb is_critical errors = true ->
      generate t
      = (Raise (ValueError
                  ("Topic map validation failed:" ++ nl
                   ++ Text.join nl
                        (List.firstn 10 (List.filter is_critical errors)))),
         t')
      /\ (List.length (List.firstn 10 (List.filter is_critical errors))
          <= 10)%nat)
  /\ (existsb is_critical errors = false -> generate t = (Ok entries, t')).
Proof.
  intros Hob Hne Hv.
  rewrite generate_topic_map_split. unfold bind. rewrite Hob.
  unfold Ok, Raise in *. cbv beta iota.
  unfold validate_and_return.
  destruct entries as [|e entries]; [congruence|].
  unfold bind, lift. rewrite Hv.
  destruct (existsb is_critical errors) eqn:Ec.
  - pose proof (proj1 (existsb_filter is_critical errors) Ec) as Hf.
    destruct (List.filter is_critical errors) as [|c cs] eqn:Ef;
      [congruence|].
    split; [split; [reflexivity|]|split].
    + intros _. eexists. reflexivity.
    + intros _. split; [reflexivity|]. apply firstn_le_length.
    + discriminate.
  - assert (Hf : List.filter is_critical errors = []).
    { destruct (List.filter is_critical errors) eqn:Ef; [reflexivity|].
      exfalso. assert (existsb is_critical errors = true).
      { apply existsb_filter. rewrite Ef. discriminate. }
      congruence. }
    rewrite Hf. split; [split|split].
    + intros [x Hx]. cbn in Hx. discriminate Hx.
    + discriminate.
    + discriminate.
    + reflexivity.
Qed.

End Orchestrator.

(** ** The repair path *)

Section Repair.

Variable env : environment.
Variables topic scope industry audience geo_focus competitors
  existing_content compiled_research : string.

Let system := TOPIC_MAP_SYSTEM_PROMPT env.

Let first_prompt :=
  user_prompt env topic scope industry audience geo_focus competitors
    existing_content compiled_research.

Let generate :=
  generate_topic_map env topic scope industry audience geo_focus competitors
    existing_content compiled_research.

Hypothesis key_configured : Text.is_empty (ANTHROPIC_API_KEY env) = false.

(** [generate_topic_map] after its first response. *)
Lemma generate_after_response (raw : string) (t t1 : trace) :
  _call_claude env system first_prompt t = (Ok raw, t1) ->
  generate t
  = bind (lift (_parse_json raw))
      (fun parsed =>
         bind (repair env raw parsed)
           (fun entries =>
              match entries with
              | None => raise (ValueError parse_failure_msg)
              | Some entries =>
                  bind (continue_truncated env raw entries)
                    (validate_and_return env)
              end)) t1.
Proof.
  intros Hcall. unfold generate, generate_topic_map.
  rewrite key_configured. unfold bind at 1.
  fold first_prompt. fold system. rewrite Hcall. reflexivity.
Qed.

Lemma parse_json_decoded (text : string) (v : pyval) :
  json_loads (_clean_json_response text) = Ok (inr v) ->
  _parse_json text
  = Ok (match v with PList l => Some l | _ => None end).
Proof.
  intros H. unfold _parse_json. rewrite H. destruct v; reflexivity.
Qed.

Lemma parse_json_error (text e : string) :
  json_loads (_clean_json_response text) = Ok (inl e) ->
  _parse_json text = Ok None.
Proof. intros H. unfold _parse_json. now rewrite H. Qed.

(** C6, at the failing input.  A first response that is JSON and no array
    fails to decode as a JSON array, and yet no repair call is made: the
    parse failure is raised with the trace as the first call left it. *)
Theorem non_array_json_not_repaired (raw : string) (v : pyval)
  (t t1 : trace) :
  _call_claude env system first_prompt t = (Ok raw, t1) ->
  json_loads (_clean_json_response raw) = Ok (inr v) ->
  Py.isinstance_list v = false ->
  generate t = (Raise (ValueError parse_failure_msg), t1).
Proof.
  intros Hcall Hjson Hv.
  rewrite (generate_after_response raw t t1 Hcall).
  unfold bind, lift. rewrite (parse_json_decoded raw v Hjson).
  destruct v; try discriminate Hv;
    unfold repair, bind, lift; rewrite Hjson; reflexivity.
Qed.

(** A first response that does not decode: one repair call is made, with
    the message of the decode error and the first 8000 characters of the
    response; when its answer is no JSON array either, the parse failure is
    raised and no other call is made. *)
Lemma decode_error_repaired_once (raw e fix_response : string)
  (t t1 t2 : trace) :
  _call_claude env system first_prompt t = (Ok raw, t1) ->
  json_loads (_clean_json_response raw) = Ok (inl e) ->
  _call_claude env system
    (JSON_FIX_PROMPT e (Text.take (Z.to_nat 8000) raw)) t1
  = (Ok fix_response, t2) ->
  _parse_json fix_response = Ok None ->
  generate t = (Raise (ValueError parse_failure_msg), t2)
  /\ exists more,
       t2 = (t1 ++ Request (request_for env
                              (JSON_FIX_PROMPT e
                                 (Text.take (Z.to_nat 8000) raw)))
                :: more)%list.
Proof.
  intros Hcall Hjson Hfix Hparse. split.
  - rewrite (generate_after_response raw t t1 Hcall).
    unfold bind, lift. rewrite (parse_json_error raw e Hjson).
    unfold Ok in *. unfold repair, bind, lift. rewrite Hjson.
    fold system. rewrite Hfix, Hparse. reflexivity.
  - destruct (call_claude_trace env
                (JSON_FIX_PROMPT e (Text.take (Z.to_nat 8000) raw)) t1)
      as [more Hm].
    fold system in Hm. rewrite Hfix in Hm. eauto.
Qed.

(** C9.  Whenever the first response is empty or holds whitespace only
    and the repair call answers with a text that parses as a JSON array,
    [generate_topic_map] raises [IndexError]: the truncation check indexes
    the empty text [raw_response.rstrip()]. *)
Theorem blank_response_index_error (raw fix_response : string)
  (entries : list pyval) (t t1 t2 : trace) :
  _call_claude env system first_prompt t = (Ok raw, t1) ->
  Text.all_space raw = true ->
  _call_claude env system
    (JSON_FIX_PROMPT "Expecting value: line 1 column 1 (char 0)"
       (Text.take (Z.to_nat 8000) raw)) t1
  = (Ok fix_response, t2) ->
  _parse_json fix_response = Ok (Some entries) ->
  generate t = (Raise (IndexError "string index out of range"), t2).
Proof.
  intros Hcall Hblank Hfix Hparse.
  assert (Hjson : json_loads (_clean_json_response raw)
                  = Ok (inl "Expecting value: line 1 column 1 (char 0)")).
  { rewrite (clean_all_space raw Hblank). reflexivity. }
  rewrite (generate_after_response raw t t1 Hcall).
  unfold bind, lift. rewrite (parse_json_error raw _ Hjson).
  unfold Ok in *. unfold repair, bind, lift. rewrite Hjson.
  fold system. rewrite Hfix, Hparse.
  unfold continue_truncated. rewrite (rstrip_all_space raw Hblank).
  reflexivity.
Qed.

End Repair.

(** ** The decoder at the end of an array of objects *)

Module JsonFacts.

Import Json.

Lemma run_append (st : state) (a b : string) (pos : nat) :
  run st (a ++ b) pos
  = rbind (run st a pos) (fun st' => run st' b (pos + String.length a)).
Proof.
  revert st pos. induction a as [|c a IH]; intros st pos.
  - cbn. now rewrite Nat.add_0_r.
  - cbn [append run String.length].
    destruct (step st c pos) as [e|st']; [reflexivity|].
    cbn [rbind]. rewrite IH. now rewrite Nat.add_succ_comm.
Qed.

Lemma complete_between (stack : list frame) (v : pyval) (pos : nat)
  (st : state) :
  complete stack v pos = Ok st -> between (snd st) = true.
Proof.
  unfold complete, error, Ok, Raise.
  destruct stack as [|[elems|pairs|pairs k] rest]; intros H;
    try discriminate H; injection H as <-; reflexivity.
Qed.

(** The outcome of completing a value does not depend on the offset. *)
Lemma complete_offset (stack : list frame) (v : pyval) (pos pos' : nat)
  (st : state) :
  complete stack v pos = Ok st -> complete stack v pos' = Ok st.
Proof.
  unfold complete, error, Ok, Raise.
  destruct stack as [|[elems|pairs|pairs k] rest]; intros H;
    try discriminate H; exact H.
Qed.

(** Whitespace between two values changes nothing. *)
Lemma run_ws_between (stack : list frame) (m : mode) (w : string)
  (pos : nat) :
  between m = true -> all_json_ws w = true ->
  run (stack, m) w pos = Ok (stack, m).
Proof.
  intros Hm. revert pos. induction w as [|c w IH]; intros pos Hw;
    [reflexivity|].
  cbn [all_json_ws] in Hw. apply andb_prop in Hw as [Hc Hw].
  cbn [run].
  assert (Hs : step (stack, m) c pos = Ok (stack, m)).
  { destruct m; try discriminate Hm; cbn [step step_plain]; now rewrite Hc. }
  rewrite Hs. cbn [rbind Ok]. apply IH. exact Hw.
Qed.

(** After a closing brace the automaton is between two values, or inside a
    string. *)
Lemma step_brace (st st' : state) (pos : nat) :
  step st "}" pos = Ok st' ->
  between (snd st') = true \/ string_mode (snd st') = true.
Proof.
  destruct st as [stack m]. unfold Ok.
  destruct m; cbn [step step_plain]; cbn; intros H.
  - discriminate H.
  - discriminate H.
  - destruct stack as [|[elems|pairs|pairs k] rest]; try discriminate H.
    left. exact (complete_between _ _ _ _ H).
  - discriminate H.
  - discriminate H.
  - destruct stack as [|[elems|pairs|pairs k] rest]; try discriminate H.
    left. exact (complete_between _ _ _ _ H).
  - discriminate H.
  - injection H as <-. right. reflexivity.
  - discriminate H.
  - discriminate H.
  - destruct (word_value (is_top stack) start w) as [e|v];
      [discriminate H|].
    cbn [rbind] in H.
    destruct (complete stack v pos) as [e|[stack' m']] eqn:Ec;
      [discriminate H|].
    cbn [rbind fst snd] in H.
    pose proof (complete_between _ _ _ _ Ec) as Hb. cbn [snd] in Hb.
    destruct m'; try discriminate Hb; cbn in H.
    + destruct stack' as [|[elems|pairs|pairs k] rest]; try discriminate H.
      left. exact (complete_between _ _ _ _ H).
    + discriminate H.
Qed.

(** Inside a string, a text without a double quote does not end the
    string. *)
Lemma run_inside_string (s : string) (st st' : state) (pos : nat) :
  string_mode (snd st) = true -> no_quote s = true ->
  run st s pos = Ok st' -> string_mode (snd st') = true.
Proof.
  revert st pos. induction s as [|c s IH]; intros [stack m] pos Hm Hq H.
  - cbn in H. unfold Ok in H. injection H as <-. exact Hm.
  - cbn [no_quote] in Hq. apply andb_prop in Hq as [Hc Hq].
    apply negb_true_iff in Hc.
    cbn [run] in H.
    destruct (step (stack, m) c pos) as [e|st1] eqn:Es;
      [discriminate H|].
    cbn [rbind] in H. apply (IH st1 (S pos)); [|exact Hq|exact H].
    cbn [snd] in Hm. unfold Ok in Es.
    destruct m; try discriminate Hm; cbn [step] in Es.
    + rewrite Hc in Es.
      destruct (Ascii.eqb c "\"); [injection Es as <-; reflexivity|].
      destruct (nat_of_ascii c <? 32)%nat; [discriminate Es|].
      injection Es as <-. reflexivity.
    + destruct (Ascii.eqb c "u"); [injection Es as <-; reflexivity|].
      destruct (escape_char c); [|discriminate Es].
      injection Es as <-. reflexivity.
    + destruct (hex_val c); [|discriminate Es].
      destruct digits as [|a [|b [|d [|x xs]]]]; try (injection Es as <-; reflexivity).
      destruct (_ <? 256)%nat; [|discriminate Es].
      injection Es as <-. reflexivity.
Qed.

Lemma finish_string_mode (st : state) (pos : nat) (v : pyval) :
  string_mode (snd st) = true -> finish st pos <> Ok v.
Proof.
  destruct st as [stack m]. cbn [snd]. intros Hm.
  destruct m; try discriminate Hm; discriminate.
Qed.

Lemma ws_no_quote (w : string) : all_json_ws w = true -> no_quote w = true.
Proof.
  induction w as [|c w IH]; [reflexivity|].
  cbn [all_json_ws no_quote]. intros H. apply andb_prop in H as [Hc Hw].
  rewrite (IH Hw), andb_true_r.
  unfold is_ws in Hc.
  repeat (apply orb_prop in Hc as [Hc|Hc]);
    apply Ascii.eqb_eq in Hc; subst c; reflexivity.
Qed.

Lemma no_quote_append (a b : string) :
  no_quote a = true -> no_quote b = true -> no_quote (a ++ b) = true.
Proof.
  induction a as [|c a IH]; [auto|].
  cbn [append no_quote]. intros H Hb. apply andb_prop in H as [Hc Ha].
  now rewrite Hc, IH.
Qed.

(** The closing bracket between two values: the outcome, when there is
    one, does not depend on the offset, and the automaton is between two
    values again. *)
Lemma step_bracket_between (stack : list frame) (m : mode) (pos pos' : nat)
  (st : state) :
  between m = true ->
  step (stack, m) "]" pos = Ok st ->
  step (stack, m) "]" pos' = Ok st /\ between (snd st) = true.
Proof.
  intros Hm. destruct m; try discriminate Hm; cbn [step step_plain]; cbn.
  - destruct stack as [|[elems|pairs|pairs k] rest]; intros H;
      try discriminate H.
    split; [exact (complete_offset _ _ _ pos' _ H)|].
    exact (complete_between _ _ _ _ H).
  - intros H. discriminate H.
Qed.

Lemma finish_between (st : state) (pos pos' : nat) (v : pyval) :
  between (snd st) = true -> finish st pos = Ok v -> finish st pos' = Ok v.
Proof.
  destruct st as [stack m]. cbn [snd]. intros Hm.
  destruct m; try discriminate Hm; cbn [finish]; intros H;
    [discriminate H|exact H].
Qed.

(** A document that ends with a closing brace, whitespace, the closing
    bracket and whitespace decodes to the same value without the
    whitespace. *)
Lemma decode_without_ws (p w w' : string) (v : pyval) :
  all_json_ws w = true ->
  all_json_ws w' = true ->
  decode (p ++ "}" ++ w ++ "]" ++ w') = Ok v ->
  decode (p ++ "}" ++ "]") = Ok v.
Proof.
  intros Hw Hw'. unfold decode.
  replace (p ++ "}" ++ w ++ "]" ++ w') with ((p ++ "}") ++ w ++ "]" ++ w')
    by (now rewrite append_assoc).
  replace (p ++ "}" ++ "]") with ((p ++ "}") ++ "]")
    by (now rewrite append_assoc).
  rewrite (run_append initial (p ++ "}") (w ++ "]" ++ w')).
  rewrite (run_append initial (p ++ "}") "]").
  destruct (run initial (p ++ "}") 0) as [e|[stack m]] eqn:Erun;
    [cbn [rbind]; intros H; discriminate H|].
  cbn [rbind].
  assert (Hlast : between m = true \/ string_mode m = true).
  { rewrite run_append in Erun.
    destruct (run initial p 0) as [e|st0];
      [cbn [rbind] in Erun; discriminate Erun|].
    cbn [rbind run] in Erun.
    destruct (step st0 "}" (0 + String.length p)) as [e|st1] eqn:Es;
      [cbn [rbind] in Erun; discriminate Erun|].
    cbn [rbind] in Erun. unfold Ok in Erun. injection Erun as ->.
    exact (step_brace _ _ _ Es). }
  destruct Hlast as [Hb|Hs].
  - rewrite (run_append (stack, m) w ("]" ++ w')).
    rewrite (run_ws_between stack m w _ Hb Hw). cbn [rbind Ok].
    change ("]" ++ w') with (String "]" w'). cbn [run].
    destruct (step (stack, m) "]" _) as [e|[stack' m']] eqn:Es at 1;
      [cbn [rbind]; intros H; discriminate H|].
    destruct (step_bracket_between stack m _
                (0 + String.length (p ++ "}")) _ Hb Es) as [Es' Hb'].
    rewrite Es'. cbn [rbind Ok]. cbn [snd] in Hb'.
    rewrite (run_ws_between stack' m' w' _ Hb' Hw'). cbn [rbind Ok].
    apply finish_between. exact Hb'.
  - intros H. exfalso.
    destruct (run (stack, m) (w ++ "]" ++ w') _) as [e|st] eqn:Er;
      [cbn [rbind] in H; discriminate H|].
    cbn [rbind] in H.
    eapply (finish_string_mode st); [|exact H].
    eapply (run_inside_string (w ++ "]" ++ w') (stack, m) st);
      [exact Hs| |exact Er].
    apply no_quote_append; [now apply ws_no_quote|].
    apply (no_quote_append "]" w'); [reflexivity|now apply ws_no_quote].
Qed.

(** *** The text of an array that ends with an object *)

Lemma snoc_decompose (s : string) :
  s <> "" ->
  exists s' c, s = s' ++ String c "" /\ String.length s = S (String.length s').
Proof.
  induction s as [|a s IH]; [congruence|]. intros _.
  destruct s as [|b s].
  - exists "", a. split; reflexivity.
  - destruct IH as (s' & c & Hs & Hl); [discriminate|].
    exists (String a s'), c. split.
    + cbn [append]. now rewrite <- Hs.
    + cbn [String.length] in *. now rewrite Hl.
Qed.

(** Induction on a text from its end. *)
Lemma string_snoc_ind (P : string -> Prop) :
  P "" ->
  (forall s c, P s -> P (s ++ String c "")) ->
  forall s, P s.
Proof.
  intros Hnil Hsnoc s.
  remember (String.length s) as n eqn:Hn. revert s Hn.
  induction n as [|n IH]; intros s Hn.
  - destruct s; [exact Hnil|discriminate Hn].
  - destruct (snoc_decompose s) as (s' & c & -> & Hl).
    { intros ->. discriminate Hn. }
    apply Hsnoc. apply IH. lia.
Qed.

Lemma ends_with_object_snoc (l : list pyval) (v : pyval) :
  ends_with_object (l ++ [v])
  = match v with PDict _ => true | _ => false end.
Proof. unfold ends_with_object. now rewrite last_last. Qed.

Lemma number_prefix_scalar (w : string) (v : pyval) (n : nat) :
  number_prefix w = Some (Ok v, n) -> exists z, v = PInt z.
Proof.
  unfold number_prefix, Ok, Raise.
  destruct (match w with String "-" w' => (1%nat, w') | _ => (0%nat, w) end)
    as [sign body].
  destruct (span_digits body) as [digits rest].
  destruct digits as [|d digits']; [discriminate|].
  match goal with |- context [if ?b then _ else _] => destruct b end;
    intros H; [|discriminate H].
  injection H as <- _. eauto.
Qed.

Lemma token_prefix_scalar (w : string) (v : pyval) (n : nat) :
  token_prefix w = Some (Ok v, n) ->
  match v with PList _ | PDict _ => False | _ => True end.
Proof.
  unfold token_prefix.
  destruct (String.prefix "null" w); [intros [= <- _]; exact I|].
  destruct (String.prefix "true" w); [intros [= <- _]; exact I|].
  destruct (String.prefix "false" w); [intros [= <- _]; exact I|].
  destruct (number_prefix w) as [[r n']|] eqn:E.
  - intros [= -> ->]. destruct (number_prefix_scalar _ _ _ E) as [z ->].
    exact I.
  - destruct (String.prefix "NaN" w); [intros [= <- _]; exact I|].
    destruct (String.prefix "Infinity" w); [intros [= <- _]; exact I|].
    destruct (String.prefix "-Infinity" w); [intros [= <- _]; exact I|].
    discriminate.
Qed.

(** The value of a word is no list and no object. *)
Lemma word_value_scalar (top : bool) (start : nat) (w : string) (v : pyval) :
  word_value top start w = Ok v ->
  match v with PList _ | PDict _ => False | _ => True end.
Proof.
  unfold word_value.
  destruct (token_prefix w) as [[r n]|] eqn:E; [|discriminate].
  destruct (n =? String.length w)%nat; [|discriminate].
  intros ->. exact (token_prefix_scalar _ _ _ E).
Qed.

Lemma complete_after (stack : list frame) (v : pyval) (pos : nat)
  (l : list pyval) (stk : list frame) :
  complete stack v pos = Ok (FArr l :: stk, MAfter) ->
  exists elems, l = (elems ++ [v])%list.
Proof.
  unfold complete, error, Ok, Raise.
  destruct stack as [|[elems|pairs|pairs k] rest]; intros H;
    try discriminate H.
  injection H as <- <-. eauto.
Qed.

Lemma complete_done (stack : list frame) (v v' : pyval) (pos : nat)
  (stk : list frame) :
  complete stack v pos = Ok (stk, MDone v') ->
  stack = [] /\ stk = [] /\ v' = v.
Proof.
  unfold complete, error, Ok, Raise.
  destruct stack as [|[elems|pairs|pairs k] rest]; intros H;
    try discriminate H.
  injection H as <- <-. auto.
Qed.

(** A value that is no object does not end a list with an object. *)
Lemma complete_after_object (stack : list frame) (v : pyval) (pos : nat)
  (l : list pyval) (stk : list frame) :
  complete stack v pos = Ok (FArr l :: stk, MAfter) ->
  ends_with_object l = true ->
  match v with PDict _ => True | _ => False end.
Proof.
  intros H Hl. destruct (complete_after _ _ _ _ _ H) as [elems ->].
  rewrite ends_with_object_snoc in Hl. destruct v; try discriminate Hl.
  exact I.
Qed.

Lemma eqb_char (x c : ascii) : Ascii.eqb x c = true -> x = c.
Proof. apply Ascii.eqb_eq. Qed.

Ltac step_cases H :=
  repeat match type of H with
         | context [if ?b then _ else _] =>
             let E := fresh "E" in destruct b eqn:E
         | context [match ?x with _ => _ end] =>
             let E := fresh "E" in destruct x eqn:E
         end.

(** The array being read ends with an object: the character read was the
    closing brace of that object, or whitespace after it. *)
Lemma step_after_object (stk0 : list frame) (m0 : mode) (x : ascii)
  (pos : nat) (stk : list frame) (l : list pyval) :
  step (stk0, m0) x pos = Ok (FArr l :: stk, MAfter) ->
  ends_with_object l = true ->
  x = "}"%char
  \/ (is_ws x = true /\ stk0 = FArr l :: stk /\ m0 = MAfter).
Proof.
  intros H Hl.
  destruct (Ascii.eqb x "}") eqn:Ex; [left; now apply eqb_char|].
  right.
  assert (Hlist : forall stack elems pos',
            complete stack (PList elems) pos' = Ok (FArr l :: stk, MAfter) ->
            False).
  { intros stack elems pos' Hc.
    exact (complete_after_object _ _ _ _ _ Hc Hl). }
  assert (Hstr : forall stack s pos',
            complete stack (PStr s) pos' = Ok (FArr l :: stk, MAfter) ->
            False).
  { intros stack s pos' Hc.
    exact (complete_after_object _ _ _ _ _ Hc Hl). }
  destruct m0; cbn [step step_plain] in H; unfold start_value, error in H.
  - (* MValue *)
    unfold Ok, Raise in H. step_cases H; discriminate H.
  - (* MArrStart *)
    destruct (is_ws x); [discriminate H|].
    destruct (Ascii.eqb x "]").
    + destruct stk0 as [|[elems|pairs|pairs k] rest]; try discriminate H.
      exfalso. eauto.
    + unfold Ok, Raise in H. step_cases H; discriminate H.
  - (* MObjStart *)
    rewrite Ex in H. unfold Ok, Raise in H. step_cases H; discriminate H.
  - (* MObjKey *)
    unfold Ok, Raise in H. step_cases H; discriminate H.
  - (* MColon *)
    unfold Ok, Raise in H. step_cases H; discriminate H.
  - (* MAfter *)
    destruct (is_ws x) eqn:Ew.
    + unfold Ok in H. injection H as ->. auto.
    + rewrite Ex in H.
      destruct stk0 as [|[elems|pairs|pairs k] rest]; try discriminate H.
      * destruct (Ascii.eqb x ","); [discriminate H|].
        destruct (Ascii.eqb x "]"); [exfalso; eauto|discriminate H].
      * destruct (Ascii.eqb x ","); discriminate H.
  - (* MDone *)
    unfold Ok, Raise in H. step_cases H; discriminate H.
  - (* MStr *)
    destruct (Ascii.eqb x Py.dquote).
    + unfold complete_string, error in H.
      destruct is_key.
      * unfold Ok, Raise in H. step_cases H; discriminate H.
      * exfalso. eauto.
    + unfold Ok, Raise in H. step_cases H; discriminate H.
  - (* MEsc *)
    unfold Ok, Raise in H. step_cases H; discriminate H.
  - (* MUni *)
    unfold Ok, Raise in H. step_cases H; discriminate H.
  - (* MWord *)
    destruct (is_terminator x); [|discriminate H].
    destruct (word_value (is_top stk0) start w) as [e|v0] eqn:Ev;
      [discriminate H|].
    cbn [rbind] in H.
    destruct (complete stk0 v0 pos) as [e|[stack' m']] eqn:Ec;
      [discriminate H|].
    cbn [rbind fst snd] in H.
    pose proof (complete_between _ _ _ _ Ec) as Hb. cbn [snd] in Hb.
    pose proof (word_value_scalar _ _ _ _ Ev) as Hscalar.
    destruct m'; try discriminate Hb; cbn [step_plain] in H.
    + destruct (is_ws x).
      * unfold Ok in H. injection H as ->.
        pose proof (complete_after_object _ _ _ _ _ Ec Hl) as Hd.
        destruct v0; contradiction.
      * rewrite Ex in H.
        destruct stack' as [|[elems|pairs|pairs k] rest]; try discriminate H.
        -- destruct (Ascii.eqb x ","); [discriminate H|].
           destruct (Ascii.eqb x "]"); [exfalso; eauto|discriminate H].
        -- destruct (Ascii.eqb x ","); discriminate H.
    + destruct (is_ws x); discriminate H.
Qed.

Lemma step_well_formed (st st' : state) (c : ascii) (pos : nat) :
  well_formed st = true -> step st c pos = Ok st' -> well_formed st' = true.
Proof.
  destruct st as [stk0 m0]. intros Hwf H.
  assert (Hplain : forall stack m,
            well_formed (stack, m) = true ->
            step_plain stack m c pos = Ok st' -> well_formed st' = true).
  { intros stack m Hm Hs.
    destruct m; cbn [step_plain] in Hs;
      unfold complete, start_value, error, Ok, Raise in Hs;
      step_cases Hs; try discriminate Hs;
      injection Hs as <-; first [reflexivity|assumption]. }
  destruct m0; try (exact (Hplain _ _ Hwf H)); cbn [step] in H.
  - unfold complete_string, complete, error, Ok, Raise in H.
    step_cases H; try discriminate H; injection H as <-; reflexivity.
  - unfold error, Ok, Raise in H.
    step_cases H; try discriminate H; injection H as <-; reflexivity.
  - unfold error, Ok, Raise in H.
    step_cases H; try discriminate H; injection H as <-; reflexivity.
  - destruct (is_terminator c);
      [|unfold Ok in H; injection H as <-; reflexivity].
    destruct (word_value (is_top stk0) start w) as [e|v0];
      [discriminate H|].
    cbn [rbind] in H.
    destruct (complete stk0 v0 pos) as [e|[stack' m']] eqn:Ec;
      [discriminate H|].
    cbn [rbind fst snd] in H.
    pose proof (complete_between _ _ _ _ Ec) as Hb. cbn [snd] in Hb.
    apply (Hplain stack' m'); [|exact H].
    destruct m'; try discriminate Hb; reflexivity.
Qed.

Lemma run_well_formed (s : string) (st st' : state) (pos : nat) :
  well_formed st = true -> run st s pos = Ok st' -> well_formed st' = true.
Proof.
  revert st pos. induction s as [|c s IH]; intros st pos Hwf H.
  - cbn in H. unfold Ok in H. now injection H as <-.
  - cbn [run] in H. destruct (step st c pos) as [e|st1] eqn:Es;
      [discriminate H|].
    cbn [rbind] in H. eapply IH; [|exact H].
    exact (step_well_formed _ _ _ _ Hwf Es).
Qed.

(** The document is a list that ends with an object: the character read
    was the closing bracket of that list, or whitespace after it. *)
Lemma step_done_list (stk0 : list frame) (m0 : mode) (x : ascii)
  (pos : nat) (stk : list frame) (l : list pyval) :
  well_formed (stk0, m0) = true ->
  step (stk0, m0) x pos = Ok (stk, MDone (PList l)) ->
  ends_with_object l = true ->
  (x = "]"%char /\ stk0 = [FArr l] /\ m0 = MAfter)
  \/ (is_ws x = true /\ stk0 = stk /\ m0 = MDone (PList l)).
Proof.
  intros Hwf H Hl.
  destruct m0; cbn [step step_plain] in H; unfold start_value, error in H.
  - (* MValue *)
    unfold Ok, Raise in H. step_cases H; discriminate H.
  - (* MArrStart *)
    destruct (is_ws x); [discriminate H|].
    destruct (Ascii.eqb x "]").
    + destruct stk0 as [|[elems|pairs|pairs k] rest]; try discriminate H.
      apply complete_done in H as (_ & _ & [= ->]).
      destruct elems; discriminate.
    + unfold Ok, Raise in H. step_cases H; discriminate H.
  - (* MObjStart *)
    destruct (is_ws x); [discriminate H|].
    destruct (Ascii.eqb x Py.dquote); [discriminate H|].
    destruct (Ascii.eqb x "}"); [|discriminate H].
    destruct stk0 as [|[elems|pairs|pairs k] rest]; try discriminate H.
    apply complete_done in H as (_ & _ & [=]).
  - (* MObjKey *)
    unfold Ok, Raise in H. step_cases H; discriminate H.
  - (* MColon *)
    unfold Ok, Raise in H. step_cases H; discriminate H.
  - (* MAfter *)
    destruct (is_ws x); [discriminate H|].
    destruct stk0 as [|[elems|pairs|pairs k] rest]; try discriminate H.
    + destruct (Ascii.eqb x ","); [discriminate H|].
      destruct (Ascii.eqb x "]") eqn:Ex; [|discriminate H].
      apply complete_done in H as (-> & _ & [= ->]).
      left. split; [now apply eqb_char|auto].
    + destruct (Ascii.eqb x ","); [discriminate H|].
      destruct (Ascii.eqb x "}"); [|discriminate H].
      apply complete_done in H as (_ & _ & [=]).
  - (* MDone *)
    destruct (is_ws x) eqn:Ew; [|discriminate H].
    unfold Ok in H. injection H as -> ->. auto.
  - (* MStr *)
    destruct (Ascii.eqb x Py.dquote).
    + unfold complete_string, error in H.
      destruct is_key.
      * unfold Ok, Raise in H. step_cases H; discriminate H.
      * apply complete_done in H as (_ & _ & [=]).
    + unfold Ok, Raise in H. step_cases H; discriminate H.
  - (* MEsc *)
    unfold Ok, Raise in H. step_cases H; discriminate H.
  - (* MUni *)
    unfold Ok, Raise in H. step_cases H; discriminate H.
  - (* MWord *)
    destruct (is_terminator x); [|discriminate H].
    destruct (word_value (is_top stk0) start w) as [e|v0] eqn:Ev;
      [discriminate H|].
    cbn [rbind] in H.
    destruct (complete stk0 v0 pos) as [e|[stack' m']] eqn:Ec;
      [discriminate H|].
    cbn [rbind fst snd] in H.
    pose proof (complete_between _ _ _ _ Ec) as Hb. cbn [snd] in Hb.
    pose proof (word_value_scalar _ _ _ _ Ev) as Hscalar.
    destruct m'; try discriminate Hb; cbn [step_plain] in H.
    + destruct (is_ws x); [discriminate H|].
      destruct stack' as [|[elems|pairs|pairs k] rest]; try discriminate H.
      * destruct (Ascii.eqb x ","); [discriminate H|].
        destruct (Ascii.eqb x "]"); [|discriminate H].
        apply complete_done in H as (-> & _ & [= ->]).
        destruct (complete_after _ _ _ _ _ Ec) as [elems' ->].
        rewrite ends_with_object_snoc in Hl.
        destruct v0; try discriminate Hl; contradiction.
      * destruct (Ascii.eqb x ","); [discriminate H|].
        destruct (Ascii.eqb x "}"); [|discriminate H].
        apply complete_done in H as (_ & _ & [=]).
    + destruct (is_ws x); [|discriminate H].
      unfold Ok in H. injection H as -> ->.
      apply complete_done in Ec as (_ & _ & [= <-]). contradiction.
Qed.

Lemma all_json_ws_snoc (w : string) (x : ascii) :
  all_json_ws w = true -> is_ws x = true ->
  all_json_ws (w ++ String x "") = true.
Proof.
  intros Hw Hx. induction w as [|c w IH]; cbn [append all_json_ws] in *.
  - now rewrite Hx.
  - apply andb_prop in Hw as [Hc Hw]. now rewrite Hc, IH.
Qed.

(** The text read when the array being read ends with an object: it ends
    with the closing brace of that object and whitespace. *)
Lemma run_after_object (text : string) :
  forall stk l,
    run initial text 0 = Ok (FArr l :: stk, MAfter) ->
    ends_with_object l = true ->
    exists p w, text = p ++ "}" ++ w /\ all_json_ws w = true.
Proof.
  induction text as [|s x IH] using string_snoc_ind; intros stk l H Hl.
  - discriminate H.
  - rewrite run_append in H.
    destruct (run initial s 0) as [e|[stk0 m0]] eqn:Es; [discriminate H|].
    cbn [rbind run] in H.
    destruct (step (stk0, m0) x (0 + String.length s)) as [e|st1] eqn:Ex;
      [discriminate H|].
    cbn [rbind] in H. unfold Ok in H. injection H as ->.
    destruct (step_after_object _ _ _ _ _ _ Ex Hl) as [->|(Hw & -> & ->)].
    + exists s, "". split; reflexivity.
    + destruct (IH stk l eq_refl Hl) as (p & w & -> & Hws).
      exists p, (w ++ String x ""). split.
      * now rewrite !append_assoc.
      * now apply all_json_ws_snoc.
Qed.

(** The text of a document that is a list ending with an object. *)
Lemma run_done_list (text : string) :
  forall stk l,
    run initial text 0 = Ok (stk, MDone (PList l)) ->
    ends_with_object l = true ->
    exists p w w',
      text = p ++ "}" ++ w ++ "]" ++ w'
      /\ all_json_ws w = true /\ all_json_ws w' = true.
Proof.
  induction text as [|s x IH] using string_snoc_ind; intros stk l H Hl.
  - discriminate H.
  - rewrite run_append in H.
    destruct (run initial s 0) as [e|[stk0 m0]] eqn:Es; [discriminate H|].
    cbn [rbind run] in H.
    destruct (step (stk0, m0) x (0 + String.length s)) as [e|st1] eqn:Ex;
      [discriminate H|].
    cbn [rbind] in H. unfold Ok in H. injection H as ->.
    assert (Hwf : well_formed (stk0, m0) = true).
    { exact (run_well_formed s initial _ 0 eq_refl Es). }
    destruct (step_done_list _ _ _ _ _ _ Hwf Ex Hl)
      as [(-> & -> & ->)|(Hw & -> & ->)].
    + destruct (run_after_object s [] l Es Hl) as (p & w & -> & Hws).
      exists p, w, "". split; [|auto].
      now rewrite !append_assoc.
    + destruct (IH stk l eq_refl Hl) as (p & w & w' & -> & Hws & Hws').
      exists p, w, (w' ++ String x ""). split.
      * now rewrite !append_assoc.
      * split; [exact Hws|now apply all_json_ws_snoc].
Qed.

(** A document that decodes to a list ending with an object ends with the
    closing brace of that object, whitespace, the closing bracket and
    whitespace. *)
Lemma decode_list_shape (doc : string) (l : list pyval) :
  decode doc = Ok (PList l) ->
  ends_with_object l = true ->
  exists p w w',
    doc = p ++ "}" ++ w ++ "]" ++ w'
    /\ all_json_ws w = true /\ all_json_ws w' = true.
Proof.
  unfold decode. intros H Hl.
  destruct (run initial doc 0) as [e|[stk m]] eqn:Er; [discriminate H|].
  cbn [rbind] in H.
  destruct m; try discriminate H.
  - cbn [finish] in H. unfold Ok in H. injection H as ->.
    exact (run_done_list doc stk l Er Hl).
  - cbn [finish] in H.
    destruct (word_value (is_top stk) start w) as [e|v0] eqn:Ev;
      [discriminate H|].
    cbn [rbind] in H.
    destruct (complete stk v0 _) as [e|[stack' m']] eqn:Ec;
      [discriminate H|].
    cbn [rbind snd] in H. destruct m'; try discriminate H.
    unfold Ok in H. injection H as ->.
    apply complete_done in Ec as (_ & _ & [= <-]).
    destruct (word_value_scalar _ _ _ _ Ev).
Qed.

End JsonFacts.

(** ** The salvage of the first response *)

Lemma rfind_from_absent (c : ascii) (s : string) (i : Z) :
  Py.has_char c s = false -> Text.rfind_from c s i = -1.
Proof.
  revert i. induction s as [|d s IH]; intros i H; [reflexivity|].
  cbn [Py.has_char] in H. apply orb_false_iff in H as [Hd Hs].
  cbn [Text.rfind_from]. rewrite (IH (i + 1) Hs), Hd. reflexivity.
Qed.

(** The last occurrence of [c] is found where it is. *)
Lemma rfind_from_last (c : ascii) (p t : string) (i : Z) :
  0 <= i -> Py.has_char c t = false ->
  Text.rfind_from c (p ++ String c t) i = i + Z.of_nat (String.length p).
Proof.
  revert i. induction p as [|d p IH]; intros i Hi Ht.
  - cbn [append Text.rfind_from String.length].
    rewrite (rfind_from_absent c t (i + 1) Ht), Ascii.eqb_refl.
    cbn. lia.
  - cbn [append Text.rfind_from String.length].
    rewrite (IH (i + 1)) by (lia || assumption).
    replace (0 <=? i + 1 + Z.of_nat (String.length p)) with true
      by (symmetry; apply Z.leb_le; lia).
    lia.
Qed.

Lemma take_append (p t : string) :
  Text.take (String.length p) (p ++ t) = p.
Proof.
  induction p as [|d p IH]; cbn [append String.length Text.take].
  - destruct t; reflexivity.
  - now rewrite IH.
Qed.

Lemma ws_has_no_brace (w : string) :
  all_json_ws w = true -> Py.has_char "}" w = false.
Proof.
  induction w as [|c w IH]; [reflexivity|].
  cbn [all_json_ws Py.has_char]. intros H.
  apply andb_prop in H as [Hc Hw]. rewrite (IH Hw), orb_false_r.
  unfold Json.is_ws in Hc.
  repeat (apply orb_prop in Hc as [Hc|Hc]);
    apply Ascii.eqb_eq in Hc; subst c; reflexivity.
Qed.

Lemma has_char_append (c : ascii) (a b : string) :
  Py.has_char c (a ++ b) = Py.has_char c a || Py.has_char c b.
Proof.
  induction a as [|d a IH]; [reflexivity|].
  cbn [append Py.has_char]. now rewrite IH, orb_assoc.
Qed.

Lemma ws_no_brace (w w' : string) :
  all_json_ws w = true -> all_json_ws w' = true ->
  Py.has_char "}" (w ++ "]" ++ w') = false.
Proof.
  intros Hw Hw'. rewrite !has_char_append.
  now rewrite (ws_has_no_brace w Hw), (ws_has_no_brace w' Hw').
Qed.

Lemma json_loads_decoded (doc : string) (v : pyval) :
  json_loads doc = Ok (inr v) <-> Json.decode doc = Ok v.
Proof.
  unfold json_loads, Ok. destruct (Json.decode doc) as [[]|v'];
    split; intros H; try discriminate H; congruence.
Qed.

(** The text that the salvage decodes, when the cleaned response ends with
    a closing brace, whitespace, the closing bracket and whitespace: the
    cleaned response without that whitespace. *)
Lemma salvage_text (p w w' : string) :
  all_json_ws w = true ->
  all_json_ws w' = true ->
  let truncated := p ++ "}" ++ w ++ "]" ++ w' in
  Text.rfind "}" truncated = Z.of_nat (String.length p)
  /\ Text.take (Z.to_nat (Text.rfind "}" truncated + 1)) truncated ++ "]"
     = p ++ "}" ++ "]".
Proof.
  intros Hw Hw' truncated.
  assert (Hr : Text.rfind "}" truncated = Z.of_nat (String.length p)).
  { unfold Text.rfind, truncated.
    change (p ++ "}" ++ w ++ "]" ++ w')
      with (p ++ String "}" (w ++ "]" ++ w')).
    rewrite rfind_from_last; [lia|lia|now apply ws_no_brace]. }
  split; [exact Hr|]. rewrite Hr.
  replace (Z.to_nat (Z.of_nat (String.length p) + 1))
    with (String.length (p ++ "}"))
    by (rewrite length_append; simpl; lia).
  unfold truncated.
  replace (p ++ "}" ++ w ++ "]" ++ w') with ((p ++ "}") ++ w ++ "]" ++ w')
    by (now rewrite append_assoc).
  rewrite take_append. now rewrite append_assoc.
Qed.

(** The salvage of a response whose cleaned text decodes to a list that
    ends with an object gives the whole list back, with the continuation
    after it. *)
Lemma salvage_complete_array (raw : string) (L entries K : list pyval) :
  json_loads (_clean_json_response raw) = Ok (inr (PList L)) ->
  ends_with_object L = true ->
  salvage raw entries K = Ok (L ++ K)%list.
Proof.
  intros Hjson Hlast. apply json_loads_decoded in Hjson.
  destruct (JsonFacts.decode_list_shape _ _ Hjson Hlast)
    as (p & w & w' & Hshape & Hw & Hw').
  unfold salvage. rewrite Hshape in *.
  destruct (salvage_text p w w' Hw Hw') as [Hr Hfixed].
  cbv zeta in Hr, Hfixed. rewrite Hfixed, Hr.
  assert (Hp : (0 <? Z.of_nat (String.length p)) = true).
  { destruct p as [|a p]; [discriminate Hjson|].
    apply Z.ltb_lt. simpl. lia. }
  rewrite Hp.
  apply JsonFacts.decode_without_ws in Hjson; [|exact Hw|exact Hw'].
  apply json_loads_decoded in Hjson. rewrite Hjson. reflexivity.
Qed.

(** ** The truncation path *)

Section Truncation.

Variable env : environment.
Variables topic scope industry audience geo_focus competitors
  existing_content compiled_research : string.

Let system := TOPIC_MAP_SYSTEM_PROMPT env.

Let first_prompt :=
  user_prompt env topic scope industry audience geo_focus competitors
    existing_content compiled_research.

Let generate :=
  generate_topic_map env topic scope industry audience geo_focus competitors
    existing_content compiled_research.

Hypothesis key_configured : Text.is_empty (ANTHROPIC_API_KEY env) = false.

(** [generate_topic_map] once an entry list is there and the first response
    does not end with the closing bracket: the continuation call, then the
    salvage, then the validation. *)
Lemma generate_after_entries (raw : string) (entries : list pyval)
  (c : ascii) (t t1 t2 : trace) :
  _call_claude env system first_prompt t = (Ok raw, t1) ->
  bind (lift (_parse_json raw)) (repair env raw) t1
  = (Ok (Some entries), t2) ->
  Text.last_char (Text.rstrip raw) = Some c ->
  Ascii.eqb c "]" = false ->
  generate t
  = bind (_call_claude env system
            (CONTINUATION_PROMPT (Text.take_last 500 raw)))
      (fun continuation =>
         bind (lift (_parse_json continuation))
           (fun continuation_entries =>
              match continuation_entries with
              | Some ((_ :: _) as continuation_entries) =>
                  bind (lift (salvage raw entries continuation_entries))
                    (validate_and_return env)
              | _ => validate_and_return env entries
              end)) t2.
Proof.
  intros Hcall Hrep Hlast Hc.
  unfold generate.
  rewrite (generate_after_response env topic scope industry audience
             geo_focus competitors existing_content compiled_research
             key_configured raw t t1 Hcall).
  unfold bind at 1 2. unfold bind at 1 in Hrep.
  destruct (lift (_parse_json raw) t1) as [[e|parsed] t1'];
    [discriminate Hrep|].
  rewrite Hrep. unfold Ok at 1.
  unfold continue_truncated. rewrite Hlast, Hc.
  unfold bind. fold system.
  destruct (_call_claude env system _ t2) as [[e|continuation] t3];
    [reflexivity|].
  destruct (lift (_parse_json continuation) t3) as [[e|[[|k K]|]] t3'];
    reflexivity.
Qed.

(** The continuation request is sent then, whatever comes after it. *)
Lemma continuation_issued (raw : string) (entries : list pyval)
  (c : ascii) (t t1 t2 : trace) :
  _call_claude env system first_prompt t = (Ok raw, t1) ->
  bind (lift (_parse_json raw)) (repair env raw) t1
  = (Ok (Some entries), t2) ->
  Text.last_char (Text.rstrip raw) = Some c ->
  Ascii.eqb c "]" = false ->
  exists more,
    snd (generate t)
    = (t2 ++ Request (request_for env
                        (CONTINUATION_PROMPT (Text.take_last 500 raw)))
          :: more)%list.
Proof.
  intros Hcall Hrep Hlast Hc.
  set (continuation_prompt := CONTINUATION_PROMPT (Text.take_last 500 raw)).
  pose proof (generate_after_entries raw entries c t t1 t2 Hcall Hrep Hlast Hc)
    as Hgen.
  fold continuation_prompt in Hgen.
  destruct (call_claude_trace env continuation_prompt t2) as [more Hm].
  fold system in Hm. exists more. rewrite <- Hm, Hgen.
  unfold bind.
  destruct (_call_claude env system continuation_prompt t2)
    as [[e|continuation] t3]; [reflexivity|].
  unfold lift.
  destruct (_parse_json continuation) as [e|[[|k K]|]];
    try reflexivity; try apply validate_and_return_trace.
  destruct (salvage raw entries (k :: K)) as [e|es]; [reflexivity|].
  apply validate_and_return_trace.
Qed.

(** The entry list validated once the continuation parsed into a non-empty
    list and the salvage returned. *)
Lemma generate_after_salvage (raw continuation : string)
  (entries K es : list pyval) (c : ascii) (t t1 t2 t3 : trace) :
  _call_claude env system first_prompt t = (Ok raw, t1) ->
  bind (lift (_parse_json raw)) (repair env raw) t1
  = (Ok (Some entries), t2) ->
  Text.last_char (Text.rstrip raw) = Some c ->
  Ascii.eqb c "]" = false ->
  _call_claude env system (CONTINUATION_PROMPT (Text.take_last 500 raw)) t2
  = (Ok continuation, t3) ->
  _parse_json continuation = Ok (Some K) ->
  K <> [] ->
  salvage raw entries K = Ok es ->
  generate t = validate_and_return env es t3.
Proof.
  intros Hcall Hrep Hlast Hc Hcont Hparse HK Hsalv.
  rewrite (generate_after_entries raw entries c t t1 t2 Hcall Hrep Hlast Hc).
  unfold bind at 1. rewrite Hcont.
  unfold Ok at 1. unfold bind at 1, lift at 1. rewrite Hparse.
  unfold Ok at 1.
  destruct K as [|k K]; [congruence|].
  unfold bind, lift. rewrite Hsalv. reflexivity.
Qed.

(** C5, amended.  Once an entry list is there (the first response or the
    repair answer parsed as an array) and the first response, trimmed of
    trailing whitespace, is not empty and does not end with "]":
    [generate_topic_map] issues a continuation call with the last 500
    characters of the first response.  When its answer parses into a
    non-empty list [K] and the cleaned first response has a "}" after its
    first character: if the text kept up to the last "}" with "]" appended
    decodes as a list [base], the entry list validated is [base ++ K], of
    size [|base| + |K|]; if that text raises a decode error, it is [K] when
    [K] has more than 10 entries, and the entry list of before otherwise. *)
Theorem truncated_response_continued (raw : string) (entries : list pyval)
  (c : ascii) (t t1 t2 : trace) :
  _call_claude env system first_prompt t = (Ok raw, t1) ->
  bind (lift (_parse_json raw)) (repair env raw) t1
  = (Ok (Some entries), t2) ->
  Text.last_char (Text.rstrip raw) = Some c ->
  Ascii.eqb c "]" = false ->
  let continuation_prompt := CONTINUATION_PROMPT (Text.take_last 500 raw) in
  let truncated := _clean_json_response raw in
  let fixed :=
    Text.take (Z.to_nat (Text.rfind "}" truncated + 1)) truncated ++ "]" in
  (exists more,
     snd (generate t)
     = (t2 ++ Request (request_for env continuation_prompt) :: more)%list)
  /\ forall continuation K t3,
       _call_claude env system continuation_prompt t2
       = (Ok continuation, t3) ->
       _parse_json continuation = Ok (Some K) ->
       K <> [] ->
       0 < Text.rfind "}" truncated ->
       (forall base,
          json_loads fixed = Ok (inr (PList base)) ->
          generate t = validate_and_return env (base ++ K) t3
          /\ List.length (base ++ K)
             = (List.length base + List.length K)%nat)
       /\ (forall e,
             json_loads fixed = Ok (inl e) ->
             generate t
             = validate_and_return env
                 (if (10 <? List.length K)%nat then K else entries) t3).
Proof.
  intros Hcall Hrep Hlast Hc continuation_prompt truncated fixed.
  split.
  - exact (continuation_issued raw entries c t t1 t2 Hcall Hrep Hlast Hc).
  - intros continuation K t3 Hcont Hparse HK Hbrace.
    pose proof (generate_after_salvage raw continuation entries K) as Hstep.
    specialize (fun es => Hstep es c t t1 t2 t3 Hcall Hrep Hlast Hc Hcont
                            Hparse HK).
    apply Z.ltb_lt in Hbrace.
    split.
    + intros base Hbase. split; [|apply length_app].
      apply Hstep. unfold salvage. fold truncated. rewrite Hbrace.
      fold fixed. rewrite Hbase. reflexivity.
    + intros e He. apply Hstep. unfold salvage. fold truncated.
      rewrite Hbrace. fold fixed. rewrite He. cbn [rbind Ok].
      destruct (10 <? List.length K)%nat; reflexivity.
Qed.

(** C10, amended.  For every first response that, trimmed of trailing
    whitespace, does not end with "]" (a closing fence ends with a
    backquote) and whose cleaned text decodes to a list [L] whose last
    element is an object: [generate_topic_map] issues a continuation call
    with the last 500 characters of the first response; when its answer
    parses as a non-empty list [K], the salvage gives the whole of [L] back,
    the entry list validated is [L] followed by [K], and that list is the
    result returned when the validator reports no critical message. *)
Theorem fenced_response_duplicated (raw : string) (L : list pyval)
  (c : ascii) (t t1 : trace) :
  _call_claude env system first_prompt t = (Ok raw, t1) ->
  json_loads (_clean_json_response raw) = Ok (inr (PList L)) ->
  ends_with_object L = true ->
  Text.last_char (Text.rstrip raw) = Some c ->
  Ascii.eqb c "]" = false ->
  let continuation_prompt := CONTINUATION_PROMPT (Text.take_last 500 raw) in
  (exists more,
     snd (generate t)
     = (t1 ++ Request (request_for env continuation_prompt) :: more)%list)
  /\ forall continuation K t3,
       _call_claude env system continuation_prompt t1
       = (Ok continuation, t3) ->
       _parse_json continuation = Ok (Some K) ->
       K <> [] ->
       salvage raw L K = Ok (L ++ K)%list
       /\ generate t = validate_and_return env (L ++ K) t3
       /\ (forall errors,
             validate_topic_map (display env) (L ++ K) = Ok errors ->
             existsb is_critical errors = false ->
             generate t = (Ok (L ++ K)%list, t3)).
Proof.
  intros Hcall Hjson Hobj Hlast Hc continuation_prompt.
  assert (Hrep : bind (lift (_parse_json raw)) (repair env raw) t1
                 = (Ok (Some L), t1)).
  { unfold bind, lift. rewrite (parse_json_decoded raw _ Hjson).
    reflexivity. }
  split.
  { exact (continuation_issued raw L c t t1 t1 Hcall Hrep Hlast Hc). }
  intros continuation K t3 Hcont Hparse HK.
  pose proof (salvage_complete_array raw L L K Hjson Hobj) as Hsalv.
  pose proof (generate_after_salvage raw continuation L K (L ++ K) c t t1 t1
                t3 Hcall Hrep Hlast Hc Hcont Hparse HK Hsalv) as Hgen.
  split; [exact Hsalv|]. split; [exact Hgen|].
  intros errors Hv Hcrit. rewrite Hgen.
  unfold validate_and_return.
  destruct (L ++ K)%list as [|e es] eqn:E.
  { apply app_eq_nil in E as [_ ->]. congruence. }
  unfold bind, lift. rewrite Hv. unfold Ok at 1.
  destruct (List.filter is_critical errors) as [|x xs] eqn:Ef;
    [reflexivity|].
  exfalso.
  assert (existsb is_critical errors = true).
  { apply existsb_filter. rewrite Ef. discriminate. }
  congruence.
Qed.

End Truncation.

(** ** The orchestrator on sample responses *)

Lemma clean_fenced_trailing_comma_witness :
  _clean_json_response ("  " ++ fence ++ nl ++ "[1, 2, ]" ++ fence ++ nl)
  = "[1, 2]".
Proof.
  destruct clean_fenced_trailing_comma
    as (_ & _ & Hfence & _).
  change ("  " ++ fence ++ nl ++ "[1, 2, ]" ++ fence ++ nl)
    with ("  " ++ (fence ++ nl) ++ "[1, 2, ]" ++ ("" ++ fence) ++ nl).
  rewrite Hfence.
  - reflexivity.
  - reflexivity.
  - reflexivity.
  - reflexivity.
  - reflexivity.
  - right. exists nl. split; [reflexivity|]. right. split; reflexivity.
  - right. exists "". split; reflexivity.
Defined.

Lemma critical_errors_abort_witness :
  sample_run [sample_map_text]
  = (Ok sample_map, [sample_request sample_first_prompt]).
Proof.
  destruct (critical_errors_abort (sample_env [sample_map_text])
              "Content Marketing" SCOPE_FOCUSED "" "" "" "" "" "research"
              sample_map [] [] [sample_request sample_first_prompt])
    as (_ & _ & Hreturn).
  1, 3: vm_compute; reflexivity.
  1: discriminate.
  exact (Hreturn eq_refl).
Defined.

Lemma non_array_json_not_repaired_witness :
  sample_run [object_example]
  = (Raise (ValueError parse_failure_msg),
     [sample_request sample_first_prompt]).
Proof.
  apply (non_array_json_not_repaired (sample_env [object_example])
           "Content Marketing" SCOPE_FOCUSED "" "" "" "" "" "research"
           eq_refl object_example object_a []
           [sample_request sample_first_prompt]); reflexivity.
Defined.

Lemma blank_response_index_error_witness :
  sample_run ["   "; "[{}]"]
  = (Raise (IndexError "string index out of range"),
     [sample_request sample_first_prompt;
      sample_request
        (JSON_FIX_PROMPT "Expecting value: line 1 column 1 (char 0)" "   ")]).
Proof.
  apply (blank_response_index_error (sample_env ["   "; "[{}]"])
           "Content Marketing" SCOPE_FOCUSED "" "" "" "" "" "research"
           eq_refl "   " "[{}]" [PDict []] []
           [sample_request sample_first_prompt]); reflexivity.
Defined.

Lemma truncated_response_continued_witness :
  let env := sample_env [sample_truncated_text; sample_json (PList [object_a]);
                         sample_json (PList [object_b])] in
  sample_run [sample_truncated_text; sample_json (PList [object_a]);
              sample_json (PList [object_b])]
  = validate_and_return env [object_a; object_b]
      [sample_request sample_first_prompt;
       sample_request
         (JSON_FIX_PROMPT
            "Expecting ':' delimiter: line 1 column 16 (char 15)"
            sample_truncated_text);
       sample_request (CONTINUATION_PROMPT sample_truncated_text)].
Proof.
  intros env.
  destruct (truncated_response_continued env
              "Content Marketing" SCOPE_FOCUSED "" "" "" "" "" "research"
              eq_refl sample_truncated_text [object_a] Py.dquote []
              [sample_request sample_first_prompt]
              [sample_request sample_first_prompt;
               sample_request
                 (JSON_FIX_PROMPT
                    "Expecting ':' delimiter: line 1 column 16 (char 15)"
                    sample_truncated_text)])
    as [_ Hcont].
  1-4: reflexivity.
  destruct (Hcont (sample_json (PList [object_b])) [object_b]
              [sample_request sample_first_prompt;
               sample_request
                 (JSON_FIX_PROMPT
                    "Expecting ':' delimiter: line 1 column 16 (char 15)"
                    sample_truncated_text);
               sample_request (CONTINUATION_PROMPT sample_truncated_text)])
    as [Hbase _].
  1, 2, 4: reflexivity.
  1: discriminate.
  exact (proj1 (Hbase [object_a] eq_refl)).
Defined.

(** The one entry of the response holds an array as its level: the
    validator raises, it has no error list and so no critical message, and
    [generate_topic_map] raises all the same. *)
Lemma validator_exception_propagates :
  let entries := [sample_entry (PList []) (PStr "T") (PStr "") (PInt 3)] in
  sample_obtain [sample_json (PList entries)]
  = (Ok entries, [sample_request sample_first_prompt])
  /\ validate_topic_map source_order entries
     = Raise (TypeError "unhashable type")
  /\ sample_run [sample_json (PList entries)]
     = (Raise (TypeError "unhashable type"),
        [sample_request sample_first_prompt]).
Proof. vm_compute. repeat split. Qed.

(** A first response and a repair answer that are no JSON: the parse
    failure is raised after two requests, none of them the continuation. *)
Lemma parse_failure_without_continuation :
  Text.last_char (Text.rstrip "abc") = Some "c"%char
  /\ sample_run ["abc"; "abc"]
     = (Raise (ValueError parse_failure_msg),
        [sample_request sample_first_prompt;
         sample_request
           (JSON_FIX_PROMPT "Expecting value: line 1 column 1 (char 0)"
              "abc")])
  /\ existsb (String.eqb (CONTINUATION_PROMPT (Text.take_last 500 "abc")))
       (prompts_of (snd (sample_run ["abc"; "abc"]))) = false.
Proof. vm_compute. repeat split. Qed.

Lemma fenced_response_duplicated_witness :
  sample_run [sample_fenced_text; sample_continuation_text]
  = (Ok sample_map,
     [sample_request sample_first_prompt;
      sample_request
        (CONTINUATION_PROMPT (Text.take_last 500 sample_fenced_text))]).
Proof.
  destruct (fenced_response_duplicated
              (sample_env [sample_fenced_text; sample_continuation_text])
              "Content Marketing" SCOPE_FOCUSED "" "" "" "" "" "research"
              eq_refl sample_fenced_text
              [sample_pillar; sample_cluster] "`"%char []
              [sample_request sample_first_prompt])
    as [_ Hcont].
  1-5: vm_compute; reflexivity.
  destruct (Hcont sample_continuation_text [sample_spoke]
              [sample_request sample_first_prompt;
               sample_request
                 (CONTINUATION_PROMPT
                    (Text.take_last 500 sample_fenced_text))])
    as (_ & _ & Hreturn).
  1-2: vm_compute; reflexivity.
  1: discriminate.
  exact (Hreturn [] eq_refl eq_refl).
Defined.

(** The empty array between fences, and a continuation that is a valid
    map: nothing is appended, and the run fails for want of entries. *)
Lemma fenced_empty_array_not_extended :
  json_loads (_clean_json_response (fenced "[]")) = Ok (inr (PList []))
  /\ _parse_json sample_map_text = Ok (Some sample_map)
  /\ validate_topic_map source_order ([] ++ sample_map) = Ok []
  /\ sample_run [fenced "[]"; sample_map_text]
     = (Raise (ValueError "No topic map entries were generated."),
        [sample_request sample_first_prompt;
         sample_request (CONTINUATION_PROMPT (fenced "[]"))]).
Proof. vm_compute. repeat split. Qed.

(* ================================================================== *)
(** * Part III: properties of the rest of the code *)
(* ================================================================== *)

(** ** What the validator accepts *)

Section Acceptance.

Variable sd : set_display.

Lemma when_nil (b : bool) (m : string) : when b m = [] <-> b = false.
Proof. destruct b; cbn; split; congruence. Qed.

Lemma eqb_str_inv (v : pyval) (x : string) :
  Py.eqb v (PStr x) = true -> v = PStr x.
Proof.
  destruct v; cbn; try discriminate.
  intros H. apply String.eqb_eq in H. now subst.
Qed.

(** Membership in a set of texts: the value is one of the texts. *)
Lemma in_str_set_true (v : pyval) (l : list string) :
  Py.in_str_set v l = Ok true <-> text_in l (Some v) = true.
Proof.
  split.
  - unfold Py.in_str_set. destruct (Py.hashable v); [|discriminate].
    unfold Ok. intros [= H]. apply existsb_exists in H as (x & Hx & He).
    apply eqb_str_inv in He. subst v. cbn [text_in].
    apply existsb_exists. exists x. split; [exact Hx|apply String.eqb_refl].
  - intros H. destruct (text_in_inv _ _ H) as (s & [= ->] & Hs).
    rewrite in_str_set_text. now rewrite Hs.
Qed.

Lemma score_invalid_between (score : pyval) :
  score_invalid score = false <-> int_like_between 1 5 (Some score) = true.
Proof.
  unfold score_invalid, int_like_between.
  destruct (Py.as_int score) as [n|]; [|split; discriminate].
  rewrite orb_false_iff, andb_true_iff, !Z.ltb_ge, !Z.leb_le. lia.
Qed.

Lemma len_outside_length (v : pyval) (lo : nat) (hi : option nat) :
  len_outside v lo hi = false <-> list_of_length lo hi (Some v) = true.
Proof.
  unfold len_outside, list_of_length.
  destruct v; try (split; discriminate).
  rewrite orb_false_iff, andb_true_iff, Nat.ltb_ge, Nat.leb_le.
  destruct hi as [h|]; [rewrite Nat.ltb_ge, Nat.leb_le|]; tauto.
Qed.

(** The six checks on a complete entry report nothing exactly when the six
    values are as required. *)
Lemma complete_entry_checks_nil
  (level intent score entities paa citations : pyval) :
  complete_entry_checks sd level intent score entities paa citations = Ok []
  <-> text_in VALID_LEVELS (Some level)
      && text_in VALID_INTENTS (Some intent)
      && int_like_between 1 5 (Some score)
      && list_of_length 3 (Some 5%nat) (Some entities)
      && list_of_length 2 None (Some paa)
      && list_of_length 1 None (Some citations) = true.
Proof.
  rewrite !andb_true_iff.
  rewrite <- !in_str_set_true, <- score_invalid_between,
    <- !len_outside_length.
  unfold complete_entry_checks.
  destruct (Py.in_str_set level VALID_LEVELS) as [x|level_ok];
    [cbn [rbind]; unfold Ok; split; [discriminate|intros H; decompose [and] H; discriminate]|].
  cbn [rbind].
  destruct (Py.in_str_set intent VALID_INTENTS) as [x|intent_ok];
    [cbn [rbind]; unfold Ok; split; [discriminate|intros H; decompose [and] H; discriminate]|].
  cbn [rbind]. unfold Ok. split.
  - intros [= H].
    repeat (apply app_eq_nil in H as [?H H]).
    rewrite when_nil in *.
    destruct level_ok, intent_ok; try discriminate. tauto.
  - intros H. decompose [and] H.
    repeat match goal with
           | E : inr _ = inr _ |- _ => injection E as ->
           end.
    repeat match goal with E : _ = false |- _ => rewrite E end.
    reflexivity.
Qed.

(** [validate_entry] returns no message exactly on the accepted entries. *)
Lemma validate_entry_nil_iff (e : pyval) :
  validate_entry sd e = Ok [] <-> accepted_entry e = true.
Proof.
  unfold accepted_entry. split.
  - intros H. pose proof (validate_entry_nil_inv sd e H) as Hf.
    destruct (has_fields_dict e Hf) as [d ->].
    destruct (has_fields_lookup _ _ Hf required_level) as [level Hl].
    destruct (has_fields_lookup _ _ Hf required_intent) as [intent Hi].
    destruct (has_fields_lookup _ _ Hf required_score) as [score Hs].
    destruct (has_fields_lookup _ _ Hf required_entities) as [entities He].
    destruct (has_fields_lookup _ _ Hf required_paa) as [paa Hp].
    destruct (has_fields_lookup _ _ Hf required_citations) as [citations Hc].
    rewrite Hf, Hl, Hi, Hs, He, Hp, Hc. cbn [andb].
    apply complete_entry_checks_nil.
    cbn [field] in *.
    now rewrite <- (validate_entry_complete sd d _ _ _ _ _ _ Hf Hl Hi Hs He Hp Hc).
  - intros H.
    do 6 (apply andb_prop in H as [H ?H]).
    destruct (has_fields_dict e H) as [d ->].
    destruct (has_fields_lookup _ _ H required_level) as [level Hl].
    destruct (has_fields_lookup _ _ H required_intent) as [intent Hi].
    destruct (has_fields_lookup _ _ H required_score) as [score Hs].
    destruct (has_fields_lookup _ _ H required_entities) as [entities He].
    destruct (has_fields_lookup _ _ H required_paa) as [paa Hp].
    destruct (has_fields_lookup _ _ H required_citations) as [citations Hc].
    rewrite Hl, Hi, Hs, He, Hp, Hc in *. cbn [field] in *.
    rewrite (validate_entry_complete sd d _ _ _ _ _ _ H Hl Hi Hs He Hp Hc).
    apply complete_entry_checks_nil.
    repeat (apply andb_true_intro; split); assumption.
Qed.

(** X1.  [validate_entry] returns the empty list exactly for the entries
    that are objects with the 13 required fields, a level and a user_intent
    that are texts of the two sets, a priority_score that is an instance of
    [int] in [1,5] (the Boolean [True] counts as 1), 3 to 5
    semantic_entities, at least 2 paa_questions and at least 1 citation. *)
Theorem validate_entry_accepts_exactly (e : pyval) :
  validate_entry sd e = Ok [] <-> accepted_entry e = true.
Proof. exact (validate_entry_nil_iff e). Qed.

Lemma title_set_inv (cs ts : list pyval) :
  title_set cs = Ok ts ->
  Forall (fun t => Py.hashable t = true) ts
  /\ forall t, In t ts ->
       exists c, In c cs /\ Py.getitem c "content_title" = Ok t.
Proof.
  revert ts. induction cs as [|c cs IH]; intros ts H.
  - cbn in H. unfold Ok in H. injection H as <-. split; [constructor|].
    intros t [].
  - cbn [title_set] in H.
    destruct (Py.getitem c "content_title") as [x|t] eqn:Et;
      [discriminate H|].
    cbn [rbind] in H. destruct (Py.hashable t) eqn:Eh; [|discriminate H].
    destruct (title_set cs) as [x|more]; [discriminate H|].
    cbn [rbind] in H. unfold Ok in H. injection H as <-.
    destruct (IH more eq_refl) as [Hh Hin]. split.
    + constructor; assumption.
    + intros t' [<-|Ht'].
      * exists c. split; [now left|exact Et].
      * destruct (Hin t' Ht') as (c' & Hc' & Hg). exists c'.
        split; [now right|exact Hg].
Qed.

Lemma getitem_field (e : pyval) (name : string) (v : pyval) :
  Py.getitem e name = Ok v -> field name e = Some v.
Proof.
  destruct e; try discriminate. cbn [Py.getitem field].
  destruct (Py.assoc name d); [|discriminate].
  unfold Ok. congruence.
Qed.

(** No message about a Cluster: every non-empty parent is the title of the
    Pillar. *)
Lemma check_clusters_nil_inv (pillar_title : pyval) (cs : list pyval) :
  Forall (fun c => has_fields c = true) cs ->
  check_clusters pillar_title cs = Ok [] ->
  forall c parent,
    In c cs -> field "parent_topic" c = Some parent ->
    Py.truthy parent = true -> Py.eqb parent pillar_title = true.
Proof.
  induction 1 as [|c cs Hf _ IH]; intros H c' parent Hin; [destruct Hin|].
  destruct (has_fields_dict c Hf) as [d ->].
  destruct (has_fields_lookup _ _ Hf required_parent) as [p Hp].
  destruct (has_fields_lookup _ _ Hf required_title) as [t Ht].
  cbn [check_clusters Py.get] in H. cbn [field] in Hp, Ht.
  rewrite Hp in H. cbn [rbind Ok] in H.
  destruct (check_clusters pillar_title cs) as [x|more] eqn:Em.
  { destruct (Py.truthy p && negb (Py.eqb p pillar_title));
      [cbn [Py.getitem] in H; rewrite Ht in H|]; discriminate H. }
  destruct (Py.truthy p && negb (Py.eqb p pillar_title)) eqn:Eb.
  { cbn [Py.getitem] in H. rewrite Ht in H. discriminate H. }
  cbn [rbind Ok app] in H. unfold Ok in H. injection H as ->.
  destruct Hin as [<-|Hin].
  - cbn [field]. rewrite Hp. intros [= <-] Htr. rewrite Htr in Eb.
    cbn [andb] in Eb. now apply negb_false_iff in Eb.
  - now apply IH.
Qed.

(** No message about a Spoke: every non-empty parent can be hashed and is
    in the set of the Cluster titles. *)
Lemma check_spokes_nil_inv (titles : list pyval) (ss : list pyval) :
  Forall (fun s => has_fields s = true) ss ->
  check_spokes titles ss = Ok [] ->
  forall s parent,
    In s ss -> field "parent_topic" s = Some parent ->
    Py.truthy parent = true ->
    Py.hashable parent = true /\ existsb (Py.same parent) titles = true.
Proof.
  induction 1 as [|s ss Hf _ IH]; intros H s' parent Hin; [destruct Hin|].
  destruct (has_fields_dict s Hf) as [d ->].
  destruct (has_fields_lookup _ _ Hf required_parent) as [p Hp].
  destruct (has_fields_lookup _ _ Hf required_title) as [t Ht].
  cbn [check_spokes Py.get] in H. cbn [field] in Hp, Ht.
  rewrite Hp in H. cbn [rbind Ok] in H.
  assert (Hhere : (Py.truthy p = true ->
                   Py.hashable p = true
                   /\ existsb (Py.same p) titles = true)
                  /\ check_spokes titles ss = Ok []).
  { destruct (Py.truthy p).
    - unfold Py.in_set in H. destruct (Py.hashable p); [|discriminate H].
      cbn [rbind Ok] in H.
      destruct (existsb (fun x => Py.same p x) titles) eqn:Ex.
      + cbn [rbind] in H.
        destruct (check_spokes titles ss) as [x|more]; [discriminate H|].
        cbn [rbind app] in H. split; [auto|]. exact H.
      + cbn [Py.getitem] in H. rewrite Ht in H. cbn [rbind Ok] in H.
        destruct (check_spokes titles ss) as [x|more]; discriminate H.
    - cbn [rbind] in H.
      destruct (check_spokes titles ss) as [x|more]; [discriminate H|].
      cbn [rbind app] in H. split; [discriminate|exact H]. }
  destruct Hhere as [Hp' Hrest].
  destruct Hin as [<-|Hin].
  - cbn [field]. rewrite Hp. intros [= <-]. exact Hp'.
  - now apply IH.
Qed.

(** X2.  When [validate_topic_map] returns the empty list, the map is
    sound: every entry is accepted by the per-entry checks, exactly one
    entry is a Pillar, every Cluster with a non-empty parent_topic names the
    title of that Pillar, and every Spoke with a non-empty parent_topic
    names the title of a Cluster. *)
Theorem accepted_map_is_sound (entries : list pyval) :
  validate_topic_map sd entries = Ok [] ->
  forallb accepted_entry entries = true
  /\ count_level "Pillar" entries = 1%nat
  /\ (forall c parent,
        In c entries -> has_level "Cluster" c = true ->
        field "parent_topic" c = Some parent -> Py.truthy parent = true ->
        exists p t,
          In p entries /\ has_level "Pillar" p = true
          /\ field "content_title" p = Some t /\ Py.eqb parent t = true)
  /\ (forall s parent,
        In s entries -> has_level "Spoke" s = true ->
        field "parent_topic" s = Some parent -> Py.truthy parent = true ->
        exists c t,
          In c entries /\ has_level "Cluster" c = true
          /\ field "content_title" c = Some t /\ Py.same parent t = true).
Proof.
  unfold validate_topic_map. intros H.
  destruct (validate_entries sd 0 entries) as [x|errors] eqn:Ev;
    [discriminate H|].
  cbn [rbind] in H.
  destruct errors as [|m ms]; [|discriminate H].
  pose proof (validate_entries_nil_inv sd entries 0 Ev) as Hall.
  assert (Hf : Forall (fun e => has_fields e = true) entries).
  { eapply Forall_impl; [|exact Hall]. intros e. apply validate_entry_nil_inv. }
  rewrite !(with_level_filter _ _ Hf) in H. cbn [rbind Ok] in H.
  destruct (List.filter (has_level "Pillar") entries) as [|pillar [|p' ps]]
    eqn:Epil; try discriminate H.
  assert (Hpil : In pillar entries /\ has_level "Pillar" pillar = true).
  { apply filter_In. rewrite Epil. now left. }
  destruct Hpil as [Hpin Hplv].
  destruct (Py.getitem pillar "content_title") as [x|pt] eqn:Ept;
    [discriminate H|].
  cbn [rbind] in H.
  destruct (title_set (List.filter (has_level "Cluster") entries))
    as [x|titles] eqn:Ets; [discriminate H|].
  cbn [rbind] in H.
  destruct (check_clusters pt (List.filter (has_level "Cluster") entries))
    as [x|ce] eqn:Ecc; [discriminate H|].
  cbn [rbind] in H.
  destruct (check_spokes titles (List.filter (has_level "Spoke") entries))
    as [x|se] eqn:Ecs; [discriminate H|].
  cbn [rbind] in H. unfold Ok in H. injection H as H.
  apply app_eq_nil in H as [-> ->].
  assert (Hsub : forall lvl,
            Forall (fun e => has_fields e = true)
              (List.filter (has_level lvl) entries)).
  { intros lvl. apply Forall_forall. intros e He.
    apply filter_In in He as [He _]. rewrite Forall_forall in Hf. auto. }
  split; [|split; [|split]].
  - apply forallb_forall. intros e He. apply validate_entry_nil_iff.
    rewrite Forall_forall in Hall. auto.
  - unfold count_level. now rewrite Epil.
  - intros c parent Hc Hlv Hpar Htr.
    exists pillar, pt. split; [exact Hpin|]. split; [exact Hplv|].
    split; [now apply getitem_field|].
    eapply (check_clusters_nil_inv pt _ (Hsub "Cluster") Ecc c parent);
      [apply filter_In; auto|assumption|assumption].
  - intros s parent Hs Hlv Hpar Htr.
    destruct (check_spokes_nil_inv titles _ (Hsub "Spoke") Ecs s parent)
      as [_ Hex]; [apply filter_In; auto|assumption|assumption|].
    apply existsb_exists in Hex as (t & Ht & Hsame).
    destruct (title_set_inv _ _ Ets) as [_ Hin].
    destruct (Hin t Ht) as (c & Hc & Hg).
    apply filter_In in Hc as [Hc Hclv].
    exists c, t. split; [exact Hc|]. split; [exact Hclv|].
    split; [now apply getitem_field|exact Hsame].
Qed.

End Acceptance.

(** A complete entry converts to a [TopicMapEntry] that holds its 13
    values. *)
Lemma dict_to_entry_complete (e : pyval) :
  has_fields e = true ->
  exists r,
    TopicMap.dict_to_entry e = Ok r
    /\ List.map Some (TopicMap.entry_values r)
       = List.map (fun f => field f e) required_fields.
Proof.
  intros Hf. destruct (has_fields_dict e Hf) as [d ->].
  unfold has_fields in Hf. rewrite forallb_forall in Hf.
  assert (Hget : forall f default,
            In f required_fields ->
            exists v, Py.assoc f d = Some v
                      /\ Py.get (PDict d) f default = Ok v).
  { intros f default Hin. specialize (Hf f Hin). unfold has_field in Hf.
    cbn [field Py.get] in *. destruct (Py.assoc f d) as [v|]; [|discriminate].
    eauto. }
  unfold TopicMap.dict_to_entry.
  repeat match goal with
         | |- context [Py.get (PDict d) ?f ?default] =>
             let v := fresh "v" in
             let Ha := fresh "Ha" in
             let Hg := fresh "Hg" in
             destruct (Hget f default) as (v & Ha & Hg);
             [cbn; tauto|rewrite Hg; clear Hg]
         end.
  cbn [rbind Ok]. eexists. split; [reflexivity|].
  cbn [TopicMap.entry_values List.map required_fields field
         TopicMap.level TopicMap.content_title TopicMap.primary_keyword
         TopicMap.user_intent TopicMap.semantic_entities
         TopicMap.content_type TopicMap.rag_directions
         TopicMap.paa_questions TopicMap.citations TopicMap.parent_topic
         TopicMap.priority_score TopicMap.word_count_range
         TopicMap.internal_link_targets].
  repeat match goal with H : Py.assoc _ d = Some _ |- _ =>
           rewrite H; clear H end.
  reflexivity.
Qed.

(** X3.  An entry that [validate_entry] accepts converts to a
    [TopicMapEntry] without a default: the record holds the 13 values of the
    entry, its level and user_intent are texts of the two sets, its
    priority_score is an instance of [int] in [1,5], and its three
    validated lists have the required lengths. *)
Theorem validated_entry_converts (sd : set_display) (e : pyval) :
  validate_entry sd e = Ok [] ->
  exists r,
    TopicMap.dict_to_entry e = Ok r
    /\ List.map Some (TopicMap.entry_values r)
       = List.map (fun f => field f e) required_fields
    /\ text_in VALID_LEVELS (Some (TopicMap.level r)) = true
    /\ text_in VALID_INTENTS (Some (TopicMap.user_intent r)) = true
    /\ int_like_between 1 5 (Some (TopicMap.priority_score r)) = true
    /\ list_of_length 3 (Some 5%nat) (Some (TopicMap.semantic_entities r))
       = true
    /\ list_of_length 2 None (Some (TopicMap.paa_questions r)) = true
    /\ list_of_length 1 None (Some (TopicMap.citations r)) = true.
Proof.
  intros H. apply validate_entry_nil_iff in H. unfold accepted_entry in H.
  do 6 (apply andb_prop in H as [H ?H]).
  destruct (dict_to_entry_complete e H) as (r & Hr & Hv).
  exists r. split; [exact Hr|]. split; [exact Hv|].
  cbn [TopicMap.entry_values List.map required_fields] in Hv.
  injection Hv as E1 E2 E3 E4 E5 E6 E7 E8 E9 E10 E11 E12 E13.
  rewrite E1, E4, E5, E8, E9, E11. auto 10.
Qed.

(** ** The retries of [_call_claude] and the API budget *)

Section Budget.

Variable env : environment.

(** The three shapes of a call: answered or failed at once, after one rate
    limit and a wait of 2 seconds, or after two rate limits and waits of 2
    and 4 seconds. *)
Lemma call_claude_shapes (system user_message : string) (t : trace) :
  let req := {| req_model := CLAUDE_MODEL;
                req_max_tokens := CLAUDE_MAX_TOKENS;
                req_system := system; req_user := user_message |} in
  let r := fst (_call_claude env system user_message t) in
  exists events,
    snd (_call_claude env system user_message t) = (t ++ events)%list
    /\ (events = [Request req]
        \/ events = [Request req; Sleep 2; Request req]
        \/ events = [Request req; Sleep 2; Request req; Sleep 4; Request req])
    /\ (r = Raise RateLimitError ->
        events = [Request req; Sleep 2; Request req; Sleep 4; Request req])
    /\ (forall text,
          r = Ok text ->
          api env (t ++ removelast events)%list req = ApiText text).
Proof.
  intros req r. subst r. unfold _call_claude. fold req.
  cbn [call_attempts].
  change (0 <? 2) with true. change (0 + 1 <? 2) with true.
  change (0 + 1 + 1 <? 2) with false.
  change (2 ^ (0 + 1)) with 2. change (2 ^ (0 + 1 + 1)) with 4.
  cbv [bind emit]. cbv beta iota.
  set (t1 := ((t ++ [Request req]) ++ [Sleep 2])%list).
  set (t2 := ((t1 ++ [Request req]) ++ [Sleep 4])%list).
  assert (H1 : (t ++ [Request req; Sleep 2])%list = t1).
  { unfold t1. now rewrite <- app_assoc. }
  assert (H2 : (t ++ [Request req; Sleep 2; Request req; Sleep 4])%list
               = t2).
  { unfold t2, t1. now rewrite <- !app_assoc. }
  assert (H3 : (t1 ++ [Request req])%list
               = (t ++ [Request req; Sleep 2; Request req])%list).
  { unfold t1. now rewrite <- !app_assoc. }
  assert (H4 : (t2 ++ [Request req])%list
               = (t ++ [Request req; Sleep 2; Request req; Sleep 4;
                        Request req])%list).
  { unfold t2, t1. now rewrite <- !app_assoc. }
  destruct (api env t req) as [text| |msg] eqn:E1.
  - exists [Request req]. cbn [fst snd removelast]. rewrite app_nil_r.
    split; [reflexivity|]. split; [auto|]. split; [discriminate|].
    unfold Ok. intros x [= <-]. exact E1.
  - destruct (api env t1 req) as [text| |msg] eqn:E2.
    + exists [Request req; Sleep 2; Request req]. cbn [fst snd removelast].
      rewrite H1. split; [exact H3|]. split; [auto|].
      split; [discriminate|].
      unfold Ok. intros x [= <-]. exact E2.
    + exists [Request req; Sleep 2; Request req; Sleep 4; Request req].
      cbn [removelast]. rewrite H2.
      destruct (api env t2 req) as [text| |msg] eqn:E3; cbn [fst snd];
        (split; [exact H4|]); (split; [auto|]); (split; [auto|]);
        try discriminate.
      unfold Ok. intros x [= <-]. reflexivity.
    + exists [Request req; Sleep 2; Request req]. cbn [fst snd removelast].
      split; [exact H3|]. split; [auto|]. split; discriminate.
  - exists [Request req]. cbn [fst snd removelast].
    split; [reflexivity|]. split; [auto|]. split; discriminate.
Qed.

(** What decides each attempt: a further request is sent only after a rate
    limit, and the answer to the last request decides the result. *)
Lemma call_claude_outcomes (system user_message : string) (t : trace) :
  let req := {| req_model := CLAUDE_MODEL;
                req_max_tokens := CLAUDE_MAX_TOKENS;
                req_system := system; req_user := user_message |} in
  let r := fst (_call_claude env system user_message t) in
  exists events,
    snd (_call_claude env system user_message t) = (t ++ events)%list
    /\ (events = [Request req]
        \/ events = [Request req; Sleep 2; Request req]
        \/ events = [Request req; Sleep 2; Request req; Sleep 4; Request req])
    /\ (r = Raise RateLimitError ->
        events = [Request req; Sleep 2; Request req; Sleep 4; Request req])
    /\ (forall text,
          r = Ok text ->
          api env (t ++ removelast events)%list req = ApiText text)
    /\ (events <> [Request req] -> api env t req = ApiRateLimited)
    /\ (events = [Request req; Sleep 2; Request req; Sleep 4; Request req] ->
        api env (t ++ [Request req; Sleep 2])%list req = ApiRateLimited)
    /\ match api env (t ++ removelast events)%list req with
       | ApiText text => r = Ok text
       | ApiFailed msg => r = Raise (APIError msg)
       | ApiRateLimited =>
           r = Raise RateLimitError
           /\ events
              = [Request req; Sleep 2; Request req; Sleep 4; Request req]
       end.
Proof.
  intros req r. subst r. unfold _call_claude. fold req.
  cbn [call_attempts].
  change (0 <? 2) with true. change (0 + 1 <? 2) with true.
  change (0 + 1 + 1 <? 2) with false.
  change (2 ^ (0 + 1)) with 2. change (2 ^ (0 + 1 + 1)) with 4.
  cbv [bind emit]. cbv beta iota.
  set (t1 := ((t ++ [Request req]) ++ [Sleep 2])%list).
  set (t2 := ((t1 ++ [Request req]) ++ [Sleep 4])%list).
  assert (H1 : (t ++ [Request req; Sleep 2])%list = t1).
  { unfold t1. now rewrite <- app_assoc. }
  assert (H2 : (t ++ [Request req; Sleep 2; Request req; Sleep 4])%list
               = t2).
  { unfold t2, t1. now rewrite <- !app_assoc. }
  assert (H3 : (t1 ++ [Request req])%list
               = (t ++ [Request req; Sleep 2; Request req])%list).
  { unfold t1. now rewrite <- !app_assoc. }
  assert (H4 : (t2 ++ [Request req])%list
               = (t ++ [Request req; Sleep 2; Request req; Sleep 4;
                        Request req])%list).
  { unfold t2, t1. now rewrite <- !app_assoc. }
  destruct (api env t req) as [text| |msg] eqn:E1.
  - exists [Request req]. cbn [fst snd removelast]. rewrite app_nil_r, E1.
    split; [reflexivity|]. split; [auto|]. split; [discriminate|].
    split; [unfold Ok; intros x [= <-]; reflexivity|].
    split; [intros H; now elim H|]. split; [discriminate|reflexivity].
  - destruct (api env t1 req) as [text| |msg] eqn:E2.
    + exists [Request req; Sleep 2; Request req]. cbn [fst snd removelast].
      rewrite H1, E2. split; [exact H3|]. split; [auto|].
      split; [discriminate|].
      split; [unfold Ok; intros x [= <-]; reflexivity|].
      split; [reflexivity|]. split; [discriminate|reflexivity].
    + exists [Request req; Sleep 2; Request req; Sleep 4; Request req].
      cbn [removelast]. rewrite H1, H2.
      destruct (api env t2 req) as [text| |msg] eqn:E3; cbn [fst snd];
        (split; [exact H4|]); (split; [auto|]); (split; [auto|]);
        try discriminate.
      * split; [unfold Ok; intros x [= <-]; reflexivity|].
        split; [reflexivity|]. split; [intros _; exact E2|reflexivity].
      * split; [discriminate|].
        split; [reflexivity|]. split; [intros _; exact E2|].
        split; reflexivity.
      * split; [discriminate|].
        split; [reflexivity|]. split; [intros _; exact E2|reflexivity].
    + exists [Request req; Sleep 2; Request req]. cbn [fst snd removelast].
      rewrite H1, E2.
      split; [exact H3|]. split; [auto|]. split; [discriminate|].
      split; [discriminate|].
      split; [reflexivity|]. split; [discriminate|reflexivity].
  - exists [Request req]. cbn [fst snd removelast]. rewrite app_nil_r, E1.
    split; [reflexivity|]. split; [auto|]. split; [discriminate|].
    split; [discriminate|].
    split; [intros H; now elim H|]. split; [discriminate|reflexivity].
Qed.

(** X4.  [_call_claude] sends its request one to three times.  It retries
    only after a rate limit: a second request is sent only when the API
    answered the first with a rate limit, and a third only when it answered
    the second with one as well; it waits 2 seconds before the second
    attempt and 4 seconds before the third.  The answer to the last request
    decides the result: its text is returned (never the fallback empty
    text), its failure is raised, and the rate-limit error is raised only
    when the third request was answered with a rate limit. *)
Theorem call_claude_retry_protocol (system user_message : string) (t : trace) :
  let req := {| req_model := CLAUDE_MODEL;
                req_max_tokens := CLAUDE_MAX_TOKENS;
                req_system := system; req_user := user_message |} in
  let r := fst (_call_claude env system user_message t) in
  exists events,
    snd (_call_claude env system user_message t) = (t ++ events)%list
    /\ (events = [Request req]
        \/ events = [Request req; Sleep 2; Request req]
        \/ events = [Request req; Sleep 2; Request req; Sleep 4; Request req])
    /\ (r = Raise RateLimitError ->
        events = [Request req; Sleep 2; Request req; Sleep 4; Request req])
    /\ (forall text,
          r = Ok text ->
          api env (t ++ removelast events)%list req = ApiText text)
    /\ (events <> [Request req] -> api env t req = ApiRateLimited)
    /\ (events = [Request req; Sleep 2; Request req; Sleep 4; Request req] ->
        api env (t ++ [Request req; Sleep 2])%list req = ApiRateLimited)
    /\ match api env (t ++ removelast events)%list req with
       | ApiText text => r = Ok text
       | ApiFailed msg => r = Raise (APIError msg)
       | ApiRateLimited =>
           r = Raise RateLimitError
           /\ events
              = [Request req; Sleep 2; Request req; Sleep 4; Request req]
       end.
Proof. exact (call_claude_outcomes system user_message t). Qed.

Lemma count_requests_app (a b : trace) :
  count_requests (a ++ b)%list = (count_requests a + count_requests b)%nat.
Proof.
  induction a as [|[r|s] a IH]; cbn; [reflexivity| |]; now rewrite IH.
Qed.

Lemma sleep_seconds_app (a b : trace) :
  sleep_seconds (a ++ b)%list = sleep_seconds a + sleep_seconds b.
Proof.
  induction a as [|[r|s] a IH]; cbn [app sleep_seconds]; [reflexivity| |];
    rewrite IH; lia.
Qed.

Lemma costs_ret {A} (a : A) : costs 0 0 (ret a).
Proof. intros t. exists []. cbn. rewrite app_nil_r. repeat split; lia. Qed.

Lemma costs_raise {A} (e : exn) : costs 0 0 (@raise A e).
Proof. intros t. exists []. cbn. rewrite app_nil_r. repeat split; lia. Qed.

Lemma costs_lift {A} (r : result A) : costs 0 0 (lift r).
Proof. intros t. exists []. cbn. rewrite app_nil_r. repeat split; lia. Qed.

Lemma costs_bind {A B} (n1 n2 : nat) (s1 s2 : Z) (m : M A) (k : A -> M B) :
  costs n1 s1 m -> 0 <= s2 -> (forall a, costs n2 s2 (k a)) ->
  costs (n1 + n2) (s1 + s2) (bind m k).
Proof.
  intros Hm H0 Hk t. destruct (Hm t) as (e1 & H1 & Hn1 & Hs1).
  unfold bind. destruct (m t) as [[x|a] t1]; cbn [snd] in H1; subst t1.
  - exists e1. cbn [snd]. repeat split; lia.
  - destruct (Hk a (t ++ e1)%list) as (e2 & H2 & Hn2 & Hs2).
    exists (e1 ++ e2)%list. rewrite H2, <- app_assoc.
    rewrite count_requests_app, sleep_seconds_app. repeat split; lia.
Qed.

Lemma costs_weaken {A} (n n' : nat) (s s' : Z) (m : M A) :
  costs n s m -> (n <= n')%nat -> s <= s' -> costs n' s' m.
Proof.
  intros Hm Hn Hs t. destruct (Hm t) as (e & H & Hn1 & Hs1).
  exists e. repeat split; try assumption; lia.
Qed.

(** One call: at most 3 requests and 6 seconds. *)
Lemma costs_call_claude (system user_message : string) :
  costs 3 6 (_call_claude env system user_message).
Proof.
  intros t. destruct (call_claude_shapes system user_message t)
    as (events & Ht & Hshape & _).
  exists events. split; [exact Ht|].
  destruct Hshape as [->|[->| ->]]; cbn; repeat split; lia.
Qed.

Lemma costs_repair (raw : string) (entries : option (list pyval)) :
  costs 3 6 (repair env raw entries).
Proof.
  unfold repair. destruct entries as [l|].
  - eapply costs_weaken; [apply costs_ret|lia|lia].
  - apply (costs_bind 0 3 0 6); [apply costs_lift|lia|]. intros [e|v].
    + apply (costs_bind 3 0 6 0); [apply costs_call_claude|lia|].
      intros a. apply costs_lift.
    + eapply costs_weaken; [apply costs_ret|lia|lia].
Qed.

Lemma costs_continue_truncated (raw : string) (entries : list pyval) :
  costs 3 6 (continue_truncated env raw entries).
Proof.
  unfold continue_truncated.
  destruct (Text.last_char (Text.rstrip raw)) as [c|].
  - destruct (Ascii.eqb c "]").
    + eapply costs_weaken; [apply costs_ret|lia|lia].
    + apply (costs_bind 3 0 6 0); [apply costs_call_claude|lia|]. intros a.
      apply (costs_bind 0 0 0 0); [apply costs_lift|lia|].
      intros [[|k K]|]; first [apply costs_ret|apply costs_lift].
  - eapply costs_weaken; [apply costs_raise|lia|lia].
Qed.

Lemma costs_validate_and_return (entries : list pyval) :
  costs 0 0 (validate_and_return env entries).
Proof.
  unfold validate_and_return. destruct entries as [|e entries].
  - apply costs_raise.
  - apply (costs_bind 0 0 0 0); [apply costs_lift|lia|]. intros errors.
    destruct (List.filter is_critical errors);
      [apply costs_ret|apply costs_raise].
Qed.

(** X5.  One run of [generate_topic_map] calls the API for at most three
    prompts (the first one, the repair and the continuation): it appends at
    most 9 requests and at most 18 seconds of sleep to the trace, and
    nothing at all when the API key is not configured. *)
Theorem generate_topic_map_budget
  (topic scope industry audience geo_focus competitors existing_content
     compiled_research : string) (t : trace) :
  exists events,
    snd (generate_topic_map env topic scope industry audience geo_focus
           competitors existing_content compiled_research t)
    = (t ++ events)%list
    /\ (count_requests events <= 9)%nat
    /\ 0 <= sleep_seconds events <= 18
    /\ (Text.is_empty (ANTHROPIC_API_KEY env) = true -> events = []).
Proof.
  unfold generate_topic_map.
  destruct (Text.is_empty (ANTHROPIC_API_KEY env)).
  - exists []. cbn. rewrite app_nil_r. repeat split; lia.
  - assert (H : costs 9 18
                  (bind (_call_claude env (TOPIC_MAP_SYSTEM_PROMPT env)
                           (user_prompt env topic scope industry audience
                              geo_focus competitors existing_content
                              compiled_research))
                     (fun raw_response =>
                        bind (lift (_parse_json raw_response))
                          (fun entries =>
                             bind (repair env raw_response entries)
                               (fun entries =>
                                  match entries with
                                  | None =>
                                      raise (ValueError parse_failure_msg)
                                  | Some entries =>
                                      bind (continue_truncated env
                                              raw_response entries)
                                        (validate_and_return env)
                                  end))))).
    { apply (costs_bind 3 6 6 12); [apply costs_call_claude|lia|]. intros raw.
      apply (costs_bind 0 6 0 12); [apply costs_lift|lia|]. intros parsed.
      apply (costs_bind 3 3 6 6); [apply costs_repair|lia|]. intros [entries|].
      - apply (costs_bind 3 0 6 0); [apply costs_continue_truncated|lia|].
        intros es. apply costs_validate_and_return.
      - eapply costs_weaken; [apply costs_raise|lia|lia]. }
    destruct (H t) as (events & Ht & Hn & Hs).
    exists events. repeat split; try assumption; try lia.
Qed.

End Budget.

(** ** What a returned topic map guarantees *)

Lemma contains_prefix (needle rest : string) :
  Text.contains needle (needle ++ rest) = true.
Proof.
  assert (H : String.prefix needle (needle ++ rest) = true).
  { induction needle as [|c needle IH]; cbn; [now destruct rest|].
    destruct (ascii_dec c c); [exact IH|congruence]. }
  destruct needle; cbn [append Text.contains] in *;
    [destruct rest; reflexivity|now rewrite H].
Qed.

Lemma contains_append (needle a b : string) :
  Text.contains needle b = true -> Text.contains needle (a ++ b) = true.
Proof.
  intros H. induction a as [|c a IH]; [exact H|].
  cbn [append Text.contains]. rewrite IH.
  destruct (String.prefix needle (String c (a ++ b))); reflexivity.
Qed.

(** The message about a missing field is critical, whatever the index and
    the title in front of it. *)
Lemma missing_field_critical (i : nat) (title : pyval) (f : string) :
  is_critical (entry_msg i title (missing_field_msg f)) = true.
Proof.
  unfold is_critical, entry_msg, missing_field_msg.
  replace (Text.contains "Missing required field" _) with true;
    [reflexivity|].
  symmetry. do 4 apply contains_append.
  exact (contains_prefix "Missing required field" (": " ++ f)).
Qed.

Lemma pillar_count_critical (n : nat) :
  is_critical (pillar_count_msg n) = true.
Proof.
  unfold is_critical, pillar_count_msg.
  replace (Text.contains "Expected exactly 1 Pillar" _) with true;
    [apply orb_true_r|].
  symmetry.
  exact (contains_prefix "Expected exactly 1 Pillar"
           (", found " ++ Text.of_nat n)).
Qed.

(** The per-entry loop returned, and no message is critical: every entry is
    an object with the 13 fields. *)
Lemma validate_entries_uncritical (sd : set_display)
  (entries : list pyval) (i : nat) (errors : list string) :
  validate_entries sd i entries = Ok errors ->
  existsb is_critical errors = false ->
  Forall (fun e => has_fields e = true) entries.
Proof.
  revert i errors. induction entries as [|e entries IH]; intros i errors H Hc;
    [constructor|].
  cbn [validate_entries] in H.
  destruct (validate_entry sd e) as [x|errs] eqn:Ev; [discriminate H|].
  cbn [rbind] in H.
  destruct (prefix_errors i e errs) as [x|msgs] eqn:Ep; [discriminate H|].
  cbn [rbind] in H.
  destruct (validate_entries sd (S i) entries) as [x|more] eqn:Em;
    [discriminate H|].
  cbn [rbind] in H. unfold Ok in H. injection H as <-.
  rewrite existsb_app in Hc. apply orb_false_iff in Hc as [Hc1 Hc2].
  constructor; [|exact (IH (S i) more Em Hc2)].
  destruct errs as [|m ms].
  - exact (validate_entry_nil_inv sd e Ev).
  - destruct e as [| | | | | |d];
      try (cbn in Ep; discriminate Ep).
    destruct (has_fields (PDict d)) eqn:Hf; [reflexivity|].
    exfalso.
    destruct (validate_entry_incomplete sd d Hf) as [Hv Hne].
    remember (List.filter (fun f => negb (has_field (PDict d) f))
                required_fields) as missing eqn:Emiss.
    clear Emiss. destruct missing as [|f fs]; [congruence|].
    rewrite Hv in Ev. unfold Ok in Ev. cbn [List.map] in Ev.
    injection Ev as <- <-.
    rewrite prefix_errors_dict in Ep. unfold Ok in Ep. injection Ep as <-.
    cbn [List.map existsb] in Hc1.
    rewrite missing_field_critical in Hc1. discriminate Hc1.
Qed.

(** What [generate_topic_map] returns went through the validation. *)
Lemma generate_returns_complete (env : environment)
  (topic scope industry audience geo_focus competitors existing_content
     compiled_research : string) (t t' : trace) (entries : list pyval) :
  generate_topic_map env topic scope industry audience geo_focus competitors
    existing_content compiled_research t = (Ok entries, t') ->
  entries <> []
  /\ Forall (fun e => has_fields e = true) entries
  /\ (forallb accepted_entry entries = true ->
      count_level "Pillar" entries = 1%nat).
Proof.
  rewrite generate_topic_map_split. unfold bind.
  destruct (obtain_entries env topic scope industry audience geo_focus
              competitors existing_content compiled_research t)
    as [[x|es] t1]; [discriminate|].
  unfold validate_and_return. destruct es as [|e es]; [discriminate|].
  unfold bind, lift.
  destruct (validate_topic_map (display env) (e :: es)) as [x|errors] eqn:Ev;
    [discriminate|].
  destruct (List.filter is_critical errors) as [|c cs] eqn:Ef;
    [|discriminate].
  unfold ret, Ok. intros [= <- <-].
  assert (Hc : existsb is_critical errors = false).
  { destruct (existsb is_critical errors) eqn:E; [|reflexivity].
    apply existsb_filter in E. congruence. }
  split; [discriminate|].
  unfold validate_topic_map in Ev.
  destruct (validate_entries (display env) 0 (e :: es)) as [x|errs] eqn:Ee;
    [discriminate Ev|].
  cbn [rbind] in Ev.
  assert (Hf : Forall (fun e => has_fields e = true) (e :: es)).
  { destruct errs as [|m ms].
    - eapply Forall_impl;
        [|exact (validate_entries_nil_inv (display env) _ 0 Ee)].
      intros a. apply validate_entry_nil_inv.
    - unfold Ok in Ev. injection Ev as <-.
      exact (validate_entries_uncritical (display env) _ 0 _ Ee Hc). }
  split; [exact Hf|].
  intros Hacc.
  assert (Hnil : validate_entries (display env) 0 (e :: es) = Ok []).
  { clear - Hacc. generalize 0%nat. revert Hacc.
    generalize (e :: es). intros l. induction l as [|a l IH]; intros H i;
      [reflexivity|].
    cbn [forallb] in H. apply andb_prop in H as [Ha Hl].
    cbn [validate_entries].
    rewrite (proj2 (validate_entry_nil_iff (display env) a) Ha).
    cbn [rbind Ok prefix_errors]. rewrite (IH Hl (S i)). reflexivity. }
  rewrite Hnil in Ee. unfold Ok in Ee. injection Ee as <-.
  rewrite !(with_level_filter _ _ Hf) in Ev. cbn [rbind Ok] in Ev.
  unfold count_level.
  destruct (List.filter (has_level "Pillar") (e :: es)) as [|p [|p' ps]]
    eqn:Epil; [|reflexivity|].
  - unfold Ok in Ev. injection Ev as <-.
    cbn [existsb] in Hc. rewrite pillar_count_critical in Hc. discriminate.
  - unfold Ok in Ev. injection Ev as <-.
    cbn [existsb] in Hc. rewrite pillar_count_critical in Hc. discriminate.
Qed.

(** X6.  A topic map that [generate_topic_map] returns is not empty, each
    of its entries is an object that has the 13 required fields, and when
    each of them is also accepted by the per-entry checks exactly one of
    them is a Pillar. *)
Theorem returned_map_is_complete (env : environment)
  (topic scope industry audience geo_focus competitors existing_content
     compiled_research : string) (t t' : trace) (entries : list pyval) :
  generate_topic_map env topic scope industry audience geo_focus competitors
    existing_content compiled_research t = (Ok entries, t') ->
  entries <> []
  /\ Forall (fun e => has_fields e = true) entries
  /\ (forallb accepted_entry entries = true ->
      count_level "Pillar" entries = 1%nat).
Proof.
  exact (generate_returns_complete env topic scope industry audience
           geo_focus competitors existing_content compiled_research t t'
           entries).
Qed.

(** ** Cleaning does not know about JSON strings *)

Lemma plain_has_no (c : ascii) (s : string) :
  is_plain c = false -> all_plain s = true -> Py.has_char c s = false.
Proof.
  intros Hc. induction s as [|d s IH]; [reflexivity|].
  cbn [all_plain Py.has_char]. intros H. apply andb_prop in H as [Hd Hs].
  rewrite (IH Hs), orb_false_r.
  destruct (Ascii.eqb d c) eqn:E; [|reflexivity].
  apply Ascii.eqb_eq in E. congruence.
Qed.

(** Without a backquote there is no closing fence to remove. *)
Lemma sub_close_fence_none (s : string) :
  Py.has_char "`" s = false -> sub_close_fence s = s.
Proof.
  induction s as [|c s IH]; [reflexivity|].
  cbn [Py.has_char]. intros H. apply orb_false_iff in H as [Hc Hs].
  assert (Hpre : forall x, Py.has_char "`" x = false ->
                           String.prefix fence x = false).
  { intros [|a x]; [reflexivity|]. cbn [Py.has_char]. intros Hx.
    apply orb_false_iff in Hx as [Ha _]. unfold fence.
    cbn [String.prefix].
    destruct (ascii_dec "`" a) as [<-|]; [discriminate Ha|reflexivity]. }
  assert (Hm : matches_close_fence (String c s) = false).
  { assert (Hcs : String.prefix fence (String c s) = false).
    { apply Hpre. cbn [Py.has_char]. now rewrite Hc, Hs. }
    destruct (Ascii.eqb c "010") eqn:Ec.
    - apply Ascii.eqb_eq in Ec. subst c.
      rewrite matches_close_fence_newline, (Hpre s Hs), Hcs. reflexivity.
    - rewrite (matches_close_fence_other c s Ec), Hcs. reflexivity. }
  cbn [sub_close_fence]. rewrite Hm, (IH Hs). reflexivity.
Qed.

(** Without a comma nothing is pending, and the text goes through. *)
Lemma sub_trailing_commas_none (x rest : string) :
  Py.has_char "," x = false ->
  sub_trailing_commas None (x ++ rest) = x ++ sub_trailing_commas None rest.
Proof.
  induction x as [|c x IH]; [reflexivity|].
  cbn [Py.has_char]. intros H. apply orb_false_iff in H as [Hc Hx].
  cbn [append sub_trailing_commas]. rewrite Hc, (IH Hx). reflexivity.
Qed.

Lemma sub_trailing_commas_id (x : string) :
  Py.has_char "," x = false -> sub_trailing_commas None x = x.
Proof.
  intros H. pose proof (sub_trailing_commas_none x "" H) as E.
  cbn [sub_trailing_commas] in E.
  assert (Hnil : forall s, s ++ "" = s).
  { induction s as [|c s IH]; cbn; [reflexivity|now rewrite IH]. }
  now rewrite !Hnil in E.
Qed.

(** The automaton inside a string, over characters that need no escape. *)
Lemma run_string_body (s : string) :
  forall stack k start acc pos,
    all_string_chars s = true ->
    Json.run (stack, Json.MStr k start acc) s pos
    = Ok (stack, Json.MStr k start (acc ++ s)).
Proof.
  induction s as [|c s IH]; intros stack k start acc pos H.
  - cbn. assert (Hnil : forall x, x ++ "" = x).
    { induction x as [|a x IHx]; cbn; [reflexivity|now rewrite IHx]. }
    now rewrite Hnil.
  - cbn [all_string_chars] in H. apply andb_prop in H as [Hc Hs].
    unfold is_string_char in Hc.
    apply andb_prop in Hc as [Hc H32]. apply andb_prop in Hc as [Hq Hb].
    apply negb_true_iff in Hq, Hb.
    apply Nat.leb_le in H32. apply Nat.ltb_ge in H32.
    cbn [Json.run Json.step]. rewrite Hq, Hb, H32. cbn [rbind Ok].
    rewrite (IH _ _ _ _ _ Hs). unfold Json.snoc.
    now rewrite append_assoc.
Qed.

(** A JSON array of one string that needs no escape decodes to that
    string. *)
Lemma decode_string_array (s : string) :
  all_string_chars s = true ->
  Json.decode ("[" ++ dq ++ s ++ dq ++ "]") = Ok (PList [PStr s]).
Proof.
  intros H. unfold Json.decode.
  change ("[" ++ dq ++ s ++ dq ++ "]")
    with (String "[" (String Py.dquote (s ++ dq ++ "]"))).
  cbn [Json.run Json.initial Json.step Json.step_plain rbind Ok].
  change (Json.is_ws "[") with false. cbv iota.
  change (Json.start_value [] "[" 0)
    with (Ok ([Json.FArr []], Json.MArrStart) : result Json.state).
  cbn [rbind Ok Json.step Json.step_plain].
  change (Json.is_ws Py.dquote) with false.
  change (Ascii.eqb Py.dquote "]") with false. cbv iota.
  change (Json.start_value [Json.FArr []] Py.dquote 1)
    with (Ok ([Json.FArr []], Json.MStr false 1%nat "") : result Json.state).
  cbn [rbind Ok].
  rewrite JsonFacts.run_append, (run_string_body s _ _ _ _ _ H).
  cbn [rbind Ok append]. unfold dq.
  cbn [append Json.run Json.step]. rewrite Ascii.eqb_refl.
  cbn [Json.complete_string Json.complete app rbind Ok Json.step
         Json.step_plain].
  change (Json.is_ws "]") with false. cbv iota.
  change (Ascii.eqb "]" ",") with false. cbv iota.
  change (Ascii.eqb "]" "]") with true. cbv iota.
  cbn [Json.complete rbind Ok Json.run Json.finish]. reflexivity.
Qed.

Lemma all_string_chars_app (a b : string) :
  all_string_chars (a ++ b) = all_string_chars a && all_string_chars b.
Proof.
  induction a as [|c a IH]; cbn [append all_string_chars]; [reflexivity|].
  now rewrite IH, andb_assoc.
Qed.

Lemma plain_string_chars (s : string) :
  all_plain s = true -> all_string_chars s = true.
Proof.
  induction s as [|c s IH]; [reflexivity|].
  cbn [all_plain all_string_chars]. intros H.
  apply andb_prop in H as [Hc Hs]. rewrite (IH Hs), andb_true_r.
  clear - Hc. unfold is_plain, is_string_char in *.
  assert (Hn : c = ascii_of_nat (nat_of_ascii c))
    by (now rewrite ascii_nat_embedding).
  destruct (Ascii.eqb c Py.dquote) eqn:Eq.
  { apply Ascii.eqb_eq in Eq. subst c. discriminate Hc. }
  destruct (Ascii.eqb c "\") eqn:Eb.
  { apply Ascii.eqb_eq in Eb. subst c. discriminate Hc. }
  cbn [negb andb]. apply Nat.leb_le.
  repeat (apply orb_prop in Hc as [Hc|Hc]);
    try (apply andb_prop in Hc as [Hlo Hhi]; apply Nat.leb_le in Hlo; lia).
  apply Nat.eqb_eq in Hc. lia.
Qed.

(** X7.  The cleaning step is blind to JSON strings: in a response that is
    an array of one string, the comma of a [,]] inside that string is
    removed like a trailing comma.  [json.loads] of the response gives the
    string as it was sent, [_parse_json] gives it without the comma. *)
Theorem comma_inside_string_removed (a b : string) :
  all_plain a = true ->
  all_plain b = true ->
  let response := "[" ++ dq ++ a ++ ",]" ++ b ++ dq ++ "]" in
  json_loads response = Ok (inr (PList [PStr (a ++ ",]" ++ b)]))
  /\ _parse_json response = Ok (Some [PStr (a ++ "]" ++ b)]).
Proof.
  intros Ha Hb response.
  assert (Hsafe : forall mid,
            all_string_chars mid = true ->
            all_string_chars (a ++ mid ++ b) = true).
  { intros mid Hm. rewrite !all_string_chars_app, Hm.
    now rewrite (plain_string_chars a Ha), (plain_string_chars b Hb). }
  split.
  - apply json_loads_decoded. unfold response.
    replace ("[" ++ dq ++ a ++ ",]" ++ b ++ dq ++ "]")
      with ("[" ++ dq ++ (a ++ ",]" ++ b) ++ dq ++ "]")
      by (now rewrite !append_assoc).
    apply decode_string_array. now apply Hsafe.
  - assert (Hclean : _clean_json_response response
                     = "[" ++ dq ++ (a ++ "]" ++ b) ++ dq ++ "]").
    { unfold _clean_json_response.
      assert (Hstrip : Text.strip response = response).
      { unfold Text.strip, response.
        replace ("[" ++ dq ++ a ++ ",]" ++ b ++ dq ++ "]")
          with (("[" ++ dq ++ a ++ ",]" ++ b ++ dq) ++ "]")
          by (now rewrite !append_assoc).
        rewrite rstrip_snoc by reflexivity. reflexivity. }
      rewrite Hstrip.
      assert (Hopen : sub_open_fence response = response) by reflexivity.
      rewrite Hopen.
      assert (Hquote : Py.has_char "`" response = false).
      { unfold response. rewrite !has_char_append.
        now rewrite (plain_has_no "`" a eq_refl Ha),
          (plain_has_no "`" b eq_refl Hb). }
      rewrite (sub_close_fence_none response Hquote), Hstrip.
      unfold response.
      replace ("[" ++ dq ++ a ++ ",]" ++ b ++ dq ++ "]")
        with (("[" ++ dq ++ a) ++ "," ++ "" ++ String "]" (b ++ dq ++ "]"))
        by (now rewrite !append_assoc).
      rewrite sub_trailing_commas_none.
      2:{ rewrite !has_char_append.
          now rewrite (plain_has_no "," a eq_refl Ha). }
      change ("," ++ "" ++ String "]" (b ++ dq ++ "]"))
        with (String "," ("" ++ String "]" (b ++ dq ++ "]"))).
      cbn [sub_trailing_commas].
      rewrite (sub_trailing_commas_pending "" "," "]" (b ++ dq ++ "]")
                 eq_refl eq_refl).
      rewrite sub_trailing_commas_id.
      2:{ rewrite !has_char_append.
          now rewrite (plain_has_no "," b eq_refl Hb). }
      now rewrite !append_assoc. }
    unfold _parse_json. rewrite Hclean.
    assert (Hdec : json_loads ("[" ++ dq ++ (a ++ "]" ++ b) ++ dq ++ "]")
                   = Ok (inr (PList [PStr (a ++ "]" ++ b)]))).
    { apply json_loads_decoded. apply decode_string_array. now apply Hsafe. }
    rewrite Hdec. reflexivity.
Qed.

(** ** The CSV export *)

Lemma concat_cons (sep x : string) (l : list string) :
  l <> [] -> String.concat sep (x :: l) = x ++ sep ++ String.concat sep l.
Proof. destruct l; [congruence|reflexivity]. Qed.

(** X8.  [_join_list] does not escape the separator: an item that holds a
    pipe is joined to the same text as the two items on either side of that
    pipe, so the cell does not tell how many items the list had. *)
Theorem join_list_pipe_ambiguous (a b : string) (rest : list pyval) :
  Csv._join_list (PList (PStr (a ++ "|" ++ b) :: rest))
  = Csv._join_list (PList (PStr a :: PStr b :: rest)).
Proof.
  unfold Csv._join_list, Text.join. cbn [List.map Py.str].
  destruct (List.map Py.str rest) as [|x xs]; [reflexivity|].
  rewrite !(concat_cons "|" _ (_ :: _)) by discriminate.
  now rewrite !append_assoc.
Qed.

Lemma csv_row_object (d : list (string * pyval)) :
  exists r,
    Csv.row (PDict d) = Ok r
    /\ List.map fst r = Csv.column_names
    /\ forall c, In c Csv.joined_columns ->
                 exists s, Py.assoc c r = Some (PStr s).
Proof.
  unfold Csv.row. cbn [Py.get rbind Ok]. eexists. split; [reflexivity|].
  split; [reflexivity|].
  intros c Hc. cbn in Hc.
  destruct Hc as [<-|[<-|[<-|[<-|[]]]]]; cbn; eauto.
Qed.

Lemma csv_row_other (e : pyval) :
  is_object e = false ->
  Csv.row e = Raise (AttributeError "object has no attribute 'get'").
Proof. destruct e; try reflexivity. discriminate. Qed.

(** The rows of a list of objects. *)
Lemma dataframe_objects (entries : list pyval) :
  forallb is_object entries = true ->
  exists rows,
    Csv.topic_map_to_dataframe entries = Ok rows
    /\ List.length rows = List.length entries
    /\ Forall (fun r =>
                 List.map fst r = Csv.column_names
                 /\ forall c, In c Csv.joined_columns ->
                              exists s, Py.assoc c r = Some (PStr s)) rows.
Proof.
  induction entries as [|e entries IH]; intros H.
  - exists []. repeat split. constructor.
  - cbn [forallb] in H. apply andb_prop in H as [He Hrest].
    destruct e; try discriminate He.
    destruct (csv_row_object d) as (r & Hr & Hcols).
    destruct (IH Hrest) as (rows & Hrows & Hlen & Hall).
    exists (r :: rows). cbn [Csv.topic_map_to_dataframe].
    rewrite Hr, Hrows. cbn [rbind Ok List.length].
    split; [reflexivity|]. split; [now rewrite Hlen|].
    constructor; assumption.
Qed.

Lemma csv_row_cells (d : list (string * pyval)) :
  Csv.row (PDict d) = Ok (Csv.export_row (PDict d)).
Proof. reflexivity. Qed.

(** The rows of a list of objects: the row of each entry, in order. *)
Lemma dataframe_cells (entries : list pyval) :
  forallb is_object entries = true ->
  Csv.topic_map_to_dataframe entries
  = Ok (List.map Csv.export_row entries).
Proof.
  induction entries as [|e entries IH]; intros H; [reflexivity|].
  cbn [forallb] in H. apply andb_prop in H as [He Hrest].
  destruct e; try discriminate He.
  cbn [Csv.topic_map_to_dataframe List.map].
  rewrite csv_row_cells, (IH Hrest). reflexivity.
Qed.

(** X9.  [topic_map_to_dataframe] builds one row for each entry, in order,
    whatever keys the entries have: the row of an entry holds, under the
    same 13 column names, the values of its fields or their defaults, and
    in its four list columns the joined text of the list.  It raises
    [AttributeError] as soon as an entry is no object. *)
Theorem dataframe_rows (entries : list pyval) :
  (forallb is_object entries = true ->
   Csv.topic_map_to_dataframe entries
   = Ok (List.map Csv.export_row entries))
  /\ (forall e,
        List.map fst (Csv.export_row e) = Csv.column_names
        /\ forall c, In c Csv.joined_columns ->
                     exists s, Py.assoc c (Csv.export_row e) = Some (PStr s))
  /\ (forallb is_object entries = false ->
      Csv.topic_map_to_dataframe entries
      = Raise (AttributeError "object has no attribute 'get'")).
Proof.
  split; [apply dataframe_cells|]. split.
  - intros e. split; [reflexivity|].
    intros c Hc. cbn in Hc.
    destruct Hc as [<-|[<-|[<-|[<-|[]]]]]; cbn; eauto.
  - induction entries as [|e entries IH]; [discriminate|].
    cbn [forallb Csv.topic_map_to_dataframe]. intros H.
    destruct (is_object e) eqn:He.
    + destruct e; try discriminate He.
      rewrite csv_row_cells. cbn [rbind Ok]. rewrite (IH H). reflexivity.
    + now rewrite (csv_row_other e He).
Qed.

(** *** The file name *)

Lemma lstrip_char_has (x c : ascii) (s : string) :
  Py.has_char c (Str.lstrip_char x s) = true -> Py.has_char c s = true.
Proof.
  induction s as [|a s IH]; [discriminate|].
  cbn [Str.lstrip_char]. destruct (Ascii.eqb a x); [|auto].
  intros H. cbn [Py.has_char]. rewrite (IH H). apply orb_true_r.
Qed.

Lemma rstrip_char_has (x c : ascii) (s : string) :
  Py.has_char c (Str.rstrip_char x s) = true -> Py.has_char c s = true.
Proof.
  induction s as [|a s IH]; [discriminate|].
  cbn [Str.rstrip_char].
  destruct (Text.is_empty (Str.rstrip_char x s) && Ascii.eqb a x);
    [discriminate|].
  cbn [Py.has_char]. intros H. apply orb_prop in H as [H|H].
  - now rewrite H.
  - rewrite (IH H). apply orb_true_r.
Qed.

Lemma sub_non_alnum_chars (b : bool) (s : string) (c : ascii) :
  Py.has_char c (Str.sub_non_alnum b s) = true ->
  Str.is_lower_alnum c = true \/ c = "_"%char.
Proof.
  revert b. induction s as [|a s IH]; intros b; [discriminate|].
  cbn [Str.sub_non_alnum]. destruct (Str.is_lower_alnum a) eqn:Ea.
  - cbn [Py.has_char]. intros H. apply orb_prop in H as [H|H].
    + apply Ascii.eqb_eq in H. subst. now left.
    + exact (IH false H).
  - destruct b; [exact (IH true)|].
    cbn [Py.has_char]. intros H. apply orb_prop in H as [H|H].
    + apply Ascii.eqb_eq in H. now right.
    + exact (IH true H).
Qed.

(** What is left of a text stripped of [x] does not start with [x]. *)
Lemma lstrip_char_head (x : ascii) (s : string) :
  String.prefix (String x "") (Str.lstrip_char x s) = false.
Proof.
  induction s as [|a s IH]; [reflexivity|].
  cbn [Str.lstrip_char]. destruct (Ascii.eqb a x) eqn:E; [exact IH|].
  cbn [String.prefix]. destruct (ascii_dec x a) as [<-|]; [|reflexivity].
  now rewrite Ascii.eqb_refl in E.
Qed.

Lemma rstrip_char_last (x : ascii) (s : string) :
  Text.last_char (Str.rstrip_char x s) <> Some x.
Proof.
  induction s as [|a s IH]; [discriminate|].
  cbn [Str.rstrip_char].
  destruct (Str.rstrip_char x s) as [|b r] eqn:Er.
  - cbn [Text.is_empty andb]. destruct (Ascii.eqb a x) eqn:E;
      [discriminate|].
    cbn. intros [= ->]. now rewrite Ascii.eqb_refl in E.
  - cbn [Text.is_empty andb]. exact IH.
Qed.

Lemma lstrip_char_last (x : ascii) (s : string) (c : ascii) :
  Text.last_char (Str.lstrip_char x s) = Some c ->
  Text.last_char s = Some c.
Proof.
  induction s as [|a s IH]; [discriminate|].
  cbn [Str.lstrip_char]. destruct (Ascii.eqb a x); [|auto].
  intros H. specialize (IH H). cbn [Text.last_char].
  destruct s; [discriminate IH|exact IH].
Qed.

Lemma prefix_append (n p t : string) :
  String.prefix n p = true -> String.prefix n (p ++ t) = true.
Proof.
  revert p. induction n as [|a n IH]; intros p;
    [intros _; destruct (p ++ t); reflexivity|].
  destruct p as [|b p]; [discriminate|].
  cbn [String.prefix append]. destruct (ascii_dec a b); [apply IH|auto].
Qed.

Lemma contains_append_l (n p t : string) :
  Text.contains n p = true -> Text.contains n (p ++ t) = true.
Proof.
  induction p as [|a p IH].
  - destruct n; [intros _; destruct t; reflexivity|discriminate].
  - cbn [Text.contains append].
    destruct (String.prefix n (String a p)) eqn:E.
    + intros _.
      change (String a (p ++ t)) with (String a p ++ t).
      now rewrite (prefix_append n (String a p) t E).
    + intros H. rewrite (IH H).
      destruct (String.prefix n (String a (p ++ t))); reflexivity.
Qed.

Lemma contains_tail (n : string) (a : ascii) (s : string) :
  Text.contains n s = true -> Text.contains n (String a s) = true.
Proof.
  intros H. cbn [Text.contains]. rewrite H.
  destruct (String.prefix n (String a s)); reflexivity.
Qed.

Lemma lstrip_char_contains (x : ascii) (n s : string) :
  Text.contains n (Str.lstrip_char x s) = true -> Text.contains n s = true.
Proof.
  induction s as [|a s IH]; [auto|].
  cbn [Str.lstrip_char]. destruct (Ascii.eqb a x); [|auto].
  intros H. apply contains_tail. auto.
Qed.

(** What [rstrip] keeps is the front of the text. *)
Lemma rstrip_char_front (x : ascii) (s : string) :
  exists t, s = Str.rstrip_char x s ++ t.
Proof.
  induction s as [|a s [t IH]]; [exists ""; reflexivity|].
  cbn [Str.rstrip_char].
  destruct (Text.is_empty (Str.rstrip_char x s) && Ascii.eqb a x).
  - exists (String a s). reflexivity.
  - exists t. cbn [append]. now rewrite <- IH.
Qed.

Lemma rstrip_char_contains (x : ascii) (n s : string) :
  Text.contains n (Str.rstrip_char x s) = true -> Text.contains n s = true.
Proof.
  intros H. destruct (rstrip_char_front x s) as [t Ht].
  rewrite Ht. now apply contains_append_l.
Qed.

(** The replacement leaves no two underscores in a row, and after a
    replaced run the text goes on with a letter or a digit. *)
Lemma sub_non_alnum_single (s : string) :
  forall b,
    Text.contains "__" (Str.sub_non_alnum b s) = false
    /\ String.prefix "_" (Str.sub_non_alnum true s) = false.
Proof.
  induction s as [|a s IH]; intros b; [destruct b; split; reflexivity|].
  destruct (IH true) as [Ht Hp]. destruct (IH false) as [Hf _].
  assert (Hunder : Str.is_lower_alnum "_" = false) by reflexivity.
  cbn [Str.sub_non_alnum]. destruct (Str.is_lower_alnum a) eqn:Ea.
  - assert (Hne : a <> "_"%char) by (intros ->; congruence).
    split.
    + cbn [Text.contains String.prefix].
      destruct (ascii_dec "_" a) as [E|_]; [congruence|]. exact Hf.
    + cbn [String.prefix].
      destruct (ascii_dec "_" a) as [E|_]; [congruence|reflexivity].
  - split; [|exact Hp].
    destruct b; [exact Ht|].
    cbn [Text.contains]. 
    replace (String.prefix "__" (String "_" (Str.sub_non_alnum true s)))
      with (String.prefix "_" (Str.sub_non_alnum true s)).
    + now rewrite Hp.
    + cbn [String.prefix]. destruct (ascii_dec "_" "_"); [reflexivity|congruence].
Qed.

(** X10.  The slug of a file name is made of [a-z], [0-9] and underscores
    only; it neither starts nor ends with an underscore and never holds two
    underscores in a row.  The file name is [topical_map_<slug>_<date>.csv]. *)
Theorem filename_slug_is_safe (date_str topic : string) :
  let slug := Csv.slug topic in
  Csv.generate_filename date_str topic
  = "topical_map_" ++ slug ++ "_" ++ date_str ++ ".csv"
  /\ (forall c, Py.has_char c slug = true ->
                Str.is_lower_alnum c = true \/ c = "_"%char)
  /\ String.prefix "_" slug = false
  /\ Text.last_char slug <> Some "_"%char
  /\ Text.contains "__" slug = false.
Proof.
  intros slug. subst slug. unfold Csv.slug, Str.strip_char.
  split; [reflexivity|]. split; [|split; [|split]].
  - intros c H. apply lstrip_char_has, rstrip_char_has in H.
    exact (sub_non_alnum_chars _ _ _ H).
  - apply lstrip_char_head.
  - intros H. apply lstrip_char_last in H.
    exact (rstrip_char_last _ _ H).
  - destruct (Text.contains "__" _) eqn:E; [|reflexivity].
    apply lstrip_char_contains, rstrip_char_contains in E.
    now rewrite (proj1 (sub_non_alnum_single _ false)) in E.
Qed.

(** X11.  Every topic map that [generate_topic_map] returns can be
    exported: [topic_map_to_dataframe] builds a row for each of its entries
    (at least one) and raises nothing. *)
Theorem returned_map_exports (env : environment)
  (topic scope industry audience geo_focus competitors existing_content
     compiled_research : string) (t t' : trace) (entries : list pyval) :
  generate_topic_map env topic scope industry audience geo_focus competitors
    existing_content compiled_research t = (Ok entries, t') ->
  exists rows,
    Csv.topic_map_to_dataframe entries = Ok rows
    /\ List.length rows = List.length entries
    /\ rows <> [].
Proof.
  intros H.
  destruct (generate_returns_complete _ _ _ _ _ _ _ _ _ _ _ _ H)
    as (Hne & Hf & _).
  destruct (dataframe_objects entries) as (rows & Hrows & Hlen & _).
  { apply forallb_forall. intros e He. rewrite Forall_forall in Hf.
    destruct (has_fields_dict e (Hf e He)) as [d ->]. reflexivity. }
  exists rows. split; [exact Hrows|]. split; [exact Hlen|].
  intros ->. destruct entries; [congruence|discriminate Hlen].
Qed.

(** ** The research queries and the sidebar *)

Lemma lstrip_idem (s : string) : Text.lstrip (Text.lstrip s) = Text.lstrip s.
Proof.
  induction s as [|c s IH]; [reflexivity|].
  cbn [Text.lstrip]. destruct (Text.isspace c) eqn:E; [exact IH|].
  cbn [Text.lstrip]. now rewrite E.
Qed.

Lemma rstrip_idem (s : string) : Text.rstrip (Text.rstrip s) = Text.rstrip s.
Proof.
  induction s as [|c s IH]; [reflexivity|].
  cbn [Text.rstrip].
  destruct (Text.is_empty (Text.rstrip s) && Text.isspace c) eqn:E;
    [reflexivity|].
  cbn [Text.rstrip]. rewrite IH, E. reflexivity.
Qed.

(** Stripping the front of a text that has no trailing whitespace leaves
    none. *)
Lemma rstrip_lstrip (s : string) :
  Text.rstrip s = s -> Text.rstrip (Text.lstrip s) = Text.lstrip s.
Proof.
  induction s as [|c s IH]; [reflexivity|].
  intros H. cbn [Text.lstrip]. destruct (Text.isspace c); [|exact H].
  apply IH. cbn [Text.rstrip] in H.
  destruct (Text.is_empty (Text.rstrip s) && Text.isspace c);
    [discriminate H|]. now injection H.
Qed.

Lemma strip_idem (s : string) : Text.strip (Text.strip s) = Text.strip s.
Proof.
  unfold Text.strip.
  rewrite (rstrip_lstrip (Text.rstrip s) (rstrip_idem s)).
  apply lstrip_idem.
Qed.

Lemma lstrip_has (c : ascii) (s : string) :
  Py.has_char c (Text.lstrip s) = true -> Py.has_char c s = true.
Proof.
  induction s as [|a s IH]; [discriminate|].
  cbn [Text.lstrip]. destruct (Text.isspace a); [|auto].
  intros H. cbn [Py.has_char]. rewrite (IH H). apply orb_true_r.
Qed.

Lemma rstrip_has (c : ascii) (s : string) :
  Py.has_char c (Text.rstrip s) = true -> Py.has_char c s = true.
Proof.
  induction s as [|a s IH]; [discriminate|].
  cbn [Text.rstrip].
  destruct (Text.is_empty (Text.rstrip s) && Text.isspace a);
    [discriminate|].
  cbn [Py.has_char]. intros H. apply orb_prop in H as [H|H].
  - now rewrite H.
  - rewrite (IH H). apply orb_true_r.
Qed.

Lemma strip_has (c : ascii) (s : string) :
  Py.has_char c (Text.strip s) = true -> Py.has_char c s = true.
Proof. intros H. now apply rstrip_has, lstrip_has. Qed.

(** No piece of a split holds the separator. *)
Lemma split_pieces (sep : ascii) (s piece : string) :
  In piece (Str.split sep s) -> Py.has_char sep piece = false.
Proof.
  revert piece. induction s as [|c s IH]; intros piece.
  - intros [<-|[]]. reflexivity.
  - cbn [Str.split]. destruct (Ascii.eqb c sep) eqn:E.
    + intros [<-|H]; [reflexivity|auto].
    + destruct (Str.split sep s) as [|p rest].
      * intros [<-|[]]. cbn. now rewrite E.
      * intros [<-|H].
        -- cbn [Py.has_char]. rewrite E. apply IH. now left.
        -- apply IH. now right.
Qed.

(** The competitors that the sidebar hands on: none is blank, each is
    stripped, and none holds a comma. *)
Lemma parse_competitors_clean (raw c : string) :
  In c (Sidebar.parse_competitors raw) ->
  c <> "" /\ Text.strip c = c /\ Py.has_char "," c = false.
Proof.
  unfold Sidebar.parse_competitors. intros H.
  apply filter_In in H as [H Hne]. apply in_map_iff in H as (p & <- & Hp).
  split; [|split].
  - intros E. rewrite E in Hne. discriminate.
  - apply strip_idem.
  - destruct (Py.has_char "," (Text.strip p)) eqn:E; [|reflexivity].
    apply strip_has in E. now rewrite (split_pieces _ _ _ Hp) in E.
Qed.

(** X12.  The competitors that [render_sidebar] returns: [None] exactly
    when the text area is empty; otherwise a list in which no name is empty,
    every name is stripped of surrounding whitespace, and no name holds a
    comma.  (The list is empty when the text area holds only commas and
    whitespace.) *)
Theorem sidebar_competitors_clean (w : Sidebar.widgets)
  (gdrive_available : bool) :
  match Sidebar.competitors (Sidebar.render_sidebar w gdrive_available) with
  | None => Sidebar.w_competitors w = ""
  | Some cs =>
      Sidebar.w_competitors w <> ""
      /\ cs = Sidebar.parse_competitors (Sidebar.w_competitors w)
      /\ (forall c, In c cs ->
            c <> "" /\ Text.strip c = c /\ Py.has_char "," c = false)
      /\ (Text.all_space
            (Text.join "" (Str.split "," (Sidebar.w_competitors w))) = true ->
          cs = [])
  end.
Proof.
  unfold Sidebar.render_sidebar.
  destruct (if gdrive_available then _ else _) as [ge gf].
  cbn [Sidebar.competitors].
  destruct (Sidebar.w_competitors w) as [|a raw] eqn:E; [reflexivity|].
  cbn [Text.is_empty]. split; [discriminate|]. split; [reflexivity|].
  split; [intros c; apply parse_competitors_clean|].
  unfold Sidebar.parse_competitors, Text.join.
  generalize (Str.split "," (String a raw)). intros pieces.
  induction pieces as [|p pieces IH]; [reflexivity|].
  intros H.
  assert (Hp : Text.all_space p = true
               /\ Text.all_space (String.concat "" pieces) = true).
  { destruct pieces as [|q pieces']; [now split|].
    rewrite (concat_cons "" p (q :: pieces')) in H by discriminate.
    cbn [append] in H.
    clear - H. revert H. generalize (String.concat "" (q :: pieces')).
    intros t. induction p as [|c p IHp]; cbn [append Text.all_space].
    - auto.
    - intros H. apply andb_prop in H as [Hc H].
      destruct (IHp H) as [H1 H2]. now rewrite Hc, H1. }
  destruct Hp as [Hp Hrest].
  cbn [List.map List.filter]. rewrite (strip_all_space p Hp).
  cbn [Text.is_empty negb]. exact (IH Hrest).
Qed.

(** X13.  [build_research_queries] returns the ten queries of the topic
    (the first one is the topic itself) followed by one [site:] query for
    each of the first three competitors whose name is not blank; later
    competitors are never used.  So it returns between 10 and 13 queries. *)
Theorem research_queries_shape (current_year : Z) (topic : string)
  (industry : option string) (competitors : option (list string)) :
  let queries :=
    Research.build_research_queries current_year topic industry competitors in
  let used :=
    List.filter (fun c => negb (Text.is_empty (Text.strip c)))
      (List.firstn 3 (match competitors with Some cs => cs | None => [] end)) in
  queries
  = (Research.base_queries current_year topic industry
     ++ List.map (fun c => Research.site_query topic (Text.strip c)) used)%list
  /\ List.hd_error queries = Some topic
  /\ List.length queries = (10 + List.length used)%nat
  /\ (10 <= List.length queries <= 13)%nat.
Proof.
  intros queries used.
  assert (Hflat : forall l,
            List.flat_map (Research.competitor_query topic) l
            = List.map (fun c => Research.site_query topic (Text.strip c))
                (List.filter (fun c => negb (Text.is_empty (Text.strip c)))
                   l)).
  { induction l as [|c l IH]; [reflexivity|].
    cbn [List.flat_map List.filter]. unfold Research.competitor_query at 1.
    destruct (Text.is_empty (Text.strip c)); cbn [negb app List.map];
      now rewrite IH. }
  assert (Hq : queries
               = (Research.base_queries current_year topic industry
                  ++ List.map (fun c => Research.site_query topic (Text.strip c))
                       used)%list).
  { unfold queries, used, Research.build_research_queries.
    destruct competitors as [[|c cs]|].
    - cbn. rewrite ?app_nil_r. reflexivity.
    - now rewrite Hflat.
    - cbn. rewrite ?app_nil_r. reflexivity. }
  assert (Hused : (List.length used <= 3)%nat).
  { unfold used.
    etransitivity; [apply filter_length_le|].
    rewrite length_firstn. lia. }
  split; [exact Hq|]. rewrite Hq. split; [reflexivity|].
  rewrite length_app, length_map. cbn [Research.base_queries List.length].
  split; lia.
Qed.

(** X14.  With the competitors that [render_sidebar] returns, no name is
    skipped as blank: [build_research_queries] returns the ten queries of
    the topic followed by the query [site:<name> <topic>] of each of the
    first three competitors, as they are. *)
Theorem sidebar_competitors_all_queried (w : Sidebar.widgets)
  (gdrive_available : bool) (current_year : Z) (topic : string)
  (industry : option string) :
  let inputs := Sidebar.render_sidebar w gdrive_available in
  let names := match Sidebar.competitors inputs with
               | Some cs => cs
               | None => []
               end in
  Research.build_research_queries current_year topic industry
    (Sidebar.competitors inputs)
  = (Research.base_queries current_year topic industry
     ++ List.map (Research.site_query topic)
          (List.firstn 3 names))%list.
Proof.
  intros inputs names.
  assert (Hclean : forall c, In c names -> c <> "" /\ Text.strip c = c).
  { intros c Hc. subst names inputs. unfold Sidebar.render_sidebar in Hc.
    destruct (if gdrive_available then _ else _) as [ge gf].
    cbn [Sidebar.competitors] in Hc.
    destruct (Text.is_empty (Sidebar.w_competitors w)); [destruct Hc|].
    destruct (parse_competitors_clean _ _ Hc) as (H1 & H2 & _). auto. }
  assert (Hflat : forall l,
            (forall c, In c l -> c <> "" /\ Text.strip c = c) ->
            List.flat_map (Research.competitor_query topic) l
            = List.map (Research.site_query topic) l).
  { induction l as [|c l IH]; intros Hl; [reflexivity|].
    cbn [List.flat_map List.map]. unfold Research.competitor_query at 1.
    destruct (Hl c (or_introl eq_refl)) as [Hne Hs]. rewrite Hs.
    destruct c as [|a c]; [congruence|]. cbn [Text.is_empty app].
    rewrite IH; [reflexivity|]. intros x Hx. apply Hl. now right. }
  unfold Research.build_research_queries. fold names.
  destruct (Sidebar.competitors inputs) as [[|c cs]|] eqn:E; subst names.
  - cbn. rewrite ?app_nil_r. reflexivity.
  - rewrite Hflat; [reflexivity|].
    intros x Hx. apply Hclean. rewrite <- (firstn_skipn 3 (c :: cs)).
    apply in_or_app. now left.
  - cbn. rewrite ?app_nil_r. reflexivity.
Qed.

(** ** The research run *)

Section ResearchRun.

Variable env : Tavily.environment.











(** *** What the lists hold *)

Lemma keeps_ret {A} (P : Tavily.findings -> Prop) (a : A) :
  Tavily.keeps P (Tavily.ret a).
Proof. intros f H. exact H. Qed.

Lemma keeps_raise {A} (P : Tavily.findings -> Prop) (e : exn) :
  Tavily.keeps P (@Tavily.raise A e).
Proof. intros f H. exact H. Qed.

Lemma keeps_lift {A} (P : Tavily.findings -> Prop) (r : result A) :
  Tavily.keeps P (Tavily.lift r).
Proof. intros f H. exact H. Qed.

Lemma keeps_bind {A C} (P : Tavily.findings -> Prop) (m : Tavily.B A)
  (k : A -> Tavily.B C) :
  Tavily.keeps P m -> (forall a, Tavily.keeps P (k a)) ->
  Tavily.keeps P (Tavily.bind m k).
Proof.
  intros Hm Hk f H. unfold Tavily.bind. specialize (Hm f H).
  destruct (m f) as [[e|a] f']; cbn [snd] in *; [exact Hm|].
  exact (Hk a f' Hm).
Qed.

End ResearchRun.

Lemma in_removelast {A} (l : list A) (x : A) :
  In x (List.removelast l) -> In x l.
Proof.
  induction l as [|a l IH]; [auto|].
  cbn [List.removelast]. destruct l as [|b l]; [intros []|].
  intros [<-|H]; [now left|right; auto].
Qed.

Lemma in_last {A} (l : list A) (d : A) : l <> [] -> In (List.last l d) l.
Proof.
  induction l as [|a l IH]; [congruence|]. intros _.
  cbn [List.last]. destruct l as [|b l]; [now left|].
  right. apply IH. discriminate.
Qed.

Lemma split_not_nil (sep : ascii) (s : string) : Str.split sep s <> [].
Proof.
  destruct s as [|c s]; [discriminate|]. cbn [Str.split].
  destruct (Ascii.eqb c sep); [discriminate|].
  destruct (Str.split sep s); discriminate.
Qed.

(** The characters of a piece are characters of the text. *)
Lemma split_piece_has (sep c : ascii) (s piece : string) :
  In piece (Str.split sep s) -> Py.has_char c piece = true ->
  Py.has_char c s = true.
Proof.
  revert piece. induction s as [|a s IH]; intros piece.
  - intros [<-|[]]. discriminate.
  - cbn [Str.split Py.has_char]. destruct (Ascii.eqb a sep).
    + intros [<-|H]; [discriminate|]. intros Hc.
      rewrite (IH piece H Hc). apply orb_true_r.
    + destruct (Str.split sep s) as [|p rest] eqn:E.
      * intros [<-|[]]. cbn [Py.has_char]. rewrite orb_false_r.
        intros ->. reflexivity.
      * intros [<-|H] Hc.
        -- cbn [Py.has_char] in Hc. apply orb_prop in Hc as [Hc|Hc];
             [now rewrite Hc|].
           rewrite (IH p (or_introl eq_refl) Hc). apply orb_true_r.
        -- rewrite (IH piece (or_intror H) Hc). apply orb_true_r.
Qed.

Lemma take_length (n : nat) (s : string) :
  (String.length (Text.take n s) <= n)%nat.
Proof.
  revert s. induction n as [|n IH]; intros s; [destruct s; cbn; lia|].
  destruct s as [|c s]; cbn; [lia|]. specialize (IH s). lia.
Qed.

(** Every question found in a text is well formed. *)
Lemma questions_in_well_formed (text q : string) :
  In q (Tavily.questions_in text) -> Tavily.well_formed_question q.
Proof.
  unfold Tavily.questions_in. intros H.
  apply filter_In in H as [H Hlen]. apply in_map_iff in H as (s & <- & Hs).
  apply in_removelast in Hs.
  apply andb_prop in Hlen as [Hlo Hhi].
  apply Nat.ltb_lt in Hlo. apply Nat.ltb_lt in Hhi.
  unfold Tavily.question_of in *.
  set (piece := List.last (Str.split "." (Text.strip s)) "") in *.
  assert (Hpiece : In piece (Str.split "." (Text.strip s))).
  { apply in_last. apply split_not_nil. }
  exists (Text.strip piece). split; [reflexivity|].
  split; [|split; [|split]].
  - destruct (Py.has_char "?" (Text.strip piece)) eqn:E; [|reflexivity].
    apply strip_has in E. apply (split_piece_has _ _ _ _ Hpiece) in E.
    apply strip_has in E. now rewrite (split_pieces _ _ _ Hs) in E.
  - destruct (Py.has_char "." (Text.strip piece)) eqn:E; [|reflexivity].
    apply strip_has in E. now rewrite (split_pieces _ _ _ Hpiece) in E.
  - apply strip_idem.
  - lia.
Qed.

Section Findings.

Variable env : Tavily.environment.

Let P := Tavily.well_formed_findings.

Lemma keeps_add_answers l : Tavily.keeps P (Tavily.add_answers l).
Proof. intros f H. exact H. Qed.

Lemma keeps_add_urls l : Tavily.keeps P (Tavily.add_urls l).
Proof. intros f H. exact H. Qed.

Lemma keeps_add_snippets l : Tavily.keeps P (Tavily.add_snippets l).
Proof. intros f H. exact H. Qed.

Lemma keeps_add_questions l :
  Forall Tavily.well_formed_question l ->
  Tavily.keeps P (Tavily.add_questions l).
Proof.
  intros Hl f (Hq & Hs & Hc). repeat split; try assumption.
  cbn. apply Forall_app. auto.
Qed.

Lemma keeps_add_stats l :
  Forall (fun s => (String.length s <= 300)%nat) l ->
  Tavily.keeps P (Tavily.add_stats l).
Proof.
  intros Hl f (Hq & Hs & Hc). repeat split; try assumption.
  cbn. apply Forall_app. auto.
Qed.

Lemma keeps_add_content_types l :
  Forall (fun ct => In ct Tavily.content_type_words) l ->
  Tavily.keeps P (Tavily.add_content_types l).
Proof.
  intros Hl f (Hq & Hs & Hc). repeat split; try assumption.
  cbn. apply Forall_app. auto.
Qed.

Lemma keeps_detect_questions (text : pyval) :
  Tavily.keeps P (Tavily.detect_questions text).
Proof.
  unfold Tavily.detect_questions.
  destruct (Py.truthy text); [|apply keeps_ret].
  apply keeps_bind; [apply keeps_lift|]. intros [|]; [|apply keeps_ret].
  destruct text; try apply keeps_raise.
  apply keeps_add_questions. apply Forall_forall.
  intros q. apply questions_in_well_formed.
Qed.

Lemma keeps_detect_statistic (snippet : pyval) :
  Tavily.keeps P (Tavily.detect_statistic snippet).
Proof.
  unfold Tavily.detect_statistic.
  destruct (Py.truthy snippet); [|apply keeps_ret].
  destruct snippet; try apply keeps_raise.
  destruct (existsb _ _); [|apply keeps_ret].
  apply keeps_add_stats. constructor; [apply take_length|constructor].
Qed.

Lemma keeps_detect_content_types (title : pyval) :
  Tavily.keeps P (Tavily.detect_content_types title).
Proof.
  unfold Tavily.detect_content_types. apply keeps_bind.
  - destruct (Py.truthy title); [|apply keeps_ret].
    destruct title; first [apply keeps_raise|apply keeps_ret].
  - intros title_lower. apply keeps_add_content_types.
    apply Forall_forall. intros ct H. now apply filter_In in H as [H _].
Qed.

Lemma keeps_process_result (r : pyval) :
  Tavily.keeps P (Tavily.process_result r).
Proof.
  unfold Tavily.process_result.
  apply keeps_bind; [apply keeps_lift|]. intros url.
  apply keeps_bind; [apply keeps_lift|]. intros title.
  apply keeps_bind; [apply keeps_lift|]. intros snippet.
  apply keeps_bind.
  { destruct (Py.truthy url && Py.truthy title);
      [apply keeps_add_urls|apply keeps_ret]. }
  intros _. apply keeps_bind.
  { destruct (Py.truthy snippet);
      [apply keeps_add_snippets|apply keeps_ret]. }
  intros _. apply keeps_bind; [apply keeps_detect_questions|].
  intros _. apply keeps_bind; [apply keeps_detect_questions|].
  intros _. apply keeps_bind; [apply keeps_detect_statistic|].
  intros _. apply keeps_detect_content_types.
Qed.

Lemma keeps_process_results (rs : list pyval) :
  Tavily.keeps P (Tavily.process_results rs).
Proof.
  induction rs as [|r rs IH]; [apply keeps_ret|].
  cbn [Tavily.process_results].
  apply keeps_bind; [apply keeps_process_result|]. intros _. exact IH.
Qed.

Lemma keeps_process_answer (query : string) (result : pyval) :
  Tavily.keeps P (Tavily.process_answer query result).
Proof.
  unfold Tavily.process_answer.
  apply keeps_bind; [apply keeps_lift|]. intros answer.
  apply keeps_bind.
  { destruct (Py.truthy answer); [|apply keeps_ret].
    apply keeps_bind; [apply keeps_lift|]. intros a.
    apply keeps_add_answers. }
  intros _. apply keeps_bind; [apply keeps_lift|]. intros results.
  apply keeps_bind; [apply keeps_lift|]. intros rs.
  apply keeps_process_results.
Qed.

Lemma run_queries_well_formed (queries : list string) :
  forall f t,
    P f -> P (fst (Tavily.run_queries env queries (f, t))).
Proof.
  induction queries as [|q queries IH]; intros f t H; [exact H|].
  cbn [Tavily.run_queries].
  set (last := match queries with [] => true | _ => false end).
  assert (H1 : P (fst (Tavily.run_query env q last (f, t)))).
  { unfold Tavily.run_query.
    destruct (Tavily.search env t q) as [e|result]; [exact H|].
    pose proof (keeps_process_answer q result f H) as Hk.
    destruct (Tavily.process_answer q result f) as [[e|u] f'];
      exact Hk. }
  destruct (Tavily.run_query env q last (f, t)) as [f1 t1].
  exact (IH f1 t1 H1).
Qed.

(** X16.  In the report of [perform_research], whatever the search engine
    answered: every question listed ends with its only question mark, holds
    no period, is stripped and has more than 15 and less than 200
    characters; every data point has at most 300 characters; and every
    content type counted is one of the eight words looked for. *)
Theorem research_findings_well_formed (current_year : Z) (topic : string)
  (industry : option string) (competitors : option (list string))
  (t t' : list Tavily.event) (r : pyval) :
  Tavily.perform_research env current_year topic industry competitors t
  = (Ok r, t') ->
  exists f,
    r = Tavily.report
          (List.length (Research.build_research_queries current_year topic
                          industry competitors)) topic f
    /\ Forall Tavily.well_formed_question (Tavily.all_questions f)
    /\ Forall (fun s => (String.length s <= 300)%nat) (Tavily.all_stats f)
    /\ Forall (fun ct => In ct Tavily.content_type_words)
         (Tavily.content_types_seen f).
Proof.
  unfold Tavily.perform_research.
  destruct (Text.is_empty (Tavily.TAVILY_API_KEY env)); [discriminate|].
  pose proof (run_queries_well_formed
                (Research.build_research_queries current_year topic industry
                   competitors) Tavily.no_findings t) as H.
  destruct (Tavily.run_queries env _ (Tavily.no_findings, t)) as [f t1].
  unfold Ok. intros [= <- <-]. exists f. split; [reflexivity|].
  apply H. repeat split; constructor.
Qed.

End Findings.

(** *** The count of the URLs *)

Lemma unique_in (l : list string) (x : string) :
  In x (Tavily.unique l) <-> In x l.
Proof.
  induction l as [|a l IH]; [reflexivity|].
  cbn [Tavily.unique]. split.
  - intros [<-|H]; [now left|].
    apply filter_In in H as [H _]. right. now apply IH.
  - intros [<-|H]; [now left|].
    destruct (String.eqb a x) eqn:E.
    + apply String.eqb_eq in E. now left.
    + right. apply filter_In. split; [now apply IH|now rewrite E].
Qed.

Lemma unique_length (l : list string) :
  (List.length (Tavily.unique l) <= List.length l)%nat.
Proof.
  induction l as [|a l IH]; [reflexivity|].
  cbn [Tavily.unique List.length].
  pose proof (filter_length_le (fun y => negb (String.eqb a y))
                (Tavily.unique l)). lia.
Qed.

(** No text was dropped exactly when no text was repeated. *)
Lemma unique_length_nodup (l : list string) :
  List.length (Tavily.unique l) = List.length l <-> NoDup l.
Proof.
  induction l as [|a l IH]; [split; [constructor|reflexivity]|].
  cbn [Tavily.unique List.length].
  pose proof (filter_length_le (fun y => negb (String.eqb a y))
                (Tavily.unique l)) as H1.
  pose proof (unique_length l) as H2.
  split.
  - intros H.
    assert (Hf : List.length (List.filter (fun y => negb (String.eqb a y))
                                (Tavily.unique l))
                 = List.length (Tavily.unique l)) by lia.
    apply filter_length_forallb in Hf. rewrite forallb_forall in Hf.
    constructor.
    + intros Hin. apply (proj2 (unique_in _ _)) in Hin.
      specialize (Hf a Hin).
      now rewrite String.eqb_refl in Hf.
    + apply IH. lia.
  - intros H. inversion H as [|x xs Hnin Hnd]; subst.
    f_equal. rewrite <- (proj2 IH Hnd).
    assert (Hall : forallb (fun y => negb (String.eqb a y))
                     (Tavily.unique l) = true).
    { apply forallb_forall. intros y Hy.
      apply (proj1 (unique_in _ _)) in Hy.
      destruct (String.eqb a y) eqn:E; [|reflexivity].
      apply String.eqb_eq in E. subst y. exfalso. apply Hnin. exact Hy. }
    clear - Hall. induction (Tavily.unique l) as [|y ys IHy];
      [reflexivity|].
    cbn [forallb] in Hall. apply andb_prop in Hall as [Hy Hys].
    cbn [List.filter]. rewrite Hy. cbn [List.length]. now rewrite IHy.
Qed.

(** X17.  The report of [perform_research] counts the URLs twice: its
    summary announces as "unique URLs" the number of all URL lines found,
    repeated ones included, while [url_count] is the number of distinct
    lines.  [url_count] is never the larger, and the two agree exactly when
    no line was found twice. *)
Theorem research_url_counts (query_count : nat) (topic : string)
  (f : Tavily.findings) :
  let found := List.length (Tavily.all_urls f) in
  let distinct := List.length (Tavily.unique (Tavily.all_urls f)) in
  Py.getitem (Tavily.report query_count topic f) "url_count"
  = Ok (PInt (Z.of_nat distinct))
  /\ Py.getitem (Tavily.report query_count topic f) "summary"
     = Ok (PStr (Tavily.summary query_count topic f))
  /\ Text.contains ("Found " ++ Text.of_nat found ++ " unique URLs,")
       (Tavily.summary query_count topic f) = true
  /\ (distinct <= found)%nat
  /\ (distinct = found <-> NoDup (Tavily.all_urls f)).
Proof.
  intros found distinct. split; [reflexivity|]. split; [reflexivity|].
  split; [|split].
  - unfold Tavily.summary, Text.join. cbn [String.concat].
    apply contains_append. apply (contains_append _ " ").
    fold found.
    replace (("Found " ++ Text.of_nat found ++ " unique URLs,") ++ _)
      with (("Found " ++ Text.of_nat found ++ " unique URLs,")
            ++ (" " ++ (Text.of_nat (List.length (Tavily.all_snippets f))
                        ++ " content snippets,")
                ++ " " ++ (Text.of_nat (List.length (Tavily.all_stats f))
                           ++ " data points,")
                ++ " " ++ "and "
                ++ Text.of_nat (List.length (Tavily.all_questions f))
                ++ " questions.")).
    + apply contains_prefix.
    + now rewrite !append_assoc.
  - apply unique_length.
  - apply unique_length_nodup.
Qed.

(** ** The application *)








(** ** The upload to Google Drive *)

(** X20.  [upload_to_drive] either raises or returns after the file has
    been shared.  When it returns, every call it made was answered, and the
    calls are, in order: the credentials; the listing of the folders of the
    given name; the creation of the folder, only when the listing held no
    file; the creation of the file, with the given name and content, in the
    folder whose id is that of the first folder listed or, failing that, of
    the folder created; and the permission that lets anyone read the file
    whose id the creation answered.  The link returned is the webViewLink
    of that answer.  Without the two Google credentials it raises at once
    and makes no call. *)
Theorem upload_shares_the_file (env : Gdrive.environment)
  (csv_bytes filename folder_name : string) (t : list Gdrive.call) :
  (forall link t',
     Gdrive.upload_to_drive env csv_bytes filename folder_name t
     = (Ok link, t') ->
     let listing := Gdrive.ListFiles (Gdrive.folder_query folder_name) in
     exists creds results files folder_id created uploaded file_id granted,
       Gdrive.answer env t Gdrive.GetCredentials = Ok creds
       /\ Gdrive.answer env (t ++ [Gdrive.GetCredentials])%list listing
          = Ok results
       /\ Py.get results "files" (PList []) = Ok files
       /\ (if Py.truthy files
           then created = []
                /\ exists first,
                     Gdrive.first_item files = Ok first
                     /\ Py.getitem first "id" = Ok folder_id
           else created = [Gdrive.CreateFolder folder_name]
                /\ exists folder,
                     Gdrive.answer env
                       (t ++ [Gdrive.GetCredentials; listing])%list
                       (Gdrive.CreateFolder folder_name) = Ok folder
                     /\ Py.getitem folder "id" = Ok folder_id)
       /\ Gdrive.answer env
            (t ++ [Gdrive.GetCredentials; listing] ++ created)%list
            (Gdrive.CreateFile filename folder_id csv_bytes) = Ok uploaded
       /\ Py.getitem uploaded "id" = Ok file_id
       /\ Gdrive.answer env
            (t ++ [Gdrive.GetCredentials; listing] ++ created
               ++ [Gdrive.CreateFile filename folder_id csv_bytes])%list
            (Gdrive.CreatePermission file_id "anyone" "reader") = Ok granted
       /\ Py.get uploaded "webViewLink" PNone = Ok link
       /\ t' = (t ++ [Gdrive.GetCredentials; listing]
                  ++ created
                  ++ [Gdrive.CreateFile filename folder_id csv_bytes;
                      Gdrive.CreatePermission file_id "anyone" "reader"])%list)
  /\ (Text.is_empty (Gdrive.GOOGLE_CLIENT_ID env)
      || Text.is_empty (Gdrive.GOOGLE_CLIENT_SECRET env) = true ->
      Gdrive.upload_to_drive env csv_bytes filename folder_name t
      = (Raise (ValueError "Google Drive credentials are not configured."),
         t)).
Proof.
  unfold Gdrive.upload_to_drive.
  destruct (Text.is_empty (Gdrive.GOOGLE_CLIENT_ID env)
            || Text.is_empty (Gdrive.GOOGLE_CLIENT_SECRET env)).
  { split; [discriminate|reflexivity]. }
  split; [|discriminate].
  intros link t' H. cbv zeta.
  set (listing := Gdrive.ListFiles (Gdrive.folder_query folder_name)).
  unfold Gdrive.bind at 1, Gdrive.execute at 1 in H.
  destruct (Gdrive.answer env t Gdrive.GetCredentials) as [e|creds] eqn:Ec;
    [discriminate H|].
  set (t1 := (t ++ [Gdrive.GetCredentials])%list) in *.
  unfold Gdrive.bind at 1 in H.
  unfold Gdrive._find_or_create_folder in H.
  unfold Gdrive.bind at 1, Gdrive.execute at 1 in H.
  fold listing in H.
  destruct (Gdrive.answer env t1 listing) as [e|results] eqn:El;
    [discriminate H|].
  unfold Gdrive.bind at 1, Gdrive.lift at 1 in H.
  destruct (Py.get results "files" (PList [])) as [e|files] eqn:Ef;
    [discriminate H|].
  set (t2 := (t1 ++ [listing])%list) in *.
  assert (E2 : (t ++ [Gdrive.GetCredentials; listing])%list = t2).
  { unfold t2, t1. now rewrite <- app_assoc. }
  destruct (Py.truthy files) eqn:Et.
  - unfold Gdrive.bind at 1, Gdrive.lift at 1 in H.
    destruct (Gdrive.first_item files) as [e|first] eqn:E1;
      [discriminate H|].
    unfold Gdrive.bind at 1, Gdrive.lift at 1 in H.
    destruct (Py.getitem first "id") as [e|folder_id] eqn:Ei;
      [discriminate H|].
    unfold Gdrive.bind, Gdrive.execute, Gdrive.lift in H.
    destruct (Gdrive.answer env t2 (Gdrive.CreateFile _ _ _))
      as [e|uploaded] eqn:Eu; [discriminate H|].
    destruct (Py.getitem uploaded "id") as [e|file_id] eqn:Eid;
      [discriminate H|].
    destruct (Gdrive.answer env _ (Gdrive.CreatePermission _ _ _))
      as [e|granted] eqn:Eg; [discriminate H|].
    destruct (Py.get uploaded "webViewLink" PNone) as [e|l] eqn:Ew;
      [discriminate H|].
    unfold Ok in H. injection H as <- <-.
    exists creds, results, files, folder_id, [], uploaded, file_id, granted.
    rewrite Et. cbn [app]. rewrite !E2.
    assert (E3 : (t2 ++ [Gdrive.CreateFile filename folder_id csv_bytes])%list
                 = (t ++ [Gdrive.GetCredentials; listing;
                          Gdrive.CreateFile filename folder_id csv_bytes])%list).
    { unfold t2, t1. now rewrite <- !app_assoc. }
    rewrite <- E3.
    split; [first [reflexivity|assumption]|].
    split; [first [reflexivity|assumption]|].
    split; [first [reflexivity|assumption]|].
    split; [split; [reflexivity|]; exists first; split; assumption|].
    split; [first [reflexivity|assumption]|].
    split; [first [reflexivity|assumption]|].
    split; [first [reflexivity|assumption]|].
    split; [first [reflexivity|assumption]|].
    unfold t2, t1. now rewrite <- !app_assoc.
  - unfold Gdrive.bind at 1, Gdrive.execute at 1 in H.
    destruct (Gdrive.answer env t2 (Gdrive.CreateFolder folder_name))
      as [e|folder] eqn:Efo; [discriminate H|].
    unfold Gdrive.bind at 1, Gdrive.lift at 1 in H.
    destruct (Py.getitem folder "id") as [e|folder_id] eqn:Ei;
      [discriminate H|].
    unfold Gdrive.bind, Gdrive.execute, Gdrive.lift in H.
    destruct (Gdrive.answer env _ (Gdrive.CreateFile _ _ _))
      as [e|uploaded] eqn:Eu; [discriminate H|].
    destruct (Py.getitem uploaded "id") as [e|file_id] eqn:Eid;
      [discriminate H|].
    destruct (Gdrive.answer env _ (Gdrive.CreatePermission _ _ _))
      as [e|granted] eqn:Eg; [discriminate H|].
    destruct (Py.get uploaded "webViewLink" PNone) as [e|l] eqn:Ew;
      [discriminate H|].
    unfold Ok in H. injection H as <- <-.
    exists creds, results, files, folder_id,
      [Gdrive.CreateFolder folder_name], uploaded, file_id, granted.
    rewrite Et. rewrite !E2.
    assert (E3 : (t ++ [Gdrive.GetCredentials; listing]
                    ++ [Gdrive.CreateFolder folder_name])%list
                 = (t2 ++ [Gdrive.CreateFolder folder_name])%list).
    { unfold t2, t1. now rewrite <- !app_assoc. }
    assert (E4 : (t ++ [Gdrive.GetCredentials; listing]
                    ++ [Gdrive.CreateFolder folder_name]
                    ++ [Gdrive.CreateFile filename folder_id csv_bytes])%list
                 = ((t2 ++ [Gdrive.CreateFolder folder_name])
                      ++ [Gdrive.CreateFile filename folder_id csv_bytes])%list).
    { unfold t2, t1. now rewrite <- !app_assoc. }
    rewrite E3, E4.
    split; [first [reflexivity|assumption]|].
    split; [first [reflexivity|assumption]|].
    split; [first [reflexivity|assumption]|].
    split; [split; [reflexivity|]; exists folder; split; assumption|].
    split; [first [reflexivity|assumption]|].
    split; [first [reflexivity|assumption]|].
    split; [first [reflexivity|assumption]|].
    split; [first [reflexivity|assumption]|].
    unfold t2, t1. now rewrite <- !app_assoc.
Qed.

(** ** The statistics of a topic map *)

Lemma get_object (d : list (string * pyval)) (name : string)
  (default : pyval) :
  Py.get (PDict d) name default
  = Ok (match field name (PDict d) with Some v => v | None => default end).
Proof. reflexivity. Qed.

(** On objects, the count of a level is the count of the entries that have
    it. *)
Lemma level_count_objects (lvl : string) (entries : list pyval) :
  forallb is_object entries = true ->
  ResultsTable.level_count lvl entries = Ok (count_level lvl entries).
Proof.
  unfold count_level.
  induction entries as [|e entries IH]; intros H; [reflexivity|].
  cbn [forallb] in H. apply andb_prop in H as [He Hrest].
  destruct e; try discriminate He.
  cbn [ResultsTable.level_count List.filter]. rewrite get_object, (IH Hrest).
  cbn [rbind Ok]. unfold has_level.
  destruct (field "level" (PDict d)) as [l|]; cbn [Py.eqb];
    [destruct (Py.eqb l (PStr lvl))|]; reflexivity.
Qed.

Lemma eqb_str_level (l : pyval) (a b : string) :
  Py.eqb l (PStr a) = true -> Py.eqb l (PStr b) = true -> a = b.
Proof.
  intros Ha Hb. apply eqb_str_inv in Ha. apply eqb_str_inv in Hb. congruence.
Qed.

Lemma filter_cons_length {A} (p : A -> bool) (e : A) (l : list A) :
  List.length (List.filter p (e :: l))
  = ((if p e then 1 else 0) + List.length (List.filter p l))%nat.
Proof. cbn [List.filter]. destruct (p e); reflexivity. Qed.

(** An entry has at most one of the three levels. *)
Lemma levels_exclusive (e : pyval) :
  ((if has_level "Pillar" e then 1 else 0)
   + (if has_level "Cluster" e then 1 else 0)
   + (if has_level "Spoke" e then 1 else 0) <= 1)%nat.
Proof.
  unfold has_level. destruct (field "level" e) as [l|]; [|lia].
  destruct (Py.eqb l (PStr "Pillar")) eqn:E1;
    destruct (Py.eqb l (PStr "Cluster")) eqn:E2;
    destruct (Py.eqb l (PStr "Spoke")) eqn:E3; try lia;
    try (pose proof (eqb_str_level _ _ _ E1 E2); discriminate);
    try (pose proof (eqb_str_level _ _ _ E1 E3); discriminate);
    try (pose proof (eqb_str_level _ _ _ E2 E3); discriminate).
Qed.

Lemma level_counts_bounded (entries : list pyval) :
  (count_level "Pillar" entries + count_level "Cluster" entries
   + count_level "Spoke" entries <= List.length entries)%nat.
Proof.
  unfold count_level.
  induction entries as [|e entries IH]; [reflexivity|].
  rewrite !filter_cons_length. cbn [List.length].
  pose proof (levels_exclusive e). lia.
Qed.

(** An accepted entry has exactly one of the three levels. *)
Lemma level_counts_accepted (entries : list pyval) :
  forallb accepted_entry entries = true ->
  (count_level "Pillar" entries + count_level "Cluster" entries
   + count_level "Spoke" entries = List.length entries)%nat.
Proof.
  unfold count_level.
  induction entries as [|e entries IH]; intros H; [reflexivity|].
  cbn [forallb] in H. apply andb_prop in H as [He Hrest].
  specialize (IH Hrest).
  unfold accepted_entry in He. do 5 (apply andb_prop in He as [He _]).
  apply andb_prop in He as [_ He].
  apply text_in_inv in He as (s & Hs & Hin).
  rewrite !filter_cons_length. cbn [List.length].
  assert (Hone : ((if has_level "Pillar" e then 1 else 0)
                  + (if has_level "Cluster" e then 1 else 0)
                  + (if has_level "Spoke" e then 1 else 0) = 1)%nat).
  { unfold has_level. rewrite Hs. cbn [Py.eqb].
    cbn [VALID_LEVELS existsb] in Hin.
    destruct (String.eqb s "Pillar") eqn:E1.
    { apply String.eqb_eq in E1. subst s. reflexivity. }
    destruct (String.eqb s "Cluster") eqn:E2.
    { apply String.eqb_eq in E2. subst s. reflexivity. }
    destruct (String.eqb s "Spoke") eqn:E3.
    { apply String.eqb_eq in E3. subst s. reflexivity. }
    discriminate Hin. }
  lia.
Qed.

Lemma counted_cons (k : pyval) (n : nat) (counts : list (pyval * nat)) :
  ResultsTable.counted ((k, n) :: counts)
  = (n + ResultsTable.counted counts)%nat.
Proof. reflexivity. Qed.

Lemma counted_bump (key : pyval) (counts : list (pyval * nat)) :
  ResultsTable.counted (ResultsTable.bump key counts)
  = S (ResultsTable.counted counts).
Proof.
  induction counts as [|[k n] counts IH]; [reflexivity|].
  cbn [ResultsTable.bump]. destruct (Py.same k key);
    rewrite !counted_cons; [|rewrite IH]; lia.
Qed.

(** The loop over the intents ends when every intent can be hashed, and it
    counts every entry once. *)
Lemma intent_counts_total (entries : list pyval) :
  forall counts,
    forallb is_object entries = true ->
    (forall e i, In e entries -> field "user_intent" e = Some i ->
                 Py.hashable i = true) ->
    exists result,
      ResultsTable.intent_counts entries counts = Ok result
      /\ ResultsTable.counted result
         = (ResultsTable.counted counts + List.length entries)%nat.
Proof.
  induction entries as [|e entries IH]; intros counts H Hh.
  - exists counts. split; [reflexivity|]. cbn. lia.
  - cbn [forallb] in H. apply andb_prop in H as [He Hrest].
    destruct e; try discriminate He.
    cbn [ResultsTable.intent_counts]. rewrite get_object. cbn [rbind Ok].
    assert (Hi : Py.hashable
                   match field "user_intent" (PDict d) with
                   | Some v => v
                   | None => PStr "Unknown"
                   end = true).
    { destruct (field "user_intent" (PDict d)) as [i|] eqn:E;
        [|reflexivity].
      exact (Hh _ i (or_introl eq_refl) E). }
    rewrite Hi.
    set (intent := match field "user_intent" (PDict d) with
                   | Some v => v
                   | None => PStr "Unknown"
                   end).
    destruct (IH (ResultsTable.bump intent counts) Hrest)
      as (result & Hr & Hc).
    { intros e' i' Hin. apply Hh. now right. }
    exists result. split; [exact Hr|].
    rewrite Hc, counted_bump. cbn [List.length]. lia.
Qed.

(** What [render_statistics] returns, [count_statistics] computed. *)
Lemma render_statistics_counts (entries : list pyval)
  (s : ResultsTable.statistics) :
  ResultsTable.render_statistics entries = Ok s ->
  ResultsTable.count_statistics entries = Ok s.
Proof.
  unfold ResultsTable.render_statistics.
  destruct (ResultsTable.count_statistics entries) as [x|s0];
    [discriminate|].
  cbn [rbind]. destruct (ResultsTable.intents s0); [discriminate|].
  destruct (ResultsTable.items_sortable _); [|discriminate].
  destruct (ResultsTable.text_keys _); [|discriminate].
  unfold Ok. intros [= <-]. reflexivity.
Qed.

(** X21.  The numbers that [render_statistics] computes, before it lays
    them out, add up.  On a list of objects
    whose user_intent can be hashed, it counts as Pillars, Clusters and
    Spokes the entries of these levels, never more than the total together,
    and the counts of the intents sum to the total.  When every entry is
    accepted by the per-entry checks, Pillars, Clusters and Spokes sum to
    the total as well.  Whenever [render_statistics] returns, these are the
    numbers it has shown. *)
Theorem statistics_add_up (entries : list pyval) :
  forallb is_object entries = true ->
  (forall e i, In e entries -> field "user_intent" e = Some i ->
               Py.hashable i = true) ->
  exists s,
    ResultsTable.count_statistics entries = Ok s
    /\ ResultsTable.total s = List.length entries
    /\ ResultsTable.pillars s = count_level "Pillar" entries
    /\ ResultsTable.clusters s = count_level "Cluster" entries
    /\ ResultsTable.spokes s = count_level "Spoke" entries
    /\ (ResultsTable.pillars s + ResultsTable.clusters s
        + ResultsTable.spokes s <= ResultsTable.total s)%nat
    /\ ResultsTable.counted (ResultsTable.intents s) = ResultsTable.total s
    /\ (forallb accepted_entry entries = true ->
        (ResultsTable.pillars s + ResultsTable.clusters s
         + ResultsTable.spokes s = ResultsTable.total s)%nat)
    /\ (forall s', ResultsTable.render_statistics entries = Ok s' -> s' = s).
Proof.
  intros Hobj Hhash.
  destruct (intent_counts_total entries [] Hobj Hhash) as (result & Hr & Hc).
  assert (Hs : ResultsTable.count_statistics entries
               = Ok {| ResultsTable.total := List.length entries;
                       ResultsTable.pillars := count_level "Pillar" entries;
                       ResultsTable.clusters := count_level "Cluster" entries;
                       ResultsTable.spokes := count_level "Spoke" entries;
                       ResultsTable.intents := result |}).
  { unfold ResultsTable.count_statistics.
    rewrite !(level_count_objects _ _ Hobj). cbn [rbind Ok].
    rewrite Hr. reflexivity. }
  eexists. split; [exact Hs|].
  cbn [ResultsTable.total ResultsTable.pillars ResultsTable.clusters
         ResultsTable.spokes ResultsTable.intents].
  split; [reflexivity|]. split; [reflexivity|]. split; [reflexivity|].
  split; [reflexivity|]. split; [apply level_counts_bounded|].
  split; [rewrite Hc; reflexivity|]. split; [apply level_counts_accepted|].
  intros s' Hs'. apply render_statistics_counts in Hs'.
  rewrite Hs in Hs'. unfold Ok in Hs'. now injection Hs' as <-.
Qed.

(** ** The hierarchy view *)

(** [is] or [==] on values that can be hashed is an equivalence. *)
Lemma same_sym (a b : pyval) :
  Py.hashable a = true -> Py.hashable b = true ->
  Py.same a b = Py.same b a.
Proof.
  intros Ha Hb. unfold Py.same.
  destruct a as [| | |[ra ia]| | |], b as [| | |[rb ib]| | |];
    try discriminate Ha; try discriminate Hb;
    cbn [Py.eqb Py.is_nan Py.as_int];
    unfold Py.float_eqb, Py.float_value; cbn [float_repr float_int andb orb];
    try reflexivity;
    try apply String.eqb_sym; try apply Z.eqb_sym;
    repeat match goal with
           | |- context [String.eqb ?x "nan"] =>
               destruct (String.eqb x "nan") eqn:?
           | |- context [match ?i with Some _ => _ | None => _ end] =>
               destruct i
           end;
    cbn [andb orb negb]; try reflexivity;
    try apply Z.eqb_sym; try apply String.eqb_sym.
Qed.

Lemma same_trans (a b c : pyval) :
  Py.hashable a = true -> Py.hashable b = true -> Py.hashable c = true ->
  Py.same a b = true -> Py.same b c = true -> Py.same a c = true.
Proof.
  intros Ha Hb Hc. unfold Py.same.
  destruct a as [| |na|[ra ia]|sa| |], b as [| |nb|[rb ib]|sb| |],
      c as [| |nc|[rc ic]|sc| |];
    try discriminate Ha; try discriminate Hb; try discriminate Hc;
    cbn [Py.eqb Py.is_nan Py.as_int];
    unfold Py.float_eqb, Py.float_value; cbn [float_repr float_int andb orb];
    try (intros; reflexivity); try (intros H; discriminate H);
    try (intros _ H; discriminate H);
    repeat match goal with
           | |- context [String.eqb ?x "nan"] =>
               destruct (String.eqb x "nan") eqn:?
           | |- context [match ?i with Some _ => _ | None => _ end] =>
               destruct i
           end;
    cbn [andb orb negb];
    try (intros; reflexivity); try (intros H; discriminate H);
    try (intros _ H; discriminate H);
    rewrite ?Z.eqb_eq, ?String.eqb_eq; try congruence;
    intros; subst; try congruence.
Qed.

(** Filing a Spoke under its parent adds it to the members of a title
    exactly when the parent is that title. *)
Lemma members_file_under (title parent spoke : pyval)
  (groups : list (pyval * list pyval)) :
  Py.hashable title = true -> Py.hashable parent = true ->
  Forall (fun g => Py.hashable (fst g) = true) groups ->
  ResultsTable.members_of title
    (ResultsTable.file_under parent spoke groups)
  = (ResultsTable.members_of title groups
     ++ if Py.same parent title then [spoke] else [])%list.
Proof.
  intros Ht Hp. induction 1 as [|[k m] groups Hk _ IH].
  - cbn. destruct (Py.same parent title); reflexivity.
  - cbn [fst] in Hk. cbn [ResultsTable.file_under].
    destruct (Py.same k parent) eqn:Ekp.
    + cbn [ResultsTable.members_of].
      destruct (Py.same k title) eqn:Ekt.
      * assert (Hpt : Py.same parent title = true).
        { apply (same_trans parent k title); try assumption.
          now rewrite same_sym. }
        now rewrite Hpt.
      * assert (Hpt : Py.same parent title = false).
        { destruct (Py.same parent title) eqn:E; [|reflexivity].
          rewrite (same_trans k parent title) in Ekt; assumption. }
        rewrite Hpt. now rewrite app_nil_r.
    + cbn [ResultsTable.members_of].
      destruct (Py.same k title) eqn:Ekt; [|exact IH].
      assert (Hpt : Py.same parent title = false).
      { destruct (Py.same parent title) eqn:E; [|reflexivity].
        rewrite (same_trans k title parent) in Ekp; try assumption.
        now rewrite same_sym. }
      rewrite Hpt. now rewrite app_nil_r.
Qed.

Lemma file_under_hashable (parent spoke : pyval)
  (groups : list (pyval * list pyval)) :
  Py.hashable parent = true ->
  Forall (fun g => Py.hashable (fst g) = true) groups ->
  Forall (fun g => Py.hashable (fst g) = true)
    (ResultsTable.file_under parent spoke groups).
Proof.
  intros Hp. induction 1 as [|[k m] groups Hk Hg IH].
  - repeat constructor. exact Hp.
  - cbn [ResultsTable.file_under]. cbn [fst] in Hk.
    destruct (Py.same k parent); constructor; assumption.
Qed.

(** Grouping by the dict is filtering by the parent. *)
Lemma group_spokes_members (title : pyval) (spokes : list pyval) :
  Py.hashable title = true ->
  forall groups,
    forallb is_object spokes = true ->
    Forall (fun s => Py.hashable (ResultsTable.parent_of s) = true) spokes ->
    Forall (fun g => Py.hashable (fst g) = true) groups ->
    exists result,
      ResultsTable.group_spokes spokes groups = Ok result
      /\ Forall (fun g => Py.hashable (fst g) = true) result
      /\ ResultsTable.members_of title result
         = (ResultsTable.members_of title groups
            ++ List.filter
                 (fun s => Py.same (ResultsTable.parent_of s) title)
                 spokes)%list.
Proof.
  intros Ht. induction spokes as [|s spokes IH]; intros groups Hobj Hh Hg.
  - exists groups. cbn. rewrite app_nil_r. auto.
  - cbn [forallb] in Hobj. apply andb_prop in Hobj as [Hs Hrest].
    inversion Hh as [|x xs Hps Hhs]; subst.
    destruct s; try discriminate Hs.
    cbn [ResultsTable.group_spokes]. rewrite get_object. cbn [rbind Ok].
    fold (ResultsTable.parent_of (PDict d)). rewrite Hps.
    destruct (IH (ResultsTable.file_under (ResultsTable.parent_of (PDict d))
                    (PDict d) groups) Hrest Hhs)
      as (result & Hr & Hkeys & Hm).
    { now apply file_under_hashable. }
    exists result. split; [exact Hr|]. split; [exact Hkeys|].
    rewrite Hm, members_file_under by assumption.
    cbn [List.filter].
    destruct (Py.same (ResultsTable.parent_of (PDict d)) title);
      now rewrite <- app_assoc.
Qed.

Lemma of_level_objects (lvl : string) (entries : list pyval) :
  forallb is_object entries = true ->
  ResultsTable.of_level lvl entries
  = Ok (List.filter (has_level lvl) entries).
Proof.
  induction entries as [|e entries IH]; intros H; [reflexivity|].
  cbn [forallb] in H. apply andb_prop in H as [He Hrest].
  destruct e; try discriminate He.
  cbn [ResultsTable.of_level List.filter]. rewrite get_object, (IH Hrest).
  cbn [rbind Ok]. unfold has_level.
  destruct (field "level" (PDict d)) as [l|]; reflexivity.
Qed.

Lemma first_pillar_objects (entries : list pyval) :
  forallb is_object entries = true ->
  ResultsTable.first_pillar entries
  = Ok (List.hd_error (List.filter (has_level "Pillar") entries)).
Proof.
  induction entries as [|e entries IH]; intros H; [reflexivity|].
  cbn [forallb] in H. apply andb_prop in H as [He Hrest].
  destruct e; try discriminate He.
  cbn [ResultsTable.first_pillar List.filter]. rewrite get_object.
  cbn [rbind Ok]. unfold has_level.
  destruct (field "level" (PDict d)) as [l|];
    [destruct (Py.eqb l (PStr "Pillar")); [reflexivity|]|];
    exact (IH Hrest).
Qed.

Section TreeLines.

Variables tee elbow : string.

Lemma spoke_lines_objects (spokes : list pyval) :
  forallb is_object spokes = true ->
  exists lines,
    ResultsTable.spoke_lines tee elbow spokes = Ok lines
    /\ List.length lines = List.length spokes.
Proof.
  induction spokes as [|s spokes IH]; intros H; [exists []; auto|].
  cbn [forallb] in H. apply andb_prop in H as [Hs Hrest].
  destruct s; try discriminate Hs.
  destruct (IH Hrest) as (lines & Hl & Hlen).
  cbn [ResultsTable.spoke_lines]. unfold ResultsTable.spoke_line.
  rewrite !get_object. cbn [rbind Ok]. rewrite Hl. cbn [rbind Ok].
  eexists. split; [reflexivity|]. cbn [List.length]. now rewrite Hlen.
Qed.

Lemma cluster_lines_objects (groups : list (pyval * list pyval))
  (clusters : list pyval) :
  forallb is_object clusters = true ->
  Forall (fun c => Py.hashable (ResultsTable.title_of c) = true) clusters ->
  Forall (fun c => forallb is_object
                     (ResultsTable.members_of (ResultsTable.title_of c)
                        groups) = true) clusters ->
  exists lines,
    ResultsTable.cluster_lines tee elbow groups clusters = Ok lines
    /\ List.length lines
       = List.fold_right
           (fun c acc =>
              (S (List.length
                    (ResultsTable.members_of (ResultsTable.title_of c)
                       groups)) + acc)%nat) 0%nat clusters.
Proof.
  induction clusters as [|c clusters IH]; intros Hobj Hh Hm;
    [exists []; auto|].
  cbn [forallb] in Hobj. apply andb_prop in Hobj as [Hc Hrest].
  inversion Hh as [|x xs Hhc Hhs]; subst.
  inversion Hm as [|x xs Hmc Hms]; subst.
  destruct c; try discriminate Hc.
  destruct (IH Hrest Hhs Hms) as (lines & Hl & Hlen).
  destruct (spoke_lines_objects _ Hmc) as (below & Hb & Hblen).
  cbn [ResultsTable.cluster_lines]. rewrite !get_object. cbn [rbind Ok].
  fold (ResultsTable.title_of (PDict d)). rewrite Hhc. cbn [rbind Ok].
  rewrite Hb. cbn [rbind Ok]. rewrite Hl. cbn [rbind Ok].
  eexists. split; [reflexivity|].
  cbn [List.length List.fold_right]. rewrite length_app, Hblen, Hlen.
  reflexivity.
Qed.

(** The lines, as they are read off the entries. *)
Lemma spoke_lines_shown (spokes : list pyval) :
  forallb is_object spokes = true ->
  ResultsTable.spoke_lines tee elbow spokes
  = Ok (ResultsTable.map_last
          (fun last s =>
             ResultsTable.child_line (ResultsTable.branch tee elbow last) s)
          spokes).
Proof.
  induction spokes as [|s spokes IH]; intros H; [reflexivity|].
  cbn [forallb] in H. apply andb_prop in H as [Hs Hrest].
  destruct s; try discriminate Hs.
  cbn [ResultsTable.spoke_lines ResultsTable.map_last].
  unfold ResultsTable.spoke_line.
  rewrite !get_object. cbn [rbind Ok]. rewrite (IH Hrest). cbn [rbind Ok].
  destruct spokes; reflexivity.
Qed.

Lemma map_last_ext {A B} (f g : bool -> A -> B) (l : list A) :
  (forall b x, In x l -> f b x = g b x) ->
  ResultsTable.map_last f l = ResultsTable.map_last g l.
Proof.
  induction l as [|x l IH]; intros H; [reflexivity|].
  cbn [ResultsTable.map_last]. rewrite (H _ x (or_introl eq_refl)).
  f_equal. apply IH. intros b y Hy. apply H. now right.
Qed.

Lemma map_last_length {A B} (f : bool -> A -> B) (l : list A) :
  List.length (ResultsTable.map_last f l) = List.length l.
Proof.
  induction l as [|x l IH]; [reflexivity|].
  cbn [ResultsTable.map_last List.length]. now rewrite IH.
Qed.

Lemma cluster_lines_shown (groups : list (pyval * list pyval))
  (clusters : list pyval) :
  forallb is_object clusters = true ->
  Forall (fun c => Py.hashable (ResultsTable.title_of c) = true) clusters ->
  Forall (fun c => forallb is_object
                     (ResultsTable.members_of (ResultsTable.title_of c)
                        groups) = true) clusters ->
  ResultsTable.cluster_lines tee elbow groups clusters
  = Ok (List.concat
          (ResultsTable.map_last
             (fun last c =>
                ResultsTable.cluster_line (ResultsTable.branch tee elbow last)
                  c
                :: ResultsTable.map_last
                     (fun last s =>
                        ResultsTable.child_line
                          (ResultsTable.branch tee elbow last) s)
                     (ResultsTable.members_of (ResultsTable.title_of c)
                        groups))
             clusters)).
Proof.
  induction clusters as [|c clusters IH]; intros Hobj Hh Hm; [reflexivity|].
  cbn [forallb] in Hobj. apply andb_prop in Hobj as [Hc Hrest].
  inversion Hh as [|x xs Hhc Hhs]; subst.
  inversion Hm as [|x xs Hmc Hms]; subst.
  destruct c; try discriminate Hc.
  cbn [ResultsTable.cluster_lines ResultsTable.map_last List.concat].
  rewrite !get_object. cbn [rbind Ok].
  fold (ResultsTable.title_of (PDict d)). rewrite Hhc. cbn [rbind Ok].
  rewrite (spoke_lines_shown _ Hmc). cbn [rbind Ok].
  rewrite (IH Hrest Hhs Hms). cbn [rbind Ok].
  destruct clusters; reflexivity.
Qed.

(** The dict of the Spokes holds, under the title of a Cluster, the Spokes
    whose parent_topic is that title, in the order of the entries. *)
Lemma group_spokes_children (entries : list pyval) :
  forallb is_object entries = true ->
  Forall (fun s => Py.hashable (ResultsTable.parent_of s) = true)
    (List.filter (has_level "Spoke") entries) ->
  Forall (fun c => Py.hashable (ResultsTable.title_of c) = true)
    (List.filter (has_level "Cluster") entries) ->
  exists groups,
    ResultsTable.group_spokes (List.filter (has_level "Spoke") entries) []
    = Ok groups
    /\ forall c, In c (List.filter (has_level "Cluster") entries) ->
         ResultsTable.members_of (ResultsTable.title_of c) groups
         = ResultsTable.children c entries.
Proof.
  intros Hobj Hsp Hct.
  assert (Hsub : forallb is_object (List.filter (has_level "Spoke") entries)
                 = true).
  { apply forallb_forall. intros e He.
    apply filter_In in He as [He _]. rewrite forallb_forall in Hobj. auto. }
  destruct (group_spokes_members (PStr "") _ eq_refl [] Hsub Hsp
              (Forall_nil _)) as (groups & Hg & _).
  exists groups. split; [exact Hg|].
  intros c Hc.
  assert (Hc' : Py.hashable (ResultsTable.title_of c) = true).
  { rewrite Forall_forall in Hct. auto. }
  destruct (group_spokes_members (ResultsTable.title_of c) _ Hc'
              [] Hsub Hsp (Forall_nil _)) as (groups' & Hg' & _ & Hm).
  rewrite Hg in Hg'. unfold Ok in Hg'. injection Hg' as <-.
  rewrite Hm. cbn [ResultsTable.members_of app].
  unfold ResultsTable.children.
  clear. induction entries as [|e l IH]; [reflexivity|].
  cbn [List.filter]. destruct (has_level "Spoke" e); cbn [andb];
    [cbn [List.filter];
     destruct (Py.same (ResultsTable.parent_of e)
                 (ResultsTable.title_of c)); now rewrite IH
    |exact IH].
Qed.

(** The tree that [render_hierarchy] shows is the tree read off the
    entries. *)
Lemma hierarchy_tree (entries : list pyval) :
  forallb is_object entries = true ->
  Forall (fun s => Py.hashable (ResultsTable.parent_of s) = true)
    (List.filter (has_level "Spoke") entries) ->
  Forall (fun c => Py.hashable (ResultsTable.title_of c) = true)
    (List.filter (has_level "Cluster") entries) ->
  ResultsTable.render_hierarchy tee elbow entries
  = Ok (ResultsTable.tree_lines tee elbow entries).
Proof.
  intros Hobj Hsp Hct.
  unfold ResultsTable.render_hierarchy, ResultsTable.tree_lines.
  rewrite (first_pillar_objects entries Hobj). cbn [rbind Ok].
  destruct (List.filter (has_level "Pillar") entries) as [|pillar ps] eqn:Ep;
    [reflexivity|].
  cbn [List.hd_error].
  assert (Hpil : In pillar entries /\ has_level "Pillar" pillar = true).
  { apply filter_In. rewrite Ep. now left. }
  destruct Hpil as [Hpin Hplv].
  pose proof Hobj as Hall. rewrite forallb_forall in Hall.
  assert (Hpo := Hall pillar Hpin).
  destruct pillar as [| | | | | |pd]; try discriminate Hpo.
  assert (Hpt : Py.truthy (PDict pd) = true).
  { destruct pd; [discriminate Hplv|reflexivity]. }
  rewrite Hpt. rewrite !(of_level_objects _ _ Hobj). cbn [rbind Ok].
  destruct (group_spokes_children entries Hobj Hsp Hct)
    as (groups & Hg & Hmem).
  rewrite Hg. cbn [rbind Ok]. rewrite !get_object. cbn [rbind Ok].
  rewrite cluster_lines_shown.
  - cbn [rbind Ok]. unfold Ok. do 3 f_equal. apply (f_equal (@List.concat string)).
    apply map_last_ext. intros b c Hc.
    unfold ResultsTable.cluster_block. now rewrite (Hmem c Hc).
  - apply forallb_forall. intros e He. apply filter_In in He as [He _].
    auto.
  - exact Hct.
  - apply Forall_forall. intros c Hc. rewrite (Hmem c Hc).
    apply forallb_forall. intros s Hs. unfold ResultsTable.children in Hs.
    apply filter_In in Hs as [Hs _]. auto.
Qed.

(** The number of lines of the tree. *)
Lemma tree_lines_size (entries : list pyval) :
  match ResultsTable.tree_lines tee elbow entries with
  | Some lines =>
      count_level "Pillar" entries <> 0%nat
      /\ List.length lines = ResultsTable.tree_size entries
  | None => count_level "Pillar" entries = 0%nat
  end.
Proof.
  unfold ResultsTable.tree_lines, count_level.
  destruct (List.filter (has_level "Pillar") entries) as [|pillar ps];
    [reflexivity|].
  split; [discriminate|].
  cbn [List.length]. unfold ResultsTable.tree_size. f_equal.
  induction (List.filter (has_level "Cluster") entries) as [|c cs IH];
    [reflexivity|].
  cbn [ResultsTable.map_last List.concat List.fold_right].
  rewrite length_app, IH. unfold ResultsTable.cluster_block.
  cbn [List.length]. now rewrite map_last_length.
Qed.

(** The tree, when the parents of the Spokes and the titles of the Clusters
    can be hashed. *)
Lemma hierarchy_lines (entries : list pyval) :
  forallb is_object entries = true ->
  Forall (fun s => Py.hashable (ResultsTable.parent_of s) = true)
    (List.filter (has_level "Spoke") entries) ->
  Forall (fun c => Py.hashable (ResultsTable.title_of c) = true)
    (List.filter (has_level "Cluster") entries) ->
  (count_level "Pillar" entries = 0%nat ->
   ResultsTable.render_hierarchy tee elbow entries = Ok None)
  /\ (count_level "Pillar" entries <> 0%nat ->
      exists lines,
        ResultsTable.render_hierarchy tee elbow entries = Ok (Some lines)
        /\ List.length lines = ResultsTable.tree_size entries).
Proof.
  intros Hobj Hsp Hct. rewrite (hierarchy_tree entries Hobj Hsp Hct).
  pose proof (tree_lines_size entries) as H.
  destruct (ResultsTable.tree_lines tee elbow entries) as [lines|].
  - destruct H as [Hne Hlen]. split; [intros E; now elim Hne|].
    intros _. exists lines. split; [reflexivity|exact Hlen].
  - split; [reflexivity|]. intros Hne. now elim Hne.
Qed.

(** A Spoke is among the children of a Cluster when its parent_topic is the
    title of the Cluster. *)
Lemma children_spec (entries : list pyval) (c s : pyval) :
  In s (ResultsTable.children c entries)
  <-> In s entries /\ has_level "Spoke" s = true
      /\ Py.same (ResultsTable.parent_of s) (ResultsTable.title_of c) = true.
Proof.
  unfold ResultsTable.children. rewrite filter_In.
  split.
  - intros [Hin H]. apply andb_prop in H as [Hl Hs]. auto.
  - intros (Hin & Hl & Hs). split; [exact Hin|]. now rewrite Hl, Hs.
Qed.

(** X22.  [render_hierarchy] on a list of objects whose titles and parents
    can be hashed.  Without a Pillar it warns and shows nothing.  With one,
    it shows these lines: the line of the first Pillar, with its title and
    priority; then, for each Cluster in the order of the entries, the line
    of the Cluster and right below it, in the order of the entries, the line
    of each Spoke whose parent_topic is the title of that Cluster; the last
    Cluster, and the last Spoke of a Cluster, get the closing branch.  So a
    Spoke whose parent_topic is the title of no Cluster is not shown, a
    Spoke is shown under every Cluster that bears the title it names, and
    the tree has one line for the Pillar, one for each Cluster and one for
    each child of a Cluster. *)
Theorem hierarchy_shows_children (entries : list pyval) :
  forallb is_object entries = true ->
  Forall (fun e => Py.hashable (ResultsTable.parent_of e) = true
                   /\ Py.hashable (ResultsTable.title_of e) = true)
    entries ->
  (count_level "Pillar" entries = 0%nat ->
   ResultsTable.render_hierarchy tee elbow entries = Ok None)
  /\ (count_level "Pillar" entries <> 0%nat ->
      exists lines,
        ResultsTable.render_hierarchy tee elbow entries = Ok (Some lines)
        /\ List.length lines = ResultsTable.tree_size entries)
  /\ (forall pillar others,
        List.filter (has_level "Pillar") entries = pillar :: others ->
        ResultsTable.render_hierarchy tee elbow entries
        = Ok (Some
                (ResultsTable.pillar_line pillar
                 :: List.concat
                      (ResultsTable.map_last
                         (fun last_cluster c =>
                            ResultsTable.cluster_line
                              (if last_cluster then elbow else tee) c
                            :: ResultsTable.map_last
                                 (fun last_spoke s =>
                                    ResultsTable.child_line
                                      (if last_spoke then elbow else tee) s)
                                 (ResultsTable.children c entries))
                         (List.filter (has_level "Cluster") entries)))))
  /\ (forall c s,
        In s (ResultsTable.children c entries)
        <-> In s entries /\ has_level "Spoke" s = true
            /\ Py.same (ResultsTable.parent_of s) (ResultsTable.title_of c)
               = true).
Proof.
  intros Hobj Hhash.
  assert (Hsp : Forall (fun s => Py.hashable (ResultsTable.parent_of s) = true)
                  (List.filter (has_level "Spoke") entries)).
  { apply Forall_forall. intros e He. apply filter_In in He as [He _].
    rewrite Forall_forall in Hhash. now apply Hhash. }
  assert (Hct : Forall (fun c => Py.hashable (ResultsTable.title_of c) = true)
                  (List.filter (has_level "Cluster") entries)).
  { apply Forall_forall. intros e He. apply filter_In in He as [He _].
    rewrite Forall_forall in Hhash. now apply Hhash. }
  destruct (hierarchy_lines entries Hobj Hsp Hct) as [Hnone Hsome].
  split; [exact Hnone|]. split; [exact Hsome|]. split.
  - intros pillar others Ep.
    rewrite (hierarchy_tree entries Hobj Hsp Hct).
    unfold ResultsTable.tree_lines. rewrite Ep. reflexivity.
  - intros c s. apply children_spec.
Qed.

End TreeLines.

(** ** The rest of the code on sample data *)

Lemma accepted_map_is_sound_witness :
  forallb accepted_entry sample_map = true
  /\ count_level "Pillar" sample_map = 1%nat.
Proof.
  destruct (accepted_map_is_sound source_order sample_map) as (H1 & H2 & _).
  - reflexivity.
  - split; assumption.
Defined.

Lemma validated_entry_converts_witness :
  exists r,
    TopicMap.dict_to_entry sample_cluster = Ok r
    /\ TopicMap.priority_score r = PInt 1.
Proof.
  destruct (validated_entry_converts source_order sample_cluster)
    as (r & Hr & Hv & _).
  - reflexivity.
  - exists r. split; [exact Hr|].
    cbn [TopicMap.entry_values List.map required_fields] in Hv.
    injection Hv as _ _ _ _ _ _ _ _ _ _ E _ _.
    exact E.
Defined.

Lemma returned_map_is_complete_witness :
  Forall (fun e => has_fields e = true) sample_map.
Proof.
  destruct (returned_map_is_complete (sample_env [sample_map_text])
              "Content Marketing" SCOPE_FOCUSED "" "" "" "" "" "research"
              [] [sample_request sample_first_prompt] sample_map)
    as (_ & H & _).
  - vm_compute. reflexivity.
  - exact H.
Defined.

Lemma comma_inside_string_removed_witness :
  json_loads ("[" ++ dq ++ "tips,]more" ++ dq ++ "]")
  = Ok (inr (PList [PStr "tips,]more"]))
  /\ _parse_json ("[" ++ dq ++ "tips,]more" ++ dq ++ "]")
     = Ok (Some [PStr "tips]more"]).
Proof.
  apply (comma_inside_string_removed "tips" "more"); reflexivity.
Defined.

Lemma returned_map_exports_witness :
  exists rows,
    Csv.topic_map_to_dataframe sample_map = Ok rows
    /\ List.length rows = 3%nat.
Proof.
  destruct (returned_map_exports (sample_env [sample_map_text])
              "Content Marketing" SCOPE_FOCUSED "" "" "" "" "" "research"
              [] [sample_request sample_first_prompt] sample_map)
    as (rows & Hr & Hl & _).
  - vm_compute. reflexivity.
  - exists rows. split; assumption.
Defined.

Lemma research_findings_well_formed_witness :
  exists f,
    sample_report
    = Tavily.report 10 "Content Marketing" f
    /\ Forall Tavily.well_formed_question (Tavily.all_questions f).
Proof.
  destruct (research_findings_well_formed sample_tavily 2025
              "Content Marketing" None None [] (snd sample_research)
              sample_report)
    as (f & Hf & Hq & _).
  - vm_compute. reflexivity.
  - exists f. split; assumption.
Defined.

Lemma statistics_add_up_witness :
  exists s,
    ResultsTable.count_statistics sample_map = Ok s
    /\ ResultsTable.total s = 3%nat
    /\ ResultsTable.counted (ResultsTable.intents s) = 3%nat.
Proof.
  destruct (statistics_add_up sample_map)
    as (s & Hs & Ht & _ & _ & _ & _ & Hc & _).
  - reflexivity.
  - intros e i [<-|[<-|[<-|[]]]]; cbn; intros [= <-]; reflexivity.
  - exists s. split; [exact Hs|]. split; [exact Ht|].
    rewrite Hc. exact Ht.
Defined.

Lemma hierarchy_shows_children_witness :
  ResultsTable.render_hierarchy "|--" "`--" sample_map
  = Ok (Some ["**Content Marketing** (Priority: 5)";
              "&nbsp;&nbsp;`-- **Strategy** (Priority: 1)";
              "&nbsp;&nbsp;&nbsp;&nbsp;&nbsp;&nbsp;`-- Editorial calendars (Priority: 3)"]).
Proof.
  destruct (hierarchy_shows_children "|--" "`--" sample_map)
    as (_ & _ & H & _).
  - reflexivity.
  - repeat constructor.
  - exact (H sample_pillar [] eq_refl).
Defined.

(** The sample upload: the folder is found, the file is created in it and
    shared, and the link comes back. *)
Lemma upload_shares_the_file_witness :
  Gdrive.upload_to_drive sample_drive "csv" "map.csv" "Topic Maps" []
  = (Ok (PStr "https://drive.example/file-1"),
     [Gdrive.GetCredentials;
      Gdrive.ListFiles (Gdrive.folder_query "Topic Maps");
      Gdrive.CreateFile "map.csv" (PStr "folder-1") "csv";
      Gdrive.CreatePermission (PStr "file-1") "anyone" "reader"]).
Proof.
  destruct (upload_shares_the_file sample_drive "csv" "map.csv" "Topic Maps"
              []) as [H _].
  destruct (H (PStr "https://drive.example/file-1")
              [Gdrive.GetCredentials;
               Gdrive.ListFiles (Gdrive.folder_query "Topic Maps");
               Gdrive.CreateFile "map.csv" (PStr "folder-1") "csv";
               Gdrive.CreatePermission (PStr "file-1") "anyone" "reader"])
    as (creds & results & files & folder_id & created & uploaded & file_id
        & granted & _ & _ & _ & _ & _ & _ & _ & _ & Ht).
  - reflexivity.
  - reflexivity.
Defined.


(** The sample sidebar: the blank name between the commas is dropped. *)
Lemma sidebar_competitors_clean_witness :
  Sidebar.competitors (Sidebar.render_sidebar sample_widgets false)
  = Some ["hubspot.com"; "moz.com"].
Proof.
  pose proof (sidebar_competitors_clean sample_widgets false) as H.
  destruct (Sidebar.competitors (Sidebar.render_sidebar sample_widgets false))
    as [cs|]; [|discriminate H].
  destruct H as (_ & -> & _). reflexivity.
Defined.


(** ** Which errors are critical *)

Lemma validate_entries_reports (sd : set_display) (entries : list pyval) :
  forall (i : nat) (errors : list string) (e : pyval) (err : string)
         (errs : list string),
    validate_entries sd i entries = Ok errors ->
    In e entries ->
    validate_entry sd e = Ok (err :: errs) ->
    exists j, In (entry_msg j (title_or_unknown e) err) errors.
Proof.
  induction entries as [|a rest IH]; intros i errors e err errs Hv Hin He.
  - destruct Hin.
  - cbn [validate_entries] in Hv.
    destruct (validate_entry sd a) as [x|entry_errors] eqn:Ea;
      [discriminate Hv|]. cbn [rbind] in Hv.
    destruct (prefix_errors i a entry_errors) as [x|msgs] eqn:Ep;
      [discriminate Hv|]. cbn [rbind] in Hv.
    destruct (validate_entries sd (S i) rest) as [x|more] eqn:Er;
      [discriminate Hv|]. cbn [rbind] in Hv.
    unfold Ok in Hv. injection Hv as <-.
    destruct Hin as [<-|Hin].
    + rewrite He in Ea. unfold Ok in Ea. injection Ea as <-.
      destruct a as [| | | | |l|d];
        try (cbn in Ep; discriminate Ep).
      rewrite prefix_errors_dict in Ep. unfold Ok in Ep. injection Ep as <-.
      exists i. apply in_or_app. left. cbn [List.map]. left. reflexivity.
    + destruct (IH (S i) more e err errs Er Hin He) as [j Hj].
      exists j. apply in_or_app. right. exact Hj.
Qed.

Lemma critical_title (j : nat) (title err : string) :
  is_critical title = true ->
  is_critical (entry_msg j (PStr title) err) = true.
Proof.
  unfold is_critical, entry_msg. cbn [Py.str]. intros H.
  apply orb_true_iff in H. apply orb_true_iff.
  destruct H as [H|H]; [left|right];
    (apply contains_append; apply contains_append;
     apply contains_append; apply contains_append_l; exact H).
Qed.

(** X23.  The two critical notices are looked for in the whole message, and
    a message quotes the title of its entry.  So a per-entry error of any
    kind is critical when the content_title of the entry holds the text of
    one of the two notices: [generate_topic_map] then raises, although the
    same entries under another title are returned. *)
Theorem title_makes_error_critical (env : environment)
  (topic scope industry audience geo_focus competitors existing_content
     compiled_research : string) (entries : list pyval) (e : pyval)
  (title err : string) (errs errors : list string) (t t' : trace) :
  obtain_entries env topic scope industry audience geo_focus competitors
    existing_content compiled_research t = (Ok entries, t') ->
  In e entries ->
  field "content_title" e = Some (PStr title) ->
  is_critical title = true ->
  validate_entry (display env) e = Ok (err :: errs) ->
  validate_topic_map (display env) entries = Ok errors ->
  List.filter is_critical errors <> []
  /\ generate_topic_map env topic scope industry audience geo_focus
       competitors existing_content compiled_research t
     = (Raise (ValueError
                 (validation_failure_msg (List.filter is_critical errors))),
        t').
Proof.
  intros Ho Hin Ht Hc He Hv.
  assert (Hmsg : exists j, In (entry_msg j (PStr title) err) errors).
  { unfold validate_topic_map in Hv.
    destruct (validate_entries (display env) 0 entries) as [x|errors0] eqn:E0;
      [discriminate Hv|]. cbn [rbind] in Hv.
    destruct (validate_entries_reports _ _ _ _ _ _ _ E0 Hin He) as [j Hj].
    unfold title_or_unknown in Hj. rewrite Ht in Hj.
    destruct errors0 as [|m ms]; [destruct Hj|].
    unfold Ok in Hv. injection Hv as <-. exists j. exact Hj. }
  destruct Hmsg as [j Hj].
  assert (Hne : List.filter is_critical errors <> []).
  { intros Hnil.
    assert (Hf : In (entry_msg j (PStr title) err)
                   (List.filter is_critical errors)).
    { apply filter_In. split; [exact Hj|]. apply critical_title. exact Hc. }
    rewrite Hnil in Hf. destruct Hf. }
  split; [exact Hne|].
  rewrite generate_topic_map_split. unfold bind at 1. rewrite Ho.
  unfold Ok at 1. cbv beta iota.
  unfold validate_and_return.
  destruct entries as [|e0 rest]; [destruct Hin|].
  unfold bind, lift. rewrite Hv. unfold Ok at 1. cbv beta iota.
  destruct (List.filter is_critical errors) as [|c cs]; [now elim Hne|].
  reflexivity.
Qed.

Lemma title_makes_error_critical_witness :
  (exists msg,
     sample_run [sample_text_with quoting_spoke]
     = (Raise (ValueError msg), [sample_request sample_first_prompt]))
  /\ sample_run [sample_text_with plain_spoke]
     = (Ok [sample_pillar; sample_cluster; plain_spoke],
        [sample_request sample_first_prompt]).
Proof.
  split.
  - destruct (title_makes_error_critical
                (sample_env [sample_text_with quoting_spoke])
                "Content Marketing" SCOPE_FOCUSED "" "" "" "" "" "research"
                [sample_pillar; sample_cluster; quoting_spoke] quoting_spoke
                "How to fix Missing required field errors"
                (invalid_score_msg (PInt 9)) []
                [entry_msg 2 (PStr "How to fix Missing required field errors")
                   (invalid_score_msg (PInt 9))]
                [] [sample_request sample_first_prompt])
      as [_ H].
    + vm_compute. reflexivity.
    + right. right. left. reflexivity.
    + reflexivity.
    + reflexivity.
    + reflexivity.
    + reflexivity.
    + eexists. exact H.
  - vm_compute. reflexivity.
Defined.

(** ** The complete response *)

Lemma accepted_map_not_empty (sd : set_display) (entries : list pyval) :
  validate_topic_map sd entries = Ok [] -> entries <> [].
Proof.
  intros H ->. cbn in H. discriminate H.
Qed.

(** X24.  A complete and valid first response is returned as it is: when
    the text that [_call_claude] returns parses to a list, ends (trailing
    whitespace aside) with a closing bracket and passes
    [validate_topic_map] without an error, [generate_topic_map] returns that
    list and issues no further request. *)
Theorem valid_response_returned (env : environment)
  (topic scope industry audience geo_focus competitors existing_content
     compiled_research : string) (raw : string) (entries : list pyval)
  (t t1 : trace) :
  Text.is_empty (ANTHROPIC_API_KEY env) = false ->
  _call_claude env (TOPIC_MAP_SYSTEM_PROMPT env)
    (user_prompt env topic scope industry audience geo_focus competitors
       existing_content compiled_research) t = (Ok raw, t1) ->
  _parse_json raw = Ok (Some entries) ->
  Text.last_char (Text.rstrip raw) = Some "]"%char ->
  validate_topic_map (display env) entries = Ok [] ->
  generate_topic_map env topic scope industry audience geo_focus competitors
    existing_content compiled_research t = (Ok entries, t1).
Proof.
  intros Hkey Hcall Hparse Hlast Hvalid.
  pose proof (accepted_map_not_empty _ _ Hvalid) as Hne.
  unfold generate_topic_map. rewrite Hkey.
  unfold bind at 1. rewrite Hcall. unfold Ok at 1. cbv beta iota.
  unfold bind at 1. unfold lift at 1. rewrite Hparse.
  unfold Ok at 1. cbv beta iota.
  unfold bind at 1. unfold repair, ret. unfold Ok at 1. cbv beta iota.
  unfold bind at 1. unfold continue_truncated. rewrite Hlast.
  cbn [Ascii.eqb Bool.eqb]. unfold ret. unfold Ok at 1. cbv beta iota.
  unfold validate_and_return.
  destruct entries as [|e rest]; [now elim Hne|].
  unfold bind, lift. rewrite Hvalid. reflexivity.
Qed.

Lemma valid_response_returned_witness :
  sample_run [sample_map_text]
  = (Ok sample_map, [sample_request sample_first_prompt]).
Proof.
  apply (valid_response_returned (sample_env [sample_map_text])
           "Content Marketing" SCOPE_FOCUSED "" "" "" "" "" "research"
           sample_map_text sample_map []
           [sample_request sample_first_prompt]).
  - reflexivity.
  - vm_compute. reflexivity.
  - vm_compute. reflexivity.
  - vm_compute. reflexivity.
  - reflexivity.
Defined.

(** ** The hierarchy of a validated map *)

Lemma total_of_succ {A} (f : A -> nat) (l : list A) :
  total_of (fun x => S (f x)) l = (List.length l + total_of f l)%nat.
Proof.
  induction l as [|x l IH]; [reflexivity|].
  cbn [total_of List.fold_right List.length] in *.
  unfold total_of in IH. rewrite IH. lia.
Qed.

Lemma total_of_indicator {A} (p : A -> bool) (l : list A) :
  total_of (fun x => if p x then 1%nat else 0%nat) l
  = List.length (List.filter p l).
Proof.
  induction l as [|x l IH]; [reflexivity|].
  cbn [total_of List.fold_right List.filter] in *. unfold total_of in IH.
  rewrite IH. destruct (p x); reflexivity.
Qed.

Lemma total_of_swap {A B} (r : A -> B -> bool) (S : list A) (C : list B) :
  total_of (fun c => List.length (List.filter (fun s => r s c) S)) C
  = total_of (fun s => List.length (List.filter (r s) C)) S.
Proof.
  induction C as [|c C IH].
  - cbn [total_of List.fold_right List.filter].
    induction S as [|s S IHS]; [reflexivity|].
    cbn [total_of List.fold_right List.length] in *. exact IHS.
  - cbn [total_of List.fold_right]. fold (total_of
      (fun c => List.length (List.filter (fun s => r s c) S)) C).
    rewrite IH. rewrite <- total_of_indicator.
    clear IH. induction S as [|s S IHS]; [reflexivity|].
    cbn [total_of List.fold_right List.filter] in *.
    unfold total_of in IHS.
    destruct (r s c); cbn [List.length]; lia.
Qed.

Lemma total_of_bounded {A} (f g : A -> nat) (l : list A) :
  (forall x, In x l -> (f x <= g x)%nat) ->
  (total_of f l <= total_of g l)%nat
  /\ (total_of f l = total_of g l <-> forall x, In x l -> f x = g x).
Proof.
  induction l as [|x l IH]; intros H.
  - split; [apply Nat.le_refl|]. split; [intros _ y []|reflexivity].
  - destruct IH as [IH1 IH2]; [intros y Hy; apply H; now right|].
    pose proof (H x (or_introl eq_refl)) as Hx.
    cbn [total_of List.fold_right].
    fold (total_of f l). fold (total_of g l).
    split; [lia|]. split.
    + intros E y [<-|Hy]; [lia|]. apply IH2; [lia|exact Hy].
    + intros E. rewrite (E x (or_introl eq_refl)).
      f_equal. apply IH2. intros y Hy. apply E. now right.
Qed.

(** With distinct titles, a parent is the title of at most one cluster. *)
Lemma distinct_titles_match (p : pyval) (clusters : list pyval) :
  Py.hashable p = true ->
  Forall (fun c => Py.hashable (ResultsTable.title_of c) = true) clusters ->
  distinct_titles clusters = true ->
  (List.length
     (List.filter (fun c => Py.same p (ResultsTable.title_of c)) clusters)
   <= 1)%nat.
Proof.
  intros Hp Hh. induction Hh as [|c rest Hc Hrest IH]; intros Hd;
    [apply Nat.le_0_l|].
  cbn [distinct_titles] in Hd. apply andb_prop in Hd as [Hnot Hd].
  apply negb_true_iff in Hnot. specialize (IH Hd).
  cbn [List.filter].
  destruct (Py.same p (ResultsTable.title_of c)) eqn:Epc; [|exact IH].
  cbn [List.length].
  assert (Hnone : List.filter
                    (fun c' => Py.same p (ResultsTable.title_of c')) rest
                  = []).
  { destruct (List.filter
                (fun c' => Py.same p (ResultsTable.title_of c')) rest)
      as [|c' l] eqn:Ef; [reflexivity|exfalso].
    assert (Hin : In c' (List.filter
                (fun c' => Py.same p (ResultsTable.title_of c')) rest))
      by (rewrite Ef; now left).
    apply filter_In in Hin as [Hin Hsame].
    assert (Hc' : Py.hashable (ResultsTable.title_of c') = true)
      by (rewrite Forall_forall in Hrest; auto).
    assert (Hcc : Py.same (ResultsTable.title_of c)
                    (ResultsTable.title_of c') = true).
    { apply (same_trans _ p _ Hc Hp Hc'); [|exact Hsame].
      rewrite same_sym; assumption. }
    assert (Hex : existsb
              (fun c' => Py.same (ResultsTable.title_of c)
                           (ResultsTable.title_of c')) rest = true).
    { apply existsb_exists. exists c'. split; assumption. }
    rewrite Hex in Hnot. discriminate Hnot. }
  rewrite Hnone. apply Nat.le_refl.
Qed.

Lemma filter_length_exists {A} (p : A -> bool) (l : list A) :
  (1 <= List.length (List.filter p l))%nat <-> existsb p l = true.
Proof.
  induction l as [|x l IH]; cbn [List.filter existsb List.length].
  - split; [lia|discriminate].
  - destruct (p x); cbn [List.length orb]; [split; [reflexivity|lia]|exact IH].
Qed.

Lemma filter_all_false {A} (p : A -> bool) (l : list A) :
  (forall x, In x l -> p x = false) -> List.filter p l = [].
Proof.
  induction l as [|x l IH]; intros H; [reflexivity|].
  cbn [List.filter]. rewrite (H x (or_introl eq_refl)).
  apply IH. intros y Hy. apply H. now right.
Qed.

(** The lines below the Pillar: one for each Cluster, and one for each
    pair of a Spoke and a Cluster that bears the title the Spoke names. *)
Lemma tree_size_pairs (entries : list pyval) :
  ResultsTable.tree_size entries
  = S (count_level "Cluster" entries
       + total_of
           (fun s => List.length
                       (List.filter (child_of s)
                          (List.filter (has_level "Cluster") entries)))
           entries)%nat.
Proof.
  unfold ResultsTable.tree_size, count_level. f_equal.
  change (total_of
            (fun c => S (List.length (ResultsTable.children c entries)))
            (List.filter (has_level "Cluster") entries)
          = (List.length (List.filter (has_level "Cluster") entries)
             + total_of
                 (fun s => List.length
                             (List.filter (child_of s)
                                (List.filter (has_level "Cluster") entries)))
                 entries)%nat).
  rewrite total_of_succ. f_equal.
  rewrite <- (total_of_swap child_of). reflexivity.
Qed.

(** With distinct titles, a Spoke has at most one line, and it has one
    exactly when it is filed under a Cluster; another entry has none. *)
Lemma lines_of_entry (entries : list pyval) (s : pyval) :
  let clusters := List.filter (has_level "Cluster") entries in
  Forall (fun c => Py.hashable (ResultsTable.title_of c) = true) clusters ->
  distinct_titles clusters = true ->
  (has_level "Spoke" s = true ->
   Py.hashable (ResultsTable.parent_of s) = true) ->
  (List.length (List.filter (child_of s) clusters)
   <= if has_level "Spoke" s then 1 else 0)%nat
  /\ (List.length (List.filter (child_of s) clusters)
      = (if has_level "Spoke" s then 1 else 0)%nat
      <-> (has_level "Spoke" s = true -> has_cluster entries s = true)).
Proof.
  intros clusters Hh Hd Hs. unfold has_cluster. fold clusters.
  destruct (has_level "Spoke" s) eqn:El.
  - assert (Hle : (List.length (List.filter (child_of s) clusters) <= 1)%nat).
    { unfold child_of. rewrite El. cbn [andb].
      apply distinct_titles_match; auto. }
    split; [exact Hle|].
    pose proof (filter_length_exists (child_of s) clusters) as Hex.
    split.
    + intros E _. apply Hex. lia.
    + intros H. specialize (H eq_refl). apply Hex in H. lia.
  - rewrite filter_all_false.
    + split; [apply Nat.le_refl|]. split; [discriminate|reflexivity].
    + intros c _. unfold child_of. rewrite El. reflexivity.
Qed.

Lemma title_set_complete (cs ts : list pyval) :
  title_set cs = Ok ts ->
  forall c, In c cs ->
    exists t, Py.getitem c "content_title" = Ok t
              /\ Py.hashable t = true /\ In t ts.
Proof.
  revert ts. induction cs as [|c0 cs IH]; intros ts H c Hc; [destruct Hc|].
  cbn [title_set] in H.
  destruct (Py.getitem c0 "content_title") as [x|t0] eqn:Eg;
    [discriminate H|]. cbn [rbind] in H.
  destruct (Py.hashable t0) eqn:Eh; [|discriminate H].
  destruct (title_set cs) as [x|more] eqn:Et; [discriminate H|].
  cbn [rbind] in H. unfold Ok in H. injection H as <-.
  destruct Hc as [<-|Hc].
  - exists t0. split; [exact Eg|]. split; [exact Eh|now left].
  - destruct (IH more eq_refl c Hc) as (t & Ht & Hh & Hin).
    exists t. split; [exact Ht|]. split; [exact Hh|now right].
Qed.

Section ValidatedMap.

Variable sd : set_display.

(** What the structural checks found when [validate_topic_map] returns the
    empty list. *)
Lemma validate_topic_map_nil_inv (entries : list pyval) :
  validate_topic_map sd entries = Ok [] ->
  Forall (fun e => validate_entry sd e = Ok []) entries
  /\ exists pillar pt titles,
       List.filter (has_level "Pillar") entries = [pillar]
       /\ Py.getitem pillar "content_title" = Ok pt
       /\ title_set (List.filter (has_level "Cluster") entries) = Ok titles
       /\ check_clusters pt (List.filter (has_level "Cluster") entries)
          = Ok []
       /\ check_spokes titles (List.filter (has_level "Spoke") entries)
          = Ok [].
Proof.
  unfold validate_topic_map. intros H.
  destruct (validate_entries sd 0 entries) as [x|errors] eqn:Ev;
    [discriminate H|].
  cbn [rbind] in H.
  destruct errors as [|m ms]; [|discriminate H].
  pose proof (validate_entries_nil_inv sd entries 0 Ev) as Hall.
  split; [exact Hall|].
  assert (Hf : Forall (fun e => has_fields e = true) entries).
  { eapply Forall_impl; [|exact Hall]. intros e. apply validate_entry_nil_inv. }
  rewrite !(with_level_filter _ _ Hf) in H. cbn [rbind Ok] in H.
  destruct (List.filter (has_level "Pillar") entries) as [|pillar [|p' ps]]
    eqn:Epil; try discriminate H.
  destruct (Py.getitem pillar "content_title") as [x|pt] eqn:Ept;
    [discriminate H|].
  cbn [rbind] in H.
  destruct (title_set (List.filter (has_level "Cluster") entries))
    as [x|titles] eqn:Ets; [discriminate H|].
  cbn [rbind] in H.
  destruct (check_clusters pt (List.filter (has_level "Cluster") entries))
    as [x|ce] eqn:Ecc; [discriminate H|].
  cbn [rbind] in H.
  destruct (check_spokes titles (List.filter (has_level "Spoke") entries))
    as [x|se] eqn:Ecs; [discriminate H|].
  cbn [rbind] in H. unfold Ok in H. injection H as H.
  apply app_eq_nil in H as [-> ->].
  exists pillar, pt, titles. repeat split; assumption || reflexivity.
Qed.

(** What a validated map brings to the hierarchy view. *)
Lemma validated_map_hierarchy (entries : list pyval) :
  validate_topic_map sd entries = Ok [] ->
  forallb accepted_entry entries = true
  /\ count_level "Pillar" entries = 1%nat
  /\ Forall (fun c => Py.hashable (ResultsTable.title_of c) = true)
       (List.filter (has_level "Cluster") entries)
  /\ (forall s, In s entries -> has_level "Spoke" s = true ->
        Py.truthy (ResultsTable.parent_of s) = true ->
        Py.hashable (ResultsTable.parent_of s) = true
        /\ has_cluster entries s = true).
Proof.
  intros H.
  destruct (validate_topic_map_nil_inv entries H)
    as (Hall & pillar & pt & titles & Epil & Ept & Ets & Ecc & Ecs).
  assert (Hf : Forall (fun e => has_fields e = true) entries).
  { eapply Forall_impl; [|exact Hall]. intros e. apply validate_entry_nil_inv. }
  assert (Hsub : forall lvl,
            Forall (fun e => has_fields e = true)
              (List.filter (has_level lvl) entries)).
  { intros lvl. apply Forall_forall. intros e He.
    apply filter_In in He as [He _]. rewrite Forall_forall in Hf. auto. }
  split; [|split; [|split]].
  - apply forallb_forall. intros e He. apply validate_entry_nil_iff with sd.
    rewrite Forall_forall in Hall. auto.
  - unfold count_level. now rewrite Epil.
  - apply Forall_forall. intros c Hc.
    destruct (title_set_complete _ _ Ets c Hc) as (t & Ht & Hh & _).
    unfold ResultsTable.title_of. rewrite (getitem_field _ _ _ Ht).
    exact Hh.
  - intros s Hs Hlv Htr.
    assert (Hsf : has_fields s = true) by (rewrite Forall_forall in Hf; auto).
    destruct (has_fields_lookup s "parent_topic" Hsf required_parent)
      as [parent Hpar].
    unfold ResultsTable.parent_of in *. rewrite Hpar in *.
    destruct (check_spokes_nil_inv titles _ (Hsub "Spoke") Ecs s parent)
      as [Hh Hex]; [apply filter_In; auto|assumption|assumption|].
    split; [exact Hh|].
    apply existsb_exists in Hex as (t & Ht & Hsame).
    destruct (title_set_inv _ _ Ets) as [_ Hin].
    destruct (Hin t Ht) as (c & Hc & Hg).
    unfold has_cluster. apply existsb_exists. exists c. split; [exact Hc|].
    unfold child_of. rewrite Hlv. cbn [andb].
    unfold ResultsTable.parent_of, ResultsTable.title_of.
    rewrite Hpar, (getitem_field _ _ _ Hg). exact Hsame.
Qed.

End ValidatedMap.

Section HierarchyOfMap.

Variables tee elbow : string.

Lemma accepted_objects (entries : list pyval) :
  forallb accepted_entry entries = true ->
  forallb is_object entries = true.
Proof.
  intros H. apply forallb_forall. intros e He.
  rewrite forallb_forall in H. specialize (H e He).
  unfold accepted_entry in H.
  do 6 (apply andb_prop in H as [H _]).
  destruct (has_fields_dict e H) as [d ->]. reflexivity.
Qed.

(** X25.  The hierarchy view of a validated map.  When
    [validate_topic_map] returns the empty list, no two Clusters bear the
    same title and an empty parent_topic of a Spoke is hashable, the map has
    one Pillar and [render_hierarchy] shows these lines: the line of the
    Pillar; then, for each Cluster in the order of the entries, the line of
    the Cluster and below it the lines of the Spokes whose parent_topic is
    its title.  A Spoke that names the title of a Cluster is shown under
    that Cluster and no other; a Spoke that names no Cluster is shown
    nowhere, and its parent_topic is empty.  So the tree has at most one
    line for each entry, and it shows every entry exactly when every Spoke
    names the title of a Cluster, which is so when no Spoke has an empty
    parent_topic: a Spoke with an empty parent_topic passes the validation
    and is left out of the tree. *)
Theorem validated_map_in_hierarchy (sd : set_display)
  (entries : list pyval) :
  validate_topic_map sd entries = Ok [] ->
  distinct_titles (List.filter (has_level "Cluster") entries) = true ->
  (forall s, In s entries -> has_level "Spoke" s = true ->
     Py.truthy (ResultsTable.parent_of s) = false ->
     Py.hashable (ResultsTable.parent_of s) = true) ->
  exists lines,
    ResultsTable.render_hierarchy tee elbow entries = Ok (Some lines)
    /\ (List.length lines <= List.length entries)%nat
    /\ (List.length lines = List.length entries
        <-> forall s, In s entries -> has_level "Spoke" s = true ->
                      has_cluster entries s = true)
    /\ ((forall s, In s entries -> has_level "Spoke" s = true ->
           Py.truthy (ResultsTable.parent_of s) = true) ->
        List.length lines = List.length entries)
    /\ (exists pillar,
          List.filter (has_level "Pillar") entries = [pillar]
          /\ lines
             = ResultsTable.pillar_line pillar
               :: List.concat
                    (ResultsTable.map_last
                       (fun last_cluster c =>
                          ResultsTable.cluster_line
                            (if last_cluster then elbow else tee) c
                          :: ResultsTable.map_last
                               (fun last_spoke s =>
                                  ResultsTable.child_line
                                    (if last_spoke then elbow else tee) s)
                               (ResultsTable.children c entries))
                       (List.filter (has_level "Cluster") entries)))
    /\ (forall c s,
          In s (ResultsTable.children c entries)
          <-> In s entries /\ has_level "Spoke" s = true
              /\ Py.same (ResultsTable.parent_of s) (ResultsTable.title_of c)
                 = true)
    /\ (forall s, In s entries -> has_level "Spoke" s = true ->
          (has_cluster entries s = true ->
           exists c,
             List.filter
               (fun c => Py.same (ResultsTable.parent_of s)
                           (ResultsTable.title_of c))
               (List.filter (has_level "Cluster") entries) = [c])
          /\ (has_cluster entries s = false ->
              Py.truthy (ResultsTable.parent_of s) = false
              /\ forall c, In c entries -> has_level "Cluster" c = true ->
                   ~ In s (ResultsTable.children c entries))).
Proof.
  intros Hv Hd Hempty.
  destruct (validated_map_hierarchy sd entries Hv)
    as (Hacc & Hpil & Hct & Htruthy).
  assert (Hsp : forall s, In s entries -> has_level "Spoke" s = true ->
                  Py.hashable (ResultsTable.parent_of s) = true).
  { intros s Hs Hl.
    destruct (Py.truthy (ResultsTable.parent_of s)) eqn:Et.
    - now apply Htruthy.
    - now apply Hempty. }
  assert (Hsp' : Forall (fun s => Py.hashable (ResultsTable.parent_of s) = true)
                   (List.filter (has_level "Spoke") entries)).
  { apply Forall_forall. intros s Hs. apply filter_In in Hs as [Hs Hl].
    now apply Hsp. }
  pose proof (hierarchy_tree tee elbow entries (accepted_objects _ Hacc)
                Hsp' Hct) as Htree.
  pose proof (tree_lines_size tee elbow entries) as Hsize.
  unfold ResultsTable.tree_lines in Htree, Hsize.
  unfold count_level in Hpil.
  destruct (List.filter (has_level "Pillar") entries) as [|pillar [|p2 ps]]
    eqn:Epil; try discriminate Hpil.
  destruct Hsize as [_ Hlen].
  eexists. split; [exact Htree|].
  rewrite Hlen, tree_size_pairs.
  pose proof (level_counts_accepted entries Hacc) as Htotal.
  unfold count_level at 1 in Htotal. rewrite Epil in Htotal.
  cbn [List.length] in Htotal.
  set (n := fun s => List.length
                       (List.filter (child_of s)
                          (List.filter (has_level "Cluster") entries))).
  set (ind := fun s => if has_level "Spoke" s then 1%nat else 0%nat).
  assert (Hind : total_of ind entries = count_level "Spoke" entries).
  { unfold ind, count_level. apply total_of_indicator. }
  assert (Hentry : forall s, In s entries ->
            (n s <= ind s)%nat
            /\ (n s = ind s
                <-> (has_level "Spoke" s = true ->
                     has_cluster entries s = true))).
  { intros s Hs. apply lines_of_entry; [exact Hct|exact Hd|].
    intros Hl. now apply Hsp. }
  destruct (total_of_bounded n ind entries) as [Hle Heq].
  { intros s Hs. apply (Hentry s Hs). }
  assert (Hiff : S (count_level "Cluster" entries + total_of n entries)
                 = List.length entries
                 <-> forall s, In s entries -> has_level "Spoke" s = true ->
                               has_cluster entries s = true).
  { split.
    - intros E s Hs Hl. apply (proj2 (Hentry s Hs)); [|exact Hl].
      apply Heq; [lia|exact Hs].
    - intros H.
      assert (E : total_of n entries = total_of ind entries).
      { apply Heq. intros s Hs. apply (proj2 (Hentry s Hs)). now apply H. }
      lia. }
  split; [lia|]. split; [exact Hiff|].
  split; [intros Hall; apply Hiff; intros s Hs Hl; apply Htruthy; auto|].
  split; [exists pillar; split; reflexivity|].
  split; [intros c s; apply children_spec|].
  intros s Hs Hl. split.
  - intros Hc.
    destruct (Hentry s Hs) as [_ Hn].
    apply proj2 in Hn. specialize (Hn (fun _ => Hc)).
    unfold n, ind in Hn. rewrite Hl in Hn.
    assert (Hf : List.filter (child_of s)
                   (List.filter (has_level "Cluster") entries)
                 = List.filter
                     (fun c => Py.same (ResultsTable.parent_of s)
                                 (ResultsTable.title_of c))
                     (List.filter (has_level "Cluster") entries)).
    { apply filter_ext. intros c. unfold child_of. now rewrite Hl. }
    rewrite Hf in Hn.
    destruct (List.filter _ (List.filter (has_level "Cluster") entries))
      as [|c [|c2 cs]]; try discriminate Hn.
    now exists c.
  - intros Hc. split.
    + destruct (Py.truthy (ResultsTable.parent_of s)) eqn:Et; [|reflexivity].
      destruct (Htruthy s Hs Hl Et) as [_ Hhas]. congruence.
    + intros c Hin Hlc Hchild.
      apply children_spec in Hchild as (_ & _ & Hsame).
      unfold has_cluster in Hc.
      assert (Hex : existsb (child_of s)
                      (List.filter (has_level "Cluster") entries) = true).
      { apply existsb_exists. exists c. split; [apply filter_In; auto|].
        unfold child_of. now rewrite Hl, Hsame. }
      congruence.
Qed.

End HierarchyOfMap.

Lemma validated_map_in_hierarchy_witness :
  validate_topic_map source_order orphan_map = Ok []
  /\ exists lines,
       ResultsTable.render_hierarchy "|--" "`--" orphan_map = Ok (Some lines)
       /\ (List.length lines < List.length orphan_map)%nat.
Proof.
  split; [reflexivity|].
  destruct (validated_map_in_hierarchy "|--" "`--" source_order orphan_map)
    as (lines & Hr & Hle & Hiff & _).
  - reflexivity.
  - reflexivity.
  - intros s [<-|[<-|[<-|[]]]]; intros Hl Ht;
      try discriminate Hl; reflexivity.
  - exists lines. split; [exact Hr|].
    destruct (Nat.eq_dec (List.length lines) (List.length orphan_map))
      as [E|E]; [exfalso|lia].
    pose proof (proj1 Hiff E _ (or_intror (or_intror (or_introl eq_refl)))
                  eq_refl) as Hc.
    discriminate Hc.
Defined.

(** ** A parent_topic that cannot be hashed *)

Lemma group_spokes_unhashable (s : pyval) (spokes : list pyval) :
  forallb is_object spokes = true ->
  In s spokes ->
  Py.hashable (ResultsTable.parent_of s) = false ->
  forall groups,
    ResultsTable.group_spokes spokes groups
    = Raise (TypeError "unhashable type").
Proof.
  induction spokes as [|s0 rest IH]; intros Hobj Hin Hs groups;
    [destruct Hin|].
  cbn [forallb] in Hobj. apply andb_prop in Hobj as [H0 Hobj].
  destruct s0 as [| | | | | |d]; try discriminate H0.
  cbn [ResultsTable.group_spokes]. rewrite get_object. cbn [rbind Ok].
  fold (ResultsTable.parent_of (PDict d)).
  destruct (Py.hashable (ResultsTable.parent_of (PDict d))) eqn:Eh;
    [|reflexivity].
  destruct Hin as [<-|Hin]; [rewrite Eh in Hs; discriminate Hs|].
  apply IH; assumption.
Qed.

Section UnhashableParent.

Variables tee elbow : string.

(** X26.  [render_hierarchy] files every Spoke under its parent_topic in a
    dict, so on a list of objects with a Pillar it raises [TypeError] as
    soon as one Spoke has a list or a dict as parent_topic.  An empty list
    there passes [validate_topic_map], which looks at a parent_topic only
    when it is not empty. *)
Theorem unhashable_parent_breaks_hierarchy (entries : list pyval)
  (s : pyval) :
  forallb is_object entries = true ->
  count_level "Pillar" entries <> 0%nat ->
  In s entries ->
  has_level "Spoke" s = true ->
  Py.hashable (ResultsTable.parent_of s) = false ->
  ResultsTable.render_hierarchy tee elbow entries
  = Raise (TypeError "unhashable type").
Proof.
  intros Hobj Hpil Hs Hl Hh. unfold ResultsTable.render_hierarchy.
  rewrite (first_pillar_objects entries Hobj). cbn [rbind Ok].
  unfold count_level in Hpil.
  destruct (List.filter (has_level "Pillar") entries) as [|pillar ps] eqn:Ep;
    [now elim Hpil|].
  cbn [List.hd_error].
  assert (Hpin : In pillar entries /\ has_level "Pillar" pillar = true).
  { apply filter_In. rewrite Ep. now left. }
  destruct Hpin as [Hpin Hplv].
  pose proof Hobj as Hobj'. rewrite forallb_forall in Hobj'.
  pose proof (Hobj' pillar Hpin) as Hpo.
  destruct pillar as [| | | | | |pd]; try discriminate Hpo.
  assert (Hpt : Py.truthy (PDict pd) = true).
  { destruct pd; [discriminate Hplv|reflexivity]. }
  rewrite Hpt. rewrite !(of_level_objects _ _ Hobj). cbn [rbind Ok].
  rewrite (group_spokes_unhashable s).
  - reflexivity.
  - apply forallb_forall. intros e He. apply filter_In in He as [He _]. auto.
  - apply filter_In. split; assumption.
  - exact Hh.
Qed.

End UnhashableParent.

Lemma unhashable_parent_breaks_hierarchy_witness :
  validate_topic_map source_order list_parent_map = Ok []
  /\ ResultsTable.render_hierarchy "|--" "`--" list_parent_map
     = Raise (TypeError "unhashable type").
Proof.
  split; [reflexivity|].
  apply (unhashable_parent_breaks_hierarchy "|--" "`--" list_parent_map
           (sample_entry (PStr "Spoke") (PStr "Editorial calendars")
              (PList []) (PInt 3))).
  - reflexivity.
  - discriminate.
  - right. right. left. reflexivity.
  - reflexivity.
  - reflexivity.
Defined.

(** ** The statistics of a validated map *)

(** ** The order of the intents *)

Lemma same_refl (a : pyval) : Py.hashable a = true -> Py.same a a = true.
Proof.
  intros Ha. unfold Py.same.
  destruct a as [|b|n|[r i]|s| |]; try discriminate Ha;
    cbn [Py.eqb Py.is_nan Py.as_int];
    unfold Py.float_eqb, Py.float_value; cbn [float_repr float_int andb orb];
    rewrite ?Z.eqb_refl, ?String.eqb_refl, ?Bool.eqb_reflx;
    try reflexivity.
  destruct (String.eqb r "nan"); [reflexivity|]. cbn [andb orb negb].
  destruct i; rewrite ?Z.eqb_refl; reflexivity.
Qed.

(** Two keys that are the same key are ordered with the same keys. *)
Lemma orderable_same (a a' b : pyval) :
  Py.hashable a = true -> Py.hashable a' = true ->
  Py.same a a' = true ->
  ResultsTable.orderable_with a b = ResultsTable.orderable_with a' b.
Proof.
  intros Ha Ha'. unfold Py.same.
  destruct a as [| | |[ra ia]| | |], a' as [| | |[rb ib]| | |];
    try discriminate Ha; try discriminate Ha';
    try (intros _; destruct b; reflexivity);
    cbn [Py.eqb Py.is_nan Py.as_int];
    unfold Py.float_eqb, Py.float_value; cbn [float_repr float_int andb orb];
    try (intros H; discriminate H);
    repeat match goal with
           | |- context [String.eqb ?x "nan"] =>
               destruct (String.eqb x "nan") eqn:?
           | |- context [match ?i with Some _ => _ | None => _ end] =>
               destruct i
           end;
    cbn [andb orb negb]; intros H; discriminate H.
Qed.

Lemma orderable_sym (a b : pyval) :
  ResultsTable.orderable_with a b = ResultsTable.orderable_with b a.
Proof. destruct a, b; reflexivity. Qed.

Lemma orderable_trans (k a b : pyval) :
  ResultsTable.orderable_with k a = true ->
  ResultsTable.orderable_with k b = true ->
  ResultsTable.orderable_with a b = true.
Proof.
  destruct k, a, b; cbn [ResultsTable.orderable_with];
    intros H1 H2; try discriminate H1; try discriminate H2; reflexivity.
Qed.

(** The keys of the dict of the intents. *)
Lemma bump_keys (P : pyval -> Prop) (key : pyval)
  (counts : list (pyval * nat)) :
  P key -> Forall (fun kn => P (fst kn)) counts ->
  Forall (fun kn => P (fst kn)) (ResultsTable.bump key counts).
Proof.
  intros Hk. induction 1 as [|[k n] rest Hkn Hrest IH].
  - cbn [ResultsTable.bump]. constructor; [exact Hk|constructor].
  - cbn [ResultsTable.bump]. destruct (Py.same k key).
    + constructor; [exact Hkn|exact Hrest].
    + constructor; [exact Hkn|exact IH].
Qed.

Lemma bump_keeps (key : pyval) (counts : list (pyval * nat))
  (kn : pyval * nat) :
  In kn counts ->
  exists n, In (fst kn, n) (ResultsTable.bump key counts).
Proof.
  induction counts as [|[k m] rest IH]; intros Hin; [destruct Hin|].
  cbn [ResultsTable.bump]. destruct Hin as [<-|Hin].
  - cbn [fst]. destruct (Py.same k key); eexists; left; reflexivity.
  - destruct (Py.same k key).
    + exists (snd kn). right. now destruct kn.
    + destruct (IH Hin) as [n Hn]. exists n. now right.
Qed.

Lemma bump_has (key : pyval) (counts : list (pyval * nat)) :
  Py.hashable key = true ->
  exists kn, In kn (ResultsTable.bump key counts)
             /\ Py.same (fst kn) key = true.
Proof.
  intros Hk. induction counts as [|[k m] rest IH].
  - exists (key, 1%nat). split; [now left|]. now apply same_refl.
  - cbn [ResultsTable.bump]. destruct (Py.same k key) eqn:E.
    + exists (k, S m). split; [now left|exact E].
    + destruct IH as (kn & Hin & Hs). exists kn. split; [now right|exact Hs].
Qed.

Lemma intent_counts_keys (P : pyval -> Prop) (entries : list pyval) :
  forallb is_object entries = true ->
  (forall e, In e entries -> P (ResultsTable.intent_of e)) ->
  forall counts result,
    Forall (fun kn => P (fst kn)) counts ->
    ResultsTable.intent_counts entries counts = Ok result ->
    Forall (fun kn => P (fst kn)) result.
Proof.
  induction entries as [|e rest IH]; intros Hobj HP counts result Hc Hr.
  - cbn in Hr. unfold Ok in Hr. injection Hr as <-. exact Hc.
  - cbn [forallb] in Hobj. apply andb_prop in Hobj as [He Hobj].
    destruct e as [| | | | | |d]; try discriminate He.
    cbn [ResultsTable.intent_counts] in Hr. rewrite get_object in Hr.
    cbn [rbind Ok] in Hr.
    change (match field "user_intent" (PDict d) with
            | Some v => v
            | None => PStr "Unknown"
            end) with (ResultsTable.intent_of (PDict d)) in Hr.
    destruct (Py.hashable (ResultsTable.intent_of (PDict d)));
      [|discriminate Hr].
    apply (IH Hobj (fun e' H => HP e' (or_intror H)) _ _
             (bump_keys P _ counts (HP _ (or_introl eq_refl)) Hc) Hr).
Qed.

(** When the loop ends, every intent was hashed, a key that was there is
    there, and the intent of every entry is a key. *)
Lemma intent_counts_covers (entries : list pyval) :
  forallb is_object entries = true ->
  forall counts result,
    ResultsTable.intent_counts entries counts = Ok result ->
    (forall e, In e entries ->
       Py.hashable (ResultsTable.intent_of e) = true)
    /\ (forall kn, In kn counts -> exists n, In (fst kn, n) result)
    /\ (forall e, In e entries ->
          exists kn, In kn result
                     /\ Py.same (fst kn) (ResultsTable.intent_of e) = true).
Proof.
  induction entries as [|e rest IH]; intros Hobj counts result Hr.
  - cbn in Hr. unfold Ok in Hr. injection Hr as <-.
    split; [intros e []|]. split; [|intros e []].
    intros [k n] Hin. exists n. exact Hin.
  - cbn [forallb] in Hobj. apply andb_prop in Hobj as [He Hobj].
    destruct e as [| | | | | |d]; try discriminate He.
    cbn [ResultsTable.intent_counts] in Hr. rewrite get_object in Hr.
    cbn [rbind Ok] in Hr.
    change (match field "user_intent" (PDict d) with
            | Some v => v
            | None => PStr "Unknown"
            end) with (ResultsTable.intent_of (PDict d)) in Hr.
    destruct (Py.hashable (ResultsTable.intent_of (PDict d))) eqn:Eh;
      [|discriminate Hr].
    destruct (IH Hobj _ _ Hr) as (Hhash & Hkeep & Hcover).
    split; [|split].
    + intros e [<-|Hin]; [exact Eh|now apply Hhash].
    + intros kn Hin.
      destruct (bump_keeps (ResultsTable.intent_of (PDict d)) counts kn Hin)
        as [n Hn].
      destruct (Hkeep _ Hn) as [n' Hn']. exists n'. exact Hn'.
    + intros e [<-|Hin]; [|now apply Hcover].
      destruct (bump_has (ResultsTable.intent_of (PDict d)) counts Eh)
        as (kn & Hkn & Hs).
      destruct (Hkeep _ Hkn) as [n' Hn'].
      exists (fst kn, n'). split; [exact Hn'|exact Hs].
Qed.

(** The intents cannot be sorted when two of them are different keys that
    are not ordered
    with one another. *)
Lemma unorderable_items (entries : list pyval)
  (result : list (pyval * nat)) (e1 e2 : pyval) :
  forallb is_object entries = true ->
  ResultsTable.intent_counts entries [] = Ok result ->
  In e1 entries -> In e2 entries ->
  Py.same (ResultsTable.intent_of e1) (ResultsTable.intent_of e2) = false ->
  ResultsTable.orderable_with (ResultsTable.intent_of e1)
    (ResultsTable.intent_of e2) = false ->
  result <> [] /\ ResultsTable.items_sortable result = false.
Proof.
  intros Hobj Hr H1 H2 Hsame Hord.
  destruct (intent_counts_covers entries Hobj [] result Hr)
    as (Hhash & _ & Hcover).
  pose proof (intent_counts_keys (fun k => Py.hashable k = true)
                entries Hobj Hhash [] result (Forall_nil _) Hr) as Hkeys.
  rewrite Forall_forall in Hkeys.
  destruct (Hcover e1 H1) as (kn1 & Hin1 & Hs1).
  destruct (Hcover e2 H2) as (kn2 & Hin2 & Hs2).
  pose proof (Hhash e1 H1) as Hh1. pose proof (Hhash e2 H2) as Hh2.
  pose proof (Hkeys kn1 Hin1) as Hk1. pose proof (Hkeys kn2 Hin2) as Hk2.
  set (i1 := ResultsTable.intent_of e1) in *.
  set (i2 := ResultsTable.intent_of e2) in *.
  assert (Hbetween : ResultsTable.orderable_with (fst kn1) (fst kn2)
                     = false).
  { rewrite (orderable_same _ i1 _ Hk1 Hh1 Hs1).
    rewrite (orderable_sym i1), (orderable_same _ i2 _ Hk2 Hh2 Hs2).
    rewrite orderable_sym. exact Hord. }
  destruct result as [|[k0 n0] rest]; [destruct Hin1|].
  split; [discriminate|].
  cbn [ResultsTable.items_sortable].
  destruct (forallb (fun kn => ResultsTable.orderable_with k0 (fst kn)) rest)
    eqn:Eall; [exfalso|reflexivity].
  rewrite forallb_forall in Eall.
  destruct Hin1 as [<-|Hin1], Hin2 as [<-|Hin2]; cbn [fst] in *.
  - assert (E : Py.same i1 i2 = true).
    { apply (same_trans i1 k0 i2 Hh1 Hk1 Hh2); [|exact Hs2].
      rewrite same_sym; assumption. }
    congruence.
  - rewrite (Eall kn2 Hin2) in Hbetween. discriminate Hbetween.
  - rewrite orderable_sym, (Eall kn1 Hin1) in Hbetween.
    discriminate Hbetween.
  - rewrite (orderable_trans k0 _ _ (Eall kn1 Hin1) (Eall kn2 Hin2))
      in Hbetween.
    discriminate Hbetween.
Qed.

(** Keys that are texts can be sorted. *)
Lemma text_keys_sortable (counts : list (pyval * nat)) :
  ResultsTable.text_keys counts = true ->
  ResultsTable.items_sortable counts = true.
Proof.
  unfold ResultsTable.text_keys.
  destruct counts as [|[k0 n0] rest]; [reflexivity|].
  cbn [forallb fst ResultsTable.items_sortable]. intros H.
  apply andb_prop in H as [H0 Hrest].
  destruct k0; try discriminate H0.
  rewrite forallb_forall in Hrest. apply forallb_forall. intros kn Hkn.
  specialize (Hrest kn Hkn). destruct (fst kn); try discriminate Hrest.
  reflexivity.
Qed.

Lemma text_keys_of (counts : list (pyval * nat)) :
  Forall (fun kn => exists x, fst kn = PStr x) counts ->
  ResultsTable.text_keys counts = true.
Proof.
  intros H. apply forallb_forall. intros kn Hkn.
  rewrite Forall_forall in H. destruct (H kn Hkn) as [x ->]. reflexivity.
Qed.

Lemma valid_intents_text (counts : list (pyval * nat)) :
  Forall valid_intent_count counts ->
  ResultsTable.text_keys counts = true.
Proof.
  intros H. apply text_keys_of. eapply Forall_impl; [|exact H].
  intros kn [(x & Hx & _) _]. now exists x.
Qed.

(** [render_statistics] from the numbers. *)
Lemma render_statistics_of (entries : list pyval)
  (s : ResultsTable.statistics) :
  ResultsTable.count_statistics entries = Ok s ->
  ResultsTable.intents s <> [] ->
  ResultsTable.render_statistics entries
  = if ResultsTable.items_sortable (ResultsTable.intents s)
    then if ResultsTable.text_keys (ResultsTable.intents s) then Ok s
         else Raise OutsideModel
    else Raise (TypeError "'<' not supported between instances").
Proof.
  intros Hs Hne. unfold ResultsTable.render_statistics. rewrite Hs.
  unfold Ok at 1. cbn [rbind].
  destruct (ResultsTable.intents s); [now elim Hne|reflexivity].
Qed.

Lemma counted_nonempty (counts : list (pyval * nat)) :
  (1 <= ResultsTable.counted counts)%nat -> counts <> [].
Proof. intros H E. subst. cbn in H. lia. Qed.

Lemma bump_valid (key : pyval) (counts : list (pyval * nat)) :
  (exists x, key = PStr x /\ In x VALID_INTENTS) ->
  Forall valid_intent_count counts ->
  Forall valid_intent_count (ResultsTable.bump key counts).
Proof.
  intros Hk. induction 1 as [|[k n] rest [Hkn Hn] Hrest IH].
  - cbn [ResultsTable.bump]. constructor; [|constructor].
    split; [exact Hk|apply Nat.le_refl].
  - cbn [ResultsTable.bump]. destruct (Py.same k key).
    + constructor; [|exact Hrest]. split; [exact Hkn|cbn [snd]; lia].
    + constructor; [split; assumption|exact IH].
Qed.

Lemma accepted_intent (e : pyval) :
  accepted_entry e = true ->
  exists x, field "user_intent" e = Some (PStr x) /\ In x VALID_INTENTS.
Proof.
  intros H. unfold accepted_entry in H.
  do 4 (apply andb_prop in H as [H _]). apply andb_prop in H as [_ H].
  destruct (text_in_inv _ _ H) as (x & Hx & Hin).
  exists x. split; [exact Hx|].
  apply existsb_exists in Hin as (y & Hy & E).
  apply String.eqb_eq in E. now subst.
Qed.

Lemma intent_counts_valid (entries : list pyval) :
  forallb accepted_entry entries = true ->
  forall counts result,
    Forall valid_intent_count counts ->
    ResultsTable.intent_counts entries counts = Ok result ->
    Forall valid_intent_count result.
Proof.
  induction entries as [|e rest IH]; intros Hacc counts result Hc Hr.
  - cbn in Hr. unfold Ok in Hr. injection Hr as <-. exact Hc.
  - cbn [forallb] in Hacc. apply andb_prop in Hacc as [He Hacc].
    destruct (accepted_intent e He) as (x & Hx & Hin).
    destruct e as [| | | | | |d]; try discriminate Hx.
    cbn [ResultsTable.intent_counts] in Hr. rewrite get_object in Hr.
    rewrite Hx in Hr. cbn [rbind Ok Py.hashable] in Hr.
    apply (IH Hacc _ _ (bump_valid (PStr x) counts
                          (ex_intro _ x (conj eq_refl Hin)) Hc) Hr).
Qed.

(** X27.  On a map that [validate_topic_map] accepts, [render_statistics]
    computes its numbers without raising: one Pillar; Pillar, Clusters and
    Spokes sum to the total, the number of entries; the counts of the
    intents sum to the total as well, and every intent counted is one of
    the four valid intents, met at least once. *)
Theorem validated_map_statistics (sd : set_display) (entries : list pyval) :
  validate_topic_map sd entries = Ok [] ->
  exists s,
    ResultsTable.render_statistics entries = Ok s
    /\ ResultsTable.total s = List.length entries
    /\ ResultsTable.pillars s = 1%nat
    /\ (ResultsTable.pillars s + ResultsTable.clusters s
        + ResultsTable.spokes s = ResultsTable.total s)%nat
    /\ ResultsTable.counted (ResultsTable.intents s) = ResultsTable.total s
    /\ Forall valid_intent_count (ResultsTable.intents s).
Proof.
  intros Hv.
  destruct (validated_map_hierarchy sd entries Hv) as (Hacc & Hpil & _).
  pose proof (accepted_objects entries Hacc) as Hobj.
  destruct (intent_counts_total entries [] Hobj) as (result & Hr & Hc).
  { intros e i He Hi. rewrite forallb_forall in Hacc.
    destruct (accepted_intent e (Hacc e He)) as (x & Hx & _).
    rewrite Hx in Hi. injection Hi as <-. reflexivity. }
  pose proof (intent_counts_valid entries Hacc [] result (Forall_nil _) Hr)
    as Hvalid.
  pose proof (level_counts_accepted entries Hacc) as Hsum.
  set (s := {| ResultsTable.total := List.length entries;
               ResultsTable.pillars := count_level "Pillar" entries;
               ResultsTable.clusters := count_level "Cluster" entries;
               ResultsTable.spokes := count_level "Spoke" entries;
               ResultsTable.intents := result |}).
  assert (Hs : ResultsTable.count_statistics entries = Ok s).
  { unfold ResultsTable.count_statistics.
    rewrite !(level_count_objects _ _ Hobj). cbn [rbind Ok].
    rewrite Hr. reflexivity. }
  exists s. split.
  - rewrite (render_statistics_of entries s Hs).
    + cbn [ResultsTable.intents s].
      rewrite (text_keys_sortable result (valid_intents_text result Hvalid)).
      now rewrite (valid_intents_text result Hvalid).
    + cbn [ResultsTable.intents s]. apply counted_nonempty.
      rewrite Hc. cbn. lia.
  - cbn [ResultsTable.total ResultsTable.pillars ResultsTable.clusters
           ResultsTable.spokes ResultsTable.intents s].
    split; [reflexivity|]. split; [exact Hpil|].
    split; [exact Hsum|]. split; [rewrite Hc; reflexivity|exact Hvalid].
Qed.

Lemma validated_map_statistics_witness :
  exists s,
    ResultsTable.render_statistics sample_map = Ok s
    /\ ResultsTable.pillars s = 1%nat
    /\ ResultsTable.intents s = [(PStr "Informational", 3%nat)].
Proof.
  destruct (validated_map_statistics source_order sample_map)
    as (s & Hs & _ & Hp & _).
  - reflexivity.
  - exists s. split; [exact Hs|]. split; [exact Hp|].
    cbv in Hs. unfold Ok in Hs. injection Hs as <-. reflexivity.
Defined.

(** ** The statistics of a returned map *)

(** When [validate_entry] returns, the user_intent of a complete entry was
    hashed. *)
Lemma validate_entry_hashed (sd : set_display) (e : pyval)
  (errs : list string) (i : pyval) :
  validate_entry sd e = Ok errs ->
  has_fields e = true ->
  field "user_intent" e = Some i ->
  Py.hashable i = true.
Proof.
  intros Hv Hf Hi.
  destruct (has_fields_dict e Hf) as [d ->].
  destruct (has_fields_lookup _ _ Hf required_level) as [level Hl].
  destruct (has_fields_lookup _ _ Hf required_score) as [score Hs].
  destruct (has_fields_lookup _ _ Hf required_entities) as [entities He].
  destruct (has_fields_lookup _ _ Hf required_paa) as [paa Hp].
  destruct (has_fields_lookup _ _ Hf required_citations) as [citations Hc].
  cbn [field] in *.
  rewrite (validate_entry_complete sd d level i score entities paa citations
             Hf Hl Hi Hs He Hp Hc) in Hv.
  unfold complete_entry_checks in Hv.
  destruct (Py.in_str_set level VALID_LEVELS) as [x|level_ok];
    [discriminate Hv|]. cbn [rbind] in Hv.
  unfold Py.in_str_set in Hv.
  destruct (Py.hashable i); [reflexivity|discriminate Hv].
Qed.

Lemma validate_entries_each (sd : set_display) (entries : list pyval) :
  forall i errors,
    validate_entries sd i entries = Ok errors ->
    Forall (fun e => exists errs, validate_entry sd e = Ok errs) entries.
Proof.
  induction entries as [|e rest IH]; intros i errors H; [constructor|].
  cbn [validate_entries] in H.
  destruct (validate_entry sd e) as [x|errs] eqn:Ee; [discriminate H|].
  cbn [rbind] in H.
  destruct (prefix_errors i e errs) as [x|msgs]; [discriminate H|].
  cbn [rbind] in H.
  destruct (validate_entries sd (S i) rest) as [x|more] eqn:Er;
    [discriminate H|].
  constructor; [eauto|]. exact (IH (S i) more Er).
Qed.

(** A map is returned after [validate_topic_map] returned, with no
    critical error. *)
Lemma generate_returns_validated (env : environment)
  (topic scope industry audience geo_focus competitors existing_content
     compiled_research : string) (t t' : trace) (entries : list pyval) :
  generate_topic_map env topic scope industry audience geo_focus competitors
    existing_content compiled_research t = (Ok entries, t') ->
  exists errors,
    validate_topic_map (display env) entries = Ok errors
    /\ List.filter is_critical errors = [].
Proof.
  rewrite generate_topic_map_split. unfold bind.
  destruct (obtain_entries env topic scope industry audience geo_focus
              competitors existing_content compiled_research t)
    as [[x|es] t1]; [discriminate|].
  unfold validate_and_return. destruct es as [|e es]; [discriminate|].
  unfold bind, lift.
  destruct (validate_topic_map (display env) (e :: es)) as [x|errors] eqn:Ev;
    [discriminate|].
  destruct (List.filter is_critical errors) as [|c cs] eqn:Ef;
    [|discriminate].
  unfold ret, Ok. intros [= <- <-]. exists errors. split; [exact Ev|exact Ef].
Qed.

(** X28.  [render_statistics] on a topic map that [generate_topic_map]
    returns.  The loops that count end: the total is the number of entries,
    the counts of the intents sum to it, and Pillars, Clusters and Spokes
    are no more than it together.  Whether these numbers are shown depends
    on the user_intent of the entries, which the validation reports and
    lets through.  When every user_intent is a text, the numbers are shown.
    When two of them are different keys that are not ordered with one
    another, a text and [None] for one, [sorted] raises [TypeError] and
    nothing of the intents is shown. *)
Theorem returned_map_statistics (env : environment)
  (topic scope industry audience geo_focus competitors existing_content
     compiled_research : string) (t t' : trace) (entries : list pyval) :
  generate_topic_map env topic scope industry audience geo_focus competitors
    existing_content compiled_research t = (Ok entries, t') ->
  exists s,
    ResultsTable.count_statistics entries = Ok s
    /\ ResultsTable.total s = List.length entries
    /\ (1 <= ResultsTable.total s)%nat
    /\ ResultsTable.counted (ResultsTable.intents s) = ResultsTable.total s
    /\ (ResultsTable.pillars s + ResultsTable.clusters s
        + ResultsTable.spokes s <= ResultsTable.total s)%nat
    /\ ((forall e, In e entries -> exists x,
           ResultsTable.intent_of e = PStr x) ->
        ResultsTable.render_statistics entries = Ok s)
    /\ (forall e1 e2, In e1 entries -> In e2 entries ->
          Py.same (ResultsTable.intent_of e1) (ResultsTable.intent_of e2)
          = false ->
          ResultsTable.orderable_with (ResultsTable.intent_of e1)
            (ResultsTable.intent_of e2) = false ->
          ResultsTable.render_statistics entries
          = Raise (TypeError "'<' not supported between instances")).
Proof.
  intros H.
  destruct (generate_returns_complete _ _ _ _ _ _ _ _ _ _ _ _ H)
    as (Hne & Hf & _).
  destruct (generate_returns_validated _ _ _ _ _ _ _ _ _ _ _ _ H)
    as (errors & Hv & _).
  assert (Hobj : forallb is_object entries = true).
  { apply forallb_forall. intros e He. rewrite Forall_forall in Hf.
    destruct (has_fields_dict e (Hf e He)) as [d ->]. reflexivity. }
  assert (Heach : Forall (fun e => exists errs,
                            validate_entry (display env) e = Ok errs)
                    entries).
  { unfold validate_topic_map in Hv.
    destruct (validate_entries (display env) 0 entries) as [x|errs] eqn:Ee;
      [discriminate Hv|].
    exact (validate_entries_each _ _ _ _ Ee). }
  destruct (intent_counts_total entries [] Hobj) as (result & Hr & Hc).
  { intros e i He Hi. rewrite Forall_forall in Hf, Heach.
    destruct (Heach e He) as [errs Herrs].
    exact (validate_entry_hashed _ _ _ _ Herrs (Hf e He) Hi). }
  set (s := {| ResultsTable.total := List.length entries;
               ResultsTable.pillars := count_level "Pillar" entries;
               ResultsTable.clusters := count_level "Cluster" entries;
               ResultsTable.spokes := count_level "Spoke" entries;
               ResultsTable.intents := result |}).
  assert (Hs : ResultsTable.count_statistics entries = Ok s).
  { unfold ResultsTable.count_statistics.
    rewrite !(level_count_objects _ _ Hobj). cbn [rbind Ok].
    rewrite Hr. reflexivity. }
  assert (Hlen : (1 <= List.length entries)%nat).
  { destruct entries; [now elim Hne|cbn [List.length]; lia]. }
  assert (Hresult : result <> []).
  { apply counted_nonempty. rewrite Hc. cbn. lia. }
  pose proof (render_statistics_of entries s Hs Hresult) as Hrender.
  cbn [ResultsTable.intents s] in Hrender.
  exists s. split; [exact Hs|].
  cbn [ResultsTable.total ResultsTable.pillars ResultsTable.clusters
         ResultsTable.spokes ResultsTable.intents s].
  split; [reflexivity|]. split; [exact Hlen|].
  split; [rewrite Hc; reflexivity|].
  split; [apply level_counts_bounded|]. split.
  - intros Htext. rewrite Hrender.
    pose proof (text_keys_of result
                  (intent_counts_keys (fun k => exists x, k = PStr x)
                     entries Hobj Htext [] result (Forall_nil _) Hr))
      as Hkeys.
    now rewrite (text_keys_sortable result Hkeys), Hkeys.
  - intros e1 e2 H1 H2 Hsame Hord. rewrite Hrender.
    destruct (unorderable_items entries result e1 e2 Hobj Hr H1 H2 Hsame Hord)
      as [_ E].
    now rewrite E.
Qed.

(** A returned map whose Spoke has [null] for its user_intent: the numbers
    are computed, and [sorted] raises. *)
Lemma returned_map_statistics_witness :
  ResultsTable.render_statistics null_intent_map
  = Raise (TypeError "'<' not supported between instances")
  /\ exists s,
       ResultsTable.count_statistics null_intent_map = Ok s
       /\ ResultsTable.total s = 3%nat.
Proof.
  destruct (returned_map_statistics
              (sample_env [sample_text_with null_intent_spoke])
              "Content Marketing" SCOPE_FOCUSED "" "" "" "" "" "research"
              [] [sample_request sample_first_prompt] null_intent_map)
    as (s & Hs & Ht & _ & _ & _ & _ & Hraise).
  - vm_compute. reflexivity.
  - split.
    + apply (Hraise sample_pillar null_intent_spoke).
      * left. reflexivity.
      * right. right. left. reflexivity.
      * reflexivity.
      * reflexivity.
    + exists s. split; [exact Hs|exact Ht].
Defined.
